(** * CAN data logger: the real-time logging pipeline

    A shallow embedding of the logging core of the two firmware variants,
    [CAN_Data_Logger_Encoded.ino] (module [Encoded]) and [Lastry.ino]
    (module [Lastry]): the stream cipher, the CSV record encoder, the
    log-file writer with its recovery paths, and the live ring buffer with
    its [/live] query (module [Live], the same code in both variants).

    Conventions.
    - Machine integers are [Z] with the wrap-around written out ([u8],
      [u32]).
    - C arrays are lists read and written through the bounds-checked
      [array_get] and [array_set]; a function that indexes an array is
      [option]-valued and [None] stands for an out-of-bounds access.
    - The SD card is a finite map from paths to byte lists together with
      the outcomes of the fallible operations still to come.
    - The firmware's globals are the fields of a state record that every
      function takes and returns.
    - Serial diagnostics, LED updates, [delay]/[yield], the activity
      bookkeeping ([dataTransferActive], [lastDataReceivedTime]) and the
      flush bookkeeping ([flushCounter], [writeCount], [earlyFlushCount],
      [frameSequence]) have no effect on the modelled card and are left
      out; the JSON text of [/live] is represented by the frames it
      lists. *)

From Stdlib Require Import ZArith Lia List String Ascii Bool.
From stdpp Require Import base option list gmap strings.

Local Open Scope Z_scope.

(** ** Machine integers and C arrays *)

(** [uint32_t] and [uint8_t] results: the value modulo the type's range. *)
Definition u32 (x : Z) : Z := x mod 2 ^ 32.
Definition u8 (x : Z) : Z := x mod 2 ^ 8.

(** A value that fits a [uint8_t]. *)
Definition is_byte (b : Z) : Prop := 0 <= b < 256.

(** [a[i]] and [a[i] = v] with the bounds check the C code leaves to the
    programmer. *)
Definition array_get {A} (a : list A) (i : Z) : option A :=
  if 0 <=? i then a !! Z.to_nat i else None.

Definition array_set {A} (a : list A) (i : Z) (v : A) : option (list A) :=
  if (0 <=? i) && (i <? Z.of_nat (length a))
  then Some (<[Z.to_nat i := v]> a) else None.

(** ** Text formatting (Arduino [String], [sprintf]) *)

Definition bytes_of_string (s : string) : list Z :=
  map (fun c => Z.of_N (N_of_ascii c)) (list_ascii_of_string s).

(** The digit characters of [utoa]/[ultoa]: ['0'..'9'] then ['a'..]. *)
Definition digit_char (d : Z) : ascii :=
  ascii_of_N (Z.to_N (if d <? 10 then 48 + d else 87 + d)).

(** [ultoa(value, buf, base)]: digits from the least significant one,
    until the quotient is zero. Thirty-two rounds cover every 32-bit
    value in every base. *)
Fixpoint ultoa_from (rounds : nat) (value base : Z) (acc : string) : string :=
  let acc' := String (digit_char (value mod base)) acc in
  match rounds with
  | O => acc'
  | S r => if value / base =? 0 then acc' else ultoa_from r (value / base) base acc'
  end.

Definition ultoa (value base : Z) : string := ultoa_from 32 value base "".

Definition DEC : Z := 10.
Definition HEX : Z := 16.

(** [String(value, base)] for the unsigned integer types. *)
Definition String_unsigned (value base : Z) : string := ultoa value base.

(** [String(int)]: signed decimal. *)
Definition String_int (value : Z) : string :=
  if value <? 0 then "-" +:+ ultoa (- value) DEC else ultoa value DEC.

Definition upper_char (c : ascii) : ascii :=
  let n := N_of_ascii c in
  if ((97 <=? n) && (n <=? 122))%N then ascii_of_N (n - 32) else c.

(** [String::toUpperCase]. *)
Fixpoint toUpperCase (s : string) : string :=
  match s with
  | EmptyString => EmptyString
  | String c rest => String (upper_char c) (toUpperCase rest)
  end.

Fixpoint zeros (n : nat) : string :=
  match n with O => "" | S n' => String "0" (zeros n') end.

(** [sprintf("%0<width>d", v)]. *)
Definition sprintf_0d (width : nat) (v : Z) : string :=
  let sign := if v <? 0 then "-" else "" in
  let digits := ultoa (Z.abs v) DEC in
  sign +:+ zeros (width - String.length sign - String.length digits) +:+ digits.

(** [struct tm] as far as the firmware reads it. *)
Record tm := {
  tm_year : Z; tm_mon : Z; tm_mday : Z;
  tm_hour : Z; tm_min : Z; tm_sec : Z
}.

(** [sprintf(timeStr, "%04d-%02d-%02d %02d:%02d:%02d", ...)] *)
Definition format_timeStr (timeinfo : tm) : string :=
  sprintf_0d 4 (tm_year timeinfo + 1900) +:+ "-" +:+
  sprintf_0d 2 (tm_mon timeinfo + 1) +:+ "-" +:+
  sprintf_0d 2 (tm_mday timeinfo) +:+ " " +:+
  sprintf_0d 2 (tm_hour timeinfo) +:+ ":" +:+
  sprintf_0d 2 (tm_min timeinfo) +:+ ":" +:+
  sprintf_0d 2 (tm_sec timeinfo).

(** ** CAN frames *)

(** [struct CanFrame]: [identifier] is a [uint32_t], [data_length_code] a
    [uint8_t], [data] the 8-byte payload array. *)
Module Can.
Record CanFrame := {
  identifier : Z;
  extd : bool;
  rtr : bool;
  data_length_code : Z;
  data : list Z
}.
End Can.
Export Can.

(** A frame as its C type has it: a [uint32_t] identifier, a [uint8_t]
    data length code of any value, and the 8 cells of the payload
    array. *)
Definition frame_ok (frame : CanFrame) : Prop :=
  0 <= identifier frame < 2 ^ 32
  /\ is_byte (data_length_code frame)
  /\ length (data frame) = 8%nat
  /\ Forall is_byte (data frame).

(** ** Notions used to state the properties *)

(** Two uppercase hexadecimal digits. *)
Definition hex_digit (d : Z) : ascii :=
  ascii_of_N (Z.to_N (if d <? 10 then 48 + d else 55 + d)).

Definition hex2 (b : Z) : string :=
  String (hex_digit (b / 16)) (String (hex_digit (b mod 16)) "").

(** The payload as the log line and the live slot hold it: the first
    [min dlc 8] bytes, then zeros up to 8 cells. *)
Definition padded_payload (frame : CanFrame) : list Z :=
  let n := Z.to_nat (Z.min (data_length_code frame) 8) in
  take n (data frame) ++ replicate (8 - n) 0.

(** Comma-led columns. *)
Fixpoint columns (cols : list string) : string :=
  match cols with
  | [] => ""
  | c :: rest => "," +:+ c +:+ columns rest
  end.

(** The ID, flag and DLC columns of a log line. *)
Definition frame_fields (frame : CanFrame) : string :=
  "," +:+ toUpperCase (String_unsigned (identifier frame) HEX) +:+
  "," +:+ (if extd frame then "1" else "0") +:+
  "," +:+ (if rtr frame then "1" else "0") +:+
  "," +:+ String_unsigned (data_length_code frame) DEC.

(** Two frames for the worked examples: the record of the encoding
    example, and a frame whose data length code is out of range. *)
Definition example_frame : CanFrame :=
  {| identifier := 0x123; extd := false; rtr := false;
     data_length_code := 3;
     data := [0xAB; 0xCD; 0xEF; 0; 0; 0; 0; 0] |}.

Definition long_dlc_frame : CanFrame :=
  {| identifier := 0x7FF; extd := false; rtr := false;
     data_length_code := 15;
     data := [0x11; 0x22; 0x33; 0x44; 0x55; 0x66; 0x77; 0x88] |}.

(** One round of the data-column loop of [writeCANMessage], the body of
    [for (int i = 0; i < 8; i++)]; [dlc] is the bound that the caller
    compares [i] with. *)
Definition data_column_step (frame : CanFrame) (dlc : Z)
    (acc : option string) (i : Z) : option string :=
  line ← acc;
  let line := line +:+ "," in
  if i <? dlc then
    b ← array_get (data frame) i;
    let line := if b <? 0x10 then line +:+ "0" else line in
    let dataStr := toUpperCase (String_unsigned b HEX) in
    Some (line +:+ dataStr)
  else Some (line +:+ "00").

(** The eight data columns of [writeCANMessage]. *)
Definition append_data_columns (frame : CanFrame) (dlc : Z) (line : string)
  : option string :=
  foldl (data_column_step frame dlc) (Some line) (seqZ 0 8).

(** ** Stream cipher engine ([resetCipherState], [encryptByte]) *)

(** The static key of the encrypted firmware. *)
Definition ENCRYPTION_KEY : list Z :=
  [0x3A; 0x7C; 0xB5; 0x19;
   0xE4; 0x58; 0xC1; 0x0D;
   0x92; 0xAF; 0x63; 0x27;
   0xFE; 0x34; 0x88; 0x4B].

Module Cipher.
Section WithKey.
(** The key array; [ENCRYPTION_KEY] in the firmware. *)
Variable key : list Z.

(** [key[i]]; the cipher reads the indices 0..15 only. *)
Definition keyAt (i : Z) : Z := nth (Z.to_nat i) key 0.

(** [resetCipherState]: the loop [for (int i = 0; i < 16; i++)] over the
    key indices, starting from [currentFileNonce ^ 0xA5A5A5A5]. *)
Definition resetCipherState (currentFileNonce : Z) : Z :=
  foldl
    (fun currentCipherState i =>
       u32 (currentCipherState * 1664525 + 1013904223 + keyAt i))
    (Z.lxor currentFileNonce 0xA5A5A5A5)
    (seqZ 0 16).

(** [encryptByte]: advances the cipher state; returns the encrypted
    byte and the new state. *)
Definition encryptByte (inputByte : Z) (currentCipherState : Z) : Z * Z :=
  let currentCipherState := u32 (currentCipherState * 1664525 + 1013904223) in
  let keyByte := keyAt (Z.land currentCipherState 0x0F) in
  let streamByte :=
    u8 (Z.lxor (Z.land (Z.shiftr currentCipherState 24) 0xFF) keyByte) in
  (u8 (Z.lxor inputByte streamByte), currentCipherState).

(** The cipher side of the byte loops of [writeEncryptedBuffer] and
    [writeEncryptedLine]: one [encryptByte] call per byte, in order. *)
Fixpoint encryptBytes (bytes : list Z) (st : Z) : list Z * Z :=
  match bytes with
  | [] => ([], st)
  | b :: rest =>
      let '(c, st1) := encryptByte b st in
      let '(cs, st2) := encryptBytes rest st1 in
      (c :: cs, st2)
  end.
End WithKey.

(** The ciphertext of a text line and its terminating newline, with the
    cipher state after it. *)
Definition line_cipher (line : string) (cs : Z) : list Z * Z :=
  encryptBytes ENCRYPTION_KEY (bytes_of_string line ++ [10]) cs.
End Cipher.

(** *** The cipher as the specification words it *)

Module CipherSpec.
(** [initialize(nonce, key)]: over the key bytes in order. *)
Definition initialize (nonce : Z) (key : list Z) : Z :=
  fold_left (fun state k => (state * 1664525 + 1013904223 + k) mod 2 ^ 32)
            key (Z.lxor nonce 0xA5A5A5A5).

(** [next_byte(state)]: the keystream byte and the advanced state. *)
Definition next_byte (key : list Z) (state : Z) : Z * Z :=
  let state' := (state * 1664525 + 1013904223) mod 2 ^ 32 in
  (Z.lxor (Z.shiftr state' 24) (nth (Z.to_nat (Z.land state' 0x0F)) key 0),
   state').

(** The state after [n] calls of [next_byte]. *)
Fixpoint state_after (key : list Z) (state : Z) (n : nat) : Z :=
  match n with
  | O => state
  | S n' => state_after key (snd (next_byte key state)) n'
  end.

(** The [n]-th keystream byte (from 0) of a file with this nonce. *)
Definition keystream_byte (nonce : Z) (key : list Z) (n : nat) : Z :=
  fst (next_byte key (state_after key (initialize nonce key) n)).
End CipherSpec.

(** ** The SD card

    The card and the [File] handles of the Arduino [SD]/[FS] interface, as
    far as the firmware uses them. The library is not part of the
    repository; what an operation does on success is fixed here, and
    whether it succeeds is read from [outcomes]. Flushing is not
    modelled: a byte written is on the card. *)

Module SD.
Record Card := {
  (** the regular files, by path *)
  files : gmap string (list Z);
  (** the directories *)
  dirs : gset string;
  (** the outcome of each fallible operation to come, [true] for
      success; once the list is used up every operation succeeds *)
  outcomes : list bool;
  (** what the platform's [FILE_WRITE] does to an existing file:
      [true] empties it (the C mode "w"), [false] keeps it and appends
      (the mode [O_APPEND] of the classic SD library) *)
  write_truncates : bool
}.

(** An open [File]: its path, its position, and whether every write
    goes to the end of the file. *)
Record File := { path : string; pos : Z; appending : bool }.

Definition set_files (fs : gmap string (list Z)) (c : Card) : Card :=
  {| files := fs; dirs := dirs c; outcomes := outcomes c;
     write_truncates := write_truncates c |}.

Definition set_dirs (ds : gset string) (c : Card) : Card :=
  {| files := files c; dirs := ds; outcomes := outcomes c;
     write_truncates := write_truncates c |}.

(** The outcome of the next fallible operation. *)
Definition next (c : Card) : bool * Card :=
  match outcomes c with
  | [] => (true, c)
  | ok :: rest =>
      (ok, {| files := files c; dirs := dirs c; outcomes := rest;
              write_truncates := write_truncates c |})
  end.

Definition content (p : string) (c : Card) : list Z :=
  default [] (files c !! p).

(** [SD.exists(path)] *)
Definition exists_ (p : string) (c : Card) : bool :=
  bool_decide (is_Some (files c !! p)) || bool_decide (p ∈ dirs c).

(** [SD.mkdir(path)] *)
Definition mkdir (p : string) (c : Card) : bool * Card :=
  let '(ok, c) := next c in
  if ok then (true, set_dirs ({[p]} ∪ dirs c) c) else (false, c).

(** [SD.open(path, FILE_WRITE)]: creates the file when it is missing. *)
Definition open_write (p : string) (c : Card) : option File * Card :=
  let '(ok, c) := next c in
  if ok then
    let kept := if write_truncates c then [] else content p c in
    (Some {| path := p;
             pos := if write_truncates c then 0 else Z.of_nat (length kept);
             appending := negb (write_truncates c) |},
     set_files (<[p := kept]> (files c)) c)
  else (None, c).

(** [SD.open(path, FILE_READ)] *)
Definition open_read (p : string) (c : Card) : option File * Card :=
  let '(ok, c) := next c in
  if ok && bool_decide (is_Some (files c !! p))
  then (Some {| path := p; pos := 0; appending := false |}, c)
  else (None, c).

(** [file.size()] *)
Definition size (f : File) (c : Card) : Z :=
  Z.of_nat (length (content (path f) c)).

(** [file.seek(position)] *)
Definition seek (position : Z) (f : File) : File :=
  {| path := path f; pos := position; appending := appending f |}.

(** The bytes of a file after [bs] is written at offset [at_]. *)
Definition splice (old : list Z) (at_ : Z) (bs : list Z) : list Z :=
  take (Z.to_nat at_) old ++ bs ++ drop (Z.to_nat at_ + length bs) old.

(** [file.write(buf, len)]: the number of bytes written, all or none. *)
Definition write_buf (bs : list Z) (f : File) (c : Card) : Z * File * Card :=
  let '(ok, c) := next c in
  match files c !! path f with
  | Some old =>
      if ok then
        let at_ := if appending f then Z.of_nat (length old) else pos f in
        (Z.of_nat (length bs),
         seek (at_ + Z.of_nat (length bs)) f,
         set_files (<[path f := splice old at_ bs]> (files c)) c)
      else (0, f, c)
  | None => (0, f, c)
  end.

(** [file.write(byte)] *)
Definition write (b : Z) (f : File) (c : Card) : Z * File * Card :=
  write_buf [b] f c.

(** [file.println(line)]: [Print::println] is [print(line)] and then
    [println()], that is one [write] of the line and one [write] of
    ["\r\n"], and returns the number of bytes the two have written. *)
Definition println (line : string) (f : File) (c : Card) : Z * File * Card :=
  let '(n, f, c) := write_buf (bytes_of_string line) f c in
  let '(m, f, c) := write_buf [13; 10] f c in
  (n + m, f, c).
End SD.

(** ** Live ring buffer ([storeLiveFrame], [handleLiveData]) *)

Module Live.
Definition LIVE_BUFFER_SIZE : Z := 200.
Definition LIVE_DEFAULT_LIMIT : Z := 50.

(** [struct LiveFrame] *)
Record LiveFrame := {
  seq : Z;
  unixTime : Z;
  micros : Z;
  timeText : string;
  identifier : Z;
  extended : bool;
  rtr : bool;
  dlc : Z;
  data : list Z
}.

(** The globals [liveFrameBuffer] and [liveFrameCounter]. *)
Record Buffer := {
  liveFrameBuffer : list LiveFrame;
  liveFrameCounter : Z
}.

(** A zero-initialised slot and the buffer at boot. *)
Definition zero_frame : LiveFrame :=
  {| seq := 0; unixTime := 0; micros := 0; timeText := "";
     identifier := 0; extended := false; rtr := false; dlc := 0;
     data := replicate 8 0 |}.

Definition initial : Buffer :=
  {| liveFrameBuffer := replicate (Z.to_nat LIVE_BUFFER_SIZE) zero_frame;
     liveFrameCounter := 0 |}.

(** [formattedTime.toCharArray(slot.timeText, sizeof(slot.timeText))]:
    at most 23 characters fit before the terminator. *)
Definition toCharArray (bufsize : nat) (s : string) : string :=
  String.substring 0 (bufsize - 1) s.

(** The two payload loops of [storeLiveFrame] on the slot's [data]:
    [for (i = 0; i < dlc && i < 8; i++) slot.data[i] = frame.data[i]]
    and [for (i = dlc; i < 8; i++) slot.data[i] = 0]. *)
Definition store_payload (frame : CanFrame) (slot_data : list Z)
  : option (list Z) :=
  let dlc := data_length_code frame in
  d ← foldl (fun acc i =>
               d ← acc;
               b ← array_get (Can.data frame) i;
               array_set d i b)
            (Some slot_data) (seqZ 0 (Z.min dlc 8));
  foldl (fun acc i => d ← acc; array_set d i 0) (Some d) (seqZ dlc (8 - dlc)).

(** [storeLiveFrame] *)
Definition storeLiveFrame (frame : CanFrame) (timestamp micros_ : Z)
    (formattedTime : string) (lb : Buffer) : option Buffer :=
  let nextSeq := u32 (liveFrameCounter lb + 1) in
  let idx := u32 (nextSeq - 1) mod LIVE_BUFFER_SIZE in
  slot ← array_get (liveFrameBuffer lb) idx;
  d ← store_payload frame (data slot);
  let slot :=
    {| seq := nextSeq;
       unixTime := timestamp;
       micros := micros_;
       timeText := toCharArray 24 formattedTime;
       identifier := Can.identifier frame;
       extended := extd frame;
       rtr := Can.rtr frame;
       dlc := data_length_code frame;
       data := d |} in
  buf ← array_set (liveFrameBuffer lb) idx slot;
  Some {| liveFrameBuffer := buf; liveFrameCounter := nextSeq |}.

(** The arguments of one [storeLiveFrame] call. *)
Record Arrival := {
  arr_frame : CanFrame;
  arr_timestamp : Z;
  arr_micros : Z;
  arr_text : string
}.

(** One [storeLiveFrame] per received frame, in order (the receive
    loop). *)
Fixpoint storeAll (arrivals : list Arrival) (lb : Buffer) : option Buffer :=
  match arrivals with
  | [] => Some lb
  | a :: rest =>
      lb ← storeLiveFrame (arr_frame a) (arr_timestamp a) (arr_micros a)
                          (arr_text a) lb;
      storeAll rest lb
  end.

(** Arduino's [constrain(amt, low, high)] macro. *)
Definition constrain (amt low high : Z) : Z :=
  if amt <? low then low else if high <? amt then high else amt.

(** The loop of [handleLiveData],
    [for (seq = startSeq; seq <= liveFrameCounter && added < limit; seq++)],
    over the sequence numbers from [startSeq] to [liveFrameCounter];
    the result lists the frames whose JSON objects are appended. *)
Fixpoint live_loop (buf : list LiveFrame) (limit : Z) (seqs : list Z)
    (added : Z) : option (list LiveFrame) :=
  match seqs with
  | [] => Some []
  | seq_ :: rest =>
      if added <? limit then
        let idx := u32 (seq_ - 1) mod LIVE_BUFFER_SIZE in
        frame ← array_get buf idx;
        if negb (seq frame =? seq_) then live_loop buf limit rest added
        else fs ← live_loop buf limit rest (added + 1); Some (frame :: fs)
      else Some []
  end.

(** The answer of [/live]: the ["latest"] field and the frames, in the
    order of the JSON array. *)
Record Response := { latest : Z; frames : list LiveFrame }.

(** [handleLiveData]. [sinceArg] and [limitArg] are the [toInt()]
    values of the request arguments, [None] when the argument is
    absent; [parse_since] and [parse_limit] are the two blocks that
    read them. With [liveFrameCounter] below [UINT32_MAX] the sequence
    numbers visited are exactly those listed. *)
Definition parse_since (sinceArg : option Z) : Z :=
  match sinceArg with
  | Some a => if 0 <? a then u32 a else 0
  | None => 0
  end.

Definition parse_limit (limitArg : option Z) : Z :=
  match limitArg with
  | Some requested =>
      if 0 <? requested then constrain requested 1 LIVE_BUFFER_SIZE
      else LIVE_DEFAULT_LIMIT
  | None => LIVE_DEFAULT_LIMIT
  end.

Definition handleLiveData (sinceArg limitArg : option Z) (lb : Buffer)
  : option Response :=
  let since := parse_since sinceArg in
  let limit := parse_limit limitArg in
  let counter := liveFrameCounter lb in
  if 0 <? counter then
    let earliestSeq :=
      if LIVE_BUFFER_SIZE <=? counter
      then u32 (counter - LIVE_BUFFER_SIZE + 1) else 1 in
    let startSeq := if 0 <? since then u32 (since + 1) else earliestSeq in
    let startSeq := if startSeq <? earliestSeq then earliestSeq else startSeq in
    let startSeq := if counter <? startSeq then counter else startSeq in
    fs ← live_loop (liveFrameBuffer lb) limit
                   (seqZ startSeq (counter - startSeq + 1)) 0;
    Some {| latest := counter; frames := fs |}
  else Some {| latest := counter; frames := [] |}.

(** *** Notions used to state the properties *)

(** The slot index of a sequence number. *)
Definition slot_of (s : Z) : nat := Z.to_nat ((s - 1) mod LIVE_BUFFER_SIZE).

(** The oldest sequence number still in the buffer. *)
Definition earliest (lb : Buffer) : Z :=
  Z.max 1 (liveFrameCounter lb - LIVE_BUFFER_SIZE + 1).

(** The slot contents that a push with sequence number [s] leaves. *)
Definition stored (frame : CanFrame) (timestamp micros_ : Z)
    (formattedTime : string) (s : Z) : LiveFrame :=
  {| seq := s;
     unixTime := timestamp;
     micros := micros_;
     timeText := toCharArray 24 formattedTime;
     identifier := Can.identifier frame;
     extended := extd frame;
     rtr := Can.rtr frame;
     dlc := data_length_code frame;
     data := padded_payload frame |}.

(** The array has its 200 slots, each with its 8 payload cells. *)
Definition wf (lb : Buffer) : Prop :=
  length (liveFrameBuffer lb) = Z.to_nat LIVE_BUFFER_SIZE
  /\ Forall (fun fr => length (data fr) = 8%nat) (liveFrameBuffer lb).

(** Every retained sequence number sits in its slot. *)
Definition consistent (lb : Buffer) : Prop :=
  wf lb
  /\ 0 <= liveFrameCounter lb < 2 ^ 32
  /\ forall s, earliest lb <= s <= liveFrameCounter lb ->
       exists fr, liveFrameBuffer lb !! slot_of s = Some fr /\ seq fr = s.

(** An arrival for the worked examples. *)
Definition example_arrival : Arrival :=
  {| arr_frame := example_frame; arr_timestamp := 1700000000;
     arr_micros := 250000; arr_text := "2023-11-14 22:13:20" |}.
End Live.

(** ** The encrypted firmware ([CAN_Data_Logger_Encoded.ino]) *)

Module Encoded.

Definition NXT_LOG_SIGNATURE : string := "NXTLOG".
Definition NXT_LOG_VERSION : Z := 1.
Definition NXT_HEADER_SIZE : Z := 16.
Definition LOG_FILE_PREFIX : string := "CAN_LOG_".

Section Firmware.

(** Floating point is outside the embedding: the type of the sensor
    readings, [0.0f] and Arduino's [String(float, decimalPlaces)] are
    parameters, and so is the C library's [localtime]. *)
Context {float : Type}.
Variable float_zero : float.
Variable String_float : float -> Z -> string.
Variable localtime : Z -> tm.

(** The IMU and GPS globals the encoder reads. *)
Record Sensors := {
  imuAvailable : bool;
  imuHasData : bool;
  linearAccelX : float;
  linearAccelY : float;
  linearAccelZ : float;
  gravityAccel : float;
  gpsHasFix : bool;
  gpsLat : float;
  gpsLon : float;
  gpsAlt : float;
  gpsSpeed : float;
  gpsCourse : float;
  gpsSats : Z;
  gpsHdop : float;
  gpsTimeText : string
}.

(** The globals of the logging path, with the environment they read:
    the card, the values [esp_random()] is going to return, and the
    readings of [millis()] and [micros()]. *)
Record State := {
  sd : SD.Card;
  random : list Z;
  millis : Z;
  micros : Z;
  baseTime : Z;
  bootMillis : Z;
  rtcAvailable : bool;
  sensors : Sensors;
  logFile : option SD.File;
  currentLogFileName : string;
  currentFileSize : Z;
  sdCardReady : bool;
  currentFileNonce : Z;
  currentCipherState : Z;
  messageCount : Z;
  live : Live.Buffer
}.

Definition set_sd (v : SD.Card) (st : State) : State :=
  {| sd := v; random := random st; millis := millis st;
     micros := micros st; baseTime := baseTime st;
     bootMillis := bootMillis st; rtcAvailable := rtcAvailable st;
     sensors := sensors st; logFile := logFile st;
     currentLogFileName := currentLogFileName st;
     currentFileSize := currentFileSize st; sdCardReady := sdCardReady st;
     currentFileNonce := currentFileNonce st;
     currentCipherState := currentCipherState st;
     messageCount := messageCount st; live := live st |}.

Definition set_random (v : list Z) (st : State) : State :=
  {| sd := sd st; random := v; millis := millis st; micros := micros st;
     baseTime := baseTime st; bootMillis := bootMillis st;
     rtcAvailable := rtcAvailable st; sensors := sensors st;
     logFile := logFile st; currentLogFileName := currentLogFileName st;
     currentFileSize := currentFileSize st; sdCardReady := sdCardReady st;
     currentFileNonce := currentFileNonce st;
     currentCipherState := currentCipherState st;
     messageCount := messageCount st; live := live st |}.

Definition set_logFile (v : option SD.File) (st : State) : State :=
  {| sd := sd st; random := random st; millis := millis st;
     micros := micros st; baseTime := baseTime st;
     bootMillis := bootMillis st; rtcAvailable := rtcAvailable st;
     sensors := sensors st; logFile := v;
     currentLogFileName := currentLogFileName st;
     currentFileSize := currentFileSize st; sdCardReady := sdCardReady st;
     currentFileNonce := currentFileNonce st;
     currentCipherState := currentCipherState st;
     messageCount := messageCount st; live := live st |}.

Definition set_currentLogFileName (v : string) (st : State) : State :=
  {| sd := sd st; random := random st; millis := millis st;
     micros := micros st; baseTime := baseTime st;
     bootMillis := bootMillis st; rtcAvailable := rtcAvailable st;
     sensors := sensors st; logFile := logFile st; currentLogFileName := v;
     currentFileSize := currentFileSize st; sdCardReady := sdCardReady st;
     currentFileNonce := currentFileNonce st;
     currentCipherState := currentCipherState st;
     messageCount := messageCount st; live := live st |}.

Definition set_currentFileSize (v : Z) (st : State) : State :=
  {| sd := sd st; random := random st; millis := millis st;
     micros := micros st; baseTime := baseTime st;
     bootMillis := bootMillis st; rtcAvailable := rtcAvailable st;
     sensors := sensors st; logFile := logFile st;
     currentLogFileName := currentLogFileName st; currentFileSize := v;
     sdCardReady := sdCardReady st;
     currentFileNonce := currentFileNonce st;
     currentCipherState := currentCipherState st;
     messageCount := messageCount st; live := live st |}.

Definition set_sdCardReady (v : bool) (st : State) : State :=
  {| sd := sd st; random := random st; millis := millis st;
     micros := micros st; baseTime := baseTime st;
     bootMillis := bootMillis st; rtcAvailable := rtcAvailable st;
     sensors := sensors st; logFile := logFile st;
     currentLogFileName := currentLogFileName st;
     currentFileSize := currentFileSize st; sdCardReady := v;
     currentFileNonce := currentFileNonce st;
     currentCipherState := currentCipherState st;
     messageCount := messageCount st; live := live st |}.

Definition set_currentFileNonce (v : Z) (st : State) : State :=
  {| sd := sd st; random := random st; millis := millis st;
     micros := micros st; baseTime := baseTime st;
     bootMillis := bootMillis st; rtcAvailable := rtcAvailable st;
     sensors := sensors st; logFile := logFile st;
     currentLogFileName := currentLogFileName st;
     currentFileSize := currentFileSize st; sdCardReady := sdCardReady st;
     currentFileNonce := v; currentCipherState := currentCipherState st;
     messageCount := messageCount st; live := live st |}.

Definition set_currentCipherState (v : Z) (st : State) : State :=
  {| sd := sd st; random := random st; millis := millis st;
     micros := micros st; baseTime := baseTime st;
     bootMillis := bootMillis st; rtcAvailable := rtcAvailable st;
     sensors := sensors st; logFile := logFile st;
     currentLogFileName := currentLogFileName st;
     currentFileSize := currentFileSize st; sdCardReady := sdCardReady st;
     currentFileNonce := currentFileNonce st; currentCipherState := v;
     messageCount := messageCount st; live := live st |}.

Definition set_messageCount (v : Z) (st : State) : State :=
  {| sd := sd st; random := random st; millis := millis st;
     micros := micros st; baseTime := baseTime st;
     bootMillis := bootMillis st; rtcAvailable := rtcAvailable st;
     sensors := sensors st; logFile := logFile st;
     currentLogFileName := currentLogFileName st;
     currentFileSize := currentFileSize st; sdCardReady := sdCardReady st;
     currentFileNonce := currentFileNonce st;
     currentCipherState := currentCipherState st; messageCount := v;
     live := live st |}.

Definition set_live (v : Live.Buffer) (st : State) : State :=
  {| sd := sd st; random := random st; millis := millis st;
     micros := micros st; baseTime := baseTime st;
     bootMillis := bootMillis st; rtcAvailable := rtcAvailable st;
     sensors := sensors st; logFile := logFile st;
     currentLogFileName := currentLogFileName st;
     currentFileSize := currentFileSize st; sdCardReady := sdCardReady st;
     currentFileNonce := currentFileNonce st;
     currentCipherState := currentCipherState st;
     messageCount := messageCount st; live := v |}.

(** [if (logFile)] *)
Definition is_open (st : State) : bool :=
  match logFile st with Some _ => true | None => false end.

(** [esp_random()] *)
Definition esp_random (st : State) : Z * State :=
  match random st with
  | [] => (0, st)
  | r :: rest => (u32 r, set_random rest st)
  end.

(** [generateFileNonce] *)
Definition generateFileNonce (st : State) : Z * State :=
  let '(randomVal, st) := esp_random st in
  let randomVal := Z.lxor randomVal (u32 (millis st)) in
  let randomVal := Z.lxor randomVal (u32 (Z.shiftl (u32 (bootMillis st)) 16)) in
  let randomVal :=
    if randomVal =? 0 then Z.lxor (u32 (millis st)) 0xA5A5A5A5 else randomVal in
  (randomVal, st).

(** [closeCurrentFile] *)
Definition closeCurrentFile (st : State) : State :=
  match logFile st with
  | Some _ => set_logFile None st
  | None => st
  end.

(** [logFile.write(byte)] on the global handle; a closed handle writes
    nothing. *)
Definition logFile_write (b : Z) (st : State) : Z * State :=
  match logFile st with
  | Some f =>
      let '(n, f, c) := SD.write b f (sd st) in
      (n, set_logFile (Some f) (set_sd c st))
  | None => (0, st)
  end.

(** One round of the byte loops of [writeEncryptedLine]: encrypt, write,
    and on a failed write close the file and mark the card not ready. *)
Definition write_encrypted_byte (b : Z) (st : State) : bool * State :=
  let '(encrypted, cs) :=
    Cipher.encryptByte ENCRYPTION_KEY b (currentCipherState st) in
  let st := set_currentCipherState cs st in
  let '(n, st) := logFile_write encrypted st in
  if negb (n =? 1) then (false, set_sdCardReady false (closeCurrentFile st))
  else (true, st).

Fixpoint write_encrypted_bytes (bytes : list Z) (st : State) : bool * State :=
  match bytes with
  | [] => (true, st)
  | b :: rest =>
      let '(ok, st) := write_encrypted_byte b st in
      if negb ok then (false, st) else write_encrypted_bytes rest st
  end.

(** [writeEncryptedLine] *)
Definition writeEncryptedLine (line : string) (st : State) : bool * State :=
  if negb (is_open st) then (false, st) else
  let len := Z.of_nat (String.length line) in
  let '(ok, st) := write_encrypted_bytes (bytes_of_string line) st in
  if negb ok then (false, st) else
  let newline := 10 in
  let '(ok, st) := write_encrypted_byte newline st in
  if negb ok then (false, st) else
  (true, set_currentFileSize (u32 (currentFileSize st + (len + 1))) st).

(** The four bytes of a [uint32_t] in memory (little-endian). *)
Definition le32 (x : Z) : list Z :=
  [Z.land x 0xFF; Z.land (Z.shiftr x 8) 0xFF;
   Z.land (Z.shiftr x 16) 0xFF; Z.land (Z.shiftr x 24) 0xFF].

(** The 16-byte [header] array of [writeFileHeader]. *)
Definition header_bytes (nonce : Z) : list Z :=
  take 6 (bytes_of_string NXT_LOG_SIGNATURE)
  ++ [NXT_LOG_VERSION; NXT_HEADER_SIZE] ++ le32 nonce ++ le32 0.

(** The CSV header line of [writeFileHeader]. *)
Definition headerLine : string :=
  let headerLine := "Timestamp,UnixTime,Microseconds,ID,Extended,RTR,DLC" in
  let headerLine :=
    foldl (fun headerLine i => headerLine +:+ ",Data" +:+ String_int i)
          headerLine (seqZ 0 8) in
  let headerLine :=
    headerLine +:+ ",LinearAccelX,LinearAccelY,LinearAccelZ,Gravity" in
  headerLine +:+
  ",GPS_Lat,GPS_Lon,GPS_Alt,GPS_Speed,GPS_Course,GPS_Sats,GPS_HDOP,GPS_Time".

(** [writeFileHeader] *)
Definition writeFileHeader (st : State) : bool * State :=
  match logFile st with
  | None => (false, st)
  | Some f =>
      let '(nonce, st) := generateFileNonce st in
      let st := set_currentFileNonce nonce st in
      let '(written, f, c) := SD.write_buf (header_bytes nonce) f (sd st) in
      let st := set_logFile (Some f) (set_sd c st) in
      if negb (written =? NXT_HEADER_SIZE) then (false, st) else
      let st := set_currentFileSize (u32 (SD.size f (sd st))) st in
      let st :=
        set_currentCipherState
          (Cipher.resetCipherState ENCRYPTION_KEY (currentFileNonce st)) st in
      writeEncryptedLine headerLine st
  end.

(** [generateLogFileName] *)
Definition generateLogFileName (st : State) : string :=
  let timeinfo := localtime (baseTime st) in
  "/CAN_Logged_Data/" +:+ LOG_FILE_PREFIX +:+
  sprintf_0d 4 (tm_year timeinfo + 1900) +:+
  sprintf_0d 2 (tm_mon timeinfo + 1) +:+
  sprintf_0d 2 (tm_mday timeinfo) +:+ "_" +:+
  sprintf_0d 2 (tm_hour timeinfo) +:+
  sprintf_0d 2 (tm_min timeinfo) +:+
  sprintf_0d 2 (tm_sec timeinfo) +:+ ".NXT".

(** [createNewLogFile] *)
Definition createNewLogFile (st : State) : bool * State :=
  let st := match logFile st with
            | Some _ => set_logFile None st
            | None => st
            end in
  let '(ok, st) :=
    if negb (SD.exists_ "/CAN_Logged_Data" (sd st)) then
      let '(ok, c) := SD.mkdir "/CAN_Logged_Data" (sd st) in
      (ok, set_sd c st)
    else (true, st) in
  if negb ok then (false, st) else
  let st := set_currentLogFileName (generateLogFileName st) st in
  let '(f, c) := SD.open_write (currentLogFileName st) (sd st) in
  let st := set_logFile f (set_sd c st) in
  if negb (is_open st) then (false, st) else
  let '(ok, st) := writeFileHeader st in
  if negb ok then (false, set_logFile None st) else
  match logFile st with
  | None => (false, st)
  | Some f => (true, set_currentFileSize (u32 (SD.size f (sd st))) st)
  end.

(** [initializeSDCard]: the probe of the card, one fallible operation.
    Its access test creates and removes ["/_test.tmp"] and leaves the
    files as they were. *)
Definition initializeSDCard (st : State) : bool * State :=
  let '(ok, c) := SD.next (sd st) in
  (ok, set_sd c st).

(** The CSV line that [writeCANMessage] builds. *)
Definition format_line (frame : CanFrame) (timestamp micros_ : Z)
    (s : Sensors) : option string :=
  let timeStr := format_timeStr (localtime timestamp) in
  let line := timeStr in
  let line := line +:+ "," in
  let line := line +:+ String_unsigned (u32 timestamp) DEC in
  let line := line +:+ "," in
  let line := line +:+ String_unsigned (u32 micros_) DEC in
  let line := line +:+ "," in
  let idStr := toUpperCase (String_unsigned (identifier frame) HEX) in
  let line := line +:+ idStr in
  let line := line +:+ "," in
  let line := line +:+ (if extd frame then "1" else "0") in
  let line := line +:+ "," in
  let line := line +:+ (if rtr frame then "1" else "0") in
  let line := line +:+ "," in
  let line := line +:+ String_unsigned (data_length_code frame) DEC in
  let dlc := data_length_code frame in
  let dlc := if 8 <? dlc then 8 else dlc in
  line ← append_data_columns frame dlc line;
  let imu := imuAvailable s && imuHasData s in
  let line := line +:+ "," in
  let line := line +:+ String_float (if imu then linearAccelX s else float_zero) 4 in
  let line := line +:+ "," in
  let line := line +:+ String_float (if imu then linearAccelY s else float_zero) 4 in
  let line := line +:+ "," in
  let line := line +:+ String_float (if imu then linearAccelZ s else float_zero) 4 in
  let line := line +:+ "," in
  let line := line +:+ String_float (if imu then gravityAccel s else float_zero) 4 in
  let line :=
    if gpsHasFix s then
      let line := line +:+ "," in
      let line := line +:+ String_float (gpsLat s) 6 in
      let line := line +:+ "," in
      let line := line +:+ String_float (gpsLon s) 6 in
      let line := line +:+ "," in
      let line := line +:+ String_float (gpsAlt s) 2 in
      let line := line +:+ "," in
      let line := line +:+ String_float (gpsSpeed s) 2 in
      let line := line +:+ "," in
      let line := line +:+ String_float (gpsCourse s) 2 in
      let line := line +:+ "," in
      let line := line +:+ String_int (gpsSats s) in
      let line := line +:+ "," in
      let line := line +:+ String_float (gpsHdop s) 2 in
      let line := line +:+ "," in
      line +:+ gpsTimeText s
    else line +:+ ",0,0,0,0,0,0,0,0" in
  Some line.

(** [writeCANMessage] *)
Definition writeCANMessage (frame : CanFrame) (timestamp micros_ : Z)
    (st : State) : option (bool * State) :=
  let '(ok, st) :=
    if negb (sdCardReady st) then
      let '(ok, st) := initializeSDCard st in
      if negb ok then (false, set_sdCardReady false st) else
      let '(ok, st) := createNewLogFile st in
      if negb ok then (false, set_sdCardReady false st)
      else (true, set_sdCardReady true st)
    else (true, st) in
  if negb ok then Some (false, st) else
  let '(ok, st) :=
    if negb (is_open st) then
      let '(ok, st) := createNewLogFile st in
      if negb ok then (false, set_sdCardReady false st) else (true, st)
    else (true, st) in
  if negb ok then Some (false, st) else
  line ← format_line frame timestamp micros_ (sensors st);
  Some (writeEncryptedLine line st).

(** [currentTimestamp] and [currentMicros] as the receive loop computes
    them for a frame. *)
Definition current_time (st : State) : Z * Z :=
  if rtcAvailable st then
    let elapsedSeconds := u32 (millis st - bootMillis st) / 1000 in
    (baseTime st + elapsedSeconds, u32 (micros st) mod 1000000)
  else if negb (baseTime st =? 0) then
    let elapsedSeconds := u32 (millis st - bootMillis st) / 1000 in
    (baseTime st + elapsedSeconds,
     u32 (u32 (millis st - bootMillis st) * 1000))
  else (0, 0).

(** The body of the receive loop of [loop] for one frame that
    [twai_receive] returned. *)
Definition loop_receive (message : CanFrame) (st : State) : option State :=
  let st := set_messageCount (u32 (messageCount st + 1)) st in
  let st :=
    if sdCardReady st && negb (is_open st)
    then snd (createNewLogFile st) else st in
  let '(currentTimestamp, currentMicros) := current_time st in
  let timeStr := format_timeStr (localtime currentTimestamp) in
  let rxFrame :=
    {| identifier := identifier message;
       extd := extd message;
       rtr := rtr message;
       data_length_code := data_length_code message;
       data := data message |} in
  lb ← Live.storeLiveFrame rxFrame currentTimestamp currentMicros timeStr
                           (live st);
  let st := set_live lb st in
  if sdCardReady st then
    '(ok, st) ← writeCANMessage rxFrame currentTimestamp currentMicros st;
    if negb ok then
      let '(ok, st) := createNewLogFile st in
      if negb ok then Some (set_sdCardReady false st)
      else
        '(ok, st) ← writeCANMessage rxFrame currentTimestamp currentMicros st;
        if negb ok then Some (set_sdCardReady false st) else Some st
    else Some st
  else Some st.

(** [fileName.indexOf("..") >= 0] *)
Definition has_dotdot (s : string) : bool :=
  match String.index 0 ".." s with Some _ => true | None => false end.

(** [handleFileDownload]: the HTTP status sent and the new state.
    [fileName] is the request's [file] argument. The streaming loop reads
    the opened file and writes to the client; it changes neither the card
    nor the globals. *)
Definition handleFileDownload (fileName : string) (st : State) : Z * State :=
  if negb (sdCardReady st) then (503, st) else
  if (String.length fileName =? 0)%nat then (400, st) else
  if has_dotdot fileName then (403, st) else
  let filePath :=
    if String.prefix "/" fileName then fileName
    else if String.prefix "CAN_Logged_Data/" fileName then "/" +:+ fileName
    else
      let filePath := "/CAN_Logged_Data/" +:+ fileName in
      if negb (SD.exists_ filePath (sd st)) then "/" +:+ fileName
      else filePath in
  let normalizedFilePath :=
    if negb (String.prefix "/" filePath) then "/" +:+ filePath else filePath in
  let currentPath :=
    if negb (String.prefix "/" (currentLogFileName st))
    then "/" +:+ currentLogFileName st else currentLogFileName st in
  let isActiveFile :=
    (0 <? String.length (currentLogFileName st))%nat
    && String.eqb normalizedFilePath currentPath in
  let '(file, c) := SD.open_read filePath (sd st) in
  let st := set_sd c st in
  let '(file, reopenAfterDownload, st) :=
    match file with
    | None =>
        if isActiveFile && is_open st then
          let st := set_logFile None st in
          let '(file, c) := SD.open_read filePath (sd st) in
          (file, true, set_sd c st)
        else (file, false, st)
    | Some _ => (file, false, st)
    end in
  match file with
  | None => (404, st)
  | Some _ =>
      let st :=
        if reopenAfterDownload : bool then
          let '(f, c) := SD.open_write (currentLogFileName st) (sd st) in
          let st := set_logFile f (set_sd c st) in
          match f with
          | Some f =>
              let f := SD.seek (SD.size f (sd st)) f in
              let st := set_logFile (Some f) st in
              set_currentFileSize (u32 (SD.size f (sd st))) st
          | None => set_sdCardReady false st
          end
        else st in
      (200, st)
  end.

(** The timestamp columns and the IMU/GPS columns of a log line (used to
    state the properties). *)
Definition time_columns (timestamp micros_ : Z) : string :=
  format_timeStr (localtime timestamp) +:+ "," +:+
  String_unsigned (u32 timestamp) DEC +:+ "," +:+
  String_unsigned (u32 micros_) DEC.

Definition sensor_columns (s : Sensors) : string :=
  let imu := imuAvailable s && imuHasData s in
  "," +:+ String_float (if imu then linearAccelX s else float_zero) 4 +:+
  "," +:+ String_float (if imu then linearAccelY s else float_zero) 4 +:+
  "," +:+ String_float (if imu then linearAccelZ s else float_zero) 4 +:+
  "," +:+ String_float (if imu then gravityAccel s else float_zero) 4 +:+
  (if gpsHasFix s then
     "," +:+ String_float (gpsLat s) 6 +:+
     "," +:+ String_float (gpsLon s) 6 +:+
     "," +:+ String_float (gpsAlt s) 2 +:+
     "," +:+ String_float (gpsSpeed s) 2 +:+
     "," +:+ String_float (gpsCourse s) 2 +:+
     "," +:+ String_int (gpsSats s) +:+
     "," +:+ String_float (gpsHdop s) 2 +:+
     "," +:+ gpsTimeText s
   else ",0,0,0,0,0,0,0,0").

(** The state after bytes went to the open log file: a new handle, a new
    card, a new cipher state, and the other globals as they were. *)
Definition wrote (f' : SD.File) (c' : SD.Card) (cs' : Z) (st : State) : State :=
  set_logFile (Some f') (set_sd c' (set_currentCipherState cs' st)).

(** The open log file [f] is on the card with contents [old], and the
    next write through [f] goes to its end. *)
Definition at_end (f : SD.File) (old : list Z) (c : SD.Card) : Prop :=
  SD.files c !! SD.path f = Some old
  /\ (SD.appending f = true \/ SD.pos f = Z.of_nat (length old)).

End Firmware.

(** For the worked examples: a board without IMU and GPS data, with
    [unit] for the readings nobody formats. *)
Definition no_sensors : Sensors (float := unit) :=
  {| imuAvailable := false; imuHasData := false;
     linearAccelX := tt; linearAccelY := tt;
     linearAccelZ := tt; gravityAccel := tt;
     gpsHasFix := false;
     gpsLat := tt; gpsLon := tt; gpsAlt := tt;
     gpsSpeed := tt; gpsCourse := tt; gpsSats := 0;
     gpsHdop := tt; gpsTimeText := "0" |}.

Definition no_float_text (x : unit) (decimalPlaces : Z) : string :=
  if decimalPlaces =? 4 then "0.0000" else "0.00".

(** For the worked examples: a card with one log file (a header and
    three payload bytes), and the logger with that file open. [outs]
    lists the outcomes of the card operations to come. *)
Definition example_name : string :=
  "/CAN_Logged_Data/CAN_LOG_20231114_221320.NXT".

Definition example_card (outs : list bool) : SD.Card :=
  {| SD.files := {[ example_name := header_bytes 0x12345678 ++ [1; 2; 3] ]};
     SD.dirs := {[ "/CAN_Logged_Data"%string ]};
     SD.outcomes := outs;
     SD.write_truncates := false |}.

Definition example_state (outs : list bool) (ready : bool)
  : State (float := unit) :=
  {| sd := example_card outs;
     random := [7];
     millis := 5000;
     micros := 5000000;
     baseTime := 1700000000;
     bootMillis := 0;
     rtcAvailable := true;
     sensors := no_sensors;
     logFile :=
       if ready
       then Some {| SD.path := example_name; SD.pos := 19;
                    SD.appending := true |}
       else None;
     currentLogFileName := example_name;
     currentFileSize := 19;
     sdCardReady := ready;
     currentFileNonce := 0x12345678;
     currentCipherState := Cipher.resetCipherState ENCRYPTION_KEY 0x12345678;
     messageCount := 0;
     live := Live.initial |}.

(** A stand-in for [localtime] in the worked examples: the same
    calendar time, 2023-11-14 22:13:20, for every argument. *)
Definition utc (t : Z) : tm :=
  {| tm_year := 123; tm_mon := 10; tm_mday := 14;
     tm_hour := 22; tm_min := 13; tm_sec := 20 |}.
End Encoded.

(** ** The plain-CSV firmware ([Lastry.ino]) *)

Module Lastry.

Definition MAX_FILE_SIZE : Z := 10485760.

Section Firmware.

Variable localtime : Z -> tm.

(** The globals of the logging path, with the card and the readings of
    [millis()] and [micros()]. *)
Record State := {
  sd : SD.Card;
  millis : Z;
  micros : Z;
  baseTime : Z;
  bootMillis : Z;
  rtcAvailable : bool;
  logFile : option SD.File;
  currentLogFileName : string;
  currentFileSize : Z;
  sdCardReady : bool;
  loggingEnabled : bool;
  stoppedByUser : bool;
  messageCount : Z;
  live : Live.Buffer
}.

Definition set_sd (v : SD.Card) (st : State) : State :=
  {| sd := v; millis := millis st; micros := micros st;
     baseTime := baseTime st; bootMillis := bootMillis st;
     rtcAvailable := rtcAvailable st; logFile := logFile st;
     currentLogFileName := currentLogFileName st;
     currentFileSize := currentFileSize st; sdCardReady := sdCardReady st;
     loggingEnabled := loggingEnabled st;
     stoppedByUser := stoppedByUser st; messageCount := messageCount st;
     live := live st |}.

Definition set_logFile (v : option SD.File) (st : State) : State :=
  {| sd := sd st; millis := millis st; micros := micros st;
     baseTime := baseTime st; bootMillis := bootMillis st;
     rtcAvailable := rtcAvailable st; logFile := v;
     currentLogFileName := currentLogFileName st;
     currentFileSize := currentFileSize st; sdCardReady := sdCardReady st;
     loggingEnabled := loggingEnabled st;
     stoppedByUser := stoppedByUser st; messageCount := messageCount st;
     live := live st |}.

Definition set_currentFileSize (v : Z) (st : State) : State :=
  {| sd := sd st; millis := millis st; micros := micros st;
     baseTime := baseTime st; bootMillis := bootMillis st;
     rtcAvailable := rtcAvailable st; logFile := logFile st;
     currentLogFileName := currentLogFileName st; currentFileSize := v;
     sdCardReady := sdCardReady st; loggingEnabled := loggingEnabled st;
     stoppedByUser := stoppedByUser st; messageCount := messageCount st;
     live := live st |}.

Definition set_sdCardReady (v : bool) (st : State) : State :=
  {| sd := sd st; millis := millis st; micros := micros st;
     baseTime := baseTime st; bootMillis := bootMillis st;
     rtcAvailable := rtcAvailable st; logFile := logFile st;
     currentLogFileName := currentLogFileName st;
     currentFileSize := currentFileSize st; sdCardReady := v;
     loggingEnabled := loggingEnabled st;
     stoppedByUser := stoppedByUser st; messageCount := messageCount st;
     live := live st |}.

Definition set_loggingEnabled (v : bool) (st : State) : State :=
  {| sd := sd st; millis := millis st; micros := micros st;
     baseTime := baseTime st; bootMillis := bootMillis st;
     rtcAvailable := rtcAvailable st; logFile := logFile st;
     currentLogFileName := currentLogFileName st;
     currentFileSize := currentFileSize st; sdCardReady := sdCardReady st;
     loggingEnabled := v; stoppedByUser := stoppedByUser st;
     messageCount := messageCount st; live := live st |}.

Definition set_stoppedByUser (v : bool) (st : State) : State :=
  {| sd := sd st; millis := millis st; micros := micros st;
     baseTime := baseTime st; bootMillis := bootMillis st;
     rtcAvailable := rtcAvailable st; logFile := logFile st;
     currentLogFileName := currentLogFileName st;
     currentFileSize := currentFileSize st; sdCardReady := sdCardReady st;
     loggingEnabled := loggingEnabled st; stoppedByUser := v;
     messageCount := messageCount st; live := live st |}.

Definition set_messageCount (v : Z) (st : State) : State :=
  {| sd := sd st; millis := millis st; micros := micros st;
     baseTime := baseTime st; bootMillis := bootMillis st;
     rtcAvailable := rtcAvailable st; logFile := logFile st;
     currentLogFileName := currentLogFileName st;
     currentFileSize := currentFileSize st; sdCardReady := sdCardReady st;
     loggingEnabled := loggingEnabled st;
     stoppedByUser := stoppedByUser st; messageCount := v;
     live := live st |}.

Definition set_live (v : Live.Buffer) (st : State) : State :=
  {| sd := sd st; millis := millis st; micros := micros st;
     baseTime := baseTime st; bootMillis := bootMillis st;
     rtcAvailable := rtcAvailable st; logFile := logFile st;
     currentLogFileName := currentLogFileName st;
     currentFileSize := currentFileSize st; sdCardReady := sdCardReady st;
     loggingEnabled := loggingEnabled st;
     stoppedByUser := stoppedByUser st; messageCount := messageCount st;
     live := v |}.

(** [if (logFile)] *)
Definition is_open (st : State) : bool :=
  match logFile st with Some _ => true | None => false end.

(** [writePlainLine] *)
Definition writePlainLine (line : string) (st : State) : bool * State :=
  match logFile st with
  | None => (false, st)
  | Some f =>
      let '(written, f, c) := SD.println line f (sd st) in
      let st := set_logFile (Some f) (set_sd c st) in
      if written =? 0 then (false, st)
      else (true, set_currentFileSize (u32 (currentFileSize st + written)) st)
  end.

(** [closeCurrentFile] *)
Definition closeCurrentFile (st : State) : State :=
  match logFile st with
  | Some _ => set_logFile None st
  | None => st
  end.

(** The CSV line that [writeCANMessage] builds. *)
Definition format_line (frame : CanFrame) (timestamp micros_ : Z)
  : option string :=
  let timeStr := format_timeStr (localtime timestamp) in
  let line := timeStr in
  let line := line +:+ "," in
  let line := line +:+ String_unsigned (u32 timestamp) DEC in
  let line := line +:+ "," in
  let line := line +:+ String_unsigned (u32 micros_) DEC in
  let line := line +:+ "," in
  let idStr := toUpperCase (String_unsigned (identifier frame) HEX) in
  let line := line +:+ idStr in
  let line := line +:+ "," in
  let line := line +:+ (if extd frame then "1" else "0") in
  let line := line +:+ "," in
  let line := line +:+ (if rtr frame then "1" else "0") in
  let line := line +:+ "," in
  let line := line +:+ String_unsigned (data_length_code frame) DEC in
  append_data_columns frame (data_length_code frame) line.

(** [writeCANMessage] *)
Definition writeCANMessage (frame : CanFrame) (timestamp micros_ : Z)
    (st : State) : option (bool * State) :=
  if negb (is_open st) || negb (sdCardReady st) then Some (false, st) else
  if MAX_FILE_SIZE <? currentFileSize st then
    let st := set_loggingEnabled false st in
    let st := set_stoppedByUser true st in
    let st := closeCurrentFile st in
    Some (false, st)
  else
    line ← format_line frame timestamp micros_;
    Some (writePlainLine line st).

(** [getFormattedTime] *)
Definition getFormattedTime (st : State) : string :=
  if rtcAvailable st || negb (baseTime st =? 0) then
    let elapsedSeconds := u32 (millis st - bootMillis st) / 1000 in
    format_timeStr (localtime (baseTime st + elapsedSeconds))
  else String_unsigned (u32 (millis st)) DEC.

(** [currentTimestamp] and [currentMicros] as [loop] computes them for a
    frame. *)
Definition current_time (st : State) : Z * Z :=
  if rtcAvailable st then
    let elapsedSeconds := u32 (millis st - bootMillis st) / 1000 in
    (baseTime st + elapsedSeconds, u32 (micros st) mod 1000000)
  else if negb (baseTime st =? 0) then
    let elapsedSeconds := u32 (millis st - bootMillis st) / 1000 in
    (baseTime st + elapsedSeconds,
     u32 (u32 (millis st - bootMillis st) * 1000))
  else (0, 0).

(** The branch of [loop] for one frame that [ESP32Can.readFrame]
    returned. *)
Definition loop_receive (rxFrame : CanFrame) (st : State) : option State :=
  let st := set_messageCount (u32 (messageCount st + 1)) st in
  let '(currentTimestamp, currentMicros) := current_time st in
  let timestamp := getFormattedTime st in
  lb ← Live.storeLiveFrame rxFrame currentTimestamp currentMicros timestamp
                           (live st);
  let st := set_live lb st in
  if loggingEnabled st && sdCardReady st && is_open st then
    '(ok, st) ← writeCANMessage rxFrame currentTimestamp currentMicros st;
    if negb ok then
      let st := set_loggingEnabled false st in
      let st := set_stoppedByUser true st in
      Some (closeCurrentFile st)
    else Some st
  else Some st.

(** The rollover as the specification words it, for a write attempted
    with the byte count above the maximum: afterwards a log file is open
    under a new name and exists on the card. *)
Definition rollover_claim (st : State) (frame : CanFrame)
    (timestamp micros_ : Z) : Prop :=
  MAX_FILE_SIZE < currentFileSize st ->
  exists ok st' f',
    writeCANMessage frame timestamp micros_ st = Some (ok, st')
    /\ logFile st' = Some f'
    /\ SD.path f' <> currentLogFileName st
    /\ is_Some (SD.files (sd st') !! SD.path f').

End Firmware.

(** For the worked examples: the logger with a log file that has just
    grown past the maximum size. *)
Definition full_state : State :=
  {| sd := {| SD.files := {[ "/CAN_LOG_20231114_221320.csv"%string := [49; 13; 10] ]};
              SD.dirs := ∅;
              SD.outcomes := [];
              SD.write_truncates := false |};
     millis := 5000;
     micros := 5000000;
     baseTime := 1700000000;
     bootMillis := 0;
     rtcAvailable := true;
     logFile := Some {| SD.path := "/CAN_LOG_20231114_221320.csv";
                        SD.pos := 3; SD.appending := true |};
     currentLogFileName := "/CAN_LOG_20231114_221320.csv";
     currentFileSize := MAX_FILE_SIZE + 1;
     sdCardReady := true;
     loggingEnabled := true;
     stoppedByUser := false;
     messageCount := 41;
     live := Live.initial |}.

(** A stand-in for [localtime] in the worked examples: the same
    calendar time, 2023-11-14 22:13:20, for every argument. *)
Definition utc (t : Z) : tm :=
  {| tm_year := 123; tm_mon := 10; tm_mday := 14;
     tm_hour := 22; tm_min := 13; tm_sec := 20 |}.
End Lastry.

(** ** Further notions used to state the properties *)

(** The slot contents that pushing the arrival [a] with sequence number
    [s] leaves. *)
Definition stored_arrival (a : Live.Arrival) (s : Z) : Live.LiveFrame :=
  Live.stored (Live.arr_frame a) (Live.arr_timestamp a) (Live.arr_micros a)
              (Live.arr_text a) s.

(** A list of sequence numbers in strictly increasing order. *)
Definition increasing (l : list Z) : Prop :=
  forall (i j : nat) x y,
    l !! i = Some x -> l !! j = Some y -> (i < j)%nat -> x < y.

(** ** Reading an encrypted log file back

    The layout that [writeFileHeader] writes, read in the other
    direction: the nonce from the header bytes 8..11 (little-endian),
    the payload from byte 16 on, decrypted by the cipher started from
    that nonce. *)
Definition read_le32 (bs : list Z) : Z :=
  foldr (fun b acc => b + 256 * acc) 0 (take 4 bs).

Definition nxt_nonce (file : list Z) : Z := read_le32 (drop 8 file).

Definition nxt_payload (file : list Z) : list Z :=
  drop (Z.to_nat Encoded.NXT_HEADER_SIZE) file.

Definition nxt_decrypt (file : list Z) : list Z :=
  (Cipher.encryptBytes ENCRYPTION_KEY (nxt_payload file)
     (Cipher.resetCipherState ENCRYPTION_KEY (nxt_nonce file))).1.

(** The bytes of a text line with its newline. *)
Definition text_line (line : string) : list Z := bytes_of_string line ++ [10].

(** The open log file of [st] is the 16-byte header followed by the
    ciphertext of [plain], one keystream from the file's nonce; the
    handle writes at its end, and the cipher state and the byte counter
    are those after [plain]. *)
Definition log_holds {float : Type} (st : @Encoded.State float)
    (plain : list Z) : Prop :=
  let nonce := Encoded.currentFileNonce st in
  let cipher :=
    Cipher.encryptBytes ENCRYPTION_KEY plain
      (Cipher.resetCipherState ENCRYPTION_KEY nonce) in
  exists f,
    Encoded.logFile st = Some f
    /\ SD.path f = Encoded.currentLogFileName st
    /\ Encoded.at_end f (Encoded.header_bytes nonce ++ cipher.1)
                      (Encoded.sd st)
    /\ Encoded.currentCipherState st = cipher.2
    /\ Encoded.currentFileSize st = u32 (16 + Z.of_nat (length plain))
    /\ 0 <= nonce < 2 ^ 32
    /\ Forall is_byte plain.

(** For the worked examples: the encrypted logger just after boot, with
    an empty card marked ready and no log file yet. [outs] lists the
    outcomes of the card operations to come. *)
Definition boot_state (outs : list bool) : Encoded.State (float := unit) :=
  {| Encoded.sd := {| SD.files := ∅; SD.dirs := ∅; SD.outcomes := outs;
                      SD.write_truncates := false |};
     Encoded.random := [7];
     Encoded.millis := 5000;
     Encoded.micros := 5000000;
     Encoded.baseTime := 1700000000;
     Encoded.bootMillis := 0;
     Encoded.rtcAvailable := true;
     Encoded.sensors := Encoded.no_sensors;
     Encoded.logFile := None;
     Encoded.currentLogFileName := "";
     Encoded.currentFileSize := 0;
     Encoded.sdCardReady := true;
     Encoded.currentFileNonce := 0;
     Encoded.currentCipherState := 0;
     Encoded.messageCount := 0;
     Encoded.live := Live.initial |}.

(** The same logger after [createNewLogFile] on the healthy card: the
    first log file is open and holds its header. *)
Definition logging_state : Encoded.State (float := unit) :=
  (Encoded.createNewLogFile Encoded.utc (boot_state [])).2.

(** What the writer of the encrypted firmware leaves alone: the clock
    readings, the sensors, the frame counter and the live buffer. *)
Definition writer_frame {float : Type} (st st' : @Encoded.State float)
  : Prop :=
  Encoded.millis st' = Encoded.millis st
  /\ Encoded.micros st' = Encoded.micros st
  /\ Encoded.baseTime st' = Encoded.baseTime st
  /\ Encoded.bootMillis st' = Encoded.bootMillis st
  /\ Encoded.rtcAvailable st' = Encoded.rtcAvailable st
  /\ Encoded.sensors st' = Encoded.sensors st
  /\ Encoded.messageCount st' = Encoded.messageCount st
  /\ Encoded.live st' = Encoded.live st.

(** The number of commas of a CSV line: its number of columns less
    one. *)
Fixpoint count_commas (s : string) : nat :=
  match s with
  | EmptyString => 0
  | String c rest => (if Ascii.eqb c "," then 1 else 0) + count_commas rest
  end.

(** ** The web handlers of the encrypted firmware: file names *)

Module Web.

Definition lower_char (c : ascii) : ascii :=
  let n := N_of_ascii c in
  if ((65 <=? n) && (n <=? 90))%N then ascii_of_N (n + 32) else c.

(** [String::toLowerCase]. *)
Fixpoint toLowerCase (s : string) : string :=
  match s with
  | EmptyString => EmptyString
  | String c rest => String (lower_char c) (toLowerCase rest)
  end.

(** [String::endsWith]. *)
Definition endsWith (s suffix : string) : bool :=
  (String.length suffix <=? String.length s)%nat
  && String.eqb
       (String.substring (String.length s - String.length suffix)
                         (String.length suffix) s)
       suffix.

(** [String::substring(from)]: the rest of the string from an index. *)
Definition substring_from (from : nat) (s : string) : string :=
  String.substring from (String.length s - from) s.

(** [isDataFileName] *)
Definition isDataFileName (name : string) : bool :=
  let lower := toLowerCase name in
  endsWith lower ".nxt" || endsWith lower ".csv".

(** The name that the folder loop of [handleFileList] puts in its JSON
    entry for a file whose [file.name()] is [name]. *)
Definition folder_entry_name (name : string) : string :=
  let fileName := name in
  let fileName :=
    if String.prefix "/CAN_Logged_Data/" fileName
    then substring_from 18 fileName
    else if String.prefix "CAN_Logged_Data/" fileName
         then substring_from 16 fileName
         else fileName in
  "CAN_Logged_Data/" +:+ fileName.

(** The path that [handleFileDownload] opens for the request argument
    [fileName]. *)
Definition download_path (fileName : string) (c : SD.Card) : string :=
  if String.prefix "/" fileName then fileName
  else if String.prefix "CAN_Logged_Data/" fileName then "/" +:+ fileName
  else
    let filePath := "/CAN_Logged_Data/" +:+ fileName in
    if negb (SD.exists_ filePath c) then "/" +:+ fileName
    else filePath.

End Web.

(** A calendar time as [localtime] returns it, with a four-digit
    year. *)
Definition calendar_time (t : tm) : Prop :=
  0 <= tm_year t + 1900 <= 9999
  /\ 0 <= tm_mon t <= 11
  /\ 1 <= tm_mday t <= 31
  /\ 0 <= tm_hour t <= 23
  /\ 0 <= tm_min t <= 59
  /\ 0 <= tm_sec t <= 60.

(** The number of full stops of a name. *)
Fixpoint count_dots (s : string) : nat :=
  match s with
  | EmptyString => 0
  | String c rest => (if Ascii.eqb c "." then 1 else 0) + count_dots rest
  end.

(** The log file is open only while the card is marked ready. *)
Definition open_implies_ready {float : Type} (st : @Encoded.State float)
  : Prop :=
  Encoded.is_open st = true -> Encoded.sdCardReady st = true.

(** For the worked examples: the logger with its file open, on a card
    whose next operation (the record's first byte write) fails, whose
    221 operations after that (those of a [createNewLogFile]) succeed,
    and whose following one (a card probe) fails. *)
Definition retry_state : Encoded.State (float := unit) :=
  Encoded.example_state (false :: replicate 221 true ++ [false]) true.

Definition retry_pushed : Live.Buffer :=
  default Live.initial
    (Live.storeLiveFrame example_frame
       (Encoded.current_time retry_state).1
       (Encoded.current_time retry_state).2
       (format_timeStr (Encoded.utc (Encoded.current_time retry_state).1))
       (Encoded.live retry_state)).

Definition retry_after_write : Encoded.State (float := unit) :=
  default retry_state
    (snd <$> Encoded.writeCANMessage tt Encoded.no_float_text Encoded.utc
               example_frame
               (Encoded.current_time retry_state).1
               (Encoded.current_time retry_state).2
               (Encoded.set_live retry_pushed
                  (Encoded.set_messageCount
                     (u32 (Encoded.messageCount retry_state + 1))
                     retry_state))).

Definition retry_after_create : Encoded.State (float := unit) :=
  (Encoded.createNewLogFile Encoded.utc retry_after_write).2.

(** ** The plain-CSV firmware: log files and the serial commands *)

Module LastryFiles.

Definition LOG_FILE_PREFIX : string := "CAN_LOG_".

Section Firmware.

Variable localtime : Z -> tm.

Definition set_currentLogFileName (v : string) (st : Lastry.State)
  : Lastry.State :=
  {| Lastry.sd := Lastry.sd st; Lastry.millis := Lastry.millis st;
     Lastry.micros := Lastry.micros st;
     Lastry.baseTime := Lastry.baseTime st;
     Lastry.bootMillis := Lastry.bootMillis st;
     Lastry.rtcAvailable := Lastry.rtcAvailable st;
     Lastry.logFile := Lastry.logFile st;
     Lastry.currentLogFileName := v;
     Lastry.currentFileSize := Lastry.currentFileSize st;
     Lastry.sdCardReady := Lastry.sdCardReady st;
     Lastry.loggingEnabled := Lastry.loggingEnabled st;
     Lastry.stoppedByUser := Lastry.stoppedByUser st;
     Lastry.messageCount := Lastry.messageCount st;
     Lastry.live := Lastry.live st |}.

(** [generateLogFileName]; [customFilePrefix] is the global that
    [SET_FILENAME] sets. *)
Definition generateLogFileName (customFilePrefix : string)
    (st : Lastry.State) : string :=
  let prefix :=
    if (0 <? String.length customFilePrefix)%nat then customFilePrefix
    else LOG_FILE_PREFIX in
  let timeinfo := localtime (Lastry.baseTime st) in
  "/" +:+ prefix +:+
  sprintf_0d 4 (tm_year timeinfo + 1900) +:+
  sprintf_0d 2 (tm_mon timeinfo + 1) +:+
  sprintf_0d 2 (tm_mday timeinfo) +:+ "_" +:+
  sprintf_0d 2 (tm_hour timeinfo) +:+
  sprintf_0d 2 (tm_min timeinfo) +:+
  sprintf_0d 2 (tm_sec timeinfo) +:+ ".csv".

(** The CSV header line of [writeFileHeader]. *)
Definition headerLine : string :=
  let headerLine := "Timestamp,UnixTime,Microseconds,ID,Extended,RTR,DLC" in
  foldl (fun headerLine i => headerLine +:+ ",Data" +:+ String_int i)
        headerLine (seqZ 0 8).

(** [writeFileHeader] *)
Definition writeFileHeader (st : Lastry.State) : bool * Lastry.State :=
  if negb (Lastry.is_open st) then (false, st) else
  let '(ok, st) := Lastry.writePlainLine headerLine st in
  if negb ok then (false, st) else (true, st).

(** [createNewLogFile]; [logFile.size()] of a closed handle is 0. *)
Definition createNewLogFile (customFilePrefix : string) (st : Lastry.State)
  : bool * Lastry.State :=
  let st := match Lastry.logFile st with
            | Some _ => Lastry.set_logFile None st
            | None => st
            end in
  let st :=
    set_currentLogFileName (generateLogFileName customFilePrefix st) st in
  let '(f, c) :=
    SD.open_write (Lastry.currentLogFileName st) (Lastry.sd st) in
  let st := Lastry.set_logFile f (Lastry.set_sd c st) in
  if negb (Lastry.is_open st) then (false, st) else
  let '(ok, st) := writeFileHeader st in
  if negb ok then (false, Lastry.set_logFile None st) else
  let size := match Lastry.logFile st with
              | Some f => SD.size f (Lastry.sd st)
              | None => 0
              end in
  (true, Lastry.set_currentFileSize (u32 size) st).

(** [initializeSDCard]: the probe of the card, one fallible
    operation. *)
Definition initializeSDCard (st : Lastry.State) : bool * Lastry.State :=
  let '(ok, c) := SD.next (Lastry.sd st) in
  (ok, Lastry.set_sd c st).

(** The [CREATE_FILE] command of [loop]: the new value of
    [customFilePrefix] and the new state. *)
Definition cmd_CREATE_FILE (customFilePrefix : string) (st : Lastry.State)
  : string * Lastry.State :=
  let st :=
    if negb (Lastry.sdCardReady st) then
      let '(ok, st) := initializeSDCard st in
      Lastry.set_sdCardReady ok st
    else st in
  if negb (Lastry.sdCardReady st) then (customFilePrefix, st) else
  let customFilePrefix :=
    if (String.length customFilePrefix =? 0)%nat then LOG_FILE_PREFIX
    else customFilePrefix in
  let st := match Lastry.logFile st with
            | Some _ => Lastry.set_logFile None st
            | None => st
            end in
  (customFilePrefix, snd (createNewLogFile customFilePrefix st)).

(** The [START_LOG] command of [loop]. *)
Definition cmd_START_LOG (st : Lastry.State) : Lastry.State :=
  let st :=
    if negb (Lastry.sdCardReady st) then snd (initializeSDCard st)
    else st in
  if negb (Lastry.sdCardReady st) then st else
  if negb (Lastry.is_open st) then st else
  let st := Lastry.set_loggingEnabled true st in
  Lastry.set_stoppedByUser false st.

(** The [STOP_LOG] command of [loop]. *)
Definition cmd_STOP_LOG (st : Lastry.State) : Lastry.State :=
  let st := Lastry.set_loggingEnabled false st in
  let st := Lastry.set_stoppedByUser true st in
  Lastry.closeCurrentFile st.

(** The block of [loop] that keeps the logging state consistent,
    before a frame is read. *)
Definition logging_state_check (st : Lastry.State) : Lastry.State :=
  if Lastry.loggingEnabled st then
    let st :=
      if negb (Lastry.sdCardReady st) then
        let '(ok, st) := initializeSDCard st in
        let st := Lastry.set_sdCardReady ok st in
        if negb (Lastry.sdCardReady st) then
          let st := Lastry.set_loggingEnabled false st in
          Lastry.set_stoppedByUser true st
        else st
      else st in
    if Lastry.sdCardReady st && negb (Lastry.is_open st) then
      let st := Lastry.set_loggingEnabled false st in
      Lastry.set_stoppedByUser true st
    else st
  else st.

(** The open log file of [st] holds the text [text], the handle writes
    at its end, and the byte counter is the file's size. *)
Definition plain_log_holds (st : Lastry.State) (text : list Z) : Prop :=
  exists f,
    Lastry.logFile st = Some f
    /\ SD.path f = Lastry.currentLogFileName st
    /\ SD.files (Lastry.sd st) !! SD.path f = Some text
    /\ (SD.appending f = true \/ SD.pos f = Z.of_nat (length text))
    /\ Lastry.currentFileSize st = u32 (Z.of_nat (length text)).

End Firmware.

(** The bytes of a text line as [println] writes it. *)
Definition crlf_line (line : string) : list Z :=
  bytes_of_string line ++ [13; 10].

(** The outcomes of the next two operations of the card. *)
Definition next_two (c : SD.Card) : bool * bool :=
  ((SD.next c).1, (SD.next (SD.next c).2).1).

(** What a [println] of [line] puts in the file when its two writes
    have the outcomes [o]: the line, if the first write is done, and
    CR LF, if the second is. *)
Definition println_part (line : string) (o : bool * bool) : list Z :=
  (if o.1 then bytes_of_string line else [])
  ++ (if o.2 then [13; 10] else []).

End LastryFiles.

(** For the worked examples: the plain-CSV logger while it records to
    a log file of three bytes. [outs] lists the outcomes of the card
    operations to come, [truncates] is what the platform's [FILE_WRITE]
    does, [ready] the flag [sdCardReady]. *)
Definition plain_state (outs : list bool) (truncates ready : bool)
  : Lastry.State :=
  {| Lastry.sd :=
       {| SD.files :=
            {[ "/CAN_LOG_20231114_221320.csv"%string := [49; 13; 10] ]};
          SD.dirs := ∅;
          SD.outcomes := outs;
          SD.write_truncates := truncates |};
     Lastry.millis := 5000;
     Lastry.micros := 5000000;
     Lastry.baseTime := 1700000000;
     Lastry.bootMillis := 0;
     Lastry.rtcAvailable := true;
     Lastry.logFile := Some {| SD.path := "/CAN_LOG_20231114_221320.csv";
                               SD.pos := 3;
                               SD.appending := negb truncates |};
     Lastry.currentLogFileName := "/CAN_LOG_20231114_221320.csv";
     Lastry.currentFileSize := 3;
     Lastry.sdCardReady := ready;
     Lastry.loggingEnabled := true;
     Lastry.stoppedByUser := false;
     Lastry.messageCount := 41;
     Lastry.live := Live.initial |}.

(** For the worked examples: the plain-CSV logger after the size limit
    has stopped logging, the log file on the card one byte above
    [MAX_FILE_SIZE]. *)
Definition full_log : list Z :=
  replicate (Z.to_nat (Lastry.MAX_FILE_SIZE + 1)) 48.

Definition stopped_full_state : Lastry.State :=
  {| Lastry.sd :=
       {| SD.files :=
            {[ "/CAN_LOG_20231114_221320.csv"%string := full_log ]};
          SD.dirs := ∅;
          SD.outcomes := [];
          SD.write_truncates := false |};
     Lastry.millis := 5000;
     Lastry.micros := 5000000;
     Lastry.baseTime := 1700000000;
     Lastry.bootMillis := 0;
     Lastry.rtcAvailable := true;
     Lastry.logFile := None;
     Lastry.currentLogFileName := "/CAN_LOG_20231114_221320.csv";
     Lastry.currentFileSize := Lastry.MAX_FILE_SIZE + 1;
     Lastry.sdCardReady := true;
     Lastry.loggingEnabled := false;
     Lastry.stoppedByUser := true;
     Lastry.messageCount := 41;
     Lastry.live := Live.initial |}.

(** ** DBC signal extraction ([extractBitsBE], firmware with the DBC
    decoder) *)

Module Dbc.

(** The loop of [extractBitsBE] with [n] rounds to go; it breaks when
    [byteIndex] leaves the payload. *)
Fixpoint extract_loop (data : list Z) (n : nat)
    (value byteIndex bitInByte : Z) : option Z :=
  match n with
  | O => Some value
  | S n =>
      if (byteIndex <? 0) || (8 <=? byteIndex) then Some value else
      b ← array_get data byteIndex;
      let bit := Z.land (Z.shiftr b bitInByte) 0x01 in
      let value := u32 (Z.lor (Z.shiftl value 1) bit) in
      if bitInByte =? 0 then extract_loop data n value (byteIndex + 1) 7
      else extract_loop data n value byteIndex (bitInByte - 1)
  end.

(** [extractBitsBE(data, startBit, length)] *)
Definition extractBitsBE (data : list Z) (startBit length : Z) : option Z :=
  let value := 0 in
  if length =? 0 then Some 0 else
  let byteIndex := startBit / 8 in
  let bitInByte := startBit mod 8 in
  extract_loop data (Z.to_nat length) value byteIndex bitInByte.

End Dbc.

(** The number that the bytes [bs] spell, most significant byte
    first. *)
Definition be_value (bs : list Z) : Z :=
  foldl (fun acc b => 256 * acc + b) 0 bs.

(** ** The payload dump of the receive loop

    Both firmwares print the payload of a received frame with
    [for (int i = 0; i < frame.data_length_code; i++)
       Serial.printf("%02X", frame.data[i]);]
    [serial_payload_dump] is the text printed, [None] when a read falls
    outside [data]; [hex2] is what ["%02X"] prints for a byte. *)
Definition serial_dump_step (frame : CanFrame) (acc : option string) (i : Z)
  : option string :=
  out ← acc;
  b ← array_get (data frame) i;
  Some (out +:+ hex2 b).

Definition serial_payload_dump (frame : CanFrame) : option string :=
  foldl (serial_dump_step frame) (Some "") (seqZ 0 (data_length_code frame)).

(** The two hexadecimal digits of each byte, in a row. *)
Fixpoint hex_text (bs : list Z) : string :=
  match bs with
  | [] => ""
  | b :: rest => hex2 b +:+ hex_text rest
  end.

(** ** The web handlers of the plain-CSV firmware *)

Module LastryWeb.

(** The name under which [handleFileList] reports a regular file of the
    root folder whose [file.name()] is [name]; [None] when the file is
    left out of the list. *)
Definition listed_name (name : string) : option string :=
  if Web.endsWith name ".csv" then
    let fileName := name in
    let fileName :=
      if String.prefix "/" fileName then Web.substring_from 1 fileName
      else fileName in
    Some fileName
  else None.

(** [fileName.indexOf("/") >= 0] *)
Definition has_slash (s : string) : bool :=
  match String.index 0 "/" s with Some _ => true | None => false end.

(** [handleFileDownload]: the HTTP status sent and the new state;
    [fileName] is the request's [file] argument. *)
Definition handleFileDownload (fileName : string) (st : Lastry.State)
  : Z * Lastry.State :=
  if negb (Lastry.sdCardReady st) then (503, st) else
  if (String.length fileName =? 0)%nat then (400, st) else
  if Encoded.has_dotdot fileName || has_slash fileName then (403, st) else
  let '(file, c) := SD.open_read ("/" +:+ fileName) (Lastry.sd st) in
  let st := Lastry.set_sd c st in
  match file with
  | None => (404, st)
  | Some _ => (200, st)
  end.

End LastryWeb.

(** The number of slashes of a name. *)
Fixpoint count_slashes (s : string) : nat :=
  match s with
  | EmptyString => 0
  | String c rest => (if Ascii.eqb c "/" then 1 else 0) + count_slashes rest
  end.

(** ** The push invariant as the specification words it

    One push on the buffer [lb]: the counter goes up by exactly 1 and
    the frame sits, under the new sequence number, in the slot of that
    number. *)
Definition push_claim (frame : CanFrame) (timestamp micros_ : Z)
    (text : string) (lb : Live.Buffer) : Prop :=
  exists lb',
    Live.storeLiveFrame frame timestamp micros_ text lb = Some lb'
    /\ Live.liveFrameCounter lb' = Live.liveFrameCounter lb + 1
    /\ Live.liveFrameBuffer lb' !! Live.slot_of (Live.liveFrameCounter lb')
       = Some (Live.stored frame timestamp micros_ text
                 (Live.liveFrameCounter lb + 1)).

(** For the worked examples: the buffer after 2^32 - 1 pushes of the
    example frame. The counter is [UINT32_MAX]; slot [i] holds the
    sequence number of the last 200 that belongs there, 4294967201 to
    4294967295 in the slots 0 to 94 and 4294967096 to 4294967200 in the
    slots 95 to 199. *)
Definition saturated_buffer : Live.Buffer :=
  {| Live.liveFrameBuffer :=
       (fun i =>
          Live.stored example_frame 1700000000 250000 "2023-11-14 22:13:20"
            (if i <? 95 then 4294967201 + i else 4294967001 + i))
       <$> seqZ 0 200;
     Live.liveFrameCounter := 4294967295 |}.

(** For the worked examples: the encrypted logger on its target, the
    ESP32, whose [FILE_WRITE] is the mode ["w"] and empties an existing
    file; the log file of [Encoded.example_state] is open, 19 bytes
    long. *)
Definition target_state (outs : list bool) : Encoded.State (float := unit) :=
  Encoded.set_logFile
    (Some {| SD.path := Encoded.example_name; SD.pos := 19;
             SD.appending := false |})
    (Encoded.set_sd
       {| SD.files := SD.files (Encoded.example_card outs);
          SD.dirs := SD.dirs (Encoded.example_card outs);
          SD.outcomes := outs;
          SD.write_truncates := true |}
       (Encoded.example_state outs true)).

(** * Properties *)

(** ** Machine integers *)

Lemma u32_range x : 0 <= u32 x < 2 ^ 32.
Proof. unfold u32. apply Z.mod_pos_bound. lia. Qed.

Lemma u8_range x : is_byte (u8 x).
Proof.
  unfold u8, is_byte. change 256 with (2 ^ 8). apply Z.mod_pos_bound. lia.
Qed.

Lemma u8_id b : is_byte b -> u8 b = b.
Proof. unfold u8, is_byte. intros H. apply Z.mod_small. simpl. lia. Qed.

Lemma u32_id x : 0 <= x < 2 ^ 32 -> u32 x = x.
Proof. unfold u32. intros H. apply Z.mod_small. lia. Qed.

Lemma u8_testbit x n :
  0 <= n -> Z.testbit (u8 x) n = if n <? 8 then Z.testbit x n else false.
Proof.
  intros Hn. unfold u8. destruct (Z.ltb_spec n 8).
  - apply Z.mod_pow2_bits_low. lia.
  - apply Z.mod_pow2_bits_high. lia.
Qed.

(** XOR-ing twice with the same stream byte gives the input back, through
    both [uint8_t] truncations. *)
Lemma u8_lxor_cancel p s : u8 (Z.lxor (u8 (Z.lxor p s)) s) = u8 p.
Proof.
  apply Z.bits_inj'. intros n Hn.
  rewrite !u8_testbit by assumption.
  destruct (n <? 8) eqn:E; [|reflexivity].
  rewrite Z.lxor_spec, u8_testbit, E, Z.lxor_spec by assumption.
  destruct (Z.testbit p n), (Z.testbit s n); reflexivity.
Qed.

Lemma lxor_byte a b : is_byte a -> is_byte b -> is_byte (Z.lxor a b).
Proof.
  intros Ha Hb. rewrite <- (u8_id a Ha), <- (u8_id b Hb).
  assert (E : Z.lxor (u8 a) (u8 b) = u8 (Z.lxor a b)).
  { apply Z.bits_inj'. intros n Hn.
    rewrite Z.lxor_spec, !u8_testbit, Z.lxor_spec by assumption.
    destruct (n <? 8); reflexivity. }
  rewrite E. apply u8_range.
Qed.

Lemma land_255 x : Z.land x 0xFF = x mod 2 ^ 8.
Proof. change 0xFF with (Z.ones 8). apply Z.land_ones. lia. Qed.

Lemma land_15 x : Z.land x 0x0F = x mod 2 ^ 4.
Proof. change 0x0F with (Z.ones 4). apply Z.land_ones. lia. Qed.

Lemma top_byte s : 0 <= s < 2 ^ 32 -> is_byte (Z.shiftr s 24).
Proof.
  intros H. rewrite Z.shiftr_div_pow2 by lia. unfold is_byte. split.
  - apply Z.div_pos; lia.
  - apply Z.div_lt_upper_bound; lia.
Qed.

(** ** Stream cipher *)

Lemma resetCipherState_initialize (key : list Z) nonce :
  length key = 16%nat ->
  Cipher.resetCipherState key nonce = CipherSpec.initialize nonce key.
Proof.
  intros key_len.
  do 17 (destruct key as [|? key]; try discriminate key_len).
  unfold Cipher.resetCipherState, CipherSpec.initialize, Cipher.keyAt, u32.
  change (seqZ 0 16)
    with [0; 1; 2; 3; 4; 5; 6; 7; 8; 9; 10; 11; 12; 13; 14; 15].
  cbn [foldl fold_left].
  repeat match goal with
         | |- context [Z.to_nat ?k] =>
             let n := eval compute in (Z.to_nat k) in
             change (Z.to_nat k) with n
         end.
  cbn [nth]. reflexivity.
Qed.

Section CipherFacts.
Variable key : list Z.
Hypothesis key_len : length key = 16%nat.
Hypothesis key_bytes : Forall is_byte key.

Lemma keyAt_byte s : is_byte (Cipher.keyAt key (Z.land s 0x0F)).
Proof.
  unfold Cipher.keyAt. rewrite land_15.
  assert (Hm : 0 <= s mod 2 ^ 4 < 16) by (apply Z.mod_pos_bound; lia).
  assert (Hi : (Z.to_nat (s mod 2 ^ 4) < length key)%nat) by lia.
  apply (proj1 (List.Forall_forall _ _) key_bytes), nth_In, Hi.
Qed.

Lemma encryptByte_next_byte b st :
  is_byte b ->
  Cipher.encryptByte key b st
  = (Z.lxor b (CipherSpec.next_byte key st).1, (CipherSpec.next_byte key st).2).
Proof.
  intros Hb. unfold Cipher.encryptByte, CipherSpec.next_byte. simpl.
  fold (u32 (st * 1664525 + 1013904223)).
  set (s := u32 (st * 1664525 + 1013904223)).
  assert (Hs : 0 <= s < 2 ^ 32) by apply u32_range.
  pose proof (top_byte s Hs) as Ht.
  pose proof (keyAt_byte s) as Hk. unfold Cipher.keyAt in *.
  rewrite land_255. fold (u8 (Z.shiftr s 24)). rewrite (u8_id _ Ht).
  rewrite (u8_id (Z.lxor (Z.shiftr s 24) _)) by (apply lxor_byte; assumption).
  rewrite u8_id; [reflexivity|].
  apply lxor_byte; [assumption|]. apply lxor_byte; assumption.
Qed.

Lemma encryptBytes_keystream P : forall st n p,
  Forall is_byte P -> P !! n = Some p ->
  (Cipher.encryptBytes key P st).1 !! n
  = Some (Z.lxor p (CipherSpec.next_byte key (CipherSpec.state_after key st n)).1).
Proof.
  induction P as [|b P IH]; intros st n p HP Hn; [discriminate|].
  apply Forall_cons in HP as [Hb HP].
  cbn [Cipher.encryptBytes]. rewrite (encryptByte_next_byte b st Hb).
  destruct (Cipher.encryptBytes key P (CipherSpec.next_byte key st).2)
    as [cs st2] eqn:E.
  destruct n as [|n]; cbn [fst lookup list_lookup CipherSpec.state_after] in *.
  - congruence.
  - specialize (IH (CipherSpec.next_byte key st).2 n p HP Hn).
    rewrite E in IH. exact IH.
Qed.
End CipherFacts.

Lemma encryptBytes_involutive key P : forall st,
  Forall is_byte P ->
  Cipher.encryptBytes key (Cipher.encryptBytes key P st).1 st
  = (P, (Cipher.encryptBytes key P st).2).
Proof.
  induction P as [|b P IH]; intros st HP; [reflexivity|].
  apply Forall_cons in HP as [Hb HP].
  cbn [Cipher.encryptBytes]. unfold Cipher.encryptByte.
  set (s := u32 (st * 1664525 + 1013904223)).
  set (sb := u8 (Z.lxor (Z.land (Z.shiftr s 24) 255)
                        (Cipher.keyAt key (Z.land s 15)))).
  destruct (Cipher.encryptBytes key P s) as [cs st2] eqn:E.
  cbn [fst snd Cipher.encryptBytes]. unfold Cipher.encryptByte.
  fold s. fold sb.
  rewrite u8_lxor_cancel, (u8_id b Hb).
  specialize (IH s HP). rewrite E in IH. cbn [fst snd] in IH. rewrite IH.
  reflexivity.
Qed.

(** C1. The cipher engine is the specified algorithm: [resetCipherState]
    is [initialize] (XOR with 0xA5A5A5A5, then one wrapping LCG step plus
    the key byte for each of the 16 key bytes in order); one
    [encryptByte] call XORs its input with the [next_byte] keystream byte
    and advances the state as [next_byte] does; and the [n]-th byte that
    the byte loop emits is the [n]-th plaintext byte XOR the keystream
    byte that depends on the nonce, the key and [n] only. *)
Theorem C1_cipher_algorithm (key : list Z) (nonce : Z) (P : list Z)
    (n : nat) (p : Z) :
  length key = 16%nat -> Forall is_byte key ->
  Forall is_byte P -> P !! n = Some p ->
  Cipher.resetCipherState key nonce = CipherSpec.initialize nonce key
  /\ (forall b st, is_byte b ->
        Cipher.encryptByte key b st
        = (Z.lxor b (CipherSpec.next_byte key st).1,
           (CipherSpec.next_byte key st).2))
  /\ (Cipher.encryptBytes key P (Cipher.resetCipherState key nonce)).1 !! n
     = Some (Z.lxor p (CipherSpec.keystream_byte nonce key n)).
Proof.
  intros Hlen Hkey HP Hn. split; [|split].
  - apply resetCipherState_initialize, Hlen.
  - intros b st Hb. apply encryptByte_next_byte; assumption.
  - unfold CipherSpec.keystream_byte.
    rewrite <- (resetCipherState_initialize key nonce Hlen).
    apply encryptBytes_keystream; assumption.
Qed.

Lemma ENCRYPTION_KEY_bytes : Forall is_byte ENCRYPTION_KEY.
Proof. unfold ENCRYPTION_KEY, is_byte. repeat constructor; lia. Qed.

(** C1 on the firmware's key, a nonce and a two-byte plaintext. *)
Lemma C1_witness :
  Cipher.resetCipherState ENCRYPTION_KEY 0x12345678
  = CipherSpec.initialize 0x12345678 ENCRYPTION_KEY
  /\ (forall b st, is_byte b ->
        Cipher.encryptByte ENCRYPTION_KEY b st
        = (Z.lxor b (CipherSpec.next_byte ENCRYPTION_KEY st).1,
           (CipherSpec.next_byte ENCRYPTION_KEY st).2))
  /\ (Cipher.encryptBytes ENCRYPTION_KEY [72; 105]
        (Cipher.resetCipherState ENCRYPTION_KEY 0x12345678)).1 !! 1%nat
     = Some (Z.lxor 105 (CipherSpec.keystream_byte 0x12345678 ENCRYPTION_KEY 1)).
Proof.
  apply (C1_cipher_algorithm ENCRYPTION_KEY 0x12345678 [72; 105] 1 105).
  - reflexivity.
  - unfold ENCRYPTION_KEY, is_byte. repeat constructor; lia.
  - unfold is_byte. repeat constructor; lia.
  - reflexivity.
Defined.

(** C2. Encryption and decryption are the same operation: running the
    byte loop over the ciphertext, from the same initialised state, gives
    the plaintext back. *)
Theorem C2_cipher_roundtrip (key : list Z) (nonce : Z) (P : list Z) :
  Forall is_byte P ->
  (Cipher.encryptBytes key
     (Cipher.encryptBytes key P (Cipher.resetCipherState key nonce)).1
     (Cipher.resetCipherState key nonce)).1 = P.
Proof.
  intros HP. rewrite encryptBytes_involutive by assumption. reflexivity.
Qed.

(** C2 on the firmware's key and a six-byte plaintext. *)
Lemma C2_witness :
  (Cipher.encryptBytes ENCRYPTION_KEY
     (Cipher.encryptBytes ENCRYPTION_KEY [49; 50; 51; 44; 65; 66]
        (Cipher.resetCipherState ENCRYPTION_KEY 0xDEADBEEF)).1
     (Cipher.resetCipherState ENCRYPTION_KEY 0xDEADBEEF)).1
  = [49; 50; 51; 44; 65; 66].
Proof.
  apply (C2_cipher_roundtrip ENCRYPTION_KEY 0xDEADBEEF [49; 50; 51; 44; 65; 66]).
  unfold is_byte. repeat constructor; lia.
Defined.

(** ** Record encoder *)

Lemma append_cons x (a b : string) : String x a +:+ b = String x (a +:+ b).
Proof. reflexivity. Qed.

Lemma append_assoc (a b c : string) : (a +:+ b) +:+ c = a +:+ (b +:+ c).
Proof.
  induction a as [|x a IH]; [reflexivity|].
  rewrite !append_cons, IH. reflexivity.
Qed.

Lemma append_nil_r (a : string) : a +:+ "" = a.
Proof.
  induction a as [|x a IH]; [reflexivity|].
  rewrite append_cons, IH. reflexivity.
Qed.

Lemma data_column_step_None frame dlc l :
  foldl (data_column_step frame dlc) None l = None.
Proof. induction l as [|i l IH]; [reflexivity|exact IH]. Qed.

Lemma data_column_fold_prefix frame dlc line l : forall acc,
  foldl (data_column_step frame dlc) (Some (line +:+ acc)) l
  = cols ← foldl (data_column_step frame dlc) (Some acc) l;
    Some (line +:+ cols).
Proof.
  induction l as [|i l IH]; intros acc; [reflexivity|].
  cbn [foldl]. unfold data_column_step at 2 4.
  cbn [mbind option_bind].
  destruct (i <? dlc).
  - destruct (array_get (data frame) i) as [b|]; cbn [mbind option_bind].
    + destruct (b <? 16); rewrite <- IH; repeat rewrite append_assoc;
        reflexivity.
    + rewrite data_column_step_None. reflexivity.
  - rewrite <- IH. repeat rewrite append_assoc. reflexivity.
Qed.

(** The data columns do not depend on the line they are appended to. *)
Lemma append_data_columns_prefix frame dlc line :
  append_data_columns frame dlc line
  = cols ← append_data_columns frame dlc ""; Some (line +:+ cols).
Proof.
  unfold append_data_columns.
  rewrite <- (append_nil_r line) at 1.
  apply data_column_fold_prefix.
Qed.

(** On a byte, [writeCANMessage]'s data column is two uppercase hex
    digits. *)
Lemma data_column_hex2 b :
  is_byte b ->
  (if b <? 0x10 then "0" else "") +:+ toUpperCase (String_unsigned b HEX)
  = hex2 b.
Proof.
  intros Hb.
  assert (Hall : forallb (fun b =>
            String.eqb ((if b <? 0x10 then "0" else "") +:+
                        toUpperCase (String_unsigned b HEX)) (hex2 b))
            (seqZ 0 256) = true) by (vm_compute; reflexivity).
  rewrite forallb_forall in Hall.
  apply String.eqb_eq, Hall, list_elem_of_In, elem_of_seqZ.
  unfold is_byte in Hb. lia.
Qed.

Lemma data_step b acc :
  is_byte b ->
  (if b <? 0x10 then acc +:+ "0" else acc) +:+ toUpperCase (String_unsigned b HEX)
  = acc +:+ hex2 b.
Proof.
  intros Hb. rewrite <- (data_column_hex2 b Hb).
  destruct (b <? 16); [apply append_assoc|reflexivity].
Qed.

(** Only the indices 0..7 are compared with the bound. *)
Lemma append_data_columns_min frame d line :
  append_data_columns frame d line
  = append_data_columns frame (Z.min d 8) line.
Proof.
  unfold append_data_columns.
  assert (Hl : Forall (fun i => i < 8) (seqZ 0 8))
    by (apply Forall_seqZ; lia).
  revert Hl. generalize (Some line). generalize (seqZ 0 8) as l.
  induction l as [|i l IH]; intros acc Hl; [reflexivity|].
  apply Forall_cons in Hl as [Hi Hl]. cbn [foldl].
  unfold data_column_step at 2 4.
  replace (i <? Z.min d 8) with (i <? d) by lia.
  apply IH, Hl.
Qed.

Local Arguments String_unsigned : simpl never.
Local Arguments hex2 : simpl never.

Lemma data_column_step_in frame d acc i b :
  0 <= i < d -> data frame !! Z.to_nat i = Some b -> is_byte b ->
  data_column_step frame d (Some acc) i = Some ((acc +:+ ",") +:+ hex2 b).
Proof.
  intros Hi Hget Hb. unfold data_column_step, array_get.
  cbn [mbind option_bind].
  replace (i <? d) with true by lia. replace (0 <=? i) with true by lia.
  rewrite Hget. cbn [mbind option_bind]. rewrite data_step by assumption.
  reflexivity.
Qed.

Lemma data_column_step_out frame d acc i :
  d <= i ->
  data_column_step frame d (Some acc) i = Some ((acc +:+ ",") +:+ hex2 0).
Proof.
  intros Hi. unfold data_column_step. cbn [mbind option_bind].
  replace (i <? d) with false by lia. reflexivity.
Qed.

Ltac eval_to_nat :=
  repeat match goal with
         | |- context [Z.to_nat ?k] =>
             let n := eval compute in (Z.to_nat k) in
             change (Z.to_nat k) with n
         end.

(** The loop of [writeCANMessage] never reads outside the payload and
    emits the eight columns of the padded payload. *)
Lemma append_data_columns_padded frame d :
  frame_ok frame ->
  Z.min d 8 = Z.min (data_length_code frame) 8 ->
  append_data_columns frame d ""
  = Some (columns (map hex2 (padded_payload frame))).
Proof.
  intros (_ & Hdlc & Hlen & Hbytes) Hd.
  rewrite append_data_columns_min, Hd.
  unfold padded_payload, is_byte in *.
  destruct frame as [id e r dlc dat]. cbn [data data_length_code] in *.
  do 9 (destruct dat as [|? dat]; try discriminate Hlen).
  repeat match goal with
         | H : Forall _ (_ :: _) |- _ => apply Forall_cons in H as [? H]
         end.
  remember (Z.min dlc 8) as m eqn:Hm.
  assert (Hcases : m = 0 \/ m = 1 \/ m = 2 \/ m = 3 \/ m = 4 \/ m = 5
                   \/ m = 6 \/ m = 7 \/ m = 8) by lia.
  clear Hm Hd.
  unfold append_data_columns.
  change (seqZ 0 8) with [0; 1; 2; 3; 4; 5; 6; 7].
  cbn [foldl].
  repeat (destruct Hcases as [-> | Hcases]); try subst m;
    repeat first
      [ erewrite data_column_step_in;
          [| lia | reflexivity | unfold is_byte; assumption]
      | rewrite data_column_step_out by lia ];
    eval_to_nat;
    cbn [Nat.sub take replicate app map columns];
    repeat rewrite append_assoc; reflexivity.
Qed.

Section EncoderFacts.
Context {float : Type}.
Variable float_zero : float.
Variable String_float : float -> Z -> string.
Variable localtime : Z -> tm.

Local Abbreviation format_line := (Encoded.format_line float_zero String_float localtime).
Local Abbreviation time_columns := (Encoded.time_columns localtime).
Local Abbreviation sensor_columns := (Encoded.sensor_columns float_zero String_float).

(** The line of the encrypted firmware, column group by column group. *)
Lemma Encoded_format_line_split frame timestamp micros_ s :
  format_line frame timestamp micros_ s
  = cols ← append_data_columns frame
             (if 8 <? data_length_code frame then 8
              else data_length_code frame) "";
    Some (time_columns timestamp micros_ +:+ frame_fields frame +:+ cols
          +:+ sensor_columns s).
Proof.
  unfold Encoded.format_line.
  rewrite append_data_columns_prefix.
  destruct (append_data_columns frame _ "") as [cols|];
    cbn [mbind option_bind]; [|reflexivity].
  unfold Encoded.time_columns, Encoded.sensor_columns, frame_fields.
  destruct (Encoded.gpsHasFix s); repeat rewrite append_assoc; reflexivity.
Qed.

(** The line of the plain firmware. *)
Lemma Lastry_format_line_split frame timestamp micros_ :
  Lastry.format_line localtime frame timestamp micros_
  = cols ← append_data_columns frame (data_length_code frame) "";
    Some (time_columns timestamp micros_ +:+ frame_fields frame +:+ cols).
Proof.
  unfold Lastry.format_line.
  rewrite append_data_columns_prefix.
  destruct (append_data_columns frame _ "") as [cols|];
    cbn [mbind option_bind]; [|reflexivity].
  unfold Encoded.time_columns, frame_fields.
  repeat rewrite append_assoc; reflexivity.
Qed.

Lemma Encoded_format_line_total frame timestamp micros_ s :
  frame_ok frame ->
  format_line frame timestamp micros_ s
  = Some (time_columns timestamp micros_ +:+ frame_fields frame
          +:+ columns (map hex2 (padded_payload frame))
          +:+ sensor_columns s).
Proof.
  intros Hok. rewrite Encoded_format_line_split.
  rewrite append_data_columns_padded; try assumption; [reflexivity|].
  destruct (Z.ltb_spec 8 (data_length_code frame)); lia.
Qed.

(** C3. The record of the example (identifier 0x123, standard, no RTR,
    data length 3, payload AB CD EF, whatever the other five payload
    cells hold) is encoded with the column run
    [",123,0,0,3,AB,CD,EF,00,00,00,00,00,"] between the timestamp columns
    and the sensor columns: the identifier in uppercase hexadecimal
    without prefix, the flags as 0, the length in decimal, eight data
    columns of two uppercase hexadecimal digits, the ones past the data
    length being 00. *)
Theorem C3_record_encoding_example
    (timestamp micros_ : Z) (s : Encoded.Sensors)
    (d3 d4 d5 d6 d7 : Z) :
  exists sensor_text,
    format_line
      {| identifier := 0x123; extd := false; rtr := false;
         data_length_code := 3;
         data := [0xAB; 0xCD; 0xEF; d3; d4; d5; d6; d7] |}
      timestamp micros_ s
    = Some (time_columns timestamp micros_
            +:+ ",123,0,0,3,AB,CD,EF,00,00,00,00,00," +:+ sensor_text)
    /\ sensor_columns s = "," +:+ sensor_text.
Proof.
  eexists. rewrite Encoded_format_line_split.
  split; [|reflexivity].
  reflexivity.
Qed.

End EncoderFacts.

(** ** Live ring buffer *)

Lemma padded_payload_length frame :
  length (data frame) = 8%nat -> length (padded_payload frame) = 8%nat.
Proof.
  intros H. unfold padded_payload.
  rewrite length_app, length_take, length_replicate, H. lia.
Qed.

Lemma padded_payload_clamped frame :
  length (data frame) = 8%nat -> 8 <= data_length_code frame ->
  padded_payload frame = data frame.
Proof.
  intros H Hd. unfold padded_payload.
  rewrite Z.min_r by lia. change (Z.to_nat 8) with 8%nat.
  rewrite take_ge by lia. cbn [Nat.sub replicate]. apply app_nil_r.
Qed.

(** The payload loops of [storeLiveFrame] stay inside both arrays and
    leave the padded payload in the slot. *)
Lemma store_payload_padded frame slot_data :
  frame_ok frame -> length slot_data = 8%nat ->
  Live.store_payload frame slot_data = Some (padded_payload frame).
Proof.
  intros (_ & Hdlc & Hlen & _) Hslot.
  destruct frame as [id e r dlc dat]. cbn [data data_length_code] in *.
  do 9 (destruct dat as [|? dat]; try discriminate Hlen).
  do 9 (destruct slot_data as [|? slot_data]; try discriminate Hslot).
  unfold is_byte in Hdlc.
  assert (Hcases : dlc = 0 \/ dlc = 1 \/ dlc = 2 \/ dlc = 3 \/ dlc = 4
                   \/ dlc = 5 \/ dlc = 6 \/ dlc = 7 \/ 8 <= dlc) by lia.
  unfold Live.store_payload, padded_payload. cbn [data data_length_code].
  repeat (destruct Hcases as [-> | Hcases]);
    try (vm_compute; reflexivity).
  rewrite Z.min_r by lia. rewrite (seqZ_nil dlc) by lia.
  vm_compute. reflexivity.
Qed.

Lemma array_get_lookup {A} (a : list A) (i : Z) :
  0 <= i -> array_get a i = a !! Z.to_nat i.
Proof. intros H. unfold array_get. replace (0 <=? i) with true by lia. reflexivity. Qed.

Lemma array_set_insert {A} (a : list A) (i : Z) (v : A) :
  0 <= i < Z.of_nat (length a) ->
  array_set a i v = Some (<[Z.to_nat i := v]> a).
Proof.
  intros H. unfold array_set.
  replace (0 <=? i) with true by lia.
  replace (i <? Z.of_nat (length a)) with true by lia. reflexivity.
Qed.

Lemma slot_index_range c : 0 <= c mod Live.LIVE_BUFFER_SIZE < 200.
Proof. unfold Live.LIVE_BUFFER_SIZE. apply Z.mod_pos_bound. lia. Qed.

(** What one push does to a well-formed buffer. *)
Lemma storeLiveFrame_stored frame timestamp micros_ text lb :
  Live.wf lb -> frame_ok frame ->
  0 <= Live.liveFrameCounter lb < 2 ^ 32 - 1 ->
  Live.storeLiveFrame frame timestamp micros_ text lb
  = Some {| Live.liveFrameBuffer :=
              <[Live.slot_of (Live.liveFrameCounter lb + 1) :=
                  Live.stored frame timestamp micros_ text
                              (Live.liveFrameCounter lb + 1)]>
                (Live.liveFrameBuffer lb);
            Live.liveFrameCounter := Live.liveFrameCounter lb + 1 |}.
Proof.
  intros [Hlen Hslots] Hok Hc.
  unfold Live.storeLiveFrame, Live.slot_of.
  rewrite (u32_id (Live.liveFrameCounter lb + 1)) by lia.
  replace (Live.liveFrameCounter lb + 1 - 1) with (Live.liveFrameCounter lb)
    by lia.
  rewrite (u32_id (Live.liveFrameCounter lb)) by lia.
  pose proof (slot_index_range (Live.liveFrameCounter lb)) as Hidx.
  set (idx := Live.liveFrameCounter lb mod Live.LIVE_BUFFER_SIZE) in *.
  rewrite array_get_lookup by lia.
  assert (Hlt : (Z.to_nat idx < length (Live.liveFrameBuffer lb))%nat).
  { rewrite Hlen. unfold Live.LIVE_BUFFER_SIZE. lia. }
  destruct (lookup_lt_is_Some_2 _ _ Hlt) as [slot Hslot].
  rewrite Hslot. cbn [mbind option_bind].
  assert (Hd : length (Live.data slot) = 8%nat).
  { rewrite Forall_lookup in Hslots. exact (Hslots _ _ Hslot). }
  rewrite (store_payload_padded frame _ Hok Hd). cbn [mbind option_bind].
  rewrite array_set_insert; [reflexivity|].
  rewrite Hlen. unfold Live.LIVE_BUFFER_SIZE. lia.
Qed.

Lemma initial_consistent : Live.consistent Live.initial.
Proof.
  unfold Live.consistent, Live.wf, Live.initial, Live.earliest.
  cbn [Live.liveFrameBuffer Live.liveFrameCounter].
  split; [split|split].
  - apply length_replicate.
  - apply Forall_replicate. reflexivity.
  - lia.
  - intros s Hs. unfold Live.LIVE_BUFFER_SIZE in Hs. lia.
Qed.

Lemma slot_of_distinct s c :
  0 < c - s < 200 -> Live.slot_of s <> Live.slot_of c.
Proof.
  intros Hsc Heq. unfold Live.slot_of, Live.LIVE_BUFFER_SIZE in Heq.
  pose proof (Z.mod_pos_bound (s - 1) 200 ltac:(lia)).
  pose proof (Z.mod_pos_bound (c - 1) 200 ltac:(lia)).
  assert (E : (s - 1) mod 200 = (c - 1) mod 200) by lia.
  assert (Hz : (c - 1 - (s - 1)) mod 200 = 0).
  { rewrite Zminus_mod, E, Z.sub_diag. reflexivity. }
  rewrite Z.mod_small in Hz by lia. lia.
Qed.

(** A push keeps every retained sequence number in its slot. *)
Lemma storeLiveFrame_consistent frame timestamp micros_ text lb :
  Live.consistent lb -> frame_ok frame ->
  Live.liveFrameCounter lb < 2 ^ 32 - 1 ->
  exists lb',
    Live.storeLiveFrame frame timestamp micros_ text lb = Some lb'
    /\ Live.consistent lb'
    /\ Live.liveFrameCounter lb' = Live.liveFrameCounter lb + 1.
Proof.
  intros (Hwf & Hc & Hseq) Hok Hmax.
  eexists. split; [apply storeLiveFrame_stored; [assumption..|lia]|].
  destruct Hwf as [Hlen Hslots].
  split; [|reflexivity].
  unfold Live.consistent, Live.wf, Live.earliest in *.
  cbn [Live.liveFrameBuffer Live.liveFrameCounter].
  set (c := Live.liveFrameCounter lb) in *.
  assert (Hlt : (Live.slot_of (c + 1) < length (Live.liveFrameBuffer lb))%nat).
  { rewrite Hlen. unfold Live.slot_of.
    pose proof (slot_index_range (c + 1 - 1)) as Hr.
    unfold Live.LIVE_BUFFER_SIZE in *. lia. }
  split; [split|split].
  - rewrite length_insert. exact Hlen.
  - apply Forall_insert; [exact Hslots|].
    apply padded_payload_length. apply Hok.
  - lia.
  - intros s Hs. unfold Live.LIVE_BUFFER_SIZE in *.
    destruct (Z.eq_dec s (c + 1)) as [-> | Hne].
    + eexists. split; [apply list_lookup_insert_eq; exact Hlt|reflexivity].
    + rewrite list_lookup_insert_ne by (apply not_eq_sym, slot_of_distinct; lia).
      apply Hseq. lia.
Qed.

Lemma storeAll_consistent arrivals : forall lb,
  Live.consistent lb ->
  Forall (fun a => frame_ok (Live.arr_frame a)) arrivals ->
  Live.liveFrameCounter lb + Z.of_nat (length arrivals) < 2 ^ 32 ->
  exists lb',
    Live.storeAll arrivals lb = Some lb'
    /\ Live.consistent lb'
    /\ Live.liveFrameCounter lb'
       = Live.liveFrameCounter lb + Z.of_nat (length arrivals).
Proof.
  induction arrivals as [|a rest IH]; intros lb Hcons Hok Hmax.
  - exists lb. cbn [length Live.storeAll].
    split; [reflexivity|]. split; [assumption|lia].
  - apply Forall_cons in Hok as [Ha Hrest].
    cbn [length] in Hmax.
    destruct (storeLiveFrame_consistent (Live.arr_frame a)
                (Live.arr_timestamp a) (Live.arr_micros a) (Live.arr_text a)
                lb Hcons Ha ltac:(lia)) as (lb1 & Hstore & Hcons1 & Hc1).
    destruct (IH lb1 Hcons1 Hrest ltac:(lia)) as (lb' & Hall & Hcons' & Hc').
    exists lb'. cbn [Live.storeAll]. rewrite Hstore. cbn [mbind option_bind].
    split; [assumption|]. split; [assumption|]. cbn [length]. lia.
Qed.

Lemma parse_limit_range limitArg : 1 <= Live.parse_limit limitArg <= 200.
Proof.
  unfold Live.parse_limit, Live.constrain, Live.LIVE_BUFFER_SIZE,
    Live.LIVE_DEFAULT_LIMIT.
  destruct limitArg as [r|]; [|lia].
  destruct (Z.ltb_spec 0 r); [|lia].
  destruct (Z.ltb_spec r 1); [lia|].
  destruct (Z.ltb_spec 200 r); lia.
Qed.

(** Whatever the slots hold (also in the middle of a race with a push),
    the query loop only returns a frame under the sequence number that is
    stored with it in the slot it was read from. *)
Lemma live_loop_fresh buf limit seqs : forall added frs,
  Live.live_loop buf limit seqs added = Some frs ->
  Forall (fun fr =>
            Live.seq fr ∈ seqs
            /\ array_get buf (u32 (Live.seq fr - 1) mod Live.LIVE_BUFFER_SIZE)
               = Some fr) frs.
Proof.
  induction seqs as [|s rest IH]; intros added frs H.
  - injection H as <-. constructor.
  - cbn [Live.live_loop] in H.
    destruct (added <? limit); [|injection H as <-; constructor].
    destruct (array_get buf _) as [fr|] eqn:Eget; [|discriminate H].
    cbn [mbind option_bind] in H.
    destruct (Z.eqb_spec (Live.seq fr) s) as [Es|Es]; cbn [negb] in H.
    + destruct (Live.live_loop buf limit rest (added + 1)) as [frs'|] eqn:El;
        [|discriminate H].
      cbn [mbind option_bind] in H. injection H as <-.
      constructor.
      * split; [rewrite Es; apply list_elem_of_here|].
        rewrite Es. exact Eget.
      * eapply Forall_impl; [exact (IH _ _ El)|].
        intros x [Hin Hx]. split; [apply list_elem_of_further, Hin|exact Hx].
    + eapply Forall_impl; [exact (IH _ _ H)|].
      intros x [Hin Hx]. split; [apply list_elem_of_further, Hin|exact Hx].
Qed.

(** On a consistent buffer the query loop returns the frames of the
    sequence numbers it visits, in order, until the limit is reached. *)
Lemma live_loop_consistent lb limit (k : nat) : forall start added,
  Live.consistent lb ->
  Live.earliest lb <= start ->
  start + Z.of_nat k - 1 <= Live.liveFrameCounter lb ->
  exists frs,
    Live.live_loop (Live.liveFrameBuffer lb) limit
                   (seqZ start (Z.of_nat k)) added = Some frs
    /\ Live.seq <$> frs = seqZ start (Z.min (Z.of_nat k) (limit - added))
    /\ Forall (fun fr =>
                 Live.liveFrameBuffer lb !! Live.slot_of (Live.seq fr)
                 = Some fr) frs.
Proof.
  induction k as [|k IH]; intros start added Hcons Hlo Hhi.
  - exists []. rewrite (seqZ_nil start (Z.of_nat 0)) by lia.
    cbn [Live.live_loop].
    split; [reflexivity|]. split; [|constructor].
    rewrite seqZ_nil by lia. reflexivity.
  - rewrite (seqZ_cons start) by lia.
    replace (Z.pred (Z.of_nat (S k))) with (Z.of_nat k) by lia.
    cbn [Live.live_loop].
    destruct (Z.ltb_spec added limit) as [Hlim|Hlim].
    + pose proof Hcons as (Hwf & Hc & Hseq).
      assert (Hstart : 1 <= start) by (unfold Live.earliest in Hlo; lia).
      destruct (Hseq start ltac:(lia)) as (fr & Hfr & Hs).
      rewrite (u32_id (start - 1)) by lia.
      rewrite array_get_lookup
        by (pose proof (slot_index_range (start - 1)); lia).
      fold (Live.slot_of start). rewrite Hfr. cbn [mbind option_bind].
      rewrite Hs, Z.eqb_refl. cbn [negb].
      destruct (IH (Z.succ start) (added + 1) Hcons ltac:(lia) ltac:(lia))
        as (frs & Hloop & Hseqs & Hall).
      rewrite Hloop. cbn [mbind option_bind].
      exists (fr :: frs). split; [reflexivity|]. split.
      * rewrite fmap_cons, Hs, Hseqs.
        rewrite (seqZ_cons start) by lia. f_equal. f_equal. lia.
      * constructor; [rewrite Hs; exact Hfr|exact Hall].
    + exists []. split; [reflexivity|]. split; [|constructor].
      rewrite seqZ_nil by lia. reflexivity.
Qed.

Lemma example_frame_ok : frame_ok example_frame.
Proof.
  unfold frame_ok, example_frame, is_byte. cbn [identifier data_length_code data].
  split; [lia|]. split; [lia|]. split; [reflexivity|].
  repeat constructor; lia.
Qed.

Lemma long_dlc_frame_ok : frame_ok long_dlc_frame.
Proof.
  unfold frame_ok, long_dlc_frame, is_byte. cbn [identifier data_length_code data].
  split; [lia|]. split; [lia|]. split; [reflexivity|].
  repeat constructor; lia.
Qed.

(** The state of the buffer after any run of pushes since boot. *)
Lemma storeAll_from_boot arrivals :
  Forall (fun a => frame_ok (Live.arr_frame a)) arrivals ->
  Z.of_nat (length arrivals) < 2 ^ 32 ->
  exists lb,
    Live.storeAll arrivals Live.initial = Some lb
    /\ Live.consistent lb
    /\ Live.liveFrameCounter lb = Z.of_nat (length arrivals).
Proof.
  intros Hok Hlen.
  destruct (storeAll_consistent arrivals Live.initial initial_consistent Hok)
    as (lb & Hall & Hcons & Hc).
  - cbn [Live.initial Live.liveFrameCounter]. lia.
  - exists lb. split; [assumption|]. split; [assumption|].
    rewrite Hc. reflexivity.
Qed.

(** The push made when the counter is at [UINT32_MAX]: the counter
    wraps to 0 and the frame is stored under the sequence number 0, in
    slot 95. *)
Lemma storeLiveFrame_wraps frame timestamp micros_ text lb :
  Live.wf lb -> frame_ok frame ->
  Live.liveFrameCounter lb = 2 ^ 32 - 1 ->
  Live.storeLiveFrame frame timestamp micros_ text lb
  = Some {| Live.liveFrameBuffer :=
              <[95%nat := Live.stored frame timestamp micros_ text 0]>
                (Live.liveFrameBuffer lb);
            Live.liveFrameCounter := 0 |}.
Proof.
  intros [Hlen Hslots] Hok Hc.
  unfold Live.storeLiveFrame. rewrite Hc.
  change (u32 (2 ^ 32 - 1 + 1)) with 0.
  change (u32 (0 - 1) mod Live.LIVE_BUFFER_SIZE) with 95.
  rewrite array_get_lookup by lia.
  change (Z.to_nat 95) with 95%nat.
  assert (Hlt : (95 < length (Live.liveFrameBuffer lb))%nat).
  { rewrite Hlen. unfold Live.LIVE_BUFFER_SIZE. lia. }
  destruct (lookup_lt_is_Some_2 _ _ Hlt) as [slot Hslot].
  rewrite Hslot. cbn [mbind option_bind].
  assert (Hd : length (Live.data slot) = 8%nat).
  { rewrite Forall_lookup in Hslots. exact (Hslots _ _ Hslot). }
  rewrite (store_payload_padded frame _ Hok Hd). cbn [mbind option_bind].
  rewrite array_set_insert; [reflexivity|].
  rewrite Hlen. unfold Live.LIVE_BUFFER_SIZE. lia.
Qed.

(** The example buffer at [UINT32_MAX] has the shape of the buffers
    that pushes since boot produce: every retained sequence number sits
    in its slot. *)
Lemma saturated_buffer_consistent : Live.consistent saturated_buffer.
Proof.
  unfold Live.consistent, Live.wf, Live.earliest, saturated_buffer.
  cbn [Live.liveFrameBuffer Live.liveFrameCounter].
  split; [split|split].
  - rewrite length_fmap, length_seqZ. reflexivity.
  - apply Forall_fmap, Forall_forall. intros i _. reflexivity.
  - lia.
  - intros s Hs. unfold Live.LIVE_BUFFER_SIZE in Hs.
    unfold Live.slot_of, Live.LIVE_BUFFER_SIZE.
    pose proof (Z.mod_pos_bound (s - 1) 200 ltac:(lia)) as Hr.
    eexists. rewrite list_lookup_fmap, lookup_seqZ_lt by lia.
    cbn [fmap option_fmap option_map]. split; [reflexivity|].
    cbn [Live.stored Live.seq]. rewrite Z2Nat.id by lia.
    rewrite Z.add_0_l.
    destruct (Z.ltb_spec ((s - 1) mod 200) 95) as [Hlt|Hge];
      revert Hlt || revert Hge; revert Hr;
      Z.div_mod_to_equations; lia.
Qed.




(** C8. A query whose [since] is older than the oldest retained sequence
    number starts from the oldest retained one: it succeeds, the
    sequence numbers of the frames returned are consecutive from
    [earliest] (as many as the limit allows), and each frame returned is
    the one its slot holds now, under the sequence number stored with
    it. *)
Theorem C8_since_clamp (arrivals : list Live.Arrival) (since : Z)
    (limitArg : option Z) :
  Forall (fun a => frame_ok (Live.arr_frame a)) arrivals ->
  1 <= Z.of_nat (length arrivals) < 2 ^ 32 ->
  since < Z.max 1 (Z.of_nat (length arrivals) - Live.LIVE_BUFFER_SIZE + 1) ->
  exists lb frs,
    Live.storeAll arrivals Live.initial = Some lb
    /\ Live.handleLiveData (Some since) limitArg lb
       = Some {| Live.latest := Z.of_nat (length arrivals);
                 Live.frames := frs |}
    /\ Live.seq <$> frs
       = seqZ (Live.earliest lb)
              (Z.min (Z.of_nat (length arrivals) - Live.earliest lb + 1)
                     (Live.parse_limit limitArg))
    /\ Forall (fun fr =>
                 Live.liveFrameBuffer lb !! Live.slot_of (Live.seq fr)
                 = Some fr) frs.
Proof.
  intros Hok Hlen Hsince.
  destruct (storeAll_from_boot arrivals Hok ltac:(lia))
    as (lb & Hall & Hcons & Hn).
  set (n := Z.of_nat (length arrivals)) in *.
  pose proof (parse_limit_range limitArg) as Hlim.
  assert (He : Live.earliest lb = Z.max 1 (n - Live.LIVE_BUFFER_SIZE + 1))
    by (unfold Live.earliest; rewrite Hn; reflexivity).
  unfold Live.LIVE_BUFFER_SIZE in *.
  destruct (live_loop_consistent lb (Live.parse_limit limitArg)
              (Z.to_nat (n - Live.earliest lb + 1)) (Live.earliest lb) 0
              Hcons ltac:(lia) ltac:(lia)) as (frs & Hloop & Hseqs & Hall').
  exists lb, frs. split; [assumption|].
  split; [|split; [|assumption]].
  - unfold Live.handleLiveData. rewrite Hn.
    replace (0 <? n) with true by lia.
    set (e := if Live.LIVE_BUFFER_SIZE <=? n
              then u32 (n - Live.LIVE_BUFFER_SIZE + 1) else 1).
    assert (Hee : e = Live.earliest lb).
    { subst e. unfold Live.LIVE_BUFFER_SIZE.
      destruct (Z.leb_spec 200 n); [rewrite u32_id by lia|]; lia. }
    assert (Hstart :
      (if n <? (if (if 0 <? Live.parse_since (Some since)
                    then u32 (Live.parse_since (Some since) + 1) else e) <? e
                then e
                else if 0 <? Live.parse_since (Some since)
                     then u32 (Live.parse_since (Some since) + 1) else e)
       then n
       else if (if 0 <? Live.parse_since (Some since)
                then u32 (Live.parse_since (Some since) + 1) else e) <? e
            then e
            else if 0 <? Live.parse_since (Some since)
                 then u32 (Live.parse_since (Some since) + 1) else e)
      = Live.earliest lb).
    { rewrite Hee. unfold Live.parse_since.
      destruct (Z.ltb_spec 0 since) as [Hpos|Hneg].
      - rewrite (u32_id since) by lia.
        replace (0 <? since) with true by lia.
        rewrite (u32_id (since + 1)) by lia.
        destruct (Z.ltb_spec (since + 1) (Live.earliest lb));
          destruct (Z.ltb_spec n (Live.earliest lb));
          destruct (Z.ltb_spec n (since + 1)); lia.
      - replace (0 <? 0) with false by reflexivity.
        rewrite Z.ltb_irrefl.
        destruct (Z.ltb_spec n (Live.earliest lb)); lia. }
    cbv zeta. rewrite Hstart.
    replace (n - Live.earliest lb + 1)
      with (Z.of_nat (Z.to_nat (n - Live.earliest lb + 1))) by lia.
    rewrite Hloop. reflexivity.
  - rewrite Hseqs. f_equal. lia.
Qed.

(** C8 after 205 pushes: [since = 2] is older than the oldest retained
    sequence number, 6. *)
Lemma C8_witness :
  exists lb frs,
    Live.storeAll (replicate 205 Live.example_arrival) Live.initial = Some lb
    /\ Live.handleLiveData (Some 2) (Some 10) lb
       = Some {| Live.latest := Z.of_nat (length (replicate 205 Live.example_arrival));
                 Live.frames := frs |}
    /\ Live.seq <$> frs
       = seqZ (Live.earliest lb)
              (Z.min (Z.of_nat (length (replicate 205 Live.example_arrival))
                      - Live.earliest lb + 1)
                     (Live.parse_limit (Some 10)))
    /\ Forall (fun fr =>
                 Live.liveFrameBuffer lb !! Live.slot_of (Live.seq fr)
                 = Some fr) frs.
Proof.
  apply (C8_since_clamp (replicate 205 Live.example_arrival) 2 (Some 10)).
  - apply Forall_replicate. exact example_frame_ok.
  - rewrite length_replicate. lia.
  - rewrite length_replicate. vm_compute. reflexivity.
Defined.

(** C5 (what the code does). When [since] is at or past the latest
    sequence number the query does not answer with an empty list: the
    clamp [if (startSeq > liveFrameCounter) startSeq = liveFrameCounter]
    makes the loop visit the latest sequence number, and the answer is
    the latest frame, whose sequence number is not above [since]. *)
Theorem C5_latest_frame_resent (arrivals : list Live.Arrival) (since : Z)
    (limitArg : option Z) :
  Forall (fun a => frame_ok (Live.arr_frame a)) arrivals ->
  1 <= Z.of_nat (length arrivals) < 2 ^ 32 ->
  Z.of_nat (length arrivals) <= since < 2 ^ 31 ->
  exists lb fr,
    Live.storeAll arrivals Live.initial = Some lb
    /\ Live.handleLiveData (Some since) limitArg lb
       = Some {| Live.latest := Z.of_nat (length arrivals);
                 Live.frames := [fr] |}
    /\ Live.seq fr = Z.of_nat (length arrivals)
    /\ Live.seq fr <= since.
Proof.
  intros Hok Hlen Hsince.
  destruct (storeAll_from_boot arrivals Hok ltac:(lia))
    as (lb & Hall & Hcons & Hn).
  set (n := Z.of_nat (length arrivals)) in *.
  pose proof (parse_limit_range limitArg) as Hlim.
  assert (He : 1 <= Live.earliest lb <= n).
  { unfold Live.earliest, Live.LIVE_BUFFER_SIZE. rewrite Hn. lia. }
  destruct (live_loop_consistent lb (Live.parse_limit limitArg)
              1%nat n 0 Hcons ltac:(lia) ltac:(lia))
    as (frs & Hloop & Hseqs & _).
  replace (Z.min (Z.of_nat 1) (Live.parse_limit limitArg - 0)) with 1
    in Hseqs by lia.
  rewrite (seqZ_cons n 1), seqZ_nil in Hseqs by lia.
  destruct frs as [|fr [|? ?]]; try discriminate Hseqs.
  injection Hseqs as Hfr.
  exists lb, fr. split; [assumption|].
  split; [|split; lia].
  unfold Live.handleLiveData. rewrite Hn.
  replace (0 <? n) with true by lia.
  unfold Live.parse_since.
  replace (0 <? since) with true by lia.
  rewrite (u32_id since) by lia.
  replace (0 <? since) with true by lia.
  rewrite (u32_id (since + 1)) by lia.
  set (e := if Live.LIVE_BUFFER_SIZE <=? n
            then u32 (n - Live.LIVE_BUFFER_SIZE + 1) else 1).
  assert (Hee : e = Live.earliest lb).
  { subst e. unfold Live.earliest, Live.LIVE_BUFFER_SIZE. rewrite Hn.
    destruct (Z.leb_spec 200 n); [rewrite u32_id by lia|]; lia. }
  cbv zeta.
  replace (since + 1 <? e) with false by lia.
  replace (n <? since + 1) with true by lia.
  replace (n - n + 1) with 1 by lia.
  change 1 with (Z.of_nat 1) at 1. rewrite Hloop. reflexivity.
Qed.

(** C5's behaviour on one push since boot and [since = 1]. *)
Lemma C5_witness :
  exists lb fr,
    Live.storeAll [Live.example_arrival] Live.initial = Some lb
    /\ Live.handleLiveData (Some 1) None lb
       = Some {| Live.latest := Z.of_nat (length [Live.example_arrival]);
                 Live.frames := [fr] |}
    /\ Live.seq fr = Z.of_nat (length [Live.example_arrival])
    /\ Live.seq fr <= 1.
Proof.
  apply (C5_latest_frame_resent [Live.example_arrival] 1 None).
  - repeat constructor; unfold is_byte; cbn; lia.
  - cbn. lia.
  - cbn. lia.
Defined.

(** C5 at the failing input: one frame since boot, then [/live?since=1].
    The answer carries the frame with sequence number 1. *)
Lemma C5_since_latest_not_empty :
  exists lb,
    Live.storeAll [Live.example_arrival] Live.initial = Some lb
    /\ (Live.frames <$> Live.handleLiveData (Some 1) None lb)
       = Some [Live.stored example_frame 1700000000 250000
                           "2023-11-14 22:13:20" 1].
Proof.
  eexists. split; [vm_compute; reflexivity|].
  vm_compute. reflexivity.
Qed.

Section EncoderTotal.
Context {float : Type}.
Variable float_zero : float.
Variable String_float : float -> Z -> string.
Variable localtime : Z -> tm.


End EncoderTotal.


(** The line of a frame whose data length code is 15, in full. *)
Example long_dlc_line :
  Encoded.format_line tt Encoded.no_float_text Encoded.utc
                      long_dlc_frame 1700000000 42 Encoded.no_sensors
  = Some ("2023-11-14 22:13:20,1700000000,42,7FF,0,0,15," +:+
          "11,22,33,44,55,66,77,88," +:+
          "0.0000,0.0000,0.0000,0.0000,0,0,0,0,0,0,0,0").
Proof. vm_compute. reflexivity. Qed.

(** The wrap-around scenario of the specification: after [2 * 200 + 5]
    pushes a query with [since = 0] and [limit = 200] answers with the
    sequence numbers 206 .. 405. *)
Example wraparound_query :
  (lb ← Live.storeAll (replicate 405 Live.example_arrival) Live.initial;
   r ← Live.handleLiveData (Some 0) (Some 200) lb;
   Some (Live.latest r, Live.seq <$> Live.frames r))
  = Some (405, seqZ 206 200).
Proof. vm_compute. reflexivity. Qed.

(** ** The SD card *)

Lemma SD_next_frame c ok c1 :
  SD.next c = (ok, c1) ->
  SD.files c1 = SD.files c /\ SD.dirs c1 = SD.dirs c
  /\ SD.write_truncates c1 = SD.write_truncates c.
Proof.
  unfold SD.next. destruct (SD.outcomes c) as [|o rest]; intros H;
    injection H as <- <-; repeat split.
Qed.

Lemma splice_at_end (old bs : list Z) :
  SD.splice old (Z.of_nat (length old)) bs = old ++ bs.
Proof.
  unfold SD.splice. rewrite Nat2Z.id.
  rewrite take_ge by lia. rewrite drop_ge by lia.
  rewrite app_nil_r. reflexivity.
Qed.

(** A successful write at the end of the file appends. *)
Lemma SD_write_buf_ok bs f c old n f' c' :
  SD.write_buf bs f c = (n, f', c') ->
  SD.files c !! SD.path f = Some old ->
  SD.appending f = true \/ SD.pos f = Z.of_nat (length old) ->
  n <> 0 ->
  n = Z.of_nat (length bs)
  /\ f' = SD.seek (Z.of_nat (length old) + Z.of_nat (length bs)) f
  /\ SD.files c' = <[SD.path f := old ++ bs]> (SD.files c)
  /\ SD.dirs c' = SD.dirs c
  /\ SD.write_truncates c' = SD.write_truncates c.
Proof.
  unfold SD.write_buf. intros H Hold Hend Hn.
  destruct (SD.next c) as [ok c1] eqn:Hnext.
  destruct (SD_next_frame _ _ _ Hnext) as (Hf & Hd & Hw).
  rewrite Hf, Hold in H.
  destruct ok; injection H as <- <- <-; [|congruence].
  assert (Hat : (if SD.appending f then Z.of_nat (length old) else SD.pos f)
                = Z.of_nat (length old)).
  { destruct Hend as [-> | ->]; [reflexivity|]. destruct (SD.appending f); reflexivity. }
  rewrite Hat, splice_at_end. cbn [SD.files SD.dirs SD.write_truncates SD.set_files].
  rewrite ?Hf, ?Hd, ?Hw. repeat split.
Qed.

(** ** The writer of the encrypted firmware *)

Section WriterFacts.
Context {float : Type}.
Variable float_zero : float.
Variable String_float : float -> Z -> string.
Variable localtime : Z -> tm.

Local Abbreviation State := (@Encoded.State float).
Local Abbreviation createNewLogFile := (Encoded.createNewLogFile localtime).
Local Abbreviation writeCANMessage :=
  (Encoded.writeCANMessage float_zero String_float localtime).
Local Abbreviation loop_receive :=
  (Encoded.loop_receive float_zero String_float localtime).
Local Abbreviation format_line :=
  (Encoded.format_line float_zero String_float localtime).

Lemma closeCurrentFile_closed (st : State) :
  Encoded.logFile (Encoded.closeCurrentFile st) = None.
Proof.
  unfold Encoded.closeCurrentFile.
  destruct (Encoded.logFile st) eqn:E; [reflexivity|exact E].
Qed.

(** A failed byte write closes the file and marks the card not ready. *)
Lemma write_encrypted_byte_fail b (st st' : State) :
  Encoded.write_encrypted_byte b st = (false, st') ->
  Encoded.logFile st' = None /\ Encoded.sdCardReady st' = false.
Proof.
  unfold Encoded.write_encrypted_byte.
  destruct (Cipher.encryptByte _ _ _) as [enc cs].
  destruct (Encoded.logFile_write _ _) as [n st2].
  destruct (n =? 1); cbn [negb]; intros H; [discriminate|].
  injection H as <-. cbn [Encoded.logFile Encoded.sdCardReady Encoded.set_sdCardReady].
  split; [apply closeCurrentFile_closed|reflexivity].
Qed.

Lemma write_encrypted_bytes_fail bytes : forall (st st' : State),
  Encoded.write_encrypted_bytes bytes st = (false, st') ->
  Encoded.logFile st' = None /\ Encoded.sdCardReady st' = false.
Proof.
  induction bytes as [|b rest IH]; intros st st' H; [discriminate|].
  cbn [Encoded.write_encrypted_bytes] in H.
  destruct (Encoded.write_encrypted_byte b st) as [ok st1] eqn:E.
  destruct ok; cbn [negb] in H.
  - exact (IH _ _ H).
  - injection H as <-. exact (write_encrypted_byte_fail _ _ _ E).
Qed.

(** [writeEncryptedLine] on an open file: a failure closes the file and
    marks the card not ready. *)
Lemma writeEncryptedLine_fail line (st st' : State) :
  Encoded.is_open st = true ->
  Encoded.writeEncryptedLine line st = (false, st') ->
  Encoded.logFile st' = None /\ Encoded.sdCardReady st' = false.
Proof.
  unfold Encoded.writeEncryptedLine. intros Hopen. rewrite Hopen.
  cbn [negb].
  destruct (Encoded.write_encrypted_bytes _ st) as [ok st1] eqn:E1.
  destruct ok; cbn [negb].
  - destruct (Encoded.write_encrypted_byte 10 st1) as [ok2 st2] eqn:E2.
    destruct ok2; cbn [negb]; intros H; [discriminate|].
    injection H as <-. exact (write_encrypted_byte_fail _ _ _ E2).
  - intros H. injection H as <-. exact (write_encrypted_bytes_fail _ _ _ E1).
Qed.

Lemma wrote_id (st : State) f :
  Encoded.logFile st = Some f ->
  Encoded.wrote f (Encoded.sd st) (Encoded.currentCipherState st) st = st.
Proof. destruct st. cbn. intros ->. reflexivity. Qed.

(** A successful byte write appends the encrypted byte. *)
Lemma write_encrypted_byte_ok b (st st' : State) f old :
  Encoded.write_encrypted_byte b st = (true, st') ->
  Encoded.logFile st = Some f ->
  Encoded.at_end f old (Encoded.sd st) ->
  exists c',
    st' = Encoded.wrote
            (SD.seek (Z.of_nat (length old) + 1) f) c'
            (Cipher.encryptByte ENCRYPTION_KEY b
               (Encoded.currentCipherState st)).2 st
    /\ SD.files c'
       = <[SD.path f :=
             old ++ [(Cipher.encryptByte ENCRYPTION_KEY b
                        (Encoded.currentCipherState st)).1]]>
           (SD.files (Encoded.sd st))
    /\ SD.dirs c' = SD.dirs (Encoded.sd st)
    /\ SD.write_truncates c' = SD.write_truncates (Encoded.sd st).
Proof.
  unfold Encoded.write_encrypted_byte, Encoded.logFile_write.
  intros H Hf [Hold Hend].
  destruct (Cipher.encryptByte _ _ _) as [enc cs].
  cbn [Encoded.logFile Encoded.set_currentCipherState Encoded.sd] in H.
  rewrite Hf in H. unfold SD.write in H.
  destruct (SD.write_buf [enc] f (Encoded.sd st)) as [[n f'] c'] eqn:Hw.
  destruct (Z.eqb_spec n 1) as [->|Hn]; cbn [negb] in H; [|discriminate].
  injection H as <-.
  destruct (SD_write_buf_ok _ _ _ _ _ _ _ Hw Hold Hend ltac:(lia))
    as (_ & -> & Hfiles & Hdirs & Hwt).
  exists c'. cbn [length Z.of_nat fst snd]. repeat split; assumption.
Qed.

(** A successful run of byte writes appends the ciphertext, in order. *)
Lemma write_encrypted_bytes_ok bytes : forall (st st' : State) f old,
  Encoded.write_encrypted_bytes bytes st = (true, st') ->
  Encoded.logFile st = Some f ->
  Encoded.at_end f old (Encoded.sd st) ->
  exists f' c',
    st' = Encoded.wrote f' c'
            (Cipher.encryptBytes ENCRYPTION_KEY bytes
               (Encoded.currentCipherState st)).2 st
    /\ SD.path f' = SD.path f
    /\ Encoded.at_end f'
         (old ++ (Cipher.encryptBytes ENCRYPTION_KEY bytes
                    (Encoded.currentCipherState st)).1) c'
    /\ SD.files c'
       = <[SD.path f :=
             old ++ (Cipher.encryptBytes ENCRYPTION_KEY bytes
                       (Encoded.currentCipherState st)).1]>
           (SD.files (Encoded.sd st))
    /\ SD.dirs c' = SD.dirs (Encoded.sd st)
    /\ SD.write_truncates c' = SD.write_truncates (Encoded.sd st).
Proof.
  induction bytes as [|b rest IH]; intros st st' f old H Hf Hend.
  - injection H as <-. exists f, (Encoded.sd st).
    cbn [Cipher.encryptBytes fst snd]. rewrite app_nil_r.
    destruct Hend as [Hold Hpos].
    split; [symmetry; apply wrote_id, Hf|].
    split; [reflexivity|]. split; [split; assumption|].
    split; [symmetry; apply insert_id, Hold|]. split; reflexivity.
  - cbn [Encoded.write_encrypted_bytes] in H.
    destruct (Encoded.write_encrypted_byte b st) as [ok st1] eqn:E.
    destruct ok; cbn [negb] in H; [|discriminate].
    destruct (write_encrypted_byte_ok _ _ _ _ _ E Hf Hend)
      as (c1 & -> & Hfiles1 & Hdirs1 & Hwt1).
    cbn [Cipher.encryptBytes].
    destruct (Cipher.encryptByte ENCRYPTION_KEY b
                (Encoded.currentCipherState st)) as [enc cs1] eqn:Eb.
    cbn [fst snd] in *.
    set (f1 := SD.seek (Z.of_nat (length old) + 1) f) in *.
    assert (Hend1 : Encoded.at_end f1 (old ++ [enc])
                      (Encoded.sd (Encoded.wrote f1 c1 cs1 st))).
    { split.
      - cbn. rewrite Hfiles1. apply lookup_insert_eq.
      - right. cbn. rewrite length_app. cbn. lia. }
    destruct (IH _ _ f1 (old ++ [enc]) H eq_refl Hend1)
      as (f' & c' & -> & Hpath & Hend' & Hfiles' & Hdirs' & Hwt').
    cbn [Encoded.currentCipherState Encoded.wrote Encoded.set_logFile
         Encoded.set_sd Encoded.set_currentCipherState Encoded.sd] in *.
    destruct (Cipher.encryptBytes ENCRYPTION_KEY rest cs1) as [cipher cs2].
    cbn [fst snd] in *.
    exists f', c'. rewrite <- app_assoc in *. cbn [app] in *.
    split; [reflexivity|]. split; [exact Hpath|]. split; [exact Hend'|].
    split; [|split; congruence].
    rewrite Hfiles', Hfiles1. apply insert_insert_eq.
Qed.

Lemma encryptBytes_app key a : forall b s,
  Cipher.encryptBytes key (a ++ b) s
  = ((Cipher.encryptBytes key a s).1
       ++ (Cipher.encryptBytes key b (Cipher.encryptBytes key a s).2).1,
     (Cipher.encryptBytes key b (Cipher.encryptBytes key a s).2).2).
Proof.
  induction a as [|x a IH]; intros b s.
  - cbn [app Cipher.encryptBytes fst snd].
    destruct (Cipher.encryptBytes key b s); reflexivity.
  - cbn [app Cipher.encryptBytes].
    destruct (Cipher.encryptByte key x s) as [c s1].
    rewrite IH.
    destruct (Cipher.encryptBytes key a s1) as [ca s2].
    reflexivity.
Qed.

(** A successful [writeEncryptedLine] appends the ciphertext of the line
    and of its newline, and adds their number to the byte counter. *)
Lemma writeEncryptedLine_ok line (st st' : State) f old :
  Encoded.writeEncryptedLine line st = (true, st') ->
  Encoded.logFile st = Some f ->
  Encoded.at_end f old (Encoded.sd st) ->
  exists f' c',
    st' = Encoded.set_currentFileSize
            (u32 (Encoded.currentFileSize st
                  + (Z.of_nat (String.length line) + 1)))
            (Encoded.wrote f' c'
               (Cipher.line_cipher line (Encoded.currentCipherState st)).2 st)
    /\ SD.path f' = SD.path f
    /\ Encoded.at_end f'
         (old ++ (Cipher.line_cipher line (Encoded.currentCipherState st)).1)
         c'
    /\ SD.files c'
       = <[SD.path f :=
             old ++ (Cipher.line_cipher line
                       (Encoded.currentCipherState st)).1]>
           (SD.files (Encoded.sd st))
    /\ SD.dirs c' = SD.dirs (Encoded.sd st)
    /\ SD.write_truncates c' = SD.write_truncates (Encoded.sd st).
Proof.
  unfold Encoded.writeEncryptedLine, Encoded.is_open. intros H Hf Hend.
  rewrite Hf in H. cbn [negb] in H.
  destruct (Encoded.write_encrypted_bytes _ st) as [ok st1] eqn:E1.
  destruct ok; cbn [negb] in H; [|discriminate].
  destruct (Encoded.write_encrypted_byte 10 st1) as [ok2 st2] eqn:E2.
  destruct ok2; cbn [negb] in H; [|discriminate].
  injection H as <-.
  destruct (write_encrypted_bytes_ok _ _ _ _ _ E1 Hf Hend)
    as (f1 & c1 & -> & Hp1 & Hend1 & Hfiles1 & Hd1 & Hw1).
  destruct (write_encrypted_byte_ok _ _ _ f1 _ E2 eq_refl Hend1)
    as (c2 & -> & Hfiles2 & Hd2 & Hw2).
  cbn [Encoded.currentCipherState Encoded.currentFileSize Encoded.wrote
       Encoded.set_logFile Encoded.set_sd Encoded.set_currentCipherState
       Encoded.sd] in *.
  unfold Cipher.line_cipher. rewrite encryptBytes_app.
  cbn [Cipher.encryptBytes fst snd].
  destruct (Cipher.encryptBytes ENCRYPTION_KEY (bytes_of_string line)
              (Encoded.currentCipherState st)) as [cipher cs1].
  cbn [fst snd] in *.
  destruct (Cipher.encryptByte ENCRYPTION_KEY 10 cs1) as [enc cs2].
  cbn [fst snd] in *.
  eexists _, c2. split; [reflexivity|].
  rewrite app_assoc.
  split; [cbn; exact Hp1|].
  split.
  { unfold Encoded.at_end. cbn [SD.path SD.seek SD.pos SD.appending].
    split.
    - rewrite Hfiles2, Hp1. apply lookup_insert_eq.
    - right. rewrite !length_app. cbn [length]. lia. }
  split; [|split; congruence].
  rewrite Hfiles2, Hfiles1, Hp1. apply insert_insert_eq.
Qed.

(** [createNewLogFile] returns with the file open when it succeeds and
    closed when it fails. *)
Lemma createNewLogFile_result (st st' : State) ok :
  createNewLogFile st = (ok, st') ->
  if ok then Encoded.is_open st' = true else Encoded.logFile st' = None.
Proof.
  unfold Encoded.createNewLogFile.
  set (st0 := match Encoded.logFile st with
              | Some _ => Encoded.set_logFile None st
              | None => st
              end).
  assert (H0 : Encoded.logFile st0 = None).
  { subst st0. destruct (Encoded.logFile st) eqn:E; [reflexivity|exact E]. }
  clearbody st0.
  destruct (negb (SD.exists_ "/CAN_Logged_Data" (Encoded.sd st0))).
  - destruct (SD.mkdir "/CAN_Logged_Data" (Encoded.sd st0)) as [okm c].
    destruct okm; cbn [negb].
    + destruct (SD.open_write _ _) as [fo c1]. unfold Encoded.is_open at 1.
      cbn [Encoded.logFile Encoded.set_logFile].
      destruct fo as [fo|]; cbn [negb].
      * destruct (Encoded.writeFileHeader _) as [okh st2].
        destruct okh; cbn [negb].
        -- unfold Encoded.is_open.
           destruct (Encoded.logFile st2) eqn:E2; intros H;
             injection H as <- <-; cbn;
             first [exact E2 | rewrite E2; reflexivity].
        -- intros H; injection H as <- <-. reflexivity.
      * intros H; injection H as <- <-. reflexivity.
    + intros H; injection H as <- <-. exact H0.
  - cbn [negb].
    destruct (SD.open_write _ _) as [fo c1]. unfold Encoded.is_open at 1.
    cbn [Encoded.logFile Encoded.set_logFile].
    destruct fo as [fo|]; cbn [negb].
    + destruct (Encoded.writeFileHeader _) as [okh st2].
      destruct okh; cbn [negb].
      * unfold Encoded.is_open.
        destruct (Encoded.logFile st2) eqn:E2; intros H;
          injection H as <- <-; cbn;
             first [exact E2 | rewrite E2; reflexivity].
      * intros H; injection H as <- <-. reflexivity.
    + intros H; injection H as <- <-. reflexivity.
Qed.

(** With the card ready and the file open, [writeCANMessage] is the
    encoder followed by [writeEncryptedLine]. *)
Lemma writeCANMessage_ready_open frame timestamp micros_ (st : State) :
  Encoded.sdCardReady st = true -> Encoded.is_open st = true ->
  writeCANMessage frame timestamp micros_ st
  = line ← format_line frame timestamp micros_ (Encoded.sensors st);
    Some (Encoded.writeEncryptedLine line st).
Proof.
  intros Hready Hopen. unfold Encoded.writeCANMessage.
  rewrite Hready. cbn [negb]. rewrite Hopen. cbn [negb]. reflexivity.
Qed.

(** Called with the card marked ready, a failing [writeCANMessage]
    leaves the file closed and the card marked not ready. *)
Lemma writeCANMessage_fail frame timestamp micros_ (st st' : State) :
  Encoded.sdCardReady st = true ->
  writeCANMessage frame timestamp micros_ st = Some (false, st') ->
  Encoded.logFile st' = None /\ Encoded.sdCardReady st' = false.
Proof.
  intros Hready. unfold Encoded.writeCANMessage.
  rewrite Hready. cbn [negb].
  destruct (Encoded.is_open st) eqn:Hopen; cbn [negb].
  - destruct (format_line _ _ _ _) as [line|]; cbn [mbind option_bind];
      [|discriminate].
    intros H. injection H as H. exact (writeEncryptedLine_fail _ _ _ Hopen H).
  - destruct (createNewLogFile st) as [okc st1] eqn:Ec.
    pose proof (createNewLogFile_result _ _ _ Ec) as Hres.
    destruct okc; cbn [negb].
    + destruct (format_line _ _ _ _) as [line|]; cbn [mbind option_bind];
        [|discriminate].
      intros H. injection H as H. exact (writeEncryptedLine_fail _ _ _ Hres H).
    + intros H. injection H as <-. cbn. split; [exact Hres|reflexivity].
Qed.

Lemma writeCANMessage_total frame timestamp micros_ (st : State) :
  frame_ok frame ->
  exists ok st', writeCANMessage frame timestamp micros_ st = Some (ok, st').
Proof.
  intros Hok. unfold Encoded.writeCANMessage.
  repeat match goal with
         | |- context [let '(_, _) := ?x in _] => destruct x
         | |- context [if ?b then _ else _] => destruct b
         end;
    cbn [negb];
    rewrite ?(Encoded_format_line_total float_zero String_float localtime
                frame timestamp micros_ _ Hok);
    cbn [mbind option_bind];
    repeat match goal with
           | |- context [Encoded.writeEncryptedLine ?l ?s] =>
               destruct (Encoded.writeEncryptedLine l s)
           end; eauto.
Qed.

(** The close-for-read, reopen-for-append path of [handleFileDownload],
    on either kind of platform: the file keeps [kept], the counter and
    the position are its length. *)
Lemma handleFileDownload_reopen (st : State) f old rest :
  Encoded.sdCardReady st = true ->
  Encoded.logFile st = Some f ->
  SD.path f = Encoded.currentLogFileName st ->
  SD.files (Encoded.sd st) !! SD.path f = Some old ->
  String.prefix "/" (Encoded.currentLogFileName st) = true ->
  Encoded.has_dotdot (Encoded.currentLogFileName st) = false ->
  SD.outcomes (Encoded.sd st) = false :: true :: true :: rest ->
  let kept := if SD.write_truncates (Encoded.sd st) then [] else old in
  exists f' c',
    Encoded.handleFileDownload (Encoded.currentLogFileName st) st
    = (200,
       Encoded.set_currentFileSize (u32 (Z.of_nat (length kept)))
         (Encoded.set_logFile (Some f') (Encoded.set_sd c' st)))
    /\ SD.path f' = SD.path f
    /\ SD.pos f' = Z.of_nat (length kept)
    /\ SD.files c' = <[SD.path f := kept]> (SD.files (Encoded.sd st))
    /\ SD.write_truncates c' = SD.write_truncates (Encoded.sd st)
    /\ SD.outcomes c' = rest.
Proof.
  intros Hready Hf Hpath Hold Hprefix Hdots Hout kept.
  unfold Encoded.handleFileDownload.
  rewrite Hready, Hdots, Hprefix. cbn [negb].
  rewrite Hpath in *.
  destruct (Encoded.currentLogFileName st) as [|ch name] eqn:Hname;
    [discriminate Hprefix|].
  cbn [String.length Nat.eqb Nat.ltb Nat.leb].
  rewrite ?Hprefix. cbn [negb].
  rewrite String.eqb_refl. cbn [andb].
  unfold Encoded.is_open.
  destruct st as [sd0 rnd ms us bt bm rtc sens lf name0 size0 ready nonce cs mc lv].
  destruct sd0 as [files0 dirs0 outs0 wt0].
  cbn in Hready, Hf, Hname, Hold, Hout, kept |- *.
  subst lf name0 outs0 ready.
  unfold SD.open_read, SD.open_write, SD.next, SD.size, SD.content, SD.seek.
  cbn. repeat (rewrite ?Hold, ?lookup_insert_eq; cbn).
  subst kept.
  eexists _, _. split; [reflexivity|]. cbn.
  destruct wt0; repeat split.
Qed.

(** A record written with the card ready and the file open goes to the
    end of the open file, whatever the byte counter says (the encrypted
    firmware has no size limit), and only the ciphertext of that record's
    line is appended. *)
Lemma writeCANMessage_appends frame timestamp micros_ (st st' : State)
    f old :
  frame_ok frame ->
  Encoded.sdCardReady st = true ->
  Encoded.logFile st = Some f ->
  Encoded.at_end f old (Encoded.sd st) ->
  writeCANMessage frame timestamp micros_ st = Some (true, st') ->
  exists line,
    format_line frame timestamp micros_ (Encoded.sensors st) = Some line
    /\ SD.content (SD.path f) (Encoded.sd st')
       = old ++ (Cipher.line_cipher line (Encoded.currentCipherState st)).1
    /\ Encoded.currentFileSize st'
       = u32 (Encoded.currentFileSize st
              + (Z.of_nat (String.length line) + 1))
    /\ Encoded.sdCardReady st' = true.
Proof.
  intros Hframe Hready Hf Hend Hwrite.
  rewrite writeCANMessage_ready_open in Hwrite
    by (try assumption; unfold Encoded.is_open; rewrite Hf; reflexivity).
  rewrite (Encoded_format_line_total float_zero String_float localtime
             frame timestamp micros_ _ Hframe) in Hwrite.
  cbn [mbind option_bind] in Hwrite. injection Hwrite as Hwrite.
  eexists. split; [apply Encoded_format_line_total, Hframe|].
  destruct (writeEncryptedLine_ok _ st st' f old Hwrite Hf Hend)
    as (f2 & c2 & -> & _ & _ & Hfiles2 & _).
  split; [|split; [reflexivity|exact Hready]].
  unfold SD.content. cbn. rewrite Hfiles2, lookup_insert_eq. reflexivity.
Qed.

(** *** The writer leaves the live buffer alone *)

Lemma write_encrypted_byte_live b (st st' : State) ok :
  Encoded.write_encrypted_byte b st = (ok, st') ->
  Encoded.live st' = Encoded.live st.
Proof.
  unfold Encoded.write_encrypted_byte, Encoded.logFile_write,
    Encoded.closeCurrentFile.
  destruct (Cipher.encryptByte _ _ _) as [enc cs].
  cbn [Encoded.logFile Encoded.set_currentCipherState Encoded.sd].
  destruct (Encoded.logFile st) as [f|] eqn:El.
  - destruct (SD.write enc f (Encoded.sd st)) as [[n f'] c'].
    destruct (n =? 1); cbn [negb]; intros H; injection H as <- <-; reflexivity.
  - cbn. rewrite El. intros H; injection H as <- <-. reflexivity.
Qed.

Lemma write_encrypted_bytes_live bytes : forall (st st' : State) ok,
  Encoded.write_encrypted_bytes bytes st = (ok, st') ->
  Encoded.live st' = Encoded.live st.
Proof.
  induction bytes as [|b rest IH]; intros st st' ok H.
  - injection H as <- <-. reflexivity.
  - cbn [Encoded.write_encrypted_bytes] in H.
    destruct (Encoded.write_encrypted_byte b st) as [ok1 st1] eqn:E.
    apply write_encrypted_byte_live in E.
    destruct ok1; cbn [negb] in H.
    + rewrite (IH _ _ _ H). exact E.
    + injection H as <- <-. exact E.
Qed.

Lemma writeEncryptedLine_live line (st st' : State) ok :
  Encoded.writeEncryptedLine line st = (ok, st') ->
  Encoded.live st' = Encoded.live st.
Proof.
  unfold Encoded.writeEncryptedLine.
  destruct (Encoded.is_open st); cbn [negb];
    [|intros H; injection H as <- <-; reflexivity].
  destruct (Encoded.write_encrypted_bytes _ st) as [ok1 st1] eqn:E1.
  apply write_encrypted_bytes_live in E1.
  destruct ok1; cbn [negb]; [|intros H; injection H as <- <-; exact E1].
  destruct (Encoded.write_encrypted_byte 10 st1) as [ok2 st2] eqn:E2.
  apply write_encrypted_byte_live in E2.
  destruct ok2; cbn [negb]; intros H; injection H as <- <-; cbn; congruence.
Qed.

Lemma writeFileHeader_live (st st' : State) ok :
  Encoded.writeFileHeader st = (ok, st') ->
  Encoded.live st' = Encoded.live st.
Proof.
  unfold Encoded.writeFileHeader, Encoded.generateFileNonce, Encoded.esp_random.
  destruct (Encoded.logFile st) as [f|];
    [|intros H; injection H as <- <-; reflexivity].
  destruct (Encoded.random st) as [|r rnd];
    destruct (SD.write_buf _ _ _) as [[written f'] c'];
    destruct (written =? Encoded.NXT_HEADER_SIZE); cbn [negb];
    intros H; try (injection H as <- <-; reflexivity);
    apply writeEncryptedLine_live in H; rewrite H; reflexivity.
Qed.

Lemma createNewLogFile_live (st st' : State) ok :
  createNewLogFile st = (ok, st') ->
  Encoded.live st' = Encoded.live st.
Proof.
  unfold Encoded.createNewLogFile.
  set (st0 := match Encoded.logFile st with
              | Some _ => Encoded.set_logFile None st
              | None => st
              end).
  assert (H0 : Encoded.live st0 = Encoded.live st)
    by (subst st0; destruct (Encoded.logFile st); reflexivity).
  clearbody st0. rewrite <- H0. clear H0.
  destruct (negb (SD.exists_ "/CAN_Logged_Data" (Encoded.sd st0)));
    [destruct (SD.mkdir "/CAN_Logged_Data" (Encoded.sd st0)) as [okm c];
     destruct okm|];
    cbn [negb];
    try (intros H; injection H as <- <-; reflexivity);
    destruct (SD.open_write _ _) as [fo c1];
    unfold Encoded.is_open at 1;
    cbn [Encoded.logFile Encoded.set_logFile];
    (destruct fo as [fo|]; cbn [negb];
     [|intros H; injection H as <- <-; reflexivity]);
    destruct (Encoded.writeFileHeader _) as [okh st2] eqn:Eh;
    apply writeFileHeader_live in Eh;
    (destruct okh; cbn [negb];
     [destruct (Encoded.logFile st2)|]);
    intros H; injection H as <- <-; cbn; rewrite ?Eh; reflexivity.
Qed.

Lemma writeCANMessage_live frame timestamp micros_ (st st' : State) ok :
  writeCANMessage frame timestamp micros_ st = Some (ok, st') ->
  Encoded.live st' = Encoded.live st.
Proof.
  unfold Encoded.writeCANMessage, Encoded.initializeSDCard.
  destruct (Encoded.sdCardReady st); cbn [negb].
  - destruct (Encoded.is_open st); cbn [negb].
    + destruct (format_line _ _ _ _) as [line|]; cbn [mbind option_bind];
        [|discriminate].
      intros H; injection H as H. exact (writeEncryptedLine_live _ _ _ _ H).
    + destruct (createNewLogFile st) as [okc st1] eqn:Ec.
      apply createNewLogFile_live in Ec.
      destruct okc; cbn [negb].
      * destruct (format_line _ _ _ _) as [line|]; cbn [mbind option_bind];
          [|discriminate].
        intros H; injection H as H.
        rewrite (writeEncryptedLine_live _ _ _ _ H). exact Ec.
      * intros H; injection H as <- <-. exact Ec.
  - destruct (SD.next (Encoded.sd st)) as [oki c].
    destruct oki; cbn [negb];
      [|intros H; injection H as <- <-; reflexivity].
    destruct (createNewLogFile (Encoded.set_sd c st)) as [okc st1] eqn:Ec.
    apply createNewLogFile_live in Ec. cbn in Ec.
    destruct okc; cbn [negb];
      [|intros H; injection H as <- <-; exact Ec].
    unfold Encoded.is_open. cbn [Encoded.logFile Encoded.set_sdCardReady].
    destruct (Encoded.logFile st1) eqn:El; cbn [negb].
    + destruct (format_line _ _ _ _) as [line|]; cbn [mbind option_bind];
        [|discriminate].
      intros H; injection H as H.
      rewrite (writeEncryptedLine_live _ _ _ _ H). exact Ec.
    + destruct (createNewLogFile _) as [okc2 st2] eqn:Ec2.
      apply createNewLogFile_live in Ec2. cbn in Ec2.
      destruct okc2; cbn [negb].
      * destruct (format_line _ _ _ _) as [line|]; cbn [mbind option_bind];
          [|discriminate].
        intros H; injection H as H.
        rewrite (writeEncryptedLine_live _ _ _ _ H). congruence.
      * intros H; injection H as <- <-. cbn. congruence.
Qed.

(** *** The receive loop *)

Lemma rxFrame_copy (message : CanFrame) :
  {| identifier := identifier message; extd := extd message;
     rtr := rtr message; data_length_code := data_length_code message;
     data := data message |} = message.
Proof. destruct message; reflexivity. Qed.

(** With the card ready and the file open the loop pushes, writes, and
    on a failure retries once. *)
Lemma loop_receive_ready_open message (st : State) lb :
  Encoded.sdCardReady st = true -> Encoded.is_open st = true ->
  Live.storeLiveFrame message (Encoded.current_time st).1
    (Encoded.current_time st).2
    (format_timeStr (localtime (Encoded.current_time st).1))
    (Encoded.live st) = Some lb ->
  loop_receive message st
  = '(ok, st1) ← writeCANMessage message (Encoded.current_time st).1
                    (Encoded.current_time st).2
                    (Encoded.set_live lb
                       (Encoded.set_messageCount
                          (u32 (Encoded.messageCount st + 1)) st));
    if negb ok then
      let '(okc, st2) := createNewLogFile st1 in
      if negb okc then Some (Encoded.set_sdCardReady false st2)
      else
        '(ok2, st3) ← writeCANMessage message (Encoded.current_time st).1
                         (Encoded.current_time st).2 st2;
        if negb ok2 then Some (Encoded.set_sdCardReady false st3)
        else Some st3
    else Some st1.
Proof.
  intros Hready Hopen Hstore. unfold Encoded.loop_receive.
  rewrite rxFrame_copy.
  set (st0 := Encoded.set_messageCount (u32 (Encoded.messageCount st + 1)) st).
  change (Encoded.sdCardReady st0) with (Encoded.sdCardReady st).
  change (Encoded.is_open st0) with (Encoded.is_open st).
  rewrite Hready, Hopen. cbn [andb negb].
  change (Encoded.current_time st0) with (Encoded.current_time st).
  change (Encoded.live st0) with (Encoded.live st).
  destruct (Encoded.current_time st) as [ts us]. cbn [fst snd] in *.
  rewrite Hstore. cbn [mbind option_bind].
  change (Encoded.sdCardReady (Encoded.set_live lb st0))
    with (Encoded.sdCardReady st).
  rewrite Hready. reflexivity.
Qed.

(** With the card marked not ready the loop counts and pushes the frame
    and does nothing else. *)
Lemma loop_receive_not_ready message (st : State) lb :
  Encoded.sdCardReady st = false ->
  Live.storeLiveFrame message (Encoded.current_time st).1
    (Encoded.current_time st).2
    (format_timeStr (localtime (Encoded.current_time st).1))
    (Encoded.live st) = Some lb ->
  loop_receive message st
  = Some (Encoded.set_live lb
            (Encoded.set_messageCount
               (u32 (Encoded.messageCount st + 1)) st)).
Proof.
  intros Hnr Hstore. unfold Encoded.loop_receive.
  rewrite rxFrame_copy.
  set (st0 := Encoded.set_messageCount (u32 (Encoded.messageCount st + 1)) st).
  change (Encoded.sdCardReady st0) with (Encoded.sdCardReady st).
  rewrite Hnr. cbn [andb].
  change (Encoded.current_time st0) with (Encoded.current_time st).
  change (Encoded.live st0) with (Encoded.live st).
  destruct (Encoded.current_time st) as [ts us]. cbn [fst snd] in *.
  rewrite Hstore. cbn [mbind option_bind].
  change (Encoded.sdCardReady (Encoded.set_live lb st0))
    with (Encoded.sdCardReady st).
  rewrite Hnr. reflexivity.
Qed.

(** The receive loop on a frame that arrives while the card is marked
    ready and the file is open: the frame is pushed first; a failed
    write leaves the file closed and the card marked not ready; the loop
    then calls [createNewLogFile] once and, if that worked,
    [writeCANMessage] once more with the same frame, and ends in the
    state this one retry left. With the card marked not ready the frame
    is only counted and pushed. *)
Lemma loop_receive_write_failure (message : CanFrame) (st : State)
    (later : CanFrame) (st_nr : State) :
  frame_ok message ->
  Live.wf (Encoded.live st) ->
  0 <= Live.liveFrameCounter (Encoded.live st) < 2 ^ 32 - 1 ->
  Encoded.sdCardReady st = true ->
  Encoded.is_open st = true ->
  frame_ok later ->
  Live.wf (Encoded.live st_nr) ->
  0 <= Live.liveFrameCounter (Encoded.live st_nr) < 2 ^ 32 - 1 ->
  Encoded.sdCardReady st_nr = false ->
  (exists lb line st_f,
     let timestamp := (Encoded.current_time st).1 in
     let micros_ := (Encoded.current_time st).2 in
     let st_w :=
       Encoded.set_live lb
         (Encoded.set_messageCount (u32 (Encoded.messageCount st + 1)) st) in
     Live.storeLiveFrame message timestamp micros_
       (format_timeStr (localtime timestamp)) (Encoded.live st) = Some lb
     /\ format_line message timestamp micros_ (Encoded.sensors st) = Some line
     /\ loop_receive message st = Some st_f
     /\ Encoded.live st_f = lb
     /\ forall st1,
          Encoded.writeEncryptedLine line st_w = (false, st1) ->
          Encoded.logFile st1 = None
          /\ Encoded.sdCardReady st1 = false
          /\ writeCANMessage message timestamp micros_ st_w = Some (false, st1)
          /\ forall okc st2,
               createNewLogFile st1 = (okc, st2) ->
               if okc then
                 exists ok2 st3,
                   writeCANMessage message timestamp micros_ st2
                   = Some (ok2, st3)
                   /\ st_f = (if ok2 then st3
                              else Encoded.set_sdCardReady false st3)
                   /\ (ok2 = false -> Encoded.sdCardReady st_f = false)
               else
                 st_f = Encoded.set_sdCardReady false st2
                 /\ Encoded.logFile st_f = None
                 /\ Encoded.sdCardReady st_f = false)
  /\ (exists lb',
        Live.storeLiveFrame later (Encoded.current_time st_nr).1
          (Encoded.current_time st_nr).2
          (format_timeStr (localtime (Encoded.current_time st_nr).1))
          (Encoded.live st_nr) = Some lb'
        /\ loop_receive later st_nr
           = Some (Encoded.set_live lb'
                     (Encoded.set_messageCount
                        (u32 (Encoded.messageCount st_nr + 1)) st_nr))).
Proof.
  intros Hmsg Hwf Hc Hready Hopen Hlater Hwf' Hc' Hnr.
  split.
  - pose proof (storeLiveFrame_stored message (Encoded.current_time st).1
                  (Encoded.current_time st).2
                  (format_timeStr (localtime (Encoded.current_time st).1))
                  _ Hwf Hmsg Hc) as Hstore.
    pose proof (Encoded_format_line_total float_zero String_float localtime
                  message (Encoded.current_time st).1
                  (Encoded.current_time st).2 (Encoded.sensors st) Hmsg)
      as Hline.
    match type of Hstore with _ = Some ?b => set (lb := b) in * end.
    match type of Hline with _ = Some ?l => set (line := l) in * end.
    pose proof (loop_receive_ready_open message st lb Hready Hopen Hstore)
      as Hloop.
    set (st_w := Encoded.set_live lb
                   (Encoded.set_messageCount
                      (u32 (Encoded.messageCount st + 1)) st)) in *.
    assert (Hw : writeCANMessage message (Encoded.current_time st).1
                   (Encoded.current_time st).2 st_w
                 = Some (Encoded.writeEncryptedLine line st_w)).
    { rewrite writeCANMessage_ready_open by assumption.
      change (Encoded.sensors st_w) with (Encoded.sensors st).
      rewrite Hline. reflexivity. }
    rewrite Hw in Hloop. cbn [mbind option_bind] in Hloop.
    destruct (Encoded.writeEncryptedLine line st_w) as [ok st1] eqn:Ew.
    pose proof (writeEncryptedLine_live _ _ _ _ Ew) as Hl1.
    change (Encoded.live st_w) with lb in Hl1.
    destruct ok; cbn [negb] in Hloop.
    + exists lb, line, st1. cbv zeta.
      split; [exact Hstore|]. split; [exact Hline|]. split; [exact Hloop|].
      split; [exact Hl1|]. intros st1' H.
      change (Encoded.writeEncryptedLine line st_w = (false, st1')) in H.
      rewrite Ew in H. discriminate H.
    + assert (Hopen_w : Encoded.is_open st_w = true) by exact Hopen.
      destruct (writeEncryptedLine_fail _ _ _ Hopen_w Ew)
        as [Hclosed Hnotready].
      destruct (createNewLogFile st1) as [okc st2] eqn:Ec.
      pose proof (createNewLogFile_live _ _ _ Ec) as Hl2.
      pose proof (createNewLogFile_result _ _ _ Ec) as Hres.
      destruct okc; cbn [negb] in Hloop.
      * destruct (writeCANMessage_total message (Encoded.current_time st).1
                    (Encoded.current_time st).2 st2 Hmsg)
          as (ok2 & st3 & Hw2).
        pose proof (writeCANMessage_live _ _ _ _ _ _ Hw2) as Hl3.
        rewrite Hw2 in Hloop. cbn [mbind option_bind] in Hloop.
        exists lb, line,
          (if ok2 then st3 else Encoded.set_sdCardReady false st3).
        cbv zeta.
        split; [exact Hstore|]. split; [exact Hline|].
        split; [destruct ok2; exact Hloop|].
        split; [destruct ok2; cbn; congruence|].
        intros st1' H.
        change (Encoded.writeEncryptedLine line st_w = (false, st1')) in H.
        rewrite Ew in H. injection H as <-.
        split; [exact Hclosed|]. split; [exact Hnotready|].
        split; [exact Hw|].
        intros okc' st2' H. rewrite Ec in H. injection H as <- <-.
        exists ok2, st3. split; [exact Hw2|]. split; [reflexivity|].
        intros ->. reflexivity.
      * exists lb, line, (Encoded.set_sdCardReady false st2). cbv zeta.
        split; [exact Hstore|]. split; [exact Hline|].
        split; [exact Hloop|].
        split; [cbn; congruence|].
        intros st1' H.
        change (Encoded.writeEncryptedLine line st_w = (false, st1')) in H.
        rewrite Ew in H. injection H as <-.
        split; [exact Hclosed|]. split; [exact Hnotready|].
        split; [exact Hw|].
        intros okc' st2' H. rewrite Ec in H. injection H as <- <-.
        split; [reflexivity|]. split; [exact Hres|reflexivity].
  - pose proof (storeLiveFrame_stored later (Encoded.current_time st_nr).1
                  (Encoded.current_time st_nr).2
                  (format_timeStr (localtime (Encoded.current_time st_nr).1))
                  _ Hwf' Hlater Hc') as Hstore.
    eexists. split; [exact Hstore|].
    apply loop_receive_not_ready; assumption.
Qed.

End WriterFacts.

(** ** The writer of the plain-CSV firmware *)

Section LastryFacts.
Variable localtime : Z -> tm.

(** With logging switched off the loop counts and pushes the frame and
    does nothing else. *)
Lemma Lastry_loop_receive_stopped later (st : Lastry.State) lb :
  Lastry.loggingEnabled st = false ->
  Live.storeLiveFrame later (Lastry.current_time st).1
    (Lastry.current_time st).2 (Lastry.getFormattedTime localtime st)
    (Lastry.live st) = Some lb ->
  Lastry.loop_receive localtime later st
  = Some (Lastry.set_live lb
            (Lastry.set_messageCount (u32 (Lastry.messageCount st + 1)) st)).
Proof.
  intros Hoff Hstore. unfold Lastry.loop_receive.
  set (st0 := Lastry.set_messageCount (u32 (Lastry.messageCount st + 1)) st).
  change (Lastry.current_time st0) with (Lastry.current_time st).
  change (Lastry.getFormattedTime localtime st0)
    with (Lastry.getFormattedTime localtime st).
  change (Lastry.live st0) with (Lastry.live st).
  destruct (Lastry.current_time st) as [ts us]. cbn [fst snd] in *.
  rewrite Hstore. cbn [mbind option_bind].
  change (Lastry.loggingEnabled (Lastry.set_live lb st0))
    with (Lastry.loggingEnabled st).
  rewrite Hoff. reflexivity.
Qed.

(** C4 (as amended). In the plain-CSV firmware a write attempted while
    the byte count is above [MAX_FILE_SIZE] does not roll over: the
    record is rejected, the file is closed, logging is switched off
    ([loggingEnabled] cleared, [stoppedByUser] set), the card is left as
    it was (no new file, nothing appended), and from then on every write
    is rejected and the receive loop only counts the frame and pushes it
    to the live buffer. *)
Theorem C4_size_limit_stops_logging (st : Lastry.State)
    (frame later : CanFrame) (timestamp micros_ timestamp' micros_' : Z) :
  Lastry.is_open st = true ->
  Lastry.sdCardReady st = true ->
  Lastry.MAX_FILE_SIZE < Lastry.currentFileSize st ->
  frame_ok later ->
  Live.wf (Lastry.live st) ->
  0 <= Live.liveFrameCounter (Lastry.live st) < 2 ^ 32 - 1 ->
  exists st' lb,
    Lastry.writeCANMessage localtime frame timestamp micros_ st
    = Some (false, st')
    /\ Lastry.logFile st' = None
    /\ Lastry.loggingEnabled st' = false
    /\ Lastry.stoppedByUser st' = true
    /\ Lastry.sd st' = Lastry.sd st
    /\ Lastry.currentLogFileName st' = Lastry.currentLogFileName st
    /\ Lastry.writeCANMessage localtime later timestamp' micros_' st'
       = Some (false, st')
    /\ Lastry.loop_receive localtime later st'
       = Some (Lastry.set_live lb
                 (Lastry.set_messageCount
                    (u32 (Lastry.messageCount st' + 1)) st')).
Proof.
  intros Hopen Hready Hfull Hlater Hwf Hc.
  set (st' := Lastry.closeCurrentFile
                (Lastry.set_stoppedByUser true
                   (Lastry.set_loggingEnabled false st))).
  assert (Hclosed : Lastry.logFile st' = None).
  { subst st'. unfold Lastry.closeCurrentFile.
    cbn [Lastry.logFile Lastry.set_stoppedByUser Lastry.set_loggingEnabled].
    destruct (Lastry.logFile st) eqn:E; [reflexivity|exact E]. }
  assert (Hst' : st' = Lastry.set_logFile None
                         (Lastry.set_stoppedByUser true
                            (Lastry.set_loggingEnabled false st))).
  { subst st'. unfold Lastry.closeCurrentFile, Lastry.is_open in *.
    cbn [Lastry.logFile Lastry.set_stoppedByUser Lastry.set_loggingEnabled].
    destruct (Lastry.logFile st); [reflexivity|discriminate Hopen]. }
  pose proof (storeLiveFrame_stored later (Lastry.current_time st').1
                (Lastry.current_time st').2
                (Lastry.getFormattedTime localtime st')
                (Lastry.live st')) as Hstore.
  assert (Hlive : Lastry.live st' = Lastry.live st)
    by (rewrite Hst'; reflexivity).
  rewrite <- Hlive in Hwf, Hc. specialize (Hstore Hwf Hlater Hc).
  eexists st', _.
  split.
  { unfold Lastry.writeCANMessage. rewrite Hopen, Hready. cbn [negb orb].
    replace (Lastry.MAX_FILE_SIZE <? Lastry.currentFileSize st) with true
      by lia.
    reflexivity. }
  split; [exact Hclosed|].
  split; [rewrite Hst'; reflexivity|].
  split; [rewrite Hst'; reflexivity|].
  split; [rewrite Hst'; reflexivity|].
  split; [rewrite Hst'; reflexivity|].
  split.
  { unfold Lastry.writeCANMessage, Lastry.is_open. rewrite Hclosed.
    reflexivity. }
  apply Lastry_loop_receive_stopped; [rewrite Hst'; reflexivity|].
  exact Hstore.
Qed.

End LastryFacts.

(** C4 (as amended) on a log file that has just passed the maximum. *)
Lemma C4_witness :
  exists st' lb,
    Lastry.writeCANMessage Lastry.utc example_frame 1700000005 0
      Lastry.full_state = Some (false, st')
    /\ Lastry.logFile st' = None
    /\ Lastry.loggingEnabled st' = false
    /\ Lastry.stoppedByUser st' = true
    /\ Lastry.sd st' = Lastry.sd Lastry.full_state
    /\ Lastry.currentLogFileName st'
       = Lastry.currentLogFileName Lastry.full_state
    /\ Lastry.writeCANMessage Lastry.utc long_dlc_frame 1700000006 0 st'
       = Some (false, st')
    /\ Lastry.loop_receive Lastry.utc long_dlc_frame st'
       = Some (Lastry.set_live lb
                 (Lastry.set_messageCount
                    (u32 (Lastry.messageCount st' + 1)) st')).
Proof.
  apply (C4_size_limit_stops_logging Lastry.utc Lastry.full_state
           example_frame long_dlc_frame 1700000005 0 1700000006 0).
  - reflexivity.
  - reflexivity.
  - vm_compute. reflexivity.
  - repeat split; unfold is_byte; cbn; try lia. repeat constructor; lia.
  - split; [reflexivity|apply Forall_replicate; reflexivity].
  - cbn. lia.
Defined.

(** C4, the claim as worded, fails on the plain-CSV firmware: with the
    byte count above the maximum the write ends with no log file open,
    so there is no new file that logging continues into. *)
Lemma C4_counterexample :
  ~ Lastry.rollover_claim Lastry.utc Lastry.full_state
      example_frame 1700000005 0.
Proof.
  intros Hclaim.
  destruct Hclaim as (ok & st' & f' & Hw & Hf & _).
  - vm_compute. reflexivity.
  - vm_compute in Hw. injection Hw as <- <-. discriminate Hf.
Qed.

(** * Further properties *)

(** ** Live ring buffer: what a push leaves and what a query returns *)

(** Pushes leave the slots of other sequence numbers alone. *)
Lemma storeAll_untouched arrivals : forall lb lb' (j : nat),
  Live.consistent lb ->
  Forall (fun a => frame_ok (Live.arr_frame a)) arrivals ->
  Live.liveFrameCounter lb + Z.of_nat (length arrivals) < 2 ^ 32 ->
  Live.storeAll arrivals lb = Some lb' ->
  (forall k, 1 <= k <= Z.of_nat (length arrivals) ->
             Live.slot_of (Live.liveFrameCounter lb + k) <> j) ->
  Live.liveFrameBuffer lb' !! j = Live.liveFrameBuffer lb !! j.
Proof.
  induction arrivals as [|a rest IH]; intros lb lb' j Hcons Hok Hmax Hall Hj.
  - cbn [Live.storeAll] in Hall. injection Hall as <-. reflexivity.
  - apply Forall_cons in Hok as [Ha Hrest].
    cbn [length] in Hmax, Hj.
    destruct (storeLiveFrame_consistent (Live.arr_frame a)
                (Live.arr_timestamp a) (Live.arr_micros a) (Live.arr_text a)
                lb Hcons Ha ltac:(lia)) as (lb1 & Hstore & Hcons1 & Hc1).
    cbn [Live.storeAll] in Hall. rewrite Hstore in Hall.
    cbn [mbind option_bind] in Hall.
    rewrite (IH lb1 lb' j Hcons1 Hrest ltac:(lia) Hall).
    + destruct Hcons as (Hwf & Hc & _).
      rewrite storeLiveFrame_stored in Hstore by (try assumption; lia).
      injection Hstore as <-. cbn [Live.liveFrameBuffer].
      apply list_lookup_insert_ne. apply (Hj 1). lia.
    + intros k Hk. rewrite Hc1.
      replace (Live.liveFrameCounter lb + 1 + k)
        with (Live.liveFrameCounter lb + (k + 1)) by lia.
      apply Hj. lia.
Qed.

(** Each of the last 200 pushes sits in the slot of its sequence
    number. *)
Lemma storeAll_holds arrivals : forall lb lb' (i : nat) a,
  Live.consistent lb ->
  Forall (fun a => frame_ok (Live.arr_frame a)) arrivals ->
  Live.liveFrameCounter lb + Z.of_nat (length arrivals) < 2 ^ 32 ->
  Live.storeAll arrivals lb = Some lb' ->
  arrivals !! i = Some a ->
  Z.of_nat (length arrivals) - Z.of_nat i <= Live.LIVE_BUFFER_SIZE ->
  Live.liveFrameBuffer lb'
    !! Live.slot_of (Live.liveFrameCounter lb + Z.of_nat i + 1)
  = Some (stored_arrival a (Live.liveFrameCounter lb + Z.of_nat i + 1)).
Proof.
  induction arrivals as [|a0 rest IH];
    intros lb lb' i a Hcons Hok Hmax Hall Hi Hlast.
  - discriminate Hi.
  - apply Forall_cons in Hok as [Ha Hrest].
    cbn [length] in Hmax, Hlast.
    destruct (storeLiveFrame_consistent (Live.arr_frame a0)
                (Live.arr_timestamp a0) (Live.arr_micros a0)
                (Live.arr_text a0)
                lb Hcons Ha ltac:(lia)) as (lb1 & Hstore & Hcons1 & Hc1).
    cbn [Live.storeAll] in Hall. rewrite Hstore in Hall.
    cbn [mbind option_bind] in Hall.
    destruct i as [|i].
    + injection Hi as <-.
      unfold Live.LIVE_BUFFER_SIZE in Hlast.
      rewrite (storeAll_untouched rest lb1 lb' _ Hcons1 Hrest ltac:(lia) Hall).
      * destruct Hcons as (Hwf & Hc & _).
        rewrite storeLiveFrame_stored in Hstore by (try assumption; lia).
        injection Hstore as <-. cbn [Live.liveFrameBuffer].
        replace (Live.liveFrameCounter lb + Z.of_nat 0 + 1)
          with (Live.liveFrameCounter lb + 1) by lia.
        apply list_lookup_insert_eq.
        destruct Hwf as [Hlen _]. rewrite Hlen.
        unfold Live.slot_of.
        pose proof (slot_index_range (Live.liveFrameCounter lb + 1 - 1)).
        unfold Live.LIVE_BUFFER_SIZE in *. lia.
      * intros k Hk. apply not_eq_sym. apply slot_of_distinct. lia.
    + cbn [lookup list_lookup] in Hi.
      pose proof (IH lb1 lb' i a Hcons1 Hrest ltac:(lia) Hall Hi
                    ltac:(lia)) as H.
      rewrite Hc1 in H.
      replace (Live.liveFrameCounter lb + Z.of_nat (S i) + 1)
        with (Live.liveFrameCounter lb + 1 + Z.of_nat i + 1) by lia.
      exact H.
Qed.

(** X1. Push then look up, before the [uint32_t] counter wraps: after
    [n] pushes since boot, [n] below 2^32, each of the last 200 frames
    pushed is in the slot of its sequence number, with the fields it
    was pushed with and its payload padded with zeros. *)
Theorem live_slot_holds_pushed_frame (arrivals : list Live.Arrival)
    (i : nat) (a : Live.Arrival) :
  Forall (fun a => frame_ok (Live.arr_frame a)) arrivals ->
  Z.of_nat (length arrivals) < 2 ^ 32 ->
  arrivals !! i = Some a ->
  Z.of_nat (length arrivals) - Z.of_nat i <= Live.LIVE_BUFFER_SIZE ->
  exists lb,
    Live.storeAll arrivals Live.initial = Some lb
    /\ Live.liveFrameBuffer lb !! Live.slot_of (Z.of_nat i + 1)
       = Some (stored_arrival a (Z.of_nat i + 1)).
Proof.
  intros Hok Hlen Hi Hlast.
  destruct (storeAll_from_boot arrivals Hok Hlen) as (lb & Hall & _ & _).
  exists lb. split; [exact Hall|].
  exact (storeAll_holds arrivals Live.initial lb i a initial_consistent
           Hok ltac:(cbn; lia) Hall Hi Hlast).
Qed.

Lemma live_slot_holds_pushed_frame_witness :
  exists lb,
    Live.storeAll (replicate 205 Live.example_arrival) Live.initial = Some lb
    /\ Live.liveFrameBuffer lb !! Live.slot_of (Z.of_nat 10 + 1)
       = Some (stored_arrival Live.example_arrival (Z.of_nat 10 + 1)).
Proof.
  apply (live_slot_holds_pushed_frame
           (replicate 205 Live.example_arrival) 10 Live.example_arrival).
  - apply Forall_replicate. exact example_frame_ok.
  - rewrite length_replicate. lia.
  - reflexivity.
  - rewrite length_replicate. vm_compute. discriminate.
Defined.

Lemma increasing_nil : increasing [].
Proof. intros i j x y Hi. discriminate Hi. Qed.

Lemma increasing_cons x l :
  Forall (fun y => x < y) l -> increasing l -> increasing (x :: l).
Proof.
  intros Hall Hl i j a b Hi Hj Hij.
  destruct j as [|j]; [lia|]. cbn in Hj.
  destruct i as [|i].
  - injection Hi as <-.
    rewrite Forall_forall in Hall. apply Hall.
    eapply list_elem_of_lookup_2. exact Hj.
  - cbn in Hi. apply (Hl i j); [assumption|assumption|lia].
Qed.

(** The loop of [handleLiveData] over consecutive sequence numbers, on
    any buffer with its 200 slots: it returns, with at most
    [limit - added] frames, in increasing order of sequence number, all
    among the numbers visited, each frame being what its slot holds. *)
Lemma live_loop_window buf limit (k : nat) : forall start added,
  length buf = Z.to_nat Live.LIVE_BUFFER_SIZE ->
  exists frs,
    Live.live_loop buf limit (seqZ start (Z.of_nat k)) added = Some frs
    /\ Z.of_nat (length frs) <= Z.max 0 (limit - added)
    /\ Forall (fun fr =>
                 start <= Live.seq fr < start + Z.of_nat k
                 /\ array_get buf
                      (u32 (Live.seq fr - 1) mod Live.LIVE_BUFFER_SIZE)
                    = Some fr) frs
    /\ increasing (Live.seq <$> frs).
Proof.
  induction k as [|k IH]; intros start added Hlen.
  - exists []. rewrite seqZ_nil by lia. cbn [Live.live_loop length].
    split; [reflexivity|]. split; [lia|]. split; [constructor|].
    exact increasing_nil.
  - rewrite (seqZ_cons start) by lia.
    replace (Z.pred (Z.of_nat (S k))) with (Z.of_nat k) by lia.
    cbn [Live.live_loop].
    destruct (IH (Z.succ start) added Hlen) as (frs0 & H0 & Hn0 & Hall0 & Hinc0).
    destruct (IH (Z.succ start) (added + 1) Hlen)
      as (frs1 & H1 & Hn1 & Hall1 & Hinc1).
    destruct (Z.ltb_spec added limit) as [Hlim|Hlim].
    + pose proof (slot_index_range (u32 (start - 1))) as Hidx.
      destruct (array_get buf (u32 (start - 1) mod Live.LIVE_BUFFER_SIZE))
        as [fr|] eqn:Eget.
      2:{ rewrite array_get_lookup in Eget by lia.
          apply lookup_ge_None in Eget. rewrite Hlen in Eget.
          unfold Live.LIVE_BUFFER_SIZE in *. lia. }
      cbn [mbind option_bind].
      destruct (Z.eqb_spec (Live.seq fr) start) as [Es|Es]; cbn [negb].
      * rewrite H1. cbn [mbind option_bind].
        exists (fr :: frs1). split; [reflexivity|].
        split; [cbn [length]; lia|]. split.
        -- constructor.
           ++ split; [lia|]. rewrite Es. exact Eget.
           ++ eapply Forall_impl; [exact Hall1|].
              intros x [Hx Hg]. split; [lia|exact Hg].
        -- rewrite fmap_cons. apply increasing_cons; [|exact Hinc1].
           apply Forall_fmap. eapply Forall_impl; [exact Hall1|].
           intros x [Hx _]. cbn. lia.
      * rewrite H0. exists frs0. split; [reflexivity|].
        split; [lia|]. split; [|exact Hinc0].
        eapply Forall_impl; [exact Hall0|].
        intros x [Hx Hg]. split; [lia|exact Hg].
    + exists []. cbn [length]. split; [reflexivity|]. split; [lia|].
      split; [constructor|]. exact increasing_nil.
Qed.

(** [handleLiveData] on a buffer that holds frames: the loop starts at
    the sequence number after [since], clamped to the oldest retained
    one and to the latest. *)
Lemma handleLiveData_start sinceArg limitArg lb :
  0 < Live.liveFrameCounter lb < 2 ^ 32 ->
  let since := Live.parse_since sinceArg in
  let start :=
    Z.min (Live.liveFrameCounter lb)
          (Z.max (Live.earliest lb)
                 (if 0 <? since then u32 (since + 1) else Live.earliest lb)) in
  Live.earliest lb <= start <= Live.liveFrameCounter lb
  /\ Live.handleLiveData sinceArg limitArg lb
     = (fs ← Live.live_loop (Live.liveFrameBuffer lb)
               (Live.parse_limit limitArg)
               (seqZ start (Live.liveFrameCounter lb - start + 1)) 0;
        Some {| Live.latest := Live.liveFrameCounter lb;
                Live.frames := fs |}).
Proof.
  intros Hc since start. unfold Live.handleLiveData.
  replace (0 <? Live.liveFrameCounter lb) with true by lia.
  cbv zeta. fold since.
  set (e := if Live.LIVE_BUFFER_SIZE <=? Live.liveFrameCounter lb
            then u32 (Live.liveFrameCounter lb - Live.LIVE_BUFFER_SIZE + 1)
            else 1).
  assert (He : e = Live.earliest lb).
  { subst e. unfold Live.earliest, Live.LIVE_BUFFER_SIZE.
    destruct (Z.leb_spec 200 (Live.liveFrameCounter lb));
      [rewrite u32_id by lia|]; lia. }
  rewrite He.
  assert (He' : 1 <= Live.earliest lb <= Live.liveFrameCounter lb).
  { unfold Live.earliest, Live.LIVE_BUFFER_SIZE. lia. }
  set (s0 := if 0 <? since then u32 (since + 1) else Live.earliest lb) in *.
  assert (Hs :
    (if Live.liveFrameCounter lb <? (if s0 <? Live.earliest lb
                                     then Live.earliest lb else s0)
     then Live.liveFrameCounter lb
     else if s0 <? Live.earliest lb then Live.earliest lb else s0) = start).
  { subst start.
    destruct (Z.ltb_spec s0 (Live.earliest lb));
      destruct (Z.ltb_spec (Live.liveFrameCounter lb) (Live.earliest lb));
      destruct (Z.ltb_spec (Live.liveFrameCounter lb) s0); lia. }
  rewrite Hs. split; [subst start; lia|reflexivity].
Qed.

(** Every frame that [handleLiveData] returns, on any buffer with its
    200 slots, is inside the retained window and is what its slot
    holds. *)
Lemma handleLiveData_slots (lb : Live.Buffer)
    (sinceArg limitArg : option Z) :
  length (Live.liveFrameBuffer lb) = Z.to_nat Live.LIVE_BUFFER_SIZE ->
  0 <= Live.liveFrameCounter lb < 2 ^ 32 - 1 ->
  exists frs,
    Live.handleLiveData sinceArg limitArg lb
    = Some {| Live.latest := Live.liveFrameCounter lb; Live.frames := frs |}
    /\ Forall (fun fr =>
                 Live.earliest lb <= Live.seq fr <= Live.liveFrameCounter lb
                 /\ Live.liveFrameBuffer lb !! Live.slot_of (Live.seq fr)
                    = Some fr) frs.
Proof.
  intros Hlen Hc.
  destruct (Z.ltb_spec 0 (Live.liveFrameCounter lb)) as [Hpos|Hzero].
  - destruct (handleLiveData_start sinceArg limitArg lb ltac:(lia))
      as [Hstart ->].
    set (start := Z.min _ _) in *.
    destruct (live_loop_window (Live.liveFrameBuffer lb)
                (Live.parse_limit limitArg)
                (Z.to_nat (Live.liveFrameCounter lb - start + 1)) start 0
                Hlen) as (frs & Hloop & _ & Hall & _).
    rewrite Z2Nat.id in Hloop, Hall by lia.
    rewrite Hloop. cbn [mbind option_bind].
    exists frs. split; [reflexivity|].
    eapply Forall_impl; [exact Hall|].
    intros fr [Hr Hg]. split; [lia|].
    assert (He : 1 <= Live.earliest lb)
      by (unfold Live.earliest; lia).
    rewrite u32_id in Hg by lia.
    rewrite array_get_lookup in Hg
      by (pose proof (slot_index_range (Live.seq fr - 1)); lia).
    exact Hg.
  - exists []. unfold Live.handleLiveData.
    replace (0 <? Live.liveFrameCounter lb) with false by lia.
    split; [reflexivity|constructor].
Qed.

(** X2. Whatever the buffer holds and whatever is asked, [/live]
    answers with at most [limit] frames (200 at most), in strictly
    increasing order of sequence number, every one inside the retained
    window and equal to what its slot holds. *)
Theorem live_query_bounded_and_ordered (lb : Live.Buffer)
    (sinceArg limitArg : option Z) :
  length (Live.liveFrameBuffer lb) = Z.to_nat Live.LIVE_BUFFER_SIZE ->
  0 <= Live.liveFrameCounter lb < 2 ^ 32 - 1 ->
  exists frs,
    Live.handleLiveData sinceArg limitArg lb
    = Some {| Live.latest := Live.liveFrameCounter lb; Live.frames := frs |}
    /\ Z.of_nat (length frs) <= Live.parse_limit limitArg
    /\ Live.parse_limit limitArg <= Live.LIVE_BUFFER_SIZE
    /\ increasing (Live.seq <$> frs)
    /\ Forall (fun fr =>
                 Live.earliest lb <= Live.seq fr <= Live.liveFrameCounter lb
                 /\ Live.liveFrameBuffer lb !! Live.slot_of (Live.seq fr)
                    = Some fr) frs.
Proof.
  intros Hlen Hc.
  pose proof (parse_limit_range limitArg) as Hlim.
  destruct (Z.ltb_spec 0 (Live.liveFrameCounter lb)) as [Hpos|Hzero].
  - destruct (handleLiveData_start sinceArg limitArg lb ltac:(lia))
      as [Hstart ->].
    set (start := Z.min _ _) in *.
    destruct (live_loop_window (Live.liveFrameBuffer lb)
                (Live.parse_limit limitArg)
                (Z.to_nat (Live.liveFrameCounter lb - start + 1)) start 0
                Hlen) as (frs & Hloop & Hn & Hall & Hinc).
    rewrite Z2Nat.id in Hloop, Hall by lia.
    rewrite Hloop. cbn [mbind option_bind].
    exists frs. split; [reflexivity|]. split; [lia|].
    split; [unfold Live.LIVE_BUFFER_SIZE; lia|]. split; [exact Hinc|].
    eapply Forall_impl; [exact Hall|].
    intros fr [Hr Hg]. split; [lia|].
    assert (He : 1 <= Live.earliest lb)
      by (unfold Live.earliest; lia).
    rewrite u32_id in Hg by lia.
    rewrite array_get_lookup in Hg
      by (pose proof (slot_index_range (Live.seq fr - 1)); lia).
    exact Hg.
  - exists []. unfold Live.handleLiveData.
    replace (0 <? Live.liveFrameCounter lb) with false by lia.
    split; [reflexivity|]. cbn [length].
    split; [lia|]. split; [unfold Live.LIVE_BUFFER_SIZE; lia|].
    split; [exact increasing_nil|constructor].
Qed.

Lemma live_query_bounded_and_ordered_witness :
  exists frs,
    Live.handleLiveData (Some 7) (Some 500)
      {| Live.liveFrameBuffer :=
           <[0%nat := stored_arrival Live.example_arrival 1]>
             (replicate 200 Live.zero_frame);
         Live.liveFrameCounter := 1 |}
    = Some {| Live.latest := 1; Live.frames := frs |}
    /\ Z.of_nat (length frs) <= Live.parse_limit (Some 500)
    /\ Live.parse_limit (Some 500) <= Live.LIVE_BUFFER_SIZE
    /\ increasing (Live.seq <$> frs)
    /\ Forall (fun fr =>
                 Live.earliest
                   {| Live.liveFrameBuffer :=
                        <[0%nat := stored_arrival Live.example_arrival 1]>
                          (replicate 200 Live.zero_frame);
                      Live.liveFrameCounter := 1 |} <= Live.seq fr <= 1
                 /\ <[0%nat := stored_arrival Live.example_arrival 1]>
                      (replicate 200 Live.zero_frame)
                      !! Live.slot_of (Live.seq fr)
                    = Some fr) frs.
Proof.
  apply (live_query_bounded_and_ordered
           {| Live.liveFrameBuffer :=
                <[0%nat := stored_arrival Live.example_arrival 1]>
                  (replicate 200 Live.zero_frame);
              Live.liveFrameCounter := 1 |} (Some 7) (Some 500)).
  - reflexivity.
  - cbn. lia.
Defined.

(** X3. Before the [uint32_t] counter reaches its maximum, that is
    after fewer than 2^32 - 1 pushes since boot, whatever is asked,
    every frame in the answer of [/live] is one of the frames pushed:
    the frame with sequence number [s] is the [s]-th arrival, with its
    fields and its zero-padded payload. *)
Theorem live_query_returns_pushed_frames (arrivals : list Live.Arrival)
    (sinceArg limitArg : option Z) :
  Forall (fun a => frame_ok (Live.arr_frame a)) arrivals ->
  Z.of_nat (length arrivals) < 2 ^ 32 - 1 ->
  exists lb frs,
    Live.storeAll arrivals Live.initial = Some lb
    /\ Live.handleLiveData sinceArg limitArg lb
       = Some {| Live.latest := Z.of_nat (length arrivals);
                 Live.frames := frs |}
    /\ Forall (fun fr =>
                 exists a,
                   arrivals !! Z.to_nat (Live.seq fr - 1) = Some a
                   /\ fr = stored_arrival a (Live.seq fr)) frs.
Proof.
  intros Hok Hlen.
  destruct (storeAll_from_boot arrivals Hok ltac:(lia))
    as (lb & Hall & Hcons & Hn).
  pose proof Hcons as ((Hl & _) & _ & _).
  destruct (handleLiveData_slots lb sinceArg limitArg Hl ltac:(lia))
    as (frs & Hq & Hfrs).
  exists lb, frs. split; [exact Hall|]. rewrite <- Hn.
  split; [exact Hq|].
  eapply Forall_impl; [exact Hfrs|].
  intros fr [Hr Hslot].
  assert (He : 1 <= Live.earliest lb) by (unfold Live.earliest; lia).
  assert (Hi : (Z.to_nat (Live.seq fr - 1) < length arrivals)%nat) by lia.
  apply lookup_lt_is_Some in Hi. destruct Hi as [a Ha].
  exists a. split; [exact Ha|].
  assert (Hlast : Z.of_nat (length arrivals)
                  - Z.of_nat (Z.to_nat (Live.seq fr - 1))
                  <= Live.LIVE_BUFFER_SIZE)
    by (unfold Live.earliest in Hr; lia).
  pose proof (storeAll_holds arrivals Live.initial lb _ a initial_consistent
                Hok ltac:(cbn; lia) Hall Ha Hlast) as Hh.
  cbn [Live.liveFrameCounter Live.initial] in Hh.
  replace (0 + Z.of_nat (Z.to_nat (Live.seq fr - 1)) + 1)
    with (Live.seq fr) in Hh by lia.
  rewrite Hslot in Hh. injection Hh as ->. reflexivity.
Qed.

Lemma live_query_returns_pushed_frames_witness :
  exists lb frs,
    Live.storeAll (replicate 205 Live.example_arrival) Live.initial = Some lb
    /\ Live.handleLiveData (Some 100) (Some 20) lb
       = Some {| Live.latest :=
                   Z.of_nat (length (replicate 205 Live.example_arrival));
                 Live.frames := frs |}
    /\ Forall (fun fr =>
                 exists a,
                   replicate 205 Live.example_arrival
                     !! Z.to_nat (Live.seq fr - 1) = Some a
                   /\ fr = stored_arrival a (Live.seq fr)) frs.
Proof.
  apply (live_query_returns_pushed_frames
           (replicate 205 Live.example_arrival) (Some 100) (Some 20)).
  - apply Forall_replicate. exact example_frame_ok.
  - rewrite length_replicate. lia.
Defined.

(** X4. The incremental query: after pushes since boot, a [since]
    that is between the oldest retained sequence number (less one) and
    the latest gets the frames [since + 1], [since + 2], ... in order,
    as many as the limit allows, and never a frame it has seen. *)
Theorem live_query_incremental (arrivals : list Live.Arrival) (since : Z)
    (limitArg : option Z) :
  Forall (fun a => frame_ok (Live.arr_frame a)) arrivals ->
  1 <= Z.of_nat (length arrivals) < 2 ^ 32 ->
  Z.max 1 (Z.of_nat (length arrivals) - Live.LIVE_BUFFER_SIZE + 1) - 1
    <= since < Z.of_nat (length arrivals) ->
  exists lb frs,
    Live.storeAll arrivals Live.initial = Some lb
    /\ Live.handleLiveData (Some since) limitArg lb
       = Some {| Live.latest := Z.of_nat (length arrivals);
                 Live.frames := frs |}
    /\ Live.seq <$> frs
       = seqZ (since + 1)
              (Z.min (Z.of_nat (length arrivals) - since)
                     (Live.parse_limit limitArg))
    /\ Forall (fun fr => since < Live.seq fr) frs.
Proof.
  intros Hok Hlen Hsince.
  destruct (storeAll_from_boot arrivals Hok ltac:(lia))
    as (lb & Hall & Hcons & Hn).
  set (n := Z.of_nat (length arrivals)) in *.
  pose proof (parse_limit_range limitArg) as Hlim.
  assert (He : Live.earliest lb = Z.max 1 (n - Live.LIVE_BUFFER_SIZE + 1))
    by (unfold Live.earliest; rewrite Hn; reflexivity).
  destruct (handleLiveData_start (Some since) limitArg lb ltac:(lia))
    as [_ Hq].
  cbv zeta in Hq. rewrite Hn, He in Hq.
  assert (Hstart :
    Z.min n (Z.max (Z.max 1 (n - Live.LIVE_BUFFER_SIZE + 1))
                   (if 0 <? Live.parse_since (Some since)
                    then u32 (Live.parse_since (Some since) + 1)
                    else Z.max 1 (n - Live.LIVE_BUFFER_SIZE + 1)))
    = since + 1).
  { unfold Live.parse_since, Live.LIVE_BUFFER_SIZE in *.
    destruct (Z.ltb_spec 0 since) as [Hpos|Hneg].
    - rewrite (u32_id since) by lia.
      replace (0 <? since) with true by lia.
      rewrite (u32_id (since + 1)) by lia. lia.
    - replace (0 <? 0) with false by reflexivity. lia. }
  rewrite Hstart in Hq.
  unfold Live.LIVE_BUFFER_SIZE in *.
  destruct (live_loop_consistent lb (Live.parse_limit limitArg)
              (Z.to_nat (n - since)) (since + 1) 0
              Hcons ltac:(lia) ltac:(lia)) as (frs & Hloop & Hseqs & _).
  rewrite Z2Nat.id in Hloop, Hseqs by lia.
  replace (n - (since + 1) + 1) with (n - since) in Hq by lia.
  rewrite Hloop in Hq. cbn [mbind option_bind] in Hq.
  exists lb, frs. split; [exact Hall|]. split; [exact Hq|].
  split; [rewrite Hseqs; f_equal; lia|].
  assert (Hgt : Forall (fun s => since < s) (Live.seq <$> frs)).
  { rewrite Hseqs. apply Forall_forall. intros s Hs.
    apply elem_of_seqZ in Hs. lia. }
  rewrite Forall_fmap in Hgt. exact Hgt.
Qed.

Lemma live_query_incremental_witness :
  exists lb frs,
    Live.storeAll (replicate 205 Live.example_arrival) Live.initial = Some lb
    /\ Live.handleLiveData (Some 100) (Some 20) lb
       = Some {| Live.latest :=
                   Z.of_nat (length (replicate 205 Live.example_arrival));
                 Live.frames := frs |}
    /\ Live.seq <$> frs
       = seqZ (100 + 1)
              (Z.min (Z.of_nat (length (replicate 205 Live.example_arrival))
                      - 100)
                     (Live.parse_limit (Some 20)))
    /\ Forall (fun fr => 100 < Live.seq fr) frs.
Proof.
  apply (live_query_incremental
           (replicate 205 Live.example_arrival) 100 (Some 20)).
  - apply Forall_replicate. exact example_frame_ok.
  - rewrite length_replicate. lia.
  - rewrite length_replicate. vm_compute. split; discriminate || reflexivity.
Defined.

(** ** The encrypted log file: layout, byte counter, reading back *)

Lemma encryptBytes_length key bytes : forall s,
  length (Cipher.encryptBytes key bytes s).1 = length bytes.
Proof.
  induction bytes as [|b rest IH]; intros s; [reflexivity|].
  cbn [Cipher.encryptBytes].
  destruct (Cipher.encryptByte key b s) as [c s1].
  specialize (IH s1).
  destruct (Cipher.encryptBytes key rest s1) as [cs s2].
  cbn [fst length] in *. rewrite IH. reflexivity.
Qed.

Lemma bytes_of_string_length s :
  length (bytes_of_string s) = String.length s.
Proof.
  unfold bytes_of_string. rewrite length_map.
  induction s as [|c s IH]; [reflexivity|]. cbn. rewrite IH. reflexivity.
Qed.

Lemma bytes_of_string_bytes s : Forall is_byte (bytes_of_string s).
Proof.
  unfold bytes_of_string.
  induction s as [|c s IH]; [constructor|].
  cbn [list_ascii_of_string map]. constructor; [|exact IH].
  unfold is_byte. pose proof (N_ascii_bounded c). lia.
Qed.

Lemma text_line_bytes line : Forall is_byte (text_line line).
Proof.
  unfold text_line. apply Forall_app. split; [apply bytes_of_string_bytes|].
  repeat constructor; unfold is_byte; lia.
Qed.

Lemma text_line_length line :
  Z.of_nat (length (text_line line)) = Z.of_nat (String.length line) + 1.
Proof.
  unfold text_line. rewrite length_app, bytes_of_string_length. cbn. lia.
Qed.

Lemma header_bytes_length nonce :
  length (Encoded.header_bytes nonce) = 16%nat.
Proof. reflexivity. Qed.

(** The four header bytes of the nonce give the nonce back. *)
Lemma read_le32_le32 x rest :
  0 <= x < 2 ^ 32 -> read_le32 (Encoded.le32 x ++ rest) = x.
Proof.
  intros Hx. unfold read_le32, Encoded.le32.
  cbn [app take foldr].
  replace (Z.shiftr x 16) with (Z.shiftr (Z.shiftr x 8) 8)
    by (rewrite Z.shiftr_shiftr by lia; reflexivity).
  replace (Z.shiftr x 24) with (Z.shiftr (Z.shiftr (Z.shiftr x 8) 8) 8)
    by (rewrite !Z.shiftr_shiftr by lia; reflexivity).
  rewrite !land_255, !Z.shiftr_div_pow2 by lia.
  change (2 ^ 8) with 256.
  set (b := x / 256). set (c := b / 256). set (d := c / 256).
  pose proof (Z.div_mod x 256 ltac:(lia)) as Hb. fold b in Hb.
  pose proof (Z.div_mod b 256 ltac:(lia)) as Hc. fold c in Hc.
  pose proof (Z.div_mod c 256 ltac:(lia)) as Hd. fold d in Hd.
  assert (Hd' : 0 <= d < 256).
  { subst d c b. split.
    - repeat apply Z.div_pos; lia.
    - repeat (apply Z.div_lt_upper_bound; [lia|]). lia. }
  rewrite (Z.mod_small d 256) by lia. rewrite take_0. cbn [foldr].
  clearbody b c d. lia.
Qed.

Lemma lxor_u32 a b :
  0 <= a < 2 ^ 32 -> 0 <= b < 2 ^ 32 -> 0 <= Z.lxor a b < 2 ^ 32.
Proof.
  intros Ha Hb.
  assert (E : Z.lxor a b = u32 (Z.lxor a b)).
  { rewrite <- (u32_id a Ha), <- (u32_id b Hb) at 1. unfold u32.
    apply Z.bits_inj'. intros n Hn.
    destruct (Z.ltb_spec n 32).
    - rewrite Z.lxor_spec, !Z.mod_pow2_bits_low, Z.lxor_spec by lia.
      reflexivity.
    - rewrite Z.lxor_spec, !Z.mod_pow2_bits_high by lia. reflexivity. }
  rewrite E. apply u32_range.
Qed.

Lemma generateFileNonce_range {float : Type} (st : @Encoded.State float) :
  0 <= (Encoded.generateFileNonce st).1 < 2 ^ 32.
Proof.
  unfold Encoded.generateFileNonce.
  destruct (Encoded.esp_random st) as [r st1] eqn:Er.
  assert (Hr : 0 <= r < 2 ^ 32).
  { unfold Encoded.esp_random in Er.
    destruct (Encoded.random st); injection Er as <- _;
      [lia|apply u32_range]. }
  cbn [fst].
  pose proof (u32_range (Encoded.millis st1)) as Hm.
  pose proof (u32_range (Z.shiftl (u32 (Encoded.bootMillis st1)) 16)) as Hb.
  destruct (_ =? 0).
  - apply lxor_u32; [exact Hm|lia].
  - apply lxor_u32; [apply lxor_u32; assumption|exact Hb].
Qed.

(** X5. The file nonce is a 32-bit value, and it is zero only when the
    reading of [millis()] is exactly 0xA5A5A5A5: the fallback for a zero
    value is itself an XOR with that constant. *)
Theorem generateFileNonce_nonzero {float : Type} (st : @Encoded.State float) :
  u32 (Encoded.millis st) <> 0xA5A5A5A5 ->
  0 < (Encoded.generateFileNonce st).1 < 2 ^ 32.
Proof.
  intros Hm.
  pose proof (generateFileNonce_range st) as Hr.
  assert (Hnz : (Encoded.generateFileNonce st).1 <> 0); [|lia].
  unfold Encoded.generateFileNonce.
  destruct (Encoded.esp_random st) as [r st1] eqn:Er.
  assert (Hmil : Encoded.millis st1 = Encoded.millis st).
  { unfold Encoded.esp_random in Er.
    destruct (Encoded.random st); injection Er as _ <-; reflexivity. }
  cbn [fst]. rewrite Hmil.
  destruct (Z.eqb_spec
              (Z.lxor (Z.lxor r (u32 (Encoded.millis st)))
                      (u32 (Z.shiftl (u32 (Encoded.bootMillis st1)) 16))) 0)
    as [_|Hne]; [|exact Hne].
  intros H0. apply Z.lxor_eq in H0. exact (Hm H0).
Qed.

Lemma generateFileNonce_nonzero_witness :
  0 < (Encoded.generateFileNonce (Encoded.example_state [] false)).1 < 2 ^ 32.
Proof.
  apply (generateFileNonce_nonzero (Encoded.example_state [] false)).
  vm_compute. discriminate.
Defined.

(** A file that [log_holds] describes reads back as its plaintext. *)
Lemma log_holds_read_back {float : Type} (st : @Encoded.State float) plain :
  log_holds st plain ->
  exists content,
    SD.files (Encoded.sd st) !! Encoded.currentLogFileName st = Some content
    /\ take 8 content
       = bytes_of_string Encoded.NXT_LOG_SIGNATURE
         ++ [Encoded.NXT_LOG_VERSION; Encoded.NXT_HEADER_SIZE]
    /\ nxt_nonce content = Encoded.currentFileNonce st
    /\ nxt_decrypt content = plain
    /\ Encoded.currentFileSize st = u32 (Z.of_nat (length content)).
Proof.
  intros (f & Hf & Hpath & [Hold Hend] & Hcs & Hsize & Hnonce & Hplain).
  rewrite Hpath in Hold.
  eexists. split; [exact Hold|].
  set (nonce := Encoded.currentFileNonce st) in *.
  set (cipher := Cipher.encryptBytes ENCRYPTION_KEY plain
                   (Cipher.resetCipherState ENCRYPTION_KEY nonce)) in *.
  assert (Hn : nxt_nonce (Encoded.header_bytes nonce ++ cipher.1) = nonce).
  { unfold nxt_nonce, Encoded.header_bytes.
    change (drop 8 ((take 6 (bytes_of_string Encoded.NXT_LOG_SIGNATURE)
                     ++ [Encoded.NXT_LOG_VERSION; Encoded.NXT_HEADER_SIZE]
                     ++ Encoded.le32 nonce ++ Encoded.le32 0) ++ cipher.1))
      with (Encoded.le32 nonce ++ (Encoded.le32 0 ++ cipher.1)).
    apply read_le32_le32, Hnonce. }
  split; [reflexivity|]. split; [exact Hn|]. split.
  - unfold nxt_decrypt. rewrite Hn. unfold nxt_payload.
    change (drop (Z.to_nat Encoded.NXT_HEADER_SIZE)
                 (Encoded.header_bytes nonce ++ cipher.1)) with cipher.1.
    subst cipher. rewrite encryptBytes_involutive by exact Hplain.
    reflexivity.
  - rewrite Hsize, length_app, header_bytes_length.
    subst cipher. rewrite encryptBytes_length. f_equal. lia.
Qed.

(** Projections of the state setters. *)
Ltac enc_proj :=
  cbn [Encoded.sd Encoded.random Encoded.millis Encoded.micros
       Encoded.baseTime Encoded.bootMillis Encoded.rtcAvailable
       Encoded.sensors Encoded.logFile Encoded.currentLogFileName
       Encoded.currentFileSize Encoded.sdCardReady Encoded.currentFileNonce
       Encoded.currentCipherState Encoded.messageCount Encoded.live
       Encoded.set_sd Encoded.set_random Encoded.set_logFile
       Encoded.set_currentLogFileName Encoded.set_currentFileSize
       Encoded.set_sdCardReady Encoded.set_currentFileNonce
       Encoded.set_currentCipherState Encoded.set_messageCount
       Encoded.set_live Encoded.wrote].

Ltac enc_proj_in H :=
  cbn [Encoded.sd Encoded.random Encoded.millis Encoded.micros
       Encoded.baseTime Encoded.bootMillis Encoded.rtcAvailable
       Encoded.sensors Encoded.logFile Encoded.currentLogFileName
       Encoded.currentFileSize Encoded.sdCardReady Encoded.currentFileNonce
       Encoded.currentCipherState Encoded.messageCount Encoded.live
       Encoded.set_sd Encoded.set_random Encoded.set_logFile
       Encoded.set_currentLogFileName Encoded.set_currentFileSize
       Encoded.set_sdCardReady Encoded.set_currentFileNonce
       Encoded.set_currentCipherState Encoded.set_messageCount
       Encoded.set_live Encoded.wrote] in H.

Section LogFileFacts.
Context {float : Type}.
Variable float_zero : float.
Variable String_float : float -> Z -> string.
Variable localtime : Z -> tm.

Local Abbreviation State := (@Encoded.State float).
Local Abbreviation createNewLogFile := (Encoded.createNewLogFile localtime).
Local Abbreviation generateLogFileName :=
  (Encoded.generateLogFileName localtime).
Local Abbreviation writeCANMessage :=
  (Encoded.writeCANMessage float_zero String_float localtime).
Local Abbreviation loop_receive :=
  (Encoded.loop_receive float_zero String_float localtime).
Local Abbreviation format_line :=
  (Encoded.format_line float_zero String_float localtime).

Lemma generateFileNonce_state (st : State) :
  (Encoded.generateFileNonce st).2
  = Encoded.set_random (tail (Encoded.random st)) st.
Proof.
  unfold Encoded.generateFileNonce, Encoded.esp_random.
  destruct st as [sd0 rnd]. cbn. destruct rnd; reflexivity.
Qed.

Lemma close_if_open (st : State) :
  match Encoded.logFile st with
  | Some _ => Encoded.set_logFile None st
  | None => st
  end = Encoded.set_logFile None st.
Proof. destruct st as [? ? ? ? ? ? ? ? lf]. cbn. destruct lf; reflexivity. Qed.

(** A successful [writeFileHeader] appends the 16 header bytes and the
    encrypted header line to the open file. *)
Lemma writeFileHeader_ok (st st' : State) f kept :
  Encoded.writeFileHeader st = (true, st') ->
  Encoded.logFile st = Some f ->
  Encoded.at_end f kept (Encoded.sd st) ->
  let nonce := (Encoded.generateFileNonce st).1 in
  let cipher :=
    Cipher.line_cipher Encoded.headerLine
      (Cipher.resetCipherState ENCRYPTION_KEY nonce) in
  exists f',
    Encoded.logFile st' = Some f'
    /\ SD.path f' = SD.path f
    /\ Encoded.at_end f' (kept ++ Encoded.header_bytes nonce ++ cipher.1)
                      (Encoded.sd st')
    /\ Encoded.currentFileNonce st' = nonce
    /\ Encoded.currentCipherState st' = cipher.2
    /\ SD.files (Encoded.sd st')
       = <[SD.path f := kept ++ Encoded.header_bytes nonce ++ cipher.1]>
           (SD.files (Encoded.sd st))
    /\ SD.dirs (Encoded.sd st') = SD.dirs (Encoded.sd st)
    /\ SD.write_truncates (Encoded.sd st')
       = SD.write_truncates (Encoded.sd st)
    /\ Encoded.currentLogFileName st' = Encoded.currentLogFileName st
    /\ Encoded.sdCardReady st' = Encoded.sdCardReady st
    /\ Encoded.messageCount st' = Encoded.messageCount st.
Proof.
  unfold Encoded.writeFileHeader. generalize Encoded.headerLine.
  intros headerLine H Hf Hend.
  set (nonce := (Encoded.generateFileNonce st).1).
  set (cipher := Cipher.line_cipher headerLine
                   (Cipher.resetCipherState ENCRYPTION_KEY nonce)).
  rewrite Hf in H.
  rewrite (surjective_pairing (Encoded.generateFileNonce st)) in H.
  fold nonce in H. rewrite generateFileNonce_state in H.
  enc_proj_in H.
  destruct (SD.write_buf (Encoded.header_bytes nonce) f (Encoded.sd st))
    as [[written f1] c1] eqn:Hw.
  rewrite if_negb in H.
  destruct (Z.eqb_spec written Encoded.NXT_HEADER_SIZE) as [Hn|Hn];
    [|discriminate H].
  destruct Hend as [Hold Hpos].
  destruct (SD_write_buf_ok _ _ _ _ _ _ _ Hw Hold Hpos
              ltac:(rewrite Hn; discriminate))
    as (_ & Hf1 & Hfiles1 & Hdirs1 & Hwt1).
  match type of H with
  | Encoded.writeEncryptedLine _ ?s = _ => set (st5 := s) in H
  end.
  assert (Hsd5 : Encoded.sd st5 = c1) by reflexivity.
  assert (Hcs : Encoded.currentCipherState st5
                = Cipher.resetCipherState ENCRYPTION_KEY nonce)
    by reflexivity.
  assert (Hlf5 : Encoded.logFile st5 = Some f1) by reflexivity.
  assert (Hp1 : SD.path f1 = SD.path f) by (rewrite Hf1; reflexivity).
  assert (Hend1 : Encoded.at_end f1 (kept ++ Encoded.header_bytes nonce)
                    (Encoded.sd st5)).
  { split.
    - rewrite Hsd5, Hfiles1, Hp1. apply lookup_insert_eq.
    - right. rewrite Hf1. cbn [SD.pos SD.seek]. rewrite length_app. lia. }
  destruct (writeEncryptedLine_ok _ _ _ f1 _ H Hlf5 Hend1)
    as (f2 & c2 & Hst' & Hp2 & Hend2 & Hfiles2 & Hd2 & Hw2).
  rewrite Hcs in Hst', Hend2, Hfiles2.
  fold cipher in Hst', Hend2, Hfiles2.
  rewrite Hsd5 in Hfiles2, Hd2, Hw2.
  rewrite <- app_assoc in Hend2, Hfiles2.
  assert (Hsd' : Encoded.sd st' = c2) by (rewrite Hst'; reflexivity).
  exists f2.
  split; [rewrite Hst'; reflexivity|]. split; [congruence|].
  split; [rewrite Hsd'; exact Hend2|].
  split; [rewrite Hst'; reflexivity|].
  split; [rewrite Hst'; reflexivity|].
  split.
  { rewrite Hsd', Hfiles2, Hfiles1, Hp1. apply insert_insert_eq. }
  split; [rewrite Hsd'; congruence|].
  split; [rewrite Hsd'; congruence|].
  split; [rewrite Hst'; reflexivity|].
  split; rewrite Hst'; reflexivity.
Qed.

Lemma is_open_Some (st : State) f :
  Encoded.is_open (Encoded.set_logFile (Some f) st) = true.
Proof. reflexivity. Qed.

Lemma is_open_None (st : State) :
  Encoded.is_open (Encoded.set_logFile None st) = false.
Proof. reflexivity. Qed.

(** The directory step of [createNewLogFile] touches no file. *)
Lemma directory_step (st0 st1 : State) okd :
  (if negb (SD.exists_ "/CAN_Logged_Data" (Encoded.sd st0))
   then let '(ok, c) := SD.mkdir "/CAN_Logged_Data" (Encoded.sd st0) in
        (ok, Encoded.set_sd c st0)
   else (true, st0)) = (okd, st1) ->
  exists c1,
    st1 = Encoded.set_sd c1 st0
    /\ SD.files c1 = SD.files (Encoded.sd st0)
    /\ SD.write_truncates c1 = SD.write_truncates (Encoded.sd st0)
    /\ (SD.outcomes (Encoded.sd st0) = [] -> okd = true /\ SD.outcomes c1 = []).
Proof.
  destruct (negb (SD.exists_ "/CAN_Logged_Data" (Encoded.sd st0))).
  - unfold SD.mkdir.
    destruct (SD.next (Encoded.sd st0)) as [ok c] eqn:En.
    destruct (SD_next_frame _ _ _ En) as (Hf & Hd & Hw).
    assert (Hout : SD.outcomes (Encoded.sd st0) = [] ->
                   ok = true /\ SD.outcomes c = []).
    { intros Hnil. unfold SD.next in En. rewrite Hnil in En.
      injection En as <- <-. split; [reflexivity|exact Hnil]. }
    destruct ok; intros H; injection H as <- <-; eexists;
      (split; [reflexivity|]); cbn [SD.files SD.set_dirs SD.write_truncates
                                        SD.outcomes];
      auto.
  - intros H. injection H as <- <-. exists (Encoded.sd st0).
    split; [destruct st0; reflexivity|]. auto.
Qed.

(** A successful [createNewLogFile]: the file named after the base
    time holds what [FILE_WRITE] kept of it, then the header, then the
    encrypted header line; the handle is at its end, the byte counter
    is its size, and no other file has changed. *)
Lemma createNewLogFile_ok (st st' : State) :
  createNewLogFile st = (true, st') ->
  let name := generateLogFileName st in
  let kept := if SD.write_truncates (Encoded.sd st) then []
              else SD.content name (Encoded.sd st) in
  let nonce := Encoded.currentFileNonce st' in
  let cipher :=
    Cipher.line_cipher Encoded.headerLine
      (Cipher.resetCipherState ENCRYPTION_KEY nonce) in
  exists f,
    Encoded.logFile st' = Some f
    /\ SD.path f = name
    /\ Encoded.currentLogFileName st' = name
    /\ Encoded.at_end f (kept ++ Encoded.header_bytes nonce ++ cipher.1)
                      (Encoded.sd st')
    /\ Encoded.currentCipherState st' = cipher.2
    /\ Encoded.currentFileSize st'
       = u32 (Z.of_nat
                (length (kept ++ Encoded.header_bytes nonce ++ cipher.1)))
    /\ 0 <= nonce < 2 ^ 32
    /\ Encoded.sdCardReady st' = Encoded.sdCardReady st
    /\ Encoded.messageCount st' = Encoded.messageCount st
    /\ SD.write_truncates (Encoded.sd st')
       = SD.write_truncates (Encoded.sd st)
    /\ (forall p, p <> name ->
          SD.files (Encoded.sd st') !! p = SD.files (Encoded.sd st) !! p).
Proof.
  unfold Encoded.createNewLogFile. rewrite close_if_open.
  destruct (if negb (SD.exists_ "/CAN_Logged_Data"
                       (Encoded.sd (Encoded.set_logFile None st)))
            then _ else _) as [okd st1] eqn:Ed.
  apply directory_step in Ed.
  destruct Ed as (c1 & -> & Hfiles1 & Hwt1 & _).
  rewrite if_negb. destruct okd; [|discriminate].
  enc_proj.
  change (Encoded.generateLogFileName localtime
            (Encoded.set_sd c1 (Encoded.set_logFile None st)))
    with (generateLogFileName st).
  set (name := generateLogFileName st).
  unfold SD.open_write.
  destruct (SD.next c1) as [oko c2] eqn:En.
  destruct (SD_next_frame _ _ _ En) as (Hfiles2 & _ & Hwt2).
  destruct oko; [|rewrite is_open_None; discriminate].
  rewrite is_open_Some. cbn [negb].
  match goal with
  | |- context [Encoded.writeFileHeader ?s] => set (st2 := s)
  end.
  destruct (Encoded.writeFileHeader st2) as [okh st3] eqn:Eh.
  rewrite if_negb. destruct okh; [|discriminate].
  set (kept := if SD.write_truncates (Encoded.sd st) then []
               else SD.content name (Encoded.sd st)).
  set (f0 := {| SD.path := name;
                SD.pos := if SD.write_truncates c2 then 0
                          else Z.of_nat
                                 (length (if SD.write_truncates c2 then []
                                          else SD.content name c2));
                SD.appending := negb (SD.write_truncates c2) |}) in *.
  assert (Hkept : (if SD.write_truncates c2 then []
                   else SD.content name c2) = kept).
  { subst kept. unfold SD.content.
    rewrite Hwt2, Hwt1, Hfiles2, Hfiles1. reflexivity. }
  assert (Hlf2 : Encoded.logFile st2 = Some f0) by reflexivity.
  assert (Hsd2 : SD.files (Encoded.sd st2)
                 = <[name := kept]> (SD.files (Encoded.sd st))).
  { subst st2. enc_proj. cbn [SD.files SD.set_files].
    rewrite Hkept, Hfiles2, Hfiles1. reflexivity. }
  assert (Hwts2 : SD.write_truncates (Encoded.sd st2)
                  = SD.write_truncates (Encoded.sd st)).
  { subst st2. enc_proj. cbn [SD.write_truncates SD.set_files].
    rewrite Hwt2, Hwt1. reflexivity. }
  assert (Hend0 : Encoded.at_end f0 kept (Encoded.sd st2)).
  { split.
    - rewrite Hsd2. apply lookup_insert_eq.
    - subst f0. cbn [SD.appending SD.pos]. rewrite Hkept.
      destruct (SD.write_truncates c2) eqn:Ew; [right|left; reflexivity].
      subst kept. rewrite <- Hwts2. subst st2. enc_proj.
      cbn [SD.write_truncates SD.set_files]. rewrite Ew. reflexivity. }
  destruct (writeFileHeader_ok _ _ _ _ Eh Hlf2 Hend0)
    as (f3 & Hlf3 & Hp3 & Hend3 & Hnonce & Hcs3 & Hfiles3 & _ & Hwt3
        & Hname3 & Hready3 & Hcount3).
  rewrite Hlf3. intros H. injection H as <-. enc_proj.
  rewrite Hnonce.
  exists f3. split; [exact Hlf3|]. split; [rewrite Hp3; reflexivity|].
  split; [rewrite Hname3; reflexivity|]. split; [exact Hend3|].
  split; [exact Hcs3|]. split.
  { unfold SD.size, SD.content. destruct Hend3 as [-> _]. reflexivity. }
  split; [apply generateFileNonce_range|].
  split; [rewrite Hready3; reflexivity|].
  split; [rewrite Hcount3; reflexivity|].
  split; [rewrite Hwt3; exact Hwts2|].
  intros p Hp. rewrite Hfiles3, Hsd2.
  rewrite !lookup_insert_ne by (cbn [SD.path f0]; congruence).
  reflexivity.
Qed.
(** A log file created under a new name, or on a platform whose
    [FILE_WRITE] empties the file, holds the header line. *)
Lemma createNewLogFile_fresh_holds (st st' : State) :
  createNewLogFile st = (true, st') ->
  SD.write_truncates (Encoded.sd st) = true
  \/ SD.files (Encoded.sd st) !! generateLogFileName st = None ->
  log_holds st' (text_line Encoded.headerLine).
Proof.
  intros Hc Hfresh.
  destruct (createNewLogFile_ok st st' Hc)
    as (f & Hlf & Hp & Hname & Hend & Hcs & Hsize & Hnonce & _).
  assert (Hkept : (if SD.write_truncates (Encoded.sd st) then []
                   else SD.content (generateLogFileName st) (Encoded.sd st))
                  = []).
  { destruct Hfresh as [-> | Hnone]; [reflexivity|].
    unfold SD.content. rewrite Hnone.
    destruct (SD.write_truncates _); reflexivity. }
  rewrite Hkept in Hend, Hsize. cbn [app] in Hend, Hsize.
  exists f. split; [exact Hlf|]. split; [congruence|].
  split; [exact Hend|]. split; [exact Hcs|]. split.
  - rewrite Hsize, length_app, header_bytes_length.
    unfold Cipher.line_cipher. rewrite encryptBytes_length.
    reflexivity.
  - split; [exact Hnonce|apply text_line_bytes].
Qed.

(** X6. A log file created under a new name (or on a platform whose
    [FILE_WRITE] empties the file) starts with the signature, the
    version and the header size; read back by the format (nonce from
    the header, payload decrypted from byte 16) it is the CSV header
    line and its newline; the byte counter is its size; no other file
    has changed. *)
Theorem new_log_file_reads_back (st st' : State) :
  createNewLogFile st = (true, st') ->
  SD.write_truncates (Encoded.sd st) = true
  \/ SD.files (Encoded.sd st) !! generateLogFileName st = None ->
  log_holds st' (text_line Encoded.headerLine)
  /\ (exists content,
        SD.files (Encoded.sd st') !! generateLogFileName st = Some content
        /\ take 8 content
           = bytes_of_string Encoded.NXT_LOG_SIGNATURE
             ++ [Encoded.NXT_LOG_VERSION; Encoded.NXT_HEADER_SIZE]
        /\ nxt_decrypt content = text_line Encoded.headerLine
        /\ Encoded.currentFileSize st' = u32 (Z.of_nat (length content)))
  /\ (forall p, p <> generateLogFileName st ->
        SD.files (Encoded.sd st') !! p = SD.files (Encoded.sd st) !! p).
Proof.
  intros Hc Hfresh.
  pose proof (createNewLogFile_fresh_holds st st' Hc Hfresh) as Hholds.
  destruct (createNewLogFile_ok st st' Hc)
    as (_ & _ & _ & Hname & _ & _ & _ & _ & _ & _ & _ & Hothers).
  split; [exact Hholds|]. split; [|exact Hothers].
  destruct (log_holds_read_back st' _ Hholds)
    as (content & Hcontent & Hsig & _ & Hdec & Hcount).
  exists content. rewrite <- Hname. auto.
Qed.

(** A successful record write extends the plaintext that the file
    holds by the record's line. *)
Lemma writeCANMessage_holds (st st' : State) (plain : list Z)
    (frame : CanFrame) (timestamp micros_ : Z) :
  log_holds st plain ->
  Encoded.sdCardReady st = true ->
  frame_ok frame ->
  writeCANMessage frame timestamp micros_ st = Some (true, st') ->
  exists line,
    format_line frame timestamp micros_ (Encoded.sensors st) = Some line
    /\ log_holds st' (plain ++ text_line line)
    /\ Encoded.currentLogFileName st' = Encoded.currentLogFileName st
    /\ Encoded.sdCardReady st' = true.
Proof.
  intros (f & Hlf & Hpath & Hend & Hcs & Hsize & Hnonce & Hplain)
         Hready Hok Hw.
  assert (Hopen : Encoded.is_open st = true)
    by (unfold Encoded.is_open; rewrite Hlf; reflexivity).
  rewrite (writeCANMessage_ready_open float_zero String_float localtime
             frame timestamp micros_ st Hready Hopen) in Hw.
  rewrite (Encoded_format_line_total float_zero String_float localtime
             frame timestamp micros_ _ Hok) in Hw.
  cbn [mbind option_bind] in Hw. injection Hw as Hw.
  destruct (writeEncryptedLine_ok _ _ _ f _ Hw Hlf Hend)
    as (f' & c' & Hst' & Hp' & Hend' & _).
  eexists. split; [apply Encoded_format_line_total; exact Hok|].
  set (line := _ +:+ _) in *.
  split; [|split; [rewrite Hst'; reflexivity
                  |rewrite Hst'; enc_proj; exact Hready]].
  assert (Hn : Encoded.currentFileNonce st' = Encoded.currentFileNonce st)
    by (rewrite Hst'; reflexivity).
  unfold log_holds. rewrite Hn.
  unfold text_line, Cipher.line_cipher in *.
  rewrite encryptBytes_app. cbn [fst snd]. rewrite <- Hcs.
  exists f'. split; [rewrite Hst'; reflexivity|].
  split; [rewrite Hst'; enc_proj; congruence|].
  split; [rewrite Hst'; enc_proj; rewrite app_assoc; exact Hend'|].
  split; [rewrite Hst'; reflexivity|].
  split.
  - rewrite Hst'. enc_proj. rewrite Hsize.
    rewrite !length_app, bytes_of_string_length. cbn [length].
    unfold u32. rewrite Zplus_mod_idemp_l. f_equal. lia.
  - split; [exact Hnonce|].
    apply Forall_app. split; [exact Hplain|].
    apply (text_line_bytes line).
Qed.

(** X7. Each record that [writeCANMessage] writes extends the plaintext
    of the file by its CSV line and a newline: the payload is one
    continuous keystream, so after the write the whole file still reads
    back, now with the new line at its end, and the byte counter is
    still the file's size. *)
Theorem record_write_extends_plaintext (st st' : State) (plain : list Z)
    (frame : CanFrame) (timestamp micros_ : Z) :
  log_holds st plain ->
  Encoded.sdCardReady st = true ->
  frame_ok frame ->
  writeCANMessage frame timestamp micros_ st = Some (true, st') ->
  exists line content,
    format_line frame timestamp micros_ (Encoded.sensors st) = Some line
    /\ log_holds st' (plain ++ text_line line)
    /\ SD.files (Encoded.sd st') !! Encoded.currentLogFileName st
       = Some content
    /\ nxt_decrypt content = plain ++ text_line line
    /\ Encoded.currentFileSize st' = u32 (Z.of_nat (length content)).
Proof.
  intros Hholds Hready Hok Hw.
  destruct (writeCANMessage_holds st st' plain frame timestamp micros_
              Hholds Hready Hok Hw) as (line & Hline & Hholds' & Hname & _).
  destruct (log_holds_read_back st' _ Hholds')
    as (content & Hcontent & _ & _ & Hdec & Hcount).
  exists line, content. rewrite <- Hname. auto.
Qed.
End LogFileFacts.

Lemma new_log_file_reads_back_witness :
  log_holds (Encoded.createNewLogFile Encoded.utc (boot_state [])).2
            (text_line Encoded.headerLine)
  /\ (exists content,
        SD.files (Encoded.sd
                    (Encoded.createNewLogFile Encoded.utc (boot_state [])).2)
          !! Encoded.generateLogFileName Encoded.utc (boot_state [])
        = Some content
        /\ take 8 content
           = bytes_of_string Encoded.NXT_LOG_SIGNATURE
             ++ [Encoded.NXT_LOG_VERSION; Encoded.NXT_HEADER_SIZE]
        /\ nxt_decrypt content = text_line Encoded.headerLine
        /\ Encoded.currentFileSize
             (Encoded.createNewLogFile Encoded.utc (boot_state [])).2
           = u32 (Z.of_nat (length content)))
  /\ (forall p,
        p <> Encoded.generateLogFileName Encoded.utc (boot_state []) ->
        SD.files (Encoded.sd
                    (Encoded.createNewLogFile Encoded.utc (boot_state [])).2)
          !! p
        = SD.files (Encoded.sd (boot_state [])) !! p).
Proof.
  apply (new_log_file_reads_back Encoded.utc (boot_state [])
           (Encoded.createNewLogFile Encoded.utc (boot_state [])).2).
  - vm_compute. reflexivity.
  - right. reflexivity.
Defined.

Lemma record_write_extends_plaintext_witness :
  exists line content,
    Encoded.format_line tt Encoded.no_float_text Encoded.utc
      example_frame 1700000005 0 (Encoded.sensors logging_state) = Some line
    /\ log_holds
         (default logging_state
            (snd <$> Encoded.writeCANMessage tt Encoded.no_float_text
                       Encoded.utc example_frame 1700000005 0 logging_state))
         (text_line Encoded.headerLine ++ text_line line)
    /\ SD.files
         (Encoded.sd
            (default logging_state
               (snd <$> Encoded.writeCANMessage tt Encoded.no_float_text
                          Encoded.utc example_frame 1700000005 0
                          logging_state)))
         !! Encoded.currentLogFileName logging_state
       = Some content
    /\ nxt_decrypt content = text_line Encoded.headerLine ++ text_line line
    /\ Encoded.currentFileSize
         (default logging_state
            (snd <$> Encoded.writeCANMessage tt Encoded.no_float_text
                       Encoded.utc example_frame 1700000005 0 logging_state))
       = u32 (Z.of_nat (length content)).
Proof.
  apply (record_write_extends_plaintext tt Encoded.no_float_text Encoded.utc
           logging_state _ (text_line Encoded.headerLine)
           example_frame 1700000005 0).
  - exists {| SD.path := "/CAN_Logged_Data/CAN_LOG_20231114_221320.NXT";
              SD.pos := 235; SD.appending := true |}.
    split; [vm_compute; reflexivity|].
    split; [vm_compute; reflexivity|].
    split; [split; [vm_compute; reflexivity|left; reflexivity]|].
    split; [vm_compute; reflexivity|].
    split; [vm_compute; reflexivity|].
    split; [vm_compute; split; [discriminate|reflexivity]|].
    apply text_line_bytes.
  - reflexivity.
  - repeat split; unfold is_byte; cbn; try lia. repeat constructor; lia.
  - vm_compute. reflexivity.
Defined.

(** ** The receive loop of the encrypted firmware *)

Section LoopFacts.
Context {float : Type}.
Variable float_zero : float.
Variable String_float : float -> Z -> string.
Variable localtime : Z -> tm.

Local Abbreviation State := (@Encoded.State float).
Local Abbreviation createNewLogFile := (Encoded.createNewLogFile localtime).
Local Abbreviation generateLogFileName :=
  (Encoded.generateLogFileName localtime).
Local Abbreviation writeCANMessage :=
  (Encoded.writeCANMessage float_zero String_float localtime).
Local Abbreviation loop_receive :=
  (Encoded.loop_receive float_zero String_float localtime).
Local Abbreviation format_line :=
  (Encoded.format_line float_zero String_float localtime).

Lemma writer_frame_refl (st : State) : writer_frame st st.
Proof. unfold writer_frame. auto 10. Qed.

Lemma writer_frame_trans (st1 st2 st3 : State) :
  writer_frame st1 st2 -> writer_frame st2 st3 -> writer_frame st1 st3.
Proof.
  unfold writer_frame.
  intros (A1 & A2 & A3 & A4 & A5 & A6 & A7 & A8)
         (B1 & B2 & B3 & B4 & B5 & B6 & B7 & B8).
  repeat (split; [congruence|]). congruence.
Qed.

Ltac frame_done :=
  first [ apply writer_frame_refl
        | assumption
        | unfold writer_frame; enc_proj; auto 10; fail ].

Lemma write_encrypted_byte_frame b (st st' : State) ok :
  Encoded.write_encrypted_byte b st = (ok, st') -> writer_frame st st'.
Proof.
  unfold Encoded.write_encrypted_byte, Encoded.logFile_write,
    Encoded.closeCurrentFile.
  destruct (Cipher.encryptByte _ _ _) as [enc cs].
  cbn [Encoded.logFile Encoded.set_currentCipherState Encoded.sd].
  destruct (Encoded.logFile st) as [f|] eqn:El.
  - destruct (SD.write enc f (Encoded.sd st)) as [[n f'] c'].
    destruct (n =? 1); cbn [negb]; intros H; injection H as <- <-;
      frame_done.
  - enc_proj. rewrite El. intros H; injection H as <- <-. frame_done.
Qed.

Lemma write_encrypted_bytes_frame bytes : forall (st st' : State) ok,
  Encoded.write_encrypted_bytes bytes st = (ok, st') -> writer_frame st st'.
Proof.
  induction bytes as [|b rest IH]; intros st st' ok H.
  - injection H as <- <-. frame_done.
  - cbn [Encoded.write_encrypted_bytes] in H.
    destruct (Encoded.write_encrypted_byte b st) as [ok1 st1] eqn:E.
    apply write_encrypted_byte_frame in E.
    rewrite if_negb in H. destruct ok1.
    + exact (writer_frame_trans _ _ _ E (IH _ _ _ H)).
    + injection H as <- <-. exact E.
Qed.

Lemma writeEncryptedLine_frame line (st st' : State) ok :
  Encoded.writeEncryptedLine line st = (ok, st') -> writer_frame st st'.
Proof.
  unfold Encoded.writeEncryptedLine. rewrite if_negb.
  destruct (Encoded.is_open st);
    [|intros H; injection H as <- <-; frame_done].
  destruct (Encoded.write_encrypted_bytes _ st) as [ok1 st1] eqn:E1.
  apply write_encrypted_bytes_frame in E1.
  rewrite if_negb.
  destruct ok1; [|intros H; injection H as <- <-; exact E1].
  destruct (Encoded.write_encrypted_byte 10 st1) as [ok2 st2] eqn:E2.
  apply write_encrypted_byte_frame in E2.
  rewrite if_negb.
  destruct ok2; intros H; injection H as <- <-.
  - apply (writer_frame_trans _ st2); [|frame_done].
    exact (writer_frame_trans _ _ _ E1 E2).
  - exact (writer_frame_trans _ _ _ E1 E2).
Qed.

Lemma writeFileHeader_frame (st st' : State) ok :
  Encoded.writeFileHeader st = (ok, st') -> writer_frame st st'.
Proof.
  unfold Encoded.writeFileHeader. generalize Encoded.headerLine.
  intros headerLine.
  destruct (Encoded.logFile st) as [f|];
    [|intros H; injection H as <- <-; frame_done].
  rewrite (surjective_pairing (Encoded.generateFileNonce st)).
  rewrite generateFileNonce_state.
  destruct (SD.write_buf _ _ _) as [[written f'] c'].
  rewrite if_negb.
  destruct (written =? Encoded.NXT_HEADER_SIZE);
    [|intros H; injection H as <- <-; frame_done].
  intros H. apply writeEncryptedLine_frame in H.
  apply (writer_frame_trans _ _ _ ltac:(frame_done) H).
Qed.

Lemma createNewLogFile_frame (st st' : State) ok :
  createNewLogFile st = (ok, st') -> writer_frame st st'.
Proof.
  unfold Encoded.createNewLogFile. rewrite close_if_open.
  destruct (if negb (SD.exists_ "/CAN_Logged_Data"
                       (Encoded.sd (Encoded.set_logFile None st)))
            then _ else _) as [okd st1] eqn:Ed.
  apply directory_step in Ed. destruct Ed as (c1 & -> & _).
  rewrite if_negb.
  destruct okd; [|intros H; injection H as <- <-; frame_done].
  destruct (SD.open_write _ _) as [fo c2].
  rewrite if_negb.
  destruct fo as [fo|];
    [rewrite is_open_Some
    |rewrite is_open_None; intros H; injection H as <- <-; frame_done].
  destruct (Encoded.writeFileHeader _) as [okh st3] eqn:Eh.
  apply writeFileHeader_frame in Eh.
  assert (E0 : writer_frame st st3).
  { apply (writer_frame_trans _ _ _ ltac:(frame_done) Eh). }
  rewrite if_negb. destruct okh.
  - destruct (Encoded.logFile st3); intros H; injection H as <- <-.
    + apply (writer_frame_trans _ _ _ E0). frame_done.
    + exact E0.
  - intros H; injection H as <- <-.
    apply (writer_frame_trans _ _ _ E0). frame_done.
Qed.
Lemma writeCANMessage_frame frame timestamp micros_ (st st' : State) ok :
  writeCANMessage frame timestamp micros_ st = Some (ok, st') ->
  writer_frame st st'.
Proof.
  unfold Encoded.writeCANMessage.
  destruct (if negb (Encoded.sdCardReady st) then _ else _)
    as [ok1 st1] eqn:E1.
  assert (F1 : writer_frame st st1).
  { revert E1. rewrite if_negb.
    destruct (Encoded.sdCardReady st);
      [intros H; injection H as <- <-; frame_done|].
    unfold Encoded.initializeSDCard.
    destruct (SD.next (Encoded.sd st)) as [oki c].
    rewrite if_negb.
    destruct oki; [|intros H; injection H as <- <-; frame_done].
    destruct (createNewLogFile (Encoded.set_sd c st)) as [okc st2] eqn:Ec.
    apply createNewLogFile_frame in Ec.
    assert (F : writer_frame st st2)
      by (apply (writer_frame_trans _ _ _ ltac:(frame_done) Ec)).
    rewrite if_negb.
    destruct okc; intros H; injection H as <- <-;
      (eapply writer_frame_trans; [eassumption|frame_done]). }
  rewrite if_negb.
  destruct ok1; [|intros H; injection H as <- <-; exact F1].
  destruct (if negb (Encoded.is_open st1) then _ else _)
    as [ok2 st2] eqn:E2.
  assert (F2 : writer_frame st1 st2).
  { revert E2. rewrite if_negb.
    destruct (Encoded.is_open st1);
      [intros H; injection H as <- <-; frame_done|].
    destruct (createNewLogFile st1) as [okc st3] eqn:Ec.
    apply createNewLogFile_frame in Ec.
    rewrite if_negb.
    destruct okc; intros H; injection H as <- <-; [exact Ec|].
    eapply writer_frame_trans; [exact Ec|frame_done]. }
  rewrite if_negb.
  destruct ok2;
    [|intros H; injection H as <- <-;
      exact (writer_frame_trans _ _ _ F1 F2)].
  destruct (format_line _ _ _ _) as [line|]; cbn [mbind option_bind];
    [|discriminate].
  intros H. injection H as H. apply writeEncryptedLine_frame in H.
  exact (writer_frame_trans _ _ _ (writer_frame_trans _ _ _ F1 F2) H).
Qed.

Lemma current_time_frame (st st' : State) :
  writer_frame st st' -> Encoded.current_time st' = Encoded.current_time st.
Proof.
  intros (A1 & A2 & A3 & A4 & A5 & _).
  unfold Encoded.current_time. rewrite A1, A2, A3, A4, A5. reflexivity.
Qed.

(** X8. Whatever state the card and the log file are in, and whatever
    the card operations to come do, one pass of the receive loop
    returns, counts the frame once and pushes it to the live buffer
    with the time of its arrival; the writer and its recovery path
    touch neither the counter nor the buffer. *)
Theorem loop_receive_always_counts_and_pushes (message : CanFrame)
    (st : State) :
  frame_ok message ->
  Live.wf (Encoded.live st) ->
  0 <= Live.liveFrameCounter (Encoded.live st) < 2 ^ 32 - 1 ->
  exists st',
    loop_receive message st = Some st'
    /\ Encoded.messageCount st' = u32 (Encoded.messageCount st + 1)
    /\ Encoded.live st'
       = {| Live.liveFrameBuffer :=
              <[Live.slot_of (Live.liveFrameCounter (Encoded.live st) + 1) :=
                  Live.stored message (Encoded.current_time st).1
                    (Encoded.current_time st).2
                    (format_timeStr
                       (localtime (Encoded.current_time st).1))
                    (Live.liveFrameCounter (Encoded.live st) + 1)]>
                (Live.liveFrameBuffer (Encoded.live st));
            Live.liveFrameCounter :=
              Live.liveFrameCounter (Encoded.live st) + 1 |}.
Proof.
  intros Hok Hwf Hc. unfold Encoded.loop_receive.
  rewrite rxFrame_copy.
  set (st0 := Encoded.set_messageCount (u32 (Encoded.messageCount st + 1)) st).
  assert (F0 : writer_frame st0
                 (if Encoded.sdCardReady st0 && negb (Encoded.is_open st0)
                  then (createNewLogFile st0).2 else st0)).
  { destruct (Encoded.sdCardReady st0 && negb (Encoded.is_open st0));
      [|frame_done].
    destruct (createNewLogFile st0) as [okc st1] eqn:Ec.
    exact (createNewLogFile_frame _ _ _ Ec). }
  set (st1 := if Encoded.sdCardReady st0 && negb (Encoded.is_open st0)
              then (createNewLogFile st0).2 else st0) in *.
  clearbody st1.
  rewrite (current_time_frame _ _ F0).
  change (Encoded.current_time st0) with (Encoded.current_time st).
  destruct (Encoded.current_time st) as [ts us]. cbn [fst snd].
  pose proof F0 as (_ & _ & _ & _ & _ & _ & Hcount & Hlive).
  change (Encoded.live st0) with (Encoded.live st) in Hlive.
  change (Encoded.messageCount st0)
    with (u32 (Encoded.messageCount st + 1)) in Hcount.
  rewrite Hlive.
  rewrite (storeLiveFrame_stored message ts us _ _ Hwf Hok Hc).
  cbn [mbind option_bind].
  set (lb := {| Live.liveFrameBuffer := _; Live.liveFrameCounter := _ |}).
  set (st2 := Encoded.set_live lb st1).
  assert (H2 : Encoded.messageCount st2 = u32 (Encoded.messageCount st + 1)
               /\ Encoded.live st2 = lb) by (split; [exact Hcount|reflexivity]).
  clearbody st2.
  assert (Hkeep : forall s, writer_frame st2 s ->
            Encoded.messageCount s = u32 (Encoded.messageCount st + 1)
            /\ Encoded.live s = lb).
  { intros s (_ & _ & _ & _ & _ & _ & B7 & B8).
    destruct H2. split; congruence. }
  destruct (Encoded.sdCardReady st2); [|exists st2; split; [reflexivity|exact H2]].
  destruct (writeCANMessage_total float_zero String_float localtime
              message ts us st2 Hok) as (ok & st3 & Hw).
  rewrite Hw. cbn [mbind option_bind].
  pose proof (writeCANMessage_frame _ _ _ _ _ _ Hw) as F3.
  rewrite if_negb.
  destruct ok; [exists st3; split; [reflexivity|exact (Hkeep _ F3)]|].
  destruct (createNewLogFile st3) as [okc st4] eqn:Ec.
  pose proof (writer_frame_trans _ _ _ F3 (createNewLogFile_frame _ _ _ Ec))
    as F4.
  rewrite if_negb. destruct okc.
  - destruct (writeCANMessage_total float_zero String_float localtime
                message ts us st4 Hok) as (ok5 & st5 & Hw5).
    rewrite Hw5. cbn [mbind option_bind].
    pose proof (writer_frame_trans _ _ _ F4
                  (writeCANMessage_frame _ _ _ _ _ _ Hw5)) as F5.
    rewrite if_negb.
    destruct ok5; eexists; (split; [reflexivity|]).
    + exact (Hkeep _ F5).
    + apply Hkeep. eapply writer_frame_trans; [exact F5|frame_done].
  - eexists. split; [reflexivity|].
    apply Hkeep. eapply writer_frame_trans; [exact F4|frame_done].
Qed.
End LoopFacts.

(** ** A card whose operations all succeed *)

Lemma SD_next_healthy c : SD.outcomes c = [] -> SD.next c = (true, c).
Proof. unfold SD.next. intros ->. reflexivity. Qed.

Section HealthyCard.
Context {float : Type}.
Variable float_zero : float.
Variable String_float : float -> Z -> string.
Variable localtime : Z -> tm.

Local Abbreviation State := (@Encoded.State float).
Local Abbreviation createNewLogFile := (Encoded.createNewLogFile localtime).
Local Abbreviation generateLogFileName :=
  (Encoded.generateLogFileName localtime).
Local Abbreviation writeCANMessage :=
  (Encoded.writeCANMessage float_zero String_float localtime).
Local Abbreviation loop_receive :=
  (Encoded.loop_receive float_zero String_float localtime).
Local Abbreviation format_line :=
  (Encoded.format_line float_zero String_float localtime).

Lemma write_encrypted_byte_healthy b (st : State) f old :
  Encoded.logFile st = Some f ->
  Encoded.at_end f old (Encoded.sd st) ->
  SD.outcomes (Encoded.sd st) = [] ->
  exists st',
    Encoded.write_encrypted_byte b st = (true, st')
    /\ SD.outcomes (Encoded.sd st') = [].
Proof.
  intros Hf [Hold _] Hout.
  unfold Encoded.write_encrypted_byte, Encoded.logFile_write.
  destruct (Cipher.encryptByte _ _ _) as [enc cs].
  enc_proj. rewrite Hf. unfold SD.write, SD.write_buf.
  rewrite (SD_next_healthy _ Hout), Hold.
  cbn [length Z.of_nat Pos.of_succ_nat Z.eqb Pos.eqb negb].
  eexists. split; [reflexivity|]. enc_proj.
  cbn [SD.outcomes SD.set_files]. exact Hout.
Qed.

Lemma write_encrypted_bytes_healthy bytes : forall (st : State) f old,
  Encoded.logFile st = Some f ->
  Encoded.at_end f old (Encoded.sd st) ->
  SD.outcomes (Encoded.sd st) = [] ->
  exists st',
    Encoded.write_encrypted_bytes bytes st = (true, st')
    /\ SD.outcomes (Encoded.sd st') = [].
Proof.
  induction bytes as [|b rest IH]; intros st f old Hf Hend Hout.
  - exists st. split; [reflexivity|exact Hout].
  - cbn [Encoded.write_encrypted_bytes].
    destruct (write_encrypted_byte_healthy b st f old Hf Hend Hout)
      as (st1 & E1 & Hout1).
    rewrite E1. cbn [negb].
    destruct (write_encrypted_byte_ok _ _ _ _ _ E1 Hf Hend)
      as (c1 & Hst1 & Hfiles1 & _).
    assert (Hlf1 : Encoded.logFile st1
                   = Some (SD.seek (Z.of_nat (length old) + 1) f))
      by (rewrite Hst1; reflexivity).
    assert (Hsd1 : Encoded.sd st1 = c1) by (rewrite Hst1; reflexivity).
    apply (IH st1 _ (old ++ [(Cipher.encryptByte ENCRYPTION_KEY b
                                (Encoded.currentCipherState st)).1]) Hlf1);
      [|exact Hout1].
    split.
    + rewrite Hsd1, Hfiles1. apply lookup_insert_eq.
    + right. cbn [SD.pos SD.seek]. rewrite length_app. cbn [length]. lia.
Qed.

Lemma writeEncryptedLine_healthy line (st : State) f old :
  Encoded.logFile st = Some f ->
  Encoded.at_end f old (Encoded.sd st) ->
  SD.outcomes (Encoded.sd st) = [] ->
  exists st',
    Encoded.writeEncryptedLine line st = (true, st')
    /\ SD.outcomes (Encoded.sd st') = [].
Proof.
  intros Hf Hend Hout. unfold Encoded.writeEncryptedLine, Encoded.is_open.
  rewrite Hf. cbn [negb].
  destruct (write_encrypted_bytes_healthy (bytes_of_string line) st f old
              Hf Hend Hout) as (st1 & E1 & Hout1).
  rewrite E1. cbn [negb].
  destruct (write_encrypted_bytes_ok _ _ _ _ _ E1 Hf Hend)
    as (f1 & c1 & Hst1 & _ & Hend1 & _).
  assert (Hlf1 : Encoded.logFile st1 = Some f1)
    by (rewrite Hst1; reflexivity).
  assert (Hsd1 : Encoded.sd st1 = c1) by (rewrite Hst1; reflexivity).
  rewrite <- Hsd1 in Hend1.
  destruct (write_encrypted_byte_healthy 10 st1 f1 _ Hlf1 Hend1 Hout1)
    as (st2 & E2 & Hout2).
  rewrite E2. cbn [negb]. eexists. split; [reflexivity|].
  enc_proj. exact Hout2.
Qed.
Lemma writeFileHeader_healthy (st : State) f kept :
  Encoded.logFile st = Some f ->
  Encoded.at_end f kept (Encoded.sd st) ->
  SD.outcomes (Encoded.sd st) = [] ->
  exists st',
    Encoded.writeFileHeader st = (true, st')
    /\ SD.outcomes (Encoded.sd st') = [].
Proof.
  intros Hf [Hold Hpos] Hout.
  unfold Encoded.writeFileHeader. generalize Encoded.headerLine.
  intros headerLine. rewrite Hf.
  rewrite (surjective_pairing (Encoded.generateFileNonce st)).
  rewrite generateFileNonce_state.
  set (nonce := (Encoded.generateFileNonce st).1).
  enc_proj. unfold SD.write_buf.
  rewrite (SD_next_healthy _ Hout), Hold.
  rewrite header_bytes_length.
  change (negb (Z.of_nat 16 =? Encoded.NXT_HEADER_SIZE)) with false.
  cbv iota.
  set (at_ := if SD.appending f then Z.of_nat (length kept) else SD.pos f).
  assert (Hat : at_ = Z.of_nat (length kept)).
  { subst at_. destruct Hpos as [-> | ->]; [reflexivity|].
    destruct (SD.appending f); reflexivity. }
  match goal with
  | |- context [Encoded.writeEncryptedLine _ ?s] => set (st5 := s)
  end.
  apply (writeEncryptedLine_healthy headerLine st5
           (SD.seek (at_ + Z.of_nat 16) f)
           (kept ++ Encoded.header_bytes nonce)).
  - reflexivity.
  - split.
    + subst st5. enc_proj. cbn [SD.files SD.set_files SD.path SD.seek].
      rewrite Hat, splice_at_end. apply lookup_insert_eq.
    + right. cbn [SD.pos SD.seek]. rewrite Hat, length_app,
        header_bytes_length. lia.
  - subst st5. enc_proj. cbn [SD.outcomes SD.set_files]. exact Hout.
Qed.

Lemma createNewLogFile_healthy (st : State) :
  SD.outcomes (Encoded.sd st) = [] ->
  exists st',
    createNewLogFile st = (true, st')
    /\ SD.outcomes (Encoded.sd st') = [].
Proof.
  intros Hout.
  unfold Encoded.createNewLogFile. rewrite close_if_open.
  destruct (if negb (SD.exists_ "/CAN_Logged_Data"
                       (Encoded.sd (Encoded.set_logFile None st)))
            then _ else _) as [okd st1] eqn:Ed.
  apply directory_step in Ed.
  destruct Ed as (c1 & -> & _ & _ & Hd).
  destruct (Hd Hout) as [-> Hout1]. cbn [negb].
  enc_proj.
  set (name := Encoded.generateLogFileName localtime _).
  unfold SD.open_write. rewrite (SD_next_healthy _ Hout1).
  rewrite is_open_Some. cbn [negb].
  match goal with
  | |- context [Encoded.writeFileHeader ?s] => set (st2 := s)
  end.
  set (kept := if SD.write_truncates c1 then [] else SD.content name c1).
  set (f0 := {| SD.path := name;
                SD.pos := if SD.write_truncates c1 then 0
                          else Z.of_nat (length kept);
                SD.appending := negb (SD.write_truncates c1) |}).
  assert (Hlf2 : Encoded.logFile st2 = Some f0) by reflexivity.
  assert (Hend2 : Encoded.at_end f0 kept (Encoded.sd st2)).
  { split.
    - subst st2. enc_proj. cbn [SD.files SD.set_files SD.path f0].
      apply lookup_insert_eq.
    - cbn [SD.appending SD.pos f0]. subst kept.
      destruct (SD.write_truncates c1); [right|left]; reflexivity. }
  assert (Hout2 : SD.outcomes (Encoded.sd st2) = []).
  { subst st2. enc_proj. cbn [SD.outcomes SD.set_files]. exact Hout1. }
  destruct (writeFileHeader_healthy st2 f0 kept Hlf2 Hend2 Hout2)
    as (st3 & Eh & Hout3).
  rewrite Eh. cbn [negb].
  destruct (writeFileHeader_ok _ _ _ _ Eh Hlf2 Hend2) as (f3 & Hlf3 & _).
  rewrite Hlf3. eexists. split; [reflexivity|]. enc_proj. exact Hout3.
Qed.
Lemma log_holds_set_live (st : State) plain lb :
  log_holds st plain -> log_holds (Encoded.set_live lb st) plain.
Proof. intros (f & H). exists f. exact H. Qed.

Lemma log_holds_set_messageCount (st : State) plain n :
  log_holds st plain -> log_holds (Encoded.set_messageCount n st) plain.
Proof. intros (f & H). exists f. exact H. Qed.

Lemma writeCANMessage_healthy frame timestamp micros_ (st : State) plain :
  log_holds st plain ->
  Encoded.sdCardReady st = true ->
  SD.outcomes (Encoded.sd st) = [] ->
  frame_ok frame ->
  exists st',
    writeCANMessage frame timestamp micros_ st = Some (true, st')
    /\ SD.outcomes (Encoded.sd st') = [].
Proof.
  intros (f & Hlf & _ & Hend & _) Hready Hout Hok.
  assert (Hopen : Encoded.is_open st = true)
    by (unfold Encoded.is_open; rewrite Hlf; reflexivity).
  rewrite (writeCANMessage_ready_open float_zero String_float localtime
             frame timestamp micros_ st Hready Hopen).
  rewrite (Encoded_format_line_total float_zero String_float localtime
             frame timestamp micros_ _ Hok).
  cbn [mbind option_bind].
  match goal with
  | |- context [Encoded.writeEncryptedLine ?line st] =>
      destruct (writeEncryptedLine_healthy line st f _ Hlf Hend Hout)
        as (st' & E & Hout')
  end.
  exists st'. rewrite E. split; [reflexivity|exact Hout'].
Qed.

(** X9. On a card whose operations all succeed, a frame that arrives
    while a log file is open is appended to it: the loop returns with
    the card still ready, and the file reads back as what it held
    before followed by the frame's CSV line. *)
Theorem healthy_card_appends_each_frame (message : CanFrame) (st : State)
    (plain : list Z) :
  log_holds st plain ->
  Encoded.sdCardReady st = true ->
  SD.outcomes (Encoded.sd st) = [] ->
  frame_ok message ->
  Live.wf (Encoded.live st) ->
  0 <= Live.liveFrameCounter (Encoded.live st) < 2 ^ 32 - 1 ->
  exists st' line,
    loop_receive message st = Some st'
    /\ format_line message (Encoded.current_time st).1
         (Encoded.current_time st).2 (Encoded.sensors st) = Some line
    /\ log_holds st' (plain ++ text_line line)
    /\ Encoded.sdCardReady st' = true
    /\ SD.outcomes (Encoded.sd st') = [].
Proof.
  intros Hholds Hready Hout Hok Hwf Hc.
  assert (Hopen : Encoded.is_open st = true).
  { destruct Hholds as (f & Hlf & _).
    unfold Encoded.is_open. rewrite Hlf. reflexivity. }
  rewrite (loop_receive_ready_open float_zero String_float localtime
             message st _ Hready Hopen
             (storeLiveFrame_stored message _ _ _ _ Hwf Hok Hc)).
  set (lb := {| Live.liveFrameBuffer := _; Live.liveFrameCounter := _ |}).
  set (st2 := Encoded.set_live lb
                (Encoded.set_messageCount
                   (u32 (Encoded.messageCount st + 1)) st)).
  assert (Hholds2 : log_holds st2 plain)
    by (apply log_holds_set_live, log_holds_set_messageCount, Hholds).
  destruct (writeCANMessage_healthy message (Encoded.current_time st).1
              (Encoded.current_time st).2 st2 plain Hholds2 Hready Hout Hok)
    as (st3 & Hw & Hout3).
  rewrite Hw. cbn [mbind option_bind negb].
  destruct (writeCANMessage_holds float_zero String_float localtime
              st2 st3 plain message _ _ Hholds2 Hready Hok Hw)
    as (line & Hline & Hholds3 & _ & Hready3).
  exists st3, line. split; [reflexivity|]. split; [exact Hline|]. auto.
Qed.

(** X10. On a card whose operations all succeed, the first frame that
    arrives with the card ready and no log file open creates the file
    named after the base time and is logged in it: afterwards the file
    reads back as the CSV header line followed by the frame's line. *)
Theorem healthy_card_logs_first_frame (message : CanFrame) (st : State) :
  Encoded.sdCardReady st = true ->
  Encoded.logFile st = None ->
  SD.outcomes (Encoded.sd st) = [] ->
  SD.write_truncates (Encoded.sd st) = true
  \/ SD.files (Encoded.sd st) !! generateLogFileName st = None ->
  frame_ok message ->
  Live.wf (Encoded.live st) ->
  0 <= Live.liveFrameCounter (Encoded.live st) < 2 ^ 32 - 1 ->
  exists st' line,
    loop_receive message st = Some st'
    /\ format_line message (Encoded.current_time st).1
         (Encoded.current_time st).2 (Encoded.sensors st) = Some line
    /\ log_holds st' (text_line Encoded.headerLine ++ text_line line)
    /\ Encoded.currentLogFileName st' = generateLogFileName st
    /\ Encoded.sdCardReady st' = true.
Proof.
  intros Hready Hclosed Hout Hfresh Hok Hwf Hc.
  unfold Encoded.loop_receive. rewrite rxFrame_copy.
  set (st0 := Encoded.set_messageCount (u32 (Encoded.messageCount st + 1)) st).
  assert (Hready0 : Encoded.sdCardReady st0 = true) by exact Hready.
  assert (Hopen0 : Encoded.is_open st0 = false)
    by (unfold Encoded.is_open; subst st0; enc_proj; rewrite Hclosed;
        reflexivity).
  rewrite Hready0, Hopen0. cbn [andb negb].
  destruct (createNewLogFile_healthy st0 Hout) as (st1 & Ec & Hout1).
  rewrite Ec. cbn [snd].
  pose proof (createNewLogFile_frame _ _ _ _ Ec) as F1.
  pose proof (createNewLogFile_fresh_holds localtime st0 st1 Ec Hfresh)
    as Hholds1.
  destruct (createNewLogFile_ok localtime st0 st1 Ec)
    as (_ & _ & _ & Hname1 & _ & _ & _ & _ & Hready1 & _).
  rewrite (current_time_frame _ _ F1).
  change (Encoded.current_time st0) with (Encoded.current_time st).
  destruct F1 as (_ & _ & _ & _ & _ & Hsens1 & _ & Hlive1).
  rewrite Hlive1.
  change (Encoded.live st0) with (Encoded.live st).
  destruct (Encoded.current_time st) as [ts us]. cbn [fst snd].
  rewrite (storeLiveFrame_stored message _ _ _ _ Hwf Hok Hc).
  cbn [mbind option_bind].
  set (lb := {| Live.liveFrameBuffer := _; Live.liveFrameCounter := _ |}).
  set (st2 := Encoded.set_live lb st1).
  assert (Hready2 : Encoded.sdCardReady st2 = true)
    by (subst st2; enc_proj; rewrite Hready1; exact Hready0).
  assert (Hholds2 : log_holds st2 (text_line Encoded.headerLine))
    by (apply log_holds_set_live, Hholds1).
  rewrite Hready2.
  destruct (writeCANMessage_healthy message ts us st2 _ Hholds2 Hready2
              Hout1 Hok)
    as (st3 & Hw & Hout3).
  rewrite Hw. cbn [mbind option_bind negb].
  destruct (writeCANMessage_holds float_zero String_float localtime
              st2 st3 _ message _ _ Hholds2 Hready2 Hok Hw)
    as (line & Hline & Hholds3 & Hname3 & Hready3).
  exists st3, line. split; [reflexivity|].
  split; [rewrite <- Hline; f_equal; exact (eq_sym Hsens1)|].
  split; [exact Hholds3|]. split; [|exact Hready3].
  rewrite Hname3. exact Hname1.
Qed.
End HealthyCard.

Lemma loop_receive_always_counts_and_pushes_witness :
  exists st',
    Encoded.loop_receive tt Encoded.no_float_text Encoded.utc
      example_frame (boot_state [false]) = Some st'
    /\ Encoded.messageCount st'
       = u32 (Encoded.messageCount (boot_state [false]) + 1)
    /\ Encoded.live st'
       = {| Live.liveFrameBuffer :=
              <[Live.slot_of
                  (Live.liveFrameCounter
                     (Encoded.live (boot_state [false])) + 1) :=
                  Live.stored example_frame
                    (Encoded.current_time (boot_state [false])).1
                    (Encoded.current_time (boot_state [false])).2
                    (format_timeStr
                       (Encoded.utc
                          (Encoded.current_time (boot_state [false])).1))
                    (Live.liveFrameCounter
                       (Encoded.live (boot_state [false])) + 1)]>
                (Live.liveFrameBuffer (Encoded.live (boot_state [false])));
            Live.liveFrameCounter :=
              Live.liveFrameCounter (Encoded.live (boot_state [false])) + 1 |}.
Proof.
  apply (loop_receive_always_counts_and_pushes tt Encoded.no_float_text
           Encoded.utc example_frame (boot_state [false])).
  - exact example_frame_ok.
  - split; [reflexivity|apply Forall_replicate; reflexivity].
  - cbn. lia.
Defined.

Lemma healthy_card_appends_each_frame_witness :
  exists st' line,
    Encoded.loop_receive tt Encoded.no_float_text Encoded.utc
      example_frame logging_state = Some st'
    /\ Encoded.format_line tt Encoded.no_float_text Encoded.utc example_frame
         (Encoded.current_time logging_state).1
         (Encoded.current_time logging_state).2
         (Encoded.sensors logging_state) = Some line
    /\ log_holds st' (text_line Encoded.headerLine ++ text_line line)
    /\ Encoded.sdCardReady st' = true
    /\ SD.outcomes (Encoded.sd st') = [].
Proof.
  apply (healthy_card_appends_each_frame tt Encoded.no_float_text Encoded.utc
           example_frame logging_state (text_line Encoded.headerLine)).
  - exists {| SD.path := "/CAN_Logged_Data/CAN_LOG_20231114_221320.NXT";
              SD.pos := 235; SD.appending := true |}.
    split; [vm_compute; reflexivity|].
    split; [vm_compute; reflexivity|].
    split; [split; [vm_compute; reflexivity|left; reflexivity]|].
    split; [vm_compute; reflexivity|].
    split; [vm_compute; reflexivity|].
    split; [vm_compute; split; [discriminate|reflexivity]|].
    apply text_line_bytes.
  - vm_compute. reflexivity.
  - vm_compute. reflexivity.
  - exact example_frame_ok.
  - replace (Encoded.live logging_state) with Live.initial
      by (vm_compute; reflexivity).
    split; [reflexivity|apply Forall_replicate; reflexivity].
  - vm_compute. split; [discriminate|reflexivity].
Defined.

Lemma healthy_card_logs_first_frame_witness :
  exists st' line,
    Encoded.loop_receive tt Encoded.no_float_text Encoded.utc
      example_frame (boot_state []) = Some st'
    /\ Encoded.format_line tt Encoded.no_float_text Encoded.utc example_frame
         (Encoded.current_time (boot_state [])).1
         (Encoded.current_time (boot_state [])).2
         (Encoded.sensors (boot_state [])) = Some line
    /\ log_holds st' (text_line Encoded.headerLine ++ text_line line)
    /\ Encoded.currentLogFileName st'
       = Encoded.generateLogFileName Encoded.utc (boot_state [])
    /\ Encoded.sdCardReady st' = true.
Proof.
  apply (healthy_card_logs_first_frame tt Encoded.no_float_text Encoded.utc
           example_frame (boot_state [])).
  - reflexivity.
  - reflexivity.
  - reflexivity.
  - right. reflexivity.
  - exact example_frame_ok.
  - split; [reflexivity|apply Forall_replicate; reflexivity].
  - cbn. lia.
Defined.

(** ** A failing write never alters what the file already holds *)

Lemma SD_write_buf_short bs f c n f' c' :
  SD.write_buf bs f c = (n, f', c') ->
  n <> Z.of_nat (length bs) ->
  SD.files c' = SD.files c /\ SD.write_truncates c' = SD.write_truncates c.
Proof.
  unfold SD.write_buf. intros H Hn.
  destruct (SD.next c) as [ok c1] eqn:Hnext.
  destruct (SD_next_frame _ _ _ Hnext) as (Hf & _ & Hw).
  destruct (SD.files c1 !! SD.path f) as [old|].
  - destruct ok; injection H as <- <- <-; [congruence|].
    split; assumption.
  - injection H as <- <- <-. split; assumption.
Qed.

Section TornWrite.
Context {float : Type}.
Variable float_zero : float.
Variable String_float : float -> Z -> string.
Variable localtime : Z -> tm.

Local Abbreviation State := (@Encoded.State float).
Local Abbreviation writeCANMessage :=
  (Encoded.writeCANMessage float_zero String_float localtime).
Local Abbreviation format_line :=
  (Encoded.format_line float_zero String_float localtime).

Lemma write_encrypted_byte_failed b (st st' : State) f :
  Encoded.write_encrypted_byte b st = (false, st') ->
  Encoded.logFile st = Some f ->
  SD.files (Encoded.sd st') = SD.files (Encoded.sd st)
  /\ SD.write_truncates (Encoded.sd st')
     = SD.write_truncates (Encoded.sd st).
Proof.
  unfold Encoded.write_encrypted_byte, Encoded.logFile_write.
  intros H Hf.
  destruct (Cipher.encryptByte _ _ _) as [enc cs].
  enc_proj_in H. rewrite Hf in H. unfold SD.write in H.
  destruct (SD.write_buf [enc] f (Encoded.sd st)) as [[n f'] c'] eqn:Hw.
  rewrite if_negb in H.
  destruct (Z.eqb_spec n 1) as [Hn|Hn]; [discriminate H|].
  injection H as <-.
  unfold Encoded.closeCurrentFile. enc_proj.
  exact (SD_write_buf_short _ _ _ _ _ _ Hw Hn).
Qed.

(** Whatever its outcome, the byte loop leaves the old bytes of the
    file in place and adds a prefix of the ciphertext: all of it when
    it succeeds, less when it fails. *)
Lemma write_encrypted_bytes_prefix bytes : forall (st st' : State) ok f old,
  Encoded.write_encrypted_bytes bytes st = (ok, st') ->
  Encoded.logFile st = Some f ->
  Encoded.at_end f old (Encoded.sd st) ->
  exists k : nat,
    SD.files (Encoded.sd st')
    = <[SD.path f :=
          old ++ take k (Cipher.encryptBytes ENCRYPTION_KEY bytes
                           (Encoded.currentCipherState st)).1]>
        (SD.files (Encoded.sd st))
    /\ (if ok then k = length bytes else (k < length bytes)%nat).
Proof.
  induction bytes as [|b rest IH]; intros st st' ok f old H Hf Hend.
  - injection H as <- <-. exists 0%nat.
    cbn [Cipher.encryptBytes fst take]. rewrite app_nil_r.
    split; [|reflexivity].
    symmetry. apply insert_id. exact (proj1 Hend).
  - cbn [Encoded.write_encrypted_bytes] in H.
    destruct (Encoded.write_encrypted_byte b st) as [ok1 st1] eqn:E.
    rewrite if_negb in H. destruct ok1.
    + destruct (write_encrypted_byte_ok _ _ _ _ _ E Hf Hend)
        as (c1 & Hst1 & Hfiles1 & _).
      cbn [Cipher.encryptBytes].
      destruct (Cipher.encryptByte ENCRYPTION_KEY b
                  (Encoded.currentCipherState st)) as [enc cs1] eqn:Eb.
      cbn [fst snd] in Hst1, Hfiles1.
      assert (Hlf1 : Encoded.logFile st1
                     = Some (SD.seek (Z.of_nat (length old) + 1) f))
        by (rewrite Hst1; reflexivity).
      assert (Hsd1 : Encoded.sd st1 = c1) by (rewrite Hst1; reflexivity).
      assert (Hcs1 : Encoded.currentCipherState st1 = cs1)
        by (rewrite Hst1; reflexivity).
      assert (Hend1 : Encoded.at_end
                        (SD.seek (Z.of_nat (length old) + 1) f)
                        (old ++ [enc]) (Encoded.sd st1)).
      { split.
        - rewrite Hsd1, Hfiles1. apply lookup_insert_eq.
        - right. cbn [SD.pos SD.seek]. rewrite length_app. cbn [length].
          lia. }
      destruct (IH _ _ _ _ _ H Hlf1 Hend1) as (k & Hfiles & Hk).
      rewrite Hcs1 in Hfiles.
      destruct (Cipher.encryptBytes ENCRYPTION_KEY rest cs1) as [cipher cs2].
      cbn [fst] in *.
      exists (S k). split; [|destruct ok; cbn [length]; lia].
      rewrite Hfiles, Hsd1, Hfiles1. cbn [SD.path SD.seek take].
      rewrite insert_insert_eq, <- app_assoc. reflexivity.
    + injection H as <- <-. exists 0%nat.
      destruct (write_encrypted_byte_failed _ _ _ _ E Hf) as [Hfiles _].
      cbn [take]. rewrite app_nil_r, Hfiles.
      split; [|cbn [length]; lia].
      symmetry. apply insert_id. exact (proj1 Hend).
Qed.

Lemma writeEncryptedLine_prefix line (st st' : State) ok f old :
  Encoded.writeEncryptedLine line st = (ok, st') ->
  Encoded.logFile st = Some f ->
  Encoded.at_end f old (Encoded.sd st) ->
  exists k : nat,
    SD.files (Encoded.sd st')
    = <[SD.path f :=
          old ++ take k (Cipher.line_cipher line
                           (Encoded.currentCipherState st)).1]>
        (SD.files (Encoded.sd st))
    /\ (if ok then k = S (String.length line)
        else (k < S (String.length line))%nat).
Proof.
  unfold Encoded.writeEncryptedLine, Encoded.is_open. intros H Hf Hend.
  rewrite Hf in H. cbn [negb] in H.
  destruct (Encoded.write_encrypted_bytes _ st) as [ok1 st1] eqn:E1.
  destruct (write_encrypted_bytes_prefix _ _ _ _ _ _ E1 Hf Hend)
    as (k1 & Hfiles1 & Hk1).
  rewrite bytes_of_string_length in Hk1.
  unfold Cipher.line_cipher. rewrite encryptBytes_app. cbn [fst].
  pose proof (encryptBytes_length ENCRYPTION_KEY (bytes_of_string line)
                (Encoded.currentCipherState st)) as Hlen.
  rewrite bytes_of_string_length in Hlen.
  rewrite if_negb in H. destruct ok1.
  - destruct (write_encrypted_bytes_ok _ _ _ _ _ E1 Hf Hend)
      as (f1 & c1 & Hst1 & Hp1 & Hend1 & Hfiles1' & _).
    assert (Hlf1 : Encoded.logFile st1 = Some f1)
      by (rewrite Hst1; reflexivity).
    assert (Hsd1 : Encoded.sd st1 = c1) by (rewrite Hst1; reflexivity).
    assert (Hcs1 : Encoded.currentCipherState st1
                   = (Cipher.encryptBytes ENCRYPTION_KEY
                        (bytes_of_string line)
                        (Encoded.currentCipherState st)).2)
      by (rewrite Hst1; reflexivity).
    rewrite <- Hsd1 in Hend1.
    destruct (Encoded.write_encrypted_byte 10 st1) as [ok2 st2] eqn:E2.
    rewrite if_negb in H. destruct ok2; injection H as <- <-.
    + destruct (write_encrypted_byte_ok _ _ _ _ _ E2 Hlf1 Hend1)
        as (c2 & Hst2 & Hfiles2 & _).
      exists (S (String.length line)). split; [|reflexivity].
      enc_proj. rewrite Hst2. enc_proj.
      rewrite Hfiles2, Hsd1, Hfiles1', Hp1, Hcs1.
      rewrite insert_insert_eq, <- app_assoc.
      rewrite take_ge; [reflexivity|].
      rewrite length_app, Hlen. cbn [Cipher.encryptBytes].
      destruct (Cipher.encryptByte _ _ _). cbn. lia.
    + destruct (write_encrypted_byte_failed _ _ _ _ E2 Hlf1) as [Hfiles2 _].
      exists (String.length line). split; [|lia].
      rewrite Hfiles2, Hsd1, Hfiles1'.
      rewrite take_app_le by lia. rewrite take_ge by lia. reflexivity.
  - injection H as <- <-. exists k1. split; [|lia].
    rewrite Hfiles1. rewrite take_app_le by lia. reflexivity.
Qed.

(** X11. A record write that fails part-way leaves a torn record but
    never alters what was stored before: whatever the outcome, the log
    file afterwards is its old contents followed by a prefix of the
    record's ciphertext (the whole of it exactly when the write
    succeeds), and no other file changes. *)
Theorem failed_write_keeps_earlier_bytes (frame : CanFrame)
    (timestamp micros_ : Z) (st st' : State) (ok : bool) (f : SD.File)
    (old : list Z) :
  Encoded.sdCardReady st = true ->
  Encoded.logFile st = Some f ->
  Encoded.at_end f old (Encoded.sd st) ->
  frame_ok frame ->
  writeCANMessage frame timestamp micros_ st = Some (ok, st') ->
  exists line (k : nat),
    format_line frame timestamp micros_ (Encoded.sensors st) = Some line
    /\ SD.files (Encoded.sd st')
       = <[SD.path f :=
             old ++ take k (Cipher.line_cipher line
                              (Encoded.currentCipherState st)).1]>
           (SD.files (Encoded.sd st))
    /\ (if ok then k = S (String.length line)
        else (k < S (String.length line))%nat).
Proof.
  intros Hready Hlf Hend Hok Hw.
  assert (Hopen : Encoded.is_open st = true)
    by (unfold Encoded.is_open; rewrite Hlf; reflexivity).
  rewrite (writeCANMessage_ready_open float_zero String_float localtime
             frame timestamp micros_ st Hready Hopen) in Hw.
  rewrite (Encoded_format_line_total float_zero String_float localtime
             frame timestamp micros_ _ Hok) in Hw.
  cbn [mbind option_bind] in Hw. injection Hw as Hw.
  destruct (writeEncryptedLine_prefix _ _ _ _ _ _ Hw Hlf Hend)
    as (k & Hfiles & Hk).
  eexists _, k. split; [apply Encoded_format_line_total; exact Hok|].
  split; [exact Hfiles|exact Hk].
Qed.
End TornWrite.

Lemma failed_write_keeps_earlier_bytes_witness :
  exists line (k : nat),
    Encoded.format_line tt Encoded.no_float_text Encoded.utc
      example_frame 1700000005 0
      (Encoded.sensors
         (Encoded.example_state [true; true; false] true)) = Some line
    /\ SD.files
         (Encoded.sd
            (default (Encoded.example_state [true; true; false] true)
               (snd <$> Encoded.writeCANMessage tt Encoded.no_float_text
                          Encoded.utc example_frame 1700000005 0
                          (Encoded.example_state [true; true; false] true))))
       = <[SD.path {| SD.path := Encoded.example_name; SD.pos := 19;
                      SD.appending := true |} :=
             (Encoded.header_bytes 0x12345678 ++ [1; 2; 3])
             ++ take k (Cipher.line_cipher line
                          (Encoded.currentCipherState
                             (Encoded.example_state [true; true; false]
                                true))).1]>
           (SD.files
              (Encoded.sd (Encoded.example_state [true; true; false] true)))
    /\ (if false then k = S (String.length line)
        else (k < S (String.length line))%nat).
Proof.
  apply (failed_write_keeps_earlier_bytes tt Encoded.no_float_text
           Encoded.utc example_frame 1700000005 0
           (Encoded.example_state [true; true; false] true)
           (default (Encoded.example_state [true; true; false] true)
              (snd <$> Encoded.writeCANMessage tt Encoded.no_float_text
                         Encoded.utc example_frame 1700000005 0
                         (Encoded.example_state [true; true; false] true)))
           false
           {| SD.path := Encoded.example_name; SD.pos := 19;
              SD.appending := true |}
           (Encoded.header_bytes 0x12345678 ++ [1; 2; 3])).
  - reflexivity.
  - reflexivity.
  - split; [vm_compute; reflexivity|left; reflexivity].
  - exact example_frame_ok.
  - vm_compute. reflexivity.
Defined.

(** ** File download *)

Lemma prefix_slash_append s : String.prefix "/" ("/" +:+ s) = true.
Proof. destruct s; reflexivity. Qed.

Lemma SD_open_read_files p c fo c' :
  SD.open_read p c = (fo, c') ->
  SD.files c' = SD.files c
  /\ SD.write_truncates c' = SD.write_truncates c
  /\ (is_Some fo -> is_Some (SD.files c !! p)).
Proof.
  unfold SD.open_read.
  destruct (SD.next c) as [ok c1] eqn:Hn.
  destruct (SD_next_frame _ _ _ Hn) as (Hf & _ & Hw).
  rewrite Hf.
  destruct ok; cbn [andb].
  - destruct (bool_decide_reflect (is_Some (SD.files c !! p))) as [Hs|Hs];
      intros H; injection H as <- <-.
    + auto.
    + split; [exact Hf|]. split; [exact Hw|].
      intros [x Hx]. discriminate Hx.
  - intros H; injection H as <- <-.
    split; [exact Hf|]. split; [exact Hw|].
    intros [x Hx]. discriminate Hx.
Qed.

Lemma SD_open_write_append p c fo c' :
  SD.open_write p c = (fo, c') ->
  SD.write_truncates c = false ->
  is_Some (SD.files c !! p) ->
  SD.files c' = SD.files c.
Proof.
  unfold SD.open_write.
  destruct (SD.next c) as [ok c1] eqn:Hn.
  destruct (SD_next_frame _ _ _ Hn) as (Hf & _ & Hw).
  intros H Hwt [old Hold].
  destruct ok; injection H as <- <-; [|exact Hf].
  rewrite Hw, Hwt. cbn [SD.files SD.set_files].
  unfold SD.content. rewrite Hf, Hold. cbn [default].
  apply insert_id. exact Hold.
Qed.

Section Download.
Context {float : Type}.
Local Abbreviation State := (@Encoded.State float).

(** X12. On a platform whose [FILE_WRITE] appends, serving a download
    never changes the contents of any file, whatever is asked for and
    whatever the card does: the only write access is the reopening of
    the active log file, which keeps it. *)
Theorem download_keeps_every_file (fileName : string) (st : State) :
  SD.write_truncates (Encoded.sd st) = false ->
  Encoded.currentLogFileName st = ""
  \/ String.prefix "/" (Encoded.currentLogFileName st) = true ->
  SD.files (Encoded.sd (Encoded.handleFileDownload fileName st).2)
  = SD.files (Encoded.sd st).
Proof.
  intros Hwt Hname. unfold Encoded.handleFileDownload.
  destruct (Encoded.sdCardReady st); cbn [negb]; [|reflexivity].
  destruct (String.length fileName =? 0)%nat; [reflexivity|].
  destruct (Encoded.has_dotdot fileName); [reflexivity|].
  set (filePath := if String.prefix "/" fileName then fileName else _).
  assert (Hfp : String.prefix "/" filePath = true).
  { subst filePath. destruct (String.prefix "/" fileName) eqn:E; [exact E|].
    destruct (String.prefix "CAN_Logged_Data/" fileName);
      [apply prefix_slash_append|].
    destruct (negb (SD.exists_ _ _)); [apply prefix_slash_append|].
    reflexivity. }
  clearbody filePath. rewrite Hfp. cbn [negb].
  set (isActive := ((0 <? String.length (Encoded.currentLogFileName st))%nat
                    && String.eqb filePath _)).
  assert (Hact : isActive = true -> filePath = Encoded.currentLogFileName st).
  { subst isActive. intros H. apply andb_prop in H as [Hlen Heq].
    destruct Hname as [E | E].
    - rewrite E in Hlen. discriminate Hlen.
    - rewrite E in Heq. cbn [negb] in Heq. apply String.eqb_eq, Heq. }
  clearbody isActive.
  destruct (SD.open_read filePath (Encoded.sd st)) as [fo c1] eqn:E1.
  destruct (SD_open_read_files _ _ _ _ E1) as (Hf1 & Hw1 & _).
  destruct fo as [fo|]; [cbn; exact Hf1|].
  destruct (isActive && Encoded.is_open (Encoded.set_sd c1 st)) eqn:Ea;
    [|cbn; exact Hf1].
  apply andb_prop in Ea as [Ea _]. specialize (Hact Ea).
  enc_proj.
  destruct (SD.open_read filePath c1) as [fo2 c2] eqn:E2.
  destruct (SD_open_read_files _ _ _ _ E2) as (Hf2 & Hw2 & Hs2).
  destruct fo2 as [fo2|]; [|cbn; congruence].
  enc_proj. rewrite <- Hact.
  destruct (SD.open_write filePath c2) as [fo3 c3] eqn:E3.
  assert (Hf3 : SD.files c3 = SD.files c2).
  { apply (SD_open_write_append _ _ _ _ E3); [congruence|].
    rewrite Hf2. apply Hs2. eexists; reflexivity. }
  destruct fo3; cbn; congruence.
Qed.
(** X13. A download of the active log file whose two attempts to open
    it for reading both fail answers 404 and leaves the log file
    closed, with the card still marked ready and every file as it was:
    the handler closes the log before its second attempt and reopens
    it only after a successful one. *)
Theorem failed_download_leaves_log_closed (st : State) (f : SD.File)
    (rest : list bool) :
  Encoded.sdCardReady st = true ->
  Encoded.logFile st = Some f ->
  String.prefix "/" (Encoded.currentLogFileName st) = true ->
  Encoded.has_dotdot (Encoded.currentLogFileName st) = false ->
  SD.outcomes (Encoded.sd st) = false :: false :: rest ->
  exists st',
    Encoded.handleFileDownload (Encoded.currentLogFileName st) st
    = (404, st')
    /\ Encoded.logFile st' = None
    /\ Encoded.sdCardReady st' = true
    /\ Encoded.currentLogFileName st' = Encoded.currentLogFileName st
    /\ SD.files (Encoded.sd st') = SD.files (Encoded.sd st)
    /\ SD.outcomes (Encoded.sd st') = rest.
Proof.
  intros Hready Hf Hprefix Hdots Hout.
  unfold Encoded.handleFileDownload.
  rewrite Hready, Hdots, Hprefix. cbn [negb].
  destruct (Encoded.currentLogFileName st) as [|ch name] eqn:Hname;
    [discriminate Hprefix|].
  cbn [String.length Nat.eqb Nat.ltb Nat.leb].
  rewrite ?Hprefix. cbn [negb].
  rewrite String.eqb_refl. cbn [andb].
  unfold SD.open_read, SD.next. rewrite Hout. cbn [andb].
  unfold Encoded.is_open. enc_proj. rewrite Hf.
  cbn [SD.outcomes andb]. 
  eexists. split; [reflexivity|]. enc_proj.
  rewrite Hname. cbn [SD.files SD.outcomes]. auto.
Qed.
End Download.

Lemma download_keeps_every_file_witness :
  SD.files
    (Encoded.sd
       (Encoded.handleFileDownload Encoded.example_name
          (Encoded.example_state [false; true; true] true)).2)
  = SD.files (Encoded.sd (Encoded.example_state [false; true; true] true)).
Proof.
  apply (download_keeps_every_file Encoded.example_name
           (Encoded.example_state [false; true; true] true)).
  - reflexivity.
  - right. reflexivity.
Defined.

Lemma failed_download_leaves_log_closed_witness :
  exists st',
    Encoded.handleFileDownload
      (Encoded.currentLogFileName
         (Encoded.example_state [false; false; true] true))
      (Encoded.example_state [false; false; true] true)
    = (404, st')
    /\ Encoded.logFile st' = None
    /\ Encoded.sdCardReady st' = true
    /\ Encoded.currentLogFileName st'
       = Encoded.currentLogFileName
           (Encoded.example_state [false; false; true] true)
    /\ SD.files (Encoded.sd st')
       = SD.files (Encoded.sd (Encoded.example_state [false; false; true] true))
    /\ SD.outcomes (Encoded.sd st') = [true].
Proof.
  apply (failed_download_leaves_log_closed
           (Encoded.example_state [false; false; true] true)
           {| SD.path := Encoded.example_name; SD.pos := 19;
              SD.appending := true |} [true]).
  - reflexivity.
  - reflexivity.
  - reflexivity.
  - vm_compute. reflexivity.
  - reflexivity.
Defined.

(** ** The record encoder of the two variants *)

Section EncoderVariants.
Context {float : Type}.
Variable float_zero : float.
Variable String_float : float -> Z -> string.
Variable localtime : Z -> tm.

(** X14. The plain-CSV firmware, which does not clamp the data length
    code, and the encrypted firmware, which does, encode the frame
    columns of every frame alike: the line of the encrypted firmware is
    the line of the plain one followed by the IMU and GPS columns, and
    both return for every data length code. *)
Theorem variants_encode_frames_alike (frame : CanFrame)
    (timestamp micros_ : Z) (s : Encoded.Sensors) :
  frame_ok frame ->
  exists line,
    Lastry.format_line localtime frame timestamp micros_ = Some line
    /\ line = Encoded.time_columns localtime timestamp micros_
              +:+ frame_fields frame
              +:+ columns (hex2 <$> padded_payload frame)
    /\ Encoded.format_line float_zero String_float localtime
         frame timestamp micros_ s
       = Some (line +:+ Encoded.sensor_columns float_zero String_float s).
Proof.
  intros Hok. eexists. split; [|split; [reflexivity|]].
  - rewrite Lastry_format_line_split.
    rewrite (append_data_columns_padded frame _ Hok eq_refl).
    reflexivity.
  - rewrite (Encoded_format_line_total float_zero String_float localtime
               frame timestamp micros_ s Hok).
    rewrite !append_assoc. reflexivity.
Qed.
End EncoderVariants.

Lemma variants_encode_frames_alike_witness :
  exists line,
    Lastry.format_line Lastry.utc long_dlc_frame 1700000000 42 = Some line
    /\ line = Encoded.time_columns Lastry.utc 1700000000 42
              +:+ frame_fields long_dlc_frame
              +:+ columns (hex2 <$> padded_payload long_dlc_frame)
    /\ Encoded.format_line tt Encoded.no_float_text Lastry.utc
         long_dlc_frame 1700000000 42 Encoded.no_sensors
       = Some (line +:+ Encoded.sensor_columns tt Encoded.no_float_text
                          Encoded.no_sensors).
Proof.
  apply (variants_encode_frames_alike tt Encoded.no_float_text Lastry.utc
           long_dlc_frame 1700000000 42 Encoded.no_sensors).
  exact long_dlc_frame_ok.
Defined.

(** *** Header and records have the same columns *)

Lemma count_commas_app a b :
  count_commas (a +:+ b) = (count_commas a + count_commas b)%nat.
Proof.
  induction a as [|c a IH]; [reflexivity|].
  rewrite append_cons. cbn [count_commas]. rewrite IH. lia.
Qed.

Lemma upper_char_comma c :
  Ascii.eqb (upper_char c) "," = Ascii.eqb c ",".
Proof. destruct c as [[] [] [] [] [] [] [] []]; reflexivity. Qed.

Lemma count_commas_toUpperCase s :
  count_commas (toUpperCase s) = count_commas s.
Proof.
  induction s as [|c s IH]; [reflexivity|].
  cbn [toUpperCase count_commas]. rewrite upper_char_comma, IH. reflexivity.
Qed.

Lemma digit_char_comma d :
  0 <= d < 16 -> Ascii.eqb (digit_char d) "," = false.
Proof.
  intros Hd.
  assert (H : d = 0 \/ d = 1 \/ d = 2 \/ d = 3 \/ d = 4 \/ d = 5 \/ d = 6
              \/ d = 7 \/ d = 8 \/ d = 9 \/ d = 10 \/ d = 11 \/ d = 12
              \/ d = 13 \/ d = 14 \/ d = 15) by lia.
  repeat (destruct H as [-> | H]; [reflexivity|]). subst d. reflexivity.
Qed.

Lemma count_commas_ultoa_from base rounds : forall value acc,
  2 <= base <= 16 ->
  count_commas (ultoa_from rounds value base acc) = count_commas acc.
Proof.
  induction rounds as [|r IH]; intros value acc Hb;
    cbn [ultoa_from].
  - cbn [count_commas].
    rewrite digit_char_comma
      by (pose proof (Z.mod_pos_bound value base); lia).
    reflexivity.
  - destruct (value / base =? 0).
    + cbn [count_commas].
      rewrite digit_char_comma
        by (pose proof (Z.mod_pos_bound value base); lia).
      reflexivity.
    + rewrite IH by exact Hb. cbn [count_commas].
      rewrite digit_char_comma
        by (pose proof (Z.mod_pos_bound value base); lia).
      reflexivity.
Qed.

Lemma count_commas_String_unsigned value base :
  2 <= base <= 16 -> count_commas (String_unsigned value base) = 0%nat.
Proof.
  intros Hb. unfold String_unsigned, ultoa.
  rewrite count_commas_ultoa_from by exact Hb. reflexivity.
Qed.

Lemma count_commas_zeros n : count_commas (zeros n) = 0%nat.
Proof. induction n as [|n IH]; [reflexivity|exact IH]. Qed.

Lemma count_commas_sprintf_0d width v :
  count_commas (sprintf_0d width v) = 0%nat.
Proof.
  unfold sprintf_0d. rewrite !count_commas_app, count_commas_zeros.
  unfold ultoa, DEC. rewrite count_commas_ultoa_from by lia.
  destruct (v <? 0); reflexivity.
Qed.

Lemma count_commas_String_int v : count_commas (String_int v) = 0%nat.
Proof.
  unfold String_int, ultoa, DEC.
  destruct (v <? 0); rewrite ?count_commas_app, count_commas_ultoa_from by lia;
    reflexivity.
Qed.

Lemma count_commas_format_timeStr t : count_commas (format_timeStr t) = 0%nat.
Proof.
  unfold format_timeStr.
  rewrite !count_commas_app, !count_commas_sprintf_0d. reflexivity.
Qed.

Lemma count_commas_hex2 b : is_byte b -> count_commas (hex2 b) = 0%nat.
Proof.
  intros Hb. rewrite <- data_column_hex2 by exact Hb.
  rewrite count_commas_app, count_commas_toUpperCase.
  rewrite count_commas_String_unsigned by (unfold HEX; lia).
  destruct (b <? 16); reflexivity.
Qed.

Lemma count_commas_columns cols :
  Forall (fun c => count_commas c = 0%nat) cols ->
  count_commas (columns cols) = length cols.
Proof.
  induction 1 as [|c cols Hc Hcols IH]; [reflexivity|].
  cbn [columns length]. rewrite !count_commas_app, Hc, IH. reflexivity.
Qed.

Lemma padded_payload_bytes frame :
  frame_ok frame -> Forall is_byte (padded_payload frame).
Proof.
  intros (_ & _ & _ & Hdata). unfold padded_payload.
  apply Forall_app. split.
  - apply Forall_take, Hdata.
  - apply Forall_replicate. unfold is_byte. lia.
Qed.

Lemma count_commas_frame_fields frame :
  count_commas (frame_fields frame) = 4%nat.
Proof.
  unfold frame_fields.
  rewrite !count_commas_app, count_commas_toUpperCase.
  rewrite !count_commas_String_unsigned by (unfold HEX, DEC; lia).
  destruct (extd frame), (rtr frame); reflexivity.
Qed.

Lemma count_commas_data_columns frame :
  frame_ok frame ->
  count_commas (columns (hex2 <$> padded_payload frame)) = 8%nat.
Proof.
  intros Hok. rewrite count_commas_columns.
  - rewrite length_fmap. apply padded_payload_length, Hok.
  - apply Forall_fmap.
    eapply Forall_impl; [exact (padded_payload_bytes _ Hok)|].
    intros b Hb. apply count_commas_hex2, Hb.
Qed.

Section HeaderLockstep.
Context {float : Type}.
Variable float_zero : float.
Variable String_float : float -> Z -> string.
Variable localtime : Z -> tm.

(** X15. Header and records stay in step: when the float formatter and
    the GPS time text produce no comma, every record line of the
    encrypted firmware has as many columns as its CSV header line,
    27. *)
Theorem record_has_the_columns_of_the_header (frame : CanFrame)
    (timestamp micros_ : Z) (s : Encoded.Sensors) :
  frame_ok frame ->
  (forall x decimalPlaces,
     count_commas (String_float x decimalPlaces) = 0%nat) ->
  count_commas (Encoded.gpsTimeText s) = 0%nat ->
  exists line,
    Encoded.format_line float_zero String_float localtime
      frame timestamp micros_ s = Some line
    /\ count_commas line = count_commas Encoded.headerLine
    /\ count_commas Encoded.headerLine = 26%nat.
Proof.
  intros Hok Hfloat Hgps. eexists.
  split; [apply Encoded_format_line_total; exact Hok|].
  split; [|reflexivity].
  change (count_commas Encoded.headerLine) with 26%nat.
  change (map hex2 (padded_payload frame))
    with (hex2 <$> padded_payload frame).
  rewrite !count_commas_app, count_commas_frame_fields,
    (count_commas_data_columns frame Hok).
  unfold Encoded.time_columns, Encoded.sensor_columns.
  rewrite !count_commas_app, count_commas_format_timeStr.
  rewrite !count_commas_String_unsigned by (unfold DEC; lia).
  rewrite !Hfloat.
  destruct (Encoded.gpsHasFix s); [|reflexivity].
  rewrite !count_commas_app, !Hfloat, count_commas_String_int, Hgps.
  reflexivity.
Qed.
End HeaderLockstep.

Lemma record_has_the_columns_of_the_header_witness :
  exists line,
    Encoded.format_line tt Encoded.no_float_text Encoded.utc
      long_dlc_frame 1700000000 42 Encoded.no_sensors = Some line
    /\ count_commas line = count_commas Encoded.headerLine
    /\ count_commas Encoded.headerLine = 26%nat.
Proof.
  apply (record_has_the_columns_of_the_header tt Encoded.no_float_text
           Encoded.utc long_dlc_frame 1700000000 42 Encoded.no_sensors).
  - exact long_dlc_frame_ok.
  - intros x d. unfold Encoded.no_float_text.
    destruct (d =? 4); reflexivity.
  - reflexivity.
Defined.

(** ** File names *)

Lemma length_append (a b : string) :
  String.length (a +:+ b) = (String.length a + String.length b)%nat.
Proof.
  induction a as [|c a IH]; [reflexivity|].
  rewrite append_cons. cbn [String.length]. rewrite IH. reflexivity.
Qed.

Lemma length_zeros n : String.length (zeros n) = n.
Proof. induction n as [|n IH]; [reflexivity|]. cbn. rewrite IH. reflexivity. Qed.

(** A value below [base ^ k] prints in at most [k] digits. *)
Lemma ultoa_from_length_le base rounds : forall (k : nat) value acc,
  2 <= base -> (1 <= k)%nat -> 0 <= value < base ^ Z.of_nat k ->
  (String.length acc < String.length (ultoa_from rounds value base acc)
   <= String.length acc + k)%nat.
Proof.
  induction rounds as [|r IH]; intros k value acc Hb Hk Hv;
    cbn [ultoa_from].
  - cbn [String.length]. lia.
  - destruct (Z.eqb_spec (value / base) 0) as [Hq|Hq].
    + cbn [String.length]. lia.
    + assert (Hq' : 0 < value / base).
      { pose proof (Z.div_pos value base ltac:(lia) ltac:(lia)). lia. }
      destruct k as [|[|k]]; [lia| |].
      * exfalso. rewrite Z.pow_1_r in Hv.
        rewrite Z.div_small in Hq' by lia. lia.
      * assert (Hv' : 0 <= value / base < base ^ Z.of_nat (S k)).
        { split; [lia|]. apply Z.div_lt_upper_bound; [lia|].
          replace (Z.of_nat (S (S k))) with (1 + Z.of_nat (S k)) in Hv by lia.
          rewrite Z.pow_add_r, Z.pow_1_r in Hv by lia. lia. }
        specialize (IH (S k) (value / base)
                       (String (digit_char (value mod base)) acc)
                       Hb ltac:(lia) Hv').
        cbn [String.length] in IH. lia.
Qed.

Lemma sprintf_0d_length (width : nat) v :
  (1 <= width)%nat -> 0 <= v < 10 ^ Z.of_nat width ->
  String.length (sprintf_0d width v) = width.
Proof.
  intros Hw Hv. unfold sprintf_0d.
  replace (v <? 0) with false by lia.
  rewrite Z.abs_eq by lia.
  pose proof (ultoa_from_length_le 10 32 width v "" ltac:(lia) Hw Hv) as Hd.
  fold (ultoa v 10) in Hd. unfold DEC.
  cbn [String.length] in Hd.
  rewrite !length_append, length_zeros. cbn [String.length]. lia.
Qed.

(** X16. For every calendar time with a four-digit year the name that
    [generateLogFileName] formats has 44 characters, so that with its
    terminator it fits the 64-byte buffer it is formatted into. *)
Theorem log_file_name_fits_buffer {float : Type} (localtime : Z -> tm)
    (st : @Encoded.State float) :
  calendar_time (localtime (Encoded.baseTime st)) ->
  String.length (Encoded.generateLogFileName localtime st) = 44%nat
  /\ (String.length (Encoded.generateLogFileName localtime st) + 1 <= 64)%nat.
Proof.
  intros (Hy & Hmo & Hd & Hh & Hmi & Hs).
  assert (H : String.length (Encoded.generateLogFileName localtime st)
              = 44%nat); [|rewrite H; split; [reflexivity|lia]].
  unfold Encoded.generateLogFileName.
  rewrite !length_append.
  rewrite (sprintf_0d_length 4) by (cbn; lia).
  rewrite !(sprintf_0d_length 2) by (cbn; lia).
  reflexivity.
Qed.

Lemma log_file_name_fits_buffer_witness :
  String.length
    (Encoded.generateLogFileName Encoded.utc (boot_state [])) = 44%nat
  /\ (String.length
        (Encoded.generateLogFileName Encoded.utc (boot_state [])) + 1
      <= 64)%nat.
Proof.
  apply (log_file_name_fits_buffer Encoded.utc (boot_state [])).
  unfold calendar_time. cbn. lia.
Defined.

Lemma toLowerCase_append a b :
  Web.toLowerCase (a +:+ b) = Web.toLowerCase a +:+ Web.toLowerCase b.
Proof.
  induction a as [|c a IH]; [reflexivity|].
  rewrite append_cons. cbn [Web.toLowerCase].
  rewrite IH, append_cons. reflexivity.
Qed.

Lemma substring_all b : String.substring 0 (String.length b) b = b.
Proof.
  induction b as [|c b IHb]; [reflexivity|].
  cbn [String.length String.substring]. rewrite IHb. reflexivity.
Qed.

Lemma substring_append_r a b :
  String.substring (String.length a) (String.length b) (a +:+ b) = b.
Proof.
  induction a as [|c a IH].
  - change ("" +:+ b) with b. apply substring_all.
  - rewrite append_cons. cbn [String.length String.substring]. exact IH.
Qed.

Lemma endsWith_append a b : Web.endsWith (a +:+ b) b = true.
Proof.
  unfold Web.endsWith. rewrite length_append.
  replace (String.length a + String.length b - String.length b)%nat
    with (String.length a) by lia.
  rewrite substring_append_r, String.eqb_refl.
  replace (String.length b <=? String.length a + String.length b)%nat
    with true by (symmetry; apply Nat.leb_le; lia).
  reflexivity.
Qed.

Lemma substring_from_append a b :
  Web.substring_from (String.length a) (a +:+ b) = b.
Proof.
  unfold Web.substring_from. rewrite length_append.
  replace (String.length a + String.length b - String.length a)%nat
    with (String.length b) by lia.
  apply substring_append_r.
Qed.

Lemma prefix_append a b : String.prefix a (a +:+ b) = true.
Proof.
  induction a as [|c a IH]; [destruct b; reflexivity|].
  rewrite append_cons. cbn [String.prefix].
  destruct (ascii_dec c c) as [_|Hne]; [exact IH|congruence].
Qed.

Lemma count_dots_app a b :
  count_dots (a +:+ b) = (count_dots a + count_dots b)%nat.
Proof.
  induction a as [|c a IH]; [reflexivity|].
  rewrite append_cons. cbn [count_dots]. rewrite IH. lia.
Qed.

Lemma digit_char_dot d :
  0 <= d < 16 -> Ascii.eqb (digit_char d) "." = false.
Proof.
  intros Hd.
  assert (H : d = 0 \/ d = 1 \/ d = 2 \/ d = 3 \/ d = 4 \/ d = 5 \/ d = 6
              \/ d = 7 \/ d = 8 \/ d = 9 \/ d = 10 \/ d = 11 \/ d = 12
              \/ d = 13 \/ d = 14 \/ d = 15) by lia.
  repeat (destruct H as [-> | H]; [reflexivity|]). subst d. reflexivity.
Qed.

Lemma count_dots_ultoa_from base rounds : forall value acc,
  2 <= base <= 16 ->
  count_dots (ultoa_from rounds value base acc) = count_dots acc.
Proof.
  induction rounds as [|r IH]; intros value acc Hb;
    cbn [ultoa_from].
  - cbn [count_dots].
    rewrite digit_char_dot
      by (pose proof (Z.mod_pos_bound value base); lia).
    reflexivity.
  - destruct (value / base =? 0).
    + cbn [count_dots].
      rewrite digit_char_dot
        by (pose proof (Z.mod_pos_bound value base); lia).
      reflexivity.
    + rewrite IH by exact Hb. cbn [count_dots].
      rewrite digit_char_dot
        by (pose proof (Z.mod_pos_bound value base); lia).
      reflexivity.
Qed.

Lemma count_dots_zeros n : count_dots (zeros n) = 0%nat.
Proof. induction n as [|n IH]; [reflexivity|exact IH]. Qed.

Lemma count_dots_sprintf_0d width v : count_dots (sprintf_0d width v) = 0%nat.
Proof.
  unfold sprintf_0d. rewrite !count_dots_app, count_dots_zeros.
  unfold ultoa, DEC. rewrite count_dots_ultoa_from by lia.
  destruct (v <? 0); reflexivity.
Qed.

Lemma prefix_dotdot_count s :
  String.prefix ".." s = true -> (2 <= count_dots s)%nat.
Proof.
  destruct s as [|c1 [|c2 s]]; try discriminate.
  - cbn [String.prefix]. destruct (ascii_dec "." c1); intros H; discriminate H.
  - cbn [String.prefix count_dots].
    destruct (ascii_dec "." c1) as [<-|]; [|discriminate].
    destruct (ascii_dec "." c2) as [<-|]; [|discriminate].
    intros _. cbn. lia.
Qed.

Lemma index_dotdot_count s : forall n k,
  String.index n ".." s = Some k -> (2 <= count_dots s)%nat.
Proof.
  induction s as [|c s IH]; intros n k H.
  - destruct n; discriminate H.
  - cbn [String.index] in H. destruct n as [|n].
    + destruct (String.prefix ".." (String c s)) eqn:Ep.
      * apply prefix_dotdot_count, Ep.
      * destruct (String.index 0 ".." s) as [m|] eqn:Ei; [|discriminate H].
        specialize (IH _ _ Ei). cbn [count_dots]. lia.
    + destruct (String.index n ".." s) as [m|] eqn:Ei; [|discriminate H].
      specialize (IH _ _ Ei). cbn [count_dots]. lia.
Qed.

Lemma has_dotdot_count s :
  (count_dots s <= 1)%nat -> Encoded.has_dotdot s = false.
Proof.
  intros Hc. unfold Encoded.has_dotdot.
  destruct (String.index 0 ".." s) as [k|] eqn:Ei; [|reflexivity].
  apply index_dotdot_count in Ei. lia.
Qed.

(** A download whose file opens at the first attempt is served and
    leaves the logger as it was. *)
Lemma handleFileDownload_serves {float : Type} (st : @Encoded.State float)
    fileName content :
  Encoded.sdCardReady st = true ->
  (0 < String.length fileName)%nat ->
  Encoded.has_dotdot fileName = false ->
  SD.files (Encoded.sd st) !! Web.download_path fileName (Encoded.sd st)
  = Some content ->
  (SD.next (Encoded.sd st)).1 = true ->
  Encoded.handleFileDownload fileName st
  = (200, Encoded.set_sd (SD.next (Encoded.sd st)).2 st).
Proof.
  intros Hready Hlen Hdots Hfile Hnext.
  unfold Encoded.handleFileDownload.
  rewrite Hready, Hdots. cbn [negb].
  replace (String.length fileName =? 0)%nat with false
    by (symmetry; apply Nat.eqb_neq; lia).
  fold (Web.download_path fileName (Encoded.sd st)).
  set (filePath := Web.download_path fileName (Encoded.sd st)) in *.
  unfold SD.open_read.
  destruct (SD.next (Encoded.sd st)) as [ok c1] eqn:En.
  destruct (SD_next_frame _ _ _ En) as (Hf & _).
  cbn [fst snd] in *. subst ok. rewrite Hf, Hfile.
  rewrite bool_decide_eq_true_2 by (eexists; reflexivity).
  reflexivity.
Qed.

Section Listing.
Context {float : Type}.
Variable localtime : Z -> tm.
Local Abbreviation State := (@Encoded.State float).

(** X17. The log file that the logger creates can be fetched through
    the web interface: its base name passes the data-file filter of the
    file list; reported by its base name, it is listed as
    ["CAN_Logged_Data/" + base name]; and a download request for that
    name opens the log file's own path and is served, leaving the
    logger as it was. *)
Theorem created_log_is_listed_and_served (st : State) (content : list Z) :
  Encoded.sdCardReady st = true ->
  SD.files (Encoded.sd st) !! Encoded.generateLogFileName localtime st
  = Some content ->
  (SD.next (Encoded.sd st)).1 = true ->
  exists base,
    Encoded.generateLogFileName localtime st = "/CAN_Logged_Data/" +:+ base
    /\ Web.isDataFileName base = true
    /\ Web.folder_entry_name base = "CAN_Logged_Data/" +:+ base
    /\ Web.download_path (Web.folder_entry_name base) (Encoded.sd st)
       = Encoded.generateLogFileName localtime st
    /\ Encoded.handleFileDownload (Web.folder_entry_name base) st
       = (200, Encoded.set_sd (SD.next (Encoded.sd st)).2 st).
Proof.
  intros Hready Hfile Hnext.
  unfold Encoded.generateLogFileName in *.
  set (t := localtime (Encoded.baseTime st)) in *.
  set (stamp := sprintf_0d 4 (tm_year t + 1900) +:+ _) in *.
  assert (Hstamp : exists digits, stamp = digits +:+ ".NXT"
                                  /\ count_dots digits = 0%nat).
  { subst stamp. eexists. rewrite <- !append_assoc. split; [reflexivity|].
    rewrite !count_dots_app, !count_dots_sprintf_0d. reflexivity. }
  clearbody stamp. destruct Hstamp as (digits & -> & Hdig).
  exists (Encoded.LOG_FILE_PREFIX +:+ digits +:+ ".NXT").
  assert (Hentry : Web.folder_entry_name
                     (Encoded.LOG_FILE_PREFIX +:+ digits +:+ ".NXT")
                   = "CAN_Logged_Data/"
                     +:+ Encoded.LOG_FILE_PREFIX +:+ digits +:+ ".NXT")
    by reflexivity.
  assert (Hpath : Web.download_path
                    ("CAN_Logged_Data/"
                     +:+ Encoded.LOG_FILE_PREFIX +:+ digits +:+ ".NXT")
                    (Encoded.sd st)
                  = "/CAN_Logged_Data/"
                    +:+ Encoded.LOG_FILE_PREFIX +:+ digits +:+ ".NXT")
    by reflexivity.
  split; [reflexivity|]. split.
  { unfold Web.isDataFileName.
    rewrite <- append_assoc, toLowerCase_append.
    change (Web.toLowerCase ".NXT") with ".nxt".
    rewrite endsWith_append. reflexivity. }
  split; [exact Hentry|]. rewrite Hentry. split; [exact Hpath|].
  apply (handleFileDownload_serves st _ content Hready).
  - rewrite length_append. cbn [String.length]. lia.
  - apply has_dotdot_count.
    rewrite !count_dots_app, Hdig. cbn. lia.
  - rewrite Hpath. exact Hfile.
  - exact Hnext.
Qed.
End Listing.

(** X18. When [file.name()] reports a file of the log folder by its
    full path, the file list shows it under a name that has lost the
    first character of its base name: the prefix ["/CAN_Logged_Data/"]
    has 17 characters and the handler cuts 18. A download request for
    the listed name then opens another path than the file's. *)
Theorem absolute_name_loses_a_character (c : ascii) (rest : string)
    (card : SD.Card) :
  Web.folder_entry_name ("/CAN_Logged_Data/" +:+ String c rest)
  = "CAN_Logged_Data/" +:+ rest
  /\ Web.download_path
       (Web.folder_entry_name ("/CAN_Logged_Data/" +:+ String c rest)) card
     = "/CAN_Logged_Data/" +:+ rest
  /\ "/CAN_Logged_Data/" +:+ rest <> "/CAN_Logged_Data/" +:+ String c rest.
Proof.
  assert (H : Web.folder_entry_name ("/CAN_Logged_Data/" +:+ String c rest)
              = "CAN_Logged_Data/" +:+ rest).
  { unfold Web.folder_entry_name.
    rewrite (prefix_append "/CAN_Logged_Data/").
    f_equal.
    replace ("/CAN_Logged_Data/" +:+ String c rest)
      with (("/CAN_Logged_Data/" +:+ String c "") +:+ rest)
      by (rewrite append_assoc; reflexivity).
    exact (substring_from_append ("/CAN_Logged_Data/" +:+ String c "") rest). }
  split; [exact H|]. rewrite H. split.
  { unfold Web.download_path.
    change (String.prefix "/" ("CAN_Logged_Data/" +:+ rest)) with false.
    rewrite (prefix_append "CAN_Logged_Data/"). reflexivity. }
  intros E. apply (f_equal String.length) in E.
  rewrite !length_append in E. cbn [String.length] in E. lia.
Qed.

Lemma created_log_is_listed_and_served_witness :
  exists base,
    Encoded.generateLogFileName Encoded.utc logging_state
    = "/CAN_Logged_Data/" +:+ base
    /\ Web.isDataFileName base = true
    /\ Web.folder_entry_name base = "CAN_Logged_Data/" +:+ base
    /\ Web.download_path (Web.folder_entry_name base)
         (Encoded.sd logging_state)
       = Encoded.generateLogFileName Encoded.utc logging_state
    /\ Encoded.handleFileDownload (Web.folder_entry_name base) logging_state
       = (200, Encoded.set_sd (SD.next (Encoded.sd logging_state)).2
                 logging_state).
Proof.
  apply (created_log_is_listed_and_served Encoded.utc logging_state
           (SD.content (Encoded.generateLogFileName Encoded.utc logging_state)
                       (Encoded.sd logging_state))).
  - vm_compute. reflexivity.
  - vm_compute. reflexivity.
  - vm_compute. reflexivity.
Defined.

(** ** An invariant of the encrypted firmware: open only while ready *)

Section OpenImpliesReady.
Context {float : Type}.
Variable float_zero : float.
Variable String_float : float -> Z -> string.
Variable localtime : Z -> tm.

Local Abbreviation State := (@Encoded.State float).
Local Abbreviation createNewLogFile := (Encoded.createNewLogFile localtime).
Local Abbreviation writeCANMessage :=
  (Encoded.writeCANMessage float_zero String_float localtime).
Local Abbreviation loop_receive :=
  (Encoded.loop_receive float_zero String_float localtime).
Local Abbreviation format_line :=
  (Encoded.format_line float_zero String_float localtime).

Lemma write_encrypted_byte_success b (st st' : State) :
  Encoded.write_encrypted_byte b st = (true, st') ->
  Encoded.is_open st' = true
  /\ Encoded.sdCardReady st' = Encoded.sdCardReady st.
Proof.
  unfold Encoded.write_encrypted_byte, Encoded.logFile_write.
  destruct (Cipher.encryptByte _ _ _) as [enc cs].
  enc_proj.
  destruct (Encoded.logFile st) as [f|] eqn:El.
  - destruct (SD.write enc f (Encoded.sd st)) as [[n f'] c'].
    rewrite if_negb.
    destruct (n =? 1); intros H; [|discriminate H].
    injection H as <-. split; reflexivity.
  - rewrite if_negb. intros H. discriminate H.
Qed.

Lemma write_encrypted_bytes_success bytes : forall (st st' : State),
  Encoded.write_encrypted_bytes bytes st = (true, st') ->
  Encoded.sdCardReady st' = Encoded.sdCardReady st.
Proof.
  induction bytes as [|b rest IH]; intros st st' H.
  - injection H as <-. reflexivity.
  - cbn [Encoded.write_encrypted_bytes] in H.
    destruct (Encoded.write_encrypted_byte b st) as [ok1 st1] eqn:E.
    rewrite if_negb in H. destruct ok1; [|discriminate H].
    apply write_encrypted_byte_success in E. destruct E as [_ E].
    rewrite (IH _ _ H). exact E.
Qed.

Lemma writeEncryptedLine_success line (st st' : State) :
  Encoded.writeEncryptedLine line st = (true, st') ->
  Encoded.is_open st' = true
  /\ Encoded.sdCardReady st' = Encoded.sdCardReady st.
Proof.
  unfold Encoded.writeEncryptedLine. rewrite if_negb.
  destruct (Encoded.is_open st); [|discriminate].
  destruct (Encoded.write_encrypted_bytes _ st) as [ok1 st1] eqn:E1.
  rewrite if_negb. destruct ok1; [|discriminate].
  apply write_encrypted_bytes_success in E1.
  destruct (Encoded.write_encrypted_byte 10 st1) as [ok2 st2] eqn:E2.
  rewrite if_negb. destruct ok2; [|discriminate].
  apply write_encrypted_byte_success in E2. destruct E2 as [Ho Hr].
  intros H. injection H as <-. split; [exact Ho|].
  enc_proj. congruence.
Qed.

Lemma createNewLogFile_ready (st st' : State) ok :
  createNewLogFile st = (ok, st') ->
  if ok then Encoded.is_open st' = true
             /\ Encoded.sdCardReady st' = Encoded.sdCardReady st
  else Encoded.logFile st' = None.
Proof.
  intros H. destruct ok.
  - destruct (createNewLogFile_ok localtime st st' H)
      as (f & Hlf & _ & _ & _ & _ & _ & _ & Hr & _).
    split; [unfold Encoded.is_open; rewrite Hlf; reflexivity|exact Hr].
  - exact (createNewLogFile_result localtime _ _ _ H).
Qed.

Lemma not_ready_closed (st : State) :
  open_implies_ready st -> Encoded.sdCardReady st = false ->
  Encoded.is_open st = false.
Proof.
  intros Hinv Hnr. destruct (Encoded.is_open st) eqn:E; [|reflexivity].
  rewrite (Hinv E) in Hnr. discriminate Hnr.
Qed.

Lemma closed_invariant (st : State) :
  Encoded.logFile st = None -> open_implies_ready st.
Proof.
  intros Hc Ho. unfold Encoded.is_open in Ho. rewrite Hc in Ho.
  discriminate Ho.
Qed.

(** After [writeCANMessage] the invariant holds again, and a record
    was written only with the file open and the card ready. *)
Lemma writeCANMessage_invariant frame timestamp micros_ (st st' : State) ok :
  open_implies_ready st ->
  writeCANMessage frame timestamp micros_ st = Some (ok, st') ->
  open_implies_ready st'
  /\ (if ok then Encoded.is_open st' = true /\ Encoded.sdCardReady st' = true
      else Encoded.logFile st' = None /\ Encoded.sdCardReady st' = false).
Proof.
  intros Hinv. unfold Encoded.writeCANMessage.
  destruct (if negb (Encoded.sdCardReady st) then _ else _)
    as [ok1 st1] eqn:E1.
  assert (H1 : if ok1 then Encoded.sdCardReady st1 = true
                           /\ open_implies_ready st1
               else Encoded.logFile st1 = None
                    /\ Encoded.sdCardReady st1 = false).
  { revert E1. rewrite if_negb.
    destruct (Encoded.sdCardReady st) eqn:Hr.
    - intros H; injection H as <- <-. split; [exact Hr|exact Hinv].
    - pose proof (not_ready_closed st Hinv Hr) as Hclosed.
      unfold Encoded.initializeSDCard.
      destruct (SD.next (Encoded.sd st)) as [oki c].
      rewrite if_negb. destruct oki.
      + destruct (createNewLogFile (Encoded.set_sd c st)) as [okc st2] eqn:Ec.
        apply createNewLogFile_ready in Ec.
        rewrite if_negb.
        destruct okc; intros H; injection H as <- <-.
        * split; [reflexivity|]. intros _. reflexivity.
        * split; [exact Ec|reflexivity].
      + intros H; injection H as <- <-. split; [|reflexivity].
        enc_proj. unfold Encoded.is_open in Hclosed.
        destruct (Encoded.logFile st); [discriminate Hclosed|reflexivity]. }
  rewrite if_negb.
  destruct ok1;
    [|intros H; injection H as <- <-;
      split; [apply closed_invariant, H1|exact H1]].
  destruct H1 as [Hr1 Hinv1].
  destruct (if negb (Encoded.is_open st1) then _ else _)
    as [ok2 st2] eqn:E2.
  assert (H2 : if ok2 then Encoded.sdCardReady st2 = true
                           /\ Encoded.is_open st2 = true
               else Encoded.logFile st2 = None
                    /\ Encoded.sdCardReady st2 = false).
  { revert E2. rewrite if_negb.
    destruct (Encoded.is_open st1) eqn:Ho.
    - intros H; injection H as <- <-. split; [exact Hr1|exact Ho].
    - destruct (createNewLogFile st1) as [okc st3] eqn:Ec.
      apply createNewLogFile_ready in Ec.
      rewrite if_negb.
      destruct okc; intros H; injection H as <- <-.
      + destruct Ec as [Ho3 Hr3]. split; [congruence|exact Ho3].
      + split; [exact Ec|reflexivity]. }
  rewrite if_negb.
  destruct ok2;
    [|intros H; injection H as <- <-;
      split; [apply closed_invariant, H2|exact H2]].
  destruct H2 as [Hr2 Ho2].
  destruct (format_line _ _ _ _) as [line|]; cbn [mbind option_bind];
    [|discriminate].
  intros H. injection H as H. destruct ok.
  - destruct (writeEncryptedLine_success _ _ _ H) as [Ho Hr].
    split; [intros _; congruence|]. split; [exact Ho|congruence].
  - pose proof (writeEncryptedLine_fail _ _ _ Ho2 H) as Hf.
    split; [apply closed_invariant, Hf|exact Hf].
Qed.
Lemma handleFileDownload_invariant fileName (st : State) :
  open_implies_ready st ->
  open_implies_ready (Encoded.handleFileDownload fileName st).2.
Proof.
  intros Hinv. unfold Encoded.handleFileDownload.
  destruct (Encoded.sdCardReady st) eqn:Hready; cbn [negb]; [|exact Hinv].
  destruct (String.length fileName =? 0)%nat; [exact Hinv|].
  destruct (Encoded.has_dotdot fileName); [exact Hinv|].
  set (filePath := if String.prefix "/" fileName then fileName else _).
  clearbody filePath.
  set (isActive := ((0 <? String.length (Encoded.currentLogFileName st))%nat
                    && String.eqb _ _)).
  clearbody isActive.
  destruct (SD.open_read filePath (Encoded.sd st)) as [fo c1].
  assert (H1 : open_implies_ready (Encoded.set_sd c1 st)) by exact Hinv.
  destruct fo as [fo|]; [exact H1|].
  destruct (isActive && Encoded.is_open (Encoded.set_sd c1 st));
    [|exact H1].
  enc_proj.
  destruct (SD.open_read filePath c1) as [fo2 c2].
  destruct fo2 as [fo2|]; [|apply closed_invariant; reflexivity].
  enc_proj.
  destruct (SD.open_write (Encoded.currentLogFileName st) c2) as [fo3 c3].
  destruct fo3 as [fo3|].
  - intros _. exact Hready.
  - apply closed_invariant. reflexivity.
Qed.

(** X19. The log file is open only while the card is marked ready, and
    the writer and the download handler keep it so: started from such
    a state, [writeCANMessage] returns true only with the file open and
    the card ready, and false only with the file closed and the card
    marked not ready; [handleFileDownload] ends in such a state. *)
Theorem writer_and_download_keep_open_only_while_ready (frame : CanFrame)
    (timestamp micros_ : Z) (fileName : string) (st : State) :
  open_implies_ready st ->
  frame_ok frame ->
  (exists ok st',
     writeCANMessage frame timestamp micros_ st = Some (ok, st')
     /\ open_implies_ready st'
     /\ (if ok
         then Encoded.is_open st' = true /\ Encoded.sdCardReady st' = true
         else Encoded.logFile st' = None
              /\ Encoded.sdCardReady st' = false))
  /\ open_implies_ready (Encoded.handleFileDownload fileName st).2.
Proof.
  intros Hinv Hok. split; [|apply handleFileDownload_invariant, Hinv].
  destruct (writeCANMessage_total float_zero String_float localtime
              frame timestamp micros_ st Hok) as (ok & st' & Hw).
  exists ok, st'. split; [exact Hw|].
  exact (writeCANMessage_invariant frame timestamp micros_ st st' ok Hinv Hw).
Qed.

(** X20. The receive loop does not keep that invariant: when the write
    fails, the recovery [createNewLogFile] succeeds and the card probe
    at the start of the retry fails, the retry returns before it
    touches the file, and the loop ends with the new log file open and
    the card marked not ready. *)
Theorem failed_retry_leaves_file_open (message : CanFrame) (st st3 st4 : State)
    (lb : Live.Buffer) :
  Encoded.sdCardReady st = true ->
  Encoded.is_open st = true ->
  Live.storeLiveFrame message (Encoded.current_time st).1
    (Encoded.current_time st).2
    (format_timeStr (localtime (Encoded.current_time st).1))
    (Encoded.live st) = Some lb ->
  writeCANMessage message (Encoded.current_time st).1
    (Encoded.current_time st).2
    (Encoded.set_live lb
       (Encoded.set_messageCount (u32 (Encoded.messageCount st + 1)) st))
  = Some (false, st3) ->
  createNewLogFile st3 = (true, st4) ->
  (SD.next (Encoded.sd st4)).1 = false ->
  exists st',
    loop_receive message st = Some st'
    /\ Encoded.is_open st' = true
    /\ Encoded.sdCardReady st' = false
    /\ Encoded.logFile st' = Encoded.logFile st4.
Proof.
  intros Hready Hopen Hstore Hw Hc Hprobe.
  rewrite (loop_receive_ready_open float_zero String_float localtime
             message st lb Hready Hopen Hstore).
  rewrite Hw. cbn [mbind option_bind negb]. rewrite Hc. cbn [negb].
  destruct (writeCANMessage_fail float_zero String_float localtime
              message _ _
              (Encoded.set_live lb
                 (Encoded.set_messageCount
                    (u32 (Encoded.messageCount st + 1)) st))
              st3 Hready Hw) as [_ Hnr3].
  destruct (createNewLogFile_ready _ _ _ Hc) as [Ho4 Hr4].
  rewrite Hnr3 in Hr4.
  unfold Encoded.writeCANMessage. rewrite Hr4. cbn [negb].
  unfold Encoded.initializeSDCard.
  destruct (SD.next (Encoded.sd st4)) as [oki c]. cbn [fst] in Hprobe.
  subst oki. cbn [negb mbind option_bind].
  eexists. split; [reflexivity|]. enc_proj.
  split; [exact Ho4|]. split; reflexivity.
Qed.
End OpenImpliesReady.

Lemma writer_and_download_keep_open_only_while_ready_witness :
  (exists ok st',
     Encoded.writeCANMessage tt Encoded.no_float_text Encoded.utc
       example_frame 1700000005 0 (Encoded.example_state [] true)
     = Some (ok, st')
     /\ open_implies_ready st'
     /\ (if ok
         then Encoded.is_open st' = true /\ Encoded.sdCardReady st' = true
         else Encoded.logFile st' = None
              /\ Encoded.sdCardReady st' = false))
  /\ open_implies_ready
       (Encoded.handleFileDownload Encoded.example_name
          (Encoded.example_state [] true)).2.
Proof.
  apply (writer_and_download_keep_open_only_while_ready tt
           Encoded.no_float_text Encoded.utc example_frame 1700000005 0
           Encoded.example_name (Encoded.example_state [] true)).
  - intros _. reflexivity.
  - exact example_frame_ok.
Defined.

Lemma failed_retry_leaves_file_open_witness :
  exists st',
    Encoded.loop_receive tt Encoded.no_float_text Encoded.utc
      example_frame retry_state = Some st'
    /\ Encoded.is_open st' = true
    /\ Encoded.sdCardReady st' = false
    /\ Encoded.logFile st' = Encoded.logFile retry_after_create.
Proof.
  apply (failed_retry_leaves_file_open tt Encoded.no_float_text Encoded.utc
           example_frame retry_state retry_after_write retry_after_create
           retry_pushed).
  - reflexivity.
  - reflexivity.
  - vm_compute. reflexivity.
  - vm_compute. reflexivity.
  - vm_compute. reflexivity.
  - vm_compute. reflexivity.
Defined.

(** ** The plain-CSV firmware: log files and commands *)

Ltac las_proj :=
  cbn [Lastry.sd Lastry.millis Lastry.micros Lastry.baseTime
       Lastry.bootMillis Lastry.rtcAvailable Lastry.logFile
       Lastry.currentLogFileName Lastry.currentFileSize Lastry.sdCardReady
       Lastry.loggingEnabled Lastry.stoppedByUser Lastry.messageCount
       Lastry.live Lastry.set_sd Lastry.set_logFile
       Lastry.set_currentFileSize Lastry.set_sdCardReady
       Lastry.set_loggingEnabled Lastry.set_stoppedByUser
       Lastry.set_messageCount Lastry.set_live
       LastryFiles.set_currentLogFileName].

Ltac las_proj_in H :=
  cbn [Lastry.sd Lastry.millis Lastry.micros Lastry.baseTime
       Lastry.bootMillis Lastry.rtcAvailable Lastry.logFile
       Lastry.currentLogFileName Lastry.currentFileSize Lastry.sdCardReady
       Lastry.loggingEnabled Lastry.stoppedByUser Lastry.messageCount
       Lastry.live Lastry.set_sd Lastry.set_logFile
       Lastry.set_currentFileSize Lastry.set_sdCardReady
       Lastry.set_loggingEnabled Lastry.set_stoppedByUser
       Lastry.set_messageCount Lastry.set_live
       LastryFiles.set_currentLogFileName] in H.

Lemma Lastry_close_if_open (st : Lastry.State) :
  match Lastry.logFile st with
  | Some _ => Lastry.set_logFile None st
  | None => st
  end = Lastry.set_logFile None st.
Proof. destruct st as [? ? ? ? ? ? lf]. cbn. destruct lf; reflexivity. Qed.

(** One [write] through a handle that writes at the end of its file:
    the bytes are appended or, when the operation fails, nothing is. *)
Lemma SD_write_buf_at_end bs f c old n f' c' :
  SD.write_buf bs f c = (n, f', c') ->
  SD.files c !! SD.path f = Some old ->
  SD.appending f = true \/ SD.pos f = Z.of_nat (length old) ->
  let part := if (SD.next c).1 then bs else [] in
  n = Z.of_nat (length part)
  /\ SD.path f' = SD.path f
  /\ SD.appending f' = SD.appending f
  /\ SD.files c' = <[SD.path f := old ++ part]> (SD.files c)
  /\ (SD.appending f' = true
      \/ SD.pos f' = Z.of_nat (length (old ++ part)))
  /\ SD.write_truncates c' = SD.write_truncates c
  /\ c' = SD.set_files (SD.files c') (SD.next c).2.
Proof.
  unfold SD.write_buf. intros H Hold Hend.
  destruct (SD.next c) as [ok c1] eqn:Hnext.
  destruct (SD_next_frame _ _ _ Hnext) as (Hf & Hd & Hw).
  rewrite Hf, Hold in H. cbn [fst snd].
  assert (Hc1 : SD.set_files (SD.files c) c1 = c1).
  { rewrite <- Hf. destruct c1; reflexivity. }
  destruct ok; injection H as <- <- <-.
  - assert (Hat : (if SD.appending f then Z.of_nat (length old)
                   else SD.pos f) = Z.of_nat (length old)).
    { destruct Hend as [-> | ->]; [reflexivity|].
      destruct (SD.appending f); reflexivity. }
    rewrite Hat, splice_at_end.
    cbn [SD.files SD.write_truncates SD.set_files SD.path SD.appending
         SD.pos SD.seek].
    split; [reflexivity|]. split; [reflexivity|].
    split; [reflexivity|]. split; [reflexivity|].
    split; [right; rewrite length_app; lia|]. split; [exact Hw|reflexivity].
  - rewrite app_nil_r, Hf, Hw, insert_id by exact Hold.
    split; [reflexivity|]. split; [reflexivity|].
    split; [reflexivity|]. split; [reflexivity|].
    split; [exact Hend|]. split; [reflexivity|].
    symmetry. exact Hc1.
Qed.

Lemma SD_next_set_files fs c :
  SD.next (SD.set_files fs c)
  = ((SD.next c).1, SD.set_files fs (SD.next c).2).
Proof.
  unfold SD.next. cbn [SD.outcomes SD.set_files].
  destruct (SD.outcomes c); reflexivity.
Qed.

(** [println] through a handle that writes at the end of its file:
    what its two writes put there is appended. *)
Lemma SD_println_at_end line f c old n f' c' :
  SD.println line f c = (n, f', c') ->
  SD.files c !! SD.path f = Some old ->
  SD.appending f = true \/ SD.pos f = Z.of_nat (length old) ->
  let part := LastryFiles.println_part line (LastryFiles.next_two c) in
  n = Z.of_nat (length part)
  /\ SD.path f' = SD.path f
  /\ SD.appending f' = SD.appending f
  /\ SD.files c' = <[SD.path f := old ++ part]> (SD.files c)
  /\ (SD.appending f' = true
      \/ SD.pos f' = Z.of_nat (length (old ++ part)))
  /\ SD.write_truncates c' = SD.write_truncates c
  /\ SD.outcomes c' = SD.outcomes (SD.next (SD.next c).2).2.
Proof.
  unfold SD.println. intros H Hold Hend.
  destruct (SD.write_buf (bytes_of_string line) f c) as [[n1 f1] c1] eqn:E1.
  destruct (SD.write_buf [13; 10] f1 c1) as [[n2 f2] c2] eqn:E2.
  injection H as <- <- <-.
  destruct (SD_write_buf_at_end _ _ _ _ _ _ _ E1 Hold Hend)
    as (Hn1 & Hp1 & Ha1 & Hf1 & He1 & Hw1 & Hc1).
  assert (Hold1 : SD.files c1 !! SD.path f1
                  = Some (old ++ (if (SD.next c).1
                                  then bytes_of_string line else []))).
  { rewrite Hf1, Hp1. apply lookup_insert_eq. }
  destruct (SD_write_buf_at_end _ _ _ _ _ _ _ E2 Hold1 He1)
    as (Hn2 & Hp2 & Ha2 & Hf2 & He2 & Hw2 & Hc2).
  assert (Hnext1 : SD.next c1
                   = ((SD.next (SD.next c).2).1,
                      SD.set_files (SD.files c1) (SD.next (SD.next c).2).2)).
  { rewrite Hc1 at 1. apply SD_next_set_files. }
  rewrite Hnext1 in Hn2, Hf2, He2, Hc2. cbn [fst snd] in Hn2, Hf2, He2, Hc2.
  unfold LastryFiles.println_part, LastryFiles.next_two. cbn [fst snd].
  rewrite app_assoc.
  split; [rewrite Hn1, Hn2, length_app; lia|].
  split; [congruence|]. split; [congruence|].
  split; [rewrite Hf2, Hf1, Hp1; apply insert_insert_eq|].
  split; [exact He2|]. split; [congruence|].
  rewrite Hc2. reflexivity.
Qed.

Lemma println_part_length line o :
  Z.of_nat (length (LastryFiles.println_part line o)) = 0
  <-> LastryFiles.println_part line o = [].
Proof.
  split; [|intros ->; reflexivity].
  destruct (LastryFiles.println_part line o); [reflexivity|].
  cbn [length]. lia.
Qed.

Lemma println_part_whole line :
  LastryFiles.println_part line (true, true) = LastryFiles.crlf_line line.
Proof. reflexivity. Qed.

Lemma next_two_healthy c :
  SD.outcomes c = [] -> LastryFiles.next_two c = (true, true).
Proof.
  intros H. unfold LastryFiles.next_two.
  rewrite (SD_next_healthy _ H). cbn [fst snd].
  rewrite (SD_next_healthy _ H). reflexivity.
Qed.

Lemma crlf_line_length line :
  length (LastryFiles.crlf_line line) = (String.length line + 2)%nat.
Proof.
  unfold LastryFiles.crlf_line.
  rewrite length_app, bytes_of_string_length. reflexivity.
Qed.

(** [writePlainLine] through a handle that writes at the end of the
    file: what the two writes of its [println] put there is appended and
    counted, and the result is true unless that is nothing. *)
Lemma writePlainLine_at_end line (st st' : Lastry.State) ok f old :
  Lastry.writePlainLine line st = (ok, st') ->
  Lastry.logFile st = Some f ->
  SD.files (Lastry.sd st) !! SD.path f = Some old ->
  SD.appending f = true \/ SD.pos f = Z.of_nat (length old) ->
  let part :=
    LastryFiles.println_part line (LastryFiles.next_two (Lastry.sd st)) in
  exists f' c',
    st' = Lastry.set_currentFileSize
            (if ok then u32 (Lastry.currentFileSize st
                             + Z.of_nat (length part))
             else Lastry.currentFileSize st)
            (Lastry.set_logFile (Some f') (Lastry.set_sd c' st))
    /\ (ok = true <-> part <> [])
    /\ SD.path f' = SD.path f
    /\ SD.files c' = <[SD.path f := old ++ part]> (SD.files (Lastry.sd st))
    /\ (SD.appending f' = true
        \/ SD.pos f' = Z.of_nat (length (old ++ part)))
    /\ SD.write_truncates c' = SD.write_truncates (Lastry.sd st)
    /\ SD.outcomes c'
       = SD.outcomes (SD.next (SD.next (Lastry.sd st)).2).2.
Proof.
  intros H Hf Hold Hend part. unfold Lastry.writePlainLine in H.
  rewrite Hf in H.
  destruct (SD.println line f (Lastry.sd st)) as [[written f'] c'] eqn:Hw.
  destruct (SD_println_at_end _ _ _ _ _ _ _ Hw Hold Hend)
    as (Hn & Hp & _ & Hfiles & Hend' & Hwt & Hout).
  fold part in Hn, Hfiles, Hend'.
  exists f', c'.
  destruct (Z.eqb_spec written 0) as [Hz|Hz]; injection H as <- <-.
  - split; [destruct st; reflexivity|].
    split.
    { split; [discriminate|]. intros Hne. exfalso. apply Hne.
      apply println_part_length. subst part. lia. }
    repeat (split; [assumption|]). assumption.
  - las_proj. rewrite Hn. split; [reflexivity|].
    split.
    { split; [|reflexivity]. intros _ Hnil. apply Hz.
      rewrite Hn, Hnil. reflexivity. }
    repeat (split; [assumption|]). assumption.
Qed.

(** [writePlainLine] keeps the open log file and its byte counter in
    step with the card, whatever its two writes do. *)
Lemma writePlainLine_holds line (st st' : Lastry.State) ok text :
  LastryFiles.plain_log_holds st text ->
  Lastry.writePlainLine line st = (ok, st') ->
  let part :=
    LastryFiles.println_part line (LastryFiles.next_two (Lastry.sd st)) in
  LastryFiles.plain_log_holds st' (text ++ part)
  /\ (ok = true <-> part <> [])
  /\ SD.files (Lastry.sd st')
     = <[Lastry.currentLogFileName st := text ++ part]>
         (SD.files (Lastry.sd st))
  /\ Lastry.currentLogFileName st' = Lastry.currentLogFileName st
  /\ Lastry.sdCardReady st' = Lastry.sdCardReady st
  /\ Lastry.loggingEnabled st' = Lastry.loggingEnabled st
  /\ Lastry.stoppedByUser st' = Lastry.stoppedByUser st
  /\ Lastry.live st' = Lastry.live st
  /\ Lastry.messageCount st' = Lastry.messageCount st
  /\ SD.outcomes (Lastry.sd st')
     = SD.outcomes (SD.next (SD.next (Lastry.sd st)).2).2.
Proof.
  intros (f & Hf & Hname & Hold & Hend & Hsize) H part.
  destruct (writePlainLine_at_end _ _ _ _ _ _ H Hf Hold Hend)
    as (f' & c' & -> & Hok & Hp & Hfiles & Hend' & _ & Hout).
  fold part in Hok, Hfiles, Hend'. las_proj.
  split.
  { exists f'. las_proj. rewrite Hp.
    split; [reflexivity|]. split; [exact Hname|].
    split; [rewrite Hfiles; apply lookup_insert_eq|].
    split; [exact Hend'|].
    destruct ok.
    - rewrite Hsize, length_app, Nat2Z.inj_add. unfold u32.
      rewrite Zplus_mod_idemp_l. reflexivity.
    - assert (Hnil : part = []).
      { destruct part; [reflexivity|].
        assert (false = true) by (apply Hok; discriminate). discriminate. }
      rewrite Hnil, app_nil_r. exact Hsize. }
  split; [exact Hok|]. split; [rewrite <- Hname; exact Hfiles|].
  repeat (split; [reflexivity|]). exact Hout.
Qed.

Lemma plain_log_holds_open (st : Lastry.State) text :
  LastryFiles.plain_log_holds st text -> Lastry.is_open st = true.
Proof.
  intros (f & Hf & _). unfold Lastry.is_open. rewrite Hf. reflexivity.
Qed.

Section LastryFileFacts.
Variable localtime : Z -> tm.

Local Abbreviation createNewLogFile :=
  (LastryFiles.createNewLogFile localtime).
Local Abbreviation generateLogFileName :=
  (LastryFiles.generateLogFileName localtime).

(** A successful [createNewLogFile]: the file named after the prefix and
    the base time holds what [FILE_WRITE] kept of it and then what the
    [println] of the CSV header line wrote, which is not nothing; the
    counter is the file's size. *)
Lemma Lastry_createNewLogFile_ok prefix (st st' : Lastry.State) :
  createNewLogFile prefix st = (true, st') ->
  let name := generateLogFileName prefix st in
  let kept := if SD.write_truncates (Lastry.sd st) then []
              else SD.content name (Lastry.sd st) in
  let part :=
    LastryFiles.println_part LastryFiles.headerLine
      (LastryFiles.next_two (SD.next (Lastry.sd st)).2) in
  LastryFiles.plain_log_holds st' (kept ++ part)
  /\ part <> []
  /\ Lastry.currentLogFileName st' = name
  /\ Lastry.sdCardReady st' = Lastry.sdCardReady st
  /\ Lastry.loggingEnabled st' = Lastry.loggingEnabled st
  /\ Lastry.stoppedByUser st' = Lastry.stoppedByUser st
  /\ Lastry.live st' = Lastry.live st
  /\ Lastry.messageCount st' = Lastry.messageCount st
  /\ SD.write_truncates (Lastry.sd st')
     = SD.write_truncates (Lastry.sd st)
  /\ (forall p, p <> name ->
        SD.files (Lastry.sd st') !! p = SD.files (Lastry.sd st) !! p)
  /\ SD.outcomes (Lastry.sd st')
     = SD.outcomes (SD.next (SD.next (SD.next (Lastry.sd st)).2).2).2.
Proof.
  unfold LastryFiles.createNewLogFile. rewrite Lastry_close_if_open.
  las_proj.
  change (LastryFiles.generateLogFileName localtime prefix
            (Lastry.set_logFile None st))
    with (generateLogFileName prefix st).
  set (name := generateLogFileName prefix st).
  unfold SD.open_write.
  destruct (SD.next (Lastry.sd st)) as [oko c1] eqn:En.
  destruct (SD_next_frame _ _ _ En) as (Hfiles1 & _ & Hwt1).
  cbn [snd].
  destruct oko; cbv beta iota; unfold Lastry.is_open at 1; las_proj;
    cbn [negb]; [|intros H; discriminate H].
  unfold LastryFiles.writeFileHeader, Lastry.is_open. las_proj.
  cbn [negb].
  set (kept := if SD.write_truncates (Lastry.sd st) then []
               else SD.content name (Lastry.sd st)).
  assert (Hkept : (if SD.write_truncates c1 then []
                   else SD.content name c1) = kept).
  { subst kept. unfold SD.content. rewrite Hwt1, Hfiles1. reflexivity. }
  rewrite Hkept.
  set (f0 := {| SD.path := name;
                SD.pos := if SD.write_truncates c1 then 0
                          else Z.of_nat (length kept);
                SD.appending := negb (SD.write_truncates c1) |}).
  match goal with
  | |- context [Lastry.writePlainLine _ ?s] => set (st2 := s)
  end.
  destruct (Lastry.writePlainLine LastryFiles.headerLine st2)
    as [okh st3] eqn:Eh.
  rewrite if_negb. destruct okh; [|intros H; discriminate H].
  assert (Hlf2 : Lastry.logFile st2 = Some f0) by reflexivity.
  assert (Hold2 : SD.files (Lastry.sd st2) !! SD.path f0 = Some kept).
  { unfold st2, f0. las_proj. cbn [SD.files SD.set_files SD.path].
    apply lookup_insert_eq. }
  assert (Hend2 : SD.appending f0 = true
                  \/ SD.pos f0 = Z.of_nat (length kept)).
  { unfold f0. cbn [SD.appending SD.pos].
    destruct (SD.write_truncates c1) eqn:Ew; [right|left; reflexivity].
    rewrite <- Hkept. reflexivity. }
  destruct (writePlainLine_at_end _ _ _ _ _ _ Eh Hlf2 Hold2 Hend2)
    as (f3 & c3 & Hst3 & Hok3 & Hp3 & Hfiles3 & Hpos3 & Hwt3 & Hout3).
  assert (Htwo : LastryFiles.next_two (Lastry.sd st2)
                 = LastryFiles.next_two c1).
  { unfold st2. las_proj. unfold LastryFiles.next_two.
    rewrite !SD_next_set_files. cbn [fst snd].
    rewrite SD_next_set_files. reflexivity. }
  assert (Hout2 : SD.outcomes (SD.next (SD.next (Lastry.sd st2)).2).2
                  = SD.outcomes (SD.next (SD.next c1).2).2).
  { unfold st2. las_proj. rewrite !SD_next_set_files. cbn [fst snd].
    rewrite SD_next_set_files. reflexivity. }
  rewrite Htwo in Hst3, Hok3, Hfiles3, Hpos3. rewrite Hout2 in Hout3.
  set (part := LastryFiles.println_part LastryFiles.headerLine
                 (LastryFiles.next_two c1)) in *.
  assert (Hlf3 : Lastry.logFile st3 = Some f3)
    by (rewrite Hst3; reflexivity).
  assert (Hsd3 : Lastry.sd st3 = c3) by (rewrite Hst3; reflexivity).
  rewrite Hlf3, Hsd3. intros H. injection H as <-. las_proj.
  assert (Hcontent : SD.files c3 !! name = Some (kept ++ part)).
  { rewrite Hfiles3. apply lookup_insert_eq. }
  split.
  { exists f3. las_proj. rewrite Hp3, Hsd3. unfold f0. cbn [SD.path].
    split; [exact Hlf3|]. split; [rewrite Hst3; reflexivity|].
    split; [exact Hcontent|]. split; [exact Hpos3|].
    unfold SD.size, SD.content. rewrite Hp3. unfold f0. cbn [SD.path].
    rewrite Hcontent. reflexivity. }
  split; [apply Hok3; reflexivity|].
  split; [rewrite Hst3; reflexivity|].
  split; [rewrite Hst3; reflexivity|].
  split; [rewrite Hst3; reflexivity|].
  split; [rewrite Hst3; reflexivity|].
  split; [rewrite Hst3; reflexivity|].
  split; [rewrite Hst3; reflexivity|].
  split.
  { rewrite Hsd3, Hwt3. unfold st2. las_proj.
    cbn [SD.write_truncates SD.set_files]. exact Hwt1. }
  split; [|rewrite Hsd3; exact Hout3].
  intros p Hp. rewrite Hsd3, Hfiles3. unfold f0. cbn [SD.path].
  rewrite lookup_insert_ne by congruence.
  unfold st2. las_proj. cbn [SD.files SD.set_files].
  rewrite lookup_insert_ne by congruence. rewrite Hfiles1. reflexivity.
Qed.

(** On a healthy card [createNewLogFile] succeeds and the header line
    is whole. *)
Lemma Lastry_createNewLogFile_healthy prefix (st : Lastry.State) :
  SD.outcomes (Lastry.sd st) = [] ->
  exists st',
    createNewLogFile prefix st = (true, st')
    /\ SD.outcomes (Lastry.sd st') = []
    /\ LastryFiles.plain_log_holds st'
         ((if SD.write_truncates (Lastry.sd st) then []
           else SD.content (generateLogFileName prefix st) (Lastry.sd st))
          ++ LastryFiles.crlf_line LastryFiles.headerLine).
Proof.
  intros Hout.
  assert (Hc : exists st', createNewLogFile prefix st = (true, st')).
  { unfold LastryFiles.createNewLogFile.
    rewrite Lastry_close_if_open. las_proj.
    unfold SD.open_write. rewrite (SD_next_healthy _ Hout).
    cbv beta iota. unfold Lastry.is_open at 1. las_proj. cbn [negb].
    unfold LastryFiles.writeFileHeader, Lastry.is_open. las_proj.
    cbn [negb].
    match goal with
    | |- context [Lastry.writePlainLine _ ?s] => set (st2 := s)
    end.
    destruct (Lastry.writePlainLine LastryFiles.headerLine st2)
      as [okh st3] eqn:Eh.
    assert (Hlf2 : Lastry.logFile st2 = Some
                     {| SD.path := LastryFiles.generateLogFileName localtime
                                     prefix (Lastry.set_logFile None st);
                        SD.pos := SD.pos (default
                                    {| SD.path := ""; SD.pos := 0;
                                       SD.appending := false |}
                                    (Lastry.logFile st2));
                        SD.appending := negb (SD.write_truncates
                                                (Lastry.sd st)) |})
      by reflexivity.
    destruct (writePlainLine_at_end _ _ _ _ _ _ Eh Hlf2
                (lookup_insert_eq _ _ _))
      as (f3 & c3 & _ & Hok3 & _).
    { cbn [SD.appending SD.pos]. unfold st2. las_proj.
      cbn [default from_option id SD.pos].
      destruct (SD.write_truncates (Lastry.sd st));
        [right; reflexivity|left; reflexivity]. }
    assert (Htwo : LastryFiles.next_two (Lastry.sd st2) = (true, true)).
    { apply next_two_healthy. exact Hout. }
    rewrite Htwo, println_part_whole in Hok3.
    assert (okh = true).
    { apply Hok3. intros Hnil.
      apply (f_equal (@length Z)) in Hnil.
      rewrite crlf_line_length in Hnil. cbn in Hnil. lia. }
    subst okh. cbn [negb]. eexists. reflexivity. }
  destruct Hc as [st' Hc]. exists st'. split; [exact Hc|].
  destruct (Lastry_createNewLogFile_ok _ _ _ Hc)
    as (Hholds & _ & _ & _ & _ & _ & _ & _ & _ & _ & Hout').
  rewrite (SD_next_healthy _ Hout) in Hholds, Hout'. cbn [snd] in *.
  rewrite (next_two_healthy _ Hout), println_part_whole in Hholds.
  repeat (rewrite ?(SD_next_healthy _ Hout) in Hout'; cbn [snd] in Hout').
  split; [rewrite Hout'; exact Hout|exact Hholds].
Qed.

Lemma Lastry_format_line_total frame timestamp micros_ :
  frame_ok frame ->
  Lastry.format_line localtime frame timestamp micros_
  = Some (Encoded.time_columns localtime timestamp micros_
          +:+ frame_fields frame
          +:+ columns (map hex2 (padded_payload frame))).
Proof.
  intros Hok. rewrite Lastry_format_line_split.
  rewrite append_data_columns_padded; try assumption; reflexivity.
Qed.

(** What [writeCANMessage] leaves in the open log file: below the size
    limit, what the two writes of [println] wrote of the record's line;
    above it, nothing. Its result is true unless that is nothing. *)
Lemma Lastry_writeCANMessage_holds frame timestamp micros_
    (st st' : Lastry.State) ok text line :
  LastryFiles.plain_log_holds st text ->
  Lastry.sdCardReady st = true ->
  Lastry.format_line localtime frame timestamp micros_ = Some line ->
  Lastry.writeCANMessage localtime frame timestamp micros_ st
  = Some (ok, st') ->
  let part :=
    if Lastry.MAX_FILE_SIZE <? Lastry.currentFileSize st then []
    else LastryFiles.println_part line
           (LastryFiles.next_two (Lastry.sd st)) in
  (ok = true <-> part <> [])
  /\ SD.files (Lastry.sd st')
     = <[Lastry.currentLogFileName st := text ++ part]>
         (SD.files (Lastry.sd st))
  /\ (ok = true ->
      LastryFiles.plain_log_holds st' (text ++ part)
      /\ Lastry.loggingEnabled st' = Lastry.loggingEnabled st
      /\ Lastry.stoppedByUser st' = Lastry.stoppedByUser st)
  /\ Lastry.currentLogFileName st' = Lastry.currentLogFileName st
  /\ Lastry.sdCardReady st' = Lastry.sdCardReady st
  /\ Lastry.live st' = Lastry.live st
  /\ Lastry.messageCount st' = Lastry.messageCount st.
Proof.
  intros Hholds Hready Hline. unfold Lastry.writeCANMessage.
  rewrite (plain_log_holds_open _ _ Hholds). rewrite Hready at 1.
  cbn [negb orb].
  pose proof Hholds as (f & Hf & Hname & Hold & _).
  destruct (Z.ltb_spec Lastry.MAX_FILE_SIZE (Lastry.currentFileSize st))
    as [Hfull|Hfit].
  - intros H. injection H as <- <-. cbv zeta.
    unfold Lastry.closeCurrentFile. las_proj. rewrite Hf. las_proj.
    split; [split; [discriminate|congruence]|].
    split; [rewrite app_nil_r, <- Hname; symmetry;
            apply insert_id; exact Hold|].
    split; [discriminate|]. repeat split.
  - rewrite Hline. cbn [mbind option_bind]. intros H. injection H as H.
    destruct (writePlainLine_holds _ _ _ _ _ Hholds H)
      as (Hh & Hok & Hfiles & Hn & Hr & Hl & Hs & Hlv & Hm & _).
    cbv zeta. split; [exact Hok|]. split; [exact Hfiles|].
    split; [intros _; split; [exact Hh|split; assumption]|].
    repeat (split; [assumption|]). assumption.
Qed.
End LastryFileFacts.

Section LastrySession.
Variable localtime : Z -> tm.

Local Abbreviation createNewLogFile :=
  (LastryFiles.createNewLogFile localtime).
Local Abbreviation generateLogFileName :=
  (LastryFiles.generateLogFileName localtime).
Local Abbreviation loop_receive := (Lastry.loop_receive localtime).
Local Abbreviation format_line := (Lastry.format_line localtime).

(** X21. The name of a log file of the plain-CSV firmware comes from the
    prefix and the base time only, so a second [createNewLogFile] in a
    session whose clock base was not set again reopens the first file:
    where [FILE_WRITE] truncates, the records logged so far are gone;
    where it appends, they are kept. What follows them is what the
    [println] of the header line wrote, which is the whole header line
    on a card whose operations succeed. *)
Theorem second_create_reopens_the_first_file (prefix : string)
    (st st1 st2 st3 : Lastry.State) (text : list Z) :
  createNewLogFile prefix st = (true, st1) ->
  Lastry.baseTime st2 = Lastry.baseTime st ->
  SD.files (Lastry.sd st2) !! Lastry.currentLogFileName st1 = Some text ->
  createNewLogFile prefix st2 = (true, st3) ->
  let kept := if SD.write_truncates (Lastry.sd st2) then [] else text in
  let part :=
    LastryFiles.println_part LastryFiles.headerLine
      (LastryFiles.next_two (SD.next (Lastry.sd st2)).2) in
  Lastry.currentLogFileName st3 = Lastry.currentLogFileName st1
  /\ LastryFiles.plain_log_holds st3 (kept ++ part)
  /\ part <> []
  /\ (SD.outcomes (Lastry.sd st2) = [] ->
      part = LastryFiles.crlf_line LastryFiles.headerLine).
Proof.
  intros H1 Hbase Htext H3.
  destruct (Lastry_createNewLogFile_ok localtime _ _ _ H1)
    as (_ & _ & Hname1 & _).
  destruct (Lastry_createNewLogFile_ok localtime _ _ _ H3)
    as (Hholds & Hpart & Hname3 & _).
  assert (Hsame : generateLogFileName prefix st2
                  = generateLogFileName prefix st).
  { unfold LastryFiles.generateLogFileName. rewrite Hbase. reflexivity. }
  cbv zeta. split; [congruence|].
  unfold SD.content in Hholds.
  rewrite Hsame, <- Hname1, Htext in Hholds.
  change (default [] (Some text)) with text in Hholds.
  split; [exact Hholds|]. split; [exact Hpart|].
  intros Hout. rewrite (SD_next_healthy _ Hout). cbn [snd].
  rewrite (next_two_healthy _ Hout). reflexivity.
Qed.

(** X22. A frame received while the plain-CSV firmware is logging
    leaves in the log, after its previous text, what the two writes of
    [println] wrote of the record: the line and CR LF when both
    succeed, the line without its end when only the first does, CR LF
    alone when only the second does, nothing when neither does or the
    size limit is passed. [writePlainLine] accepts any byte count but
    0, so a torn or empty record leaves logging on, with the byte
    counter still the file's size; only when nothing was written is
    logging switched off and the file closed. No other file
    changes. *)
Theorem plain_loop_can_leave_a_torn_record (frame : CanFrame)
    (st : Lastry.State) (text : list Z) :
  frame_ok frame ->
  Live.wf (Lastry.live st) ->
  0 <= Live.liveFrameCounter (Lastry.live st) < 2 ^ 32 - 1 ->
  Lastry.loggingEnabled st = true ->
  Lastry.sdCardReady st = true ->
  LastryFiles.plain_log_holds st text ->
  exists st' line,
    loop_receive frame st = Some st'
    /\ format_line frame (Lastry.current_time st).1
         (Lastry.current_time st).2 = Some line
    /\ Lastry.messageCount st' = u32 (Lastry.messageCount st + 1)
    /\ let part :=
         if Lastry.MAX_FILE_SIZE <? Lastry.currentFileSize st then []
         else LastryFiles.println_part line
                (LastryFiles.next_two (Lastry.sd st)) in
       SD.files (Lastry.sd st')
       = <[Lastry.currentLogFileName st := text ++ part]>
           (SD.files (Lastry.sd st))
       /\ (part <> [] ->
           Lastry.loggingEnabled st' = true
           /\ LastryFiles.plain_log_holds st' (text ++ part))
       /\ (part = [] ->
           Lastry.loggingEnabled st' = false
           /\ Lastry.stoppedByUser st' = true
           /\ Lastry.logFile st' = None).
Proof.
  intros Hok Hwf Hc Hlog Hready Hholds.
  pose proof (storeLiveFrame_stored frame (Lastry.current_time st).1
                (Lastry.current_time st).2
                (Lastry.getFormattedTime localtime st)
                (Lastry.live st) Hwf Hok Hc) as Hstore.
  pose proof (Lastry_format_line_total localtime frame
                (Lastry.current_time st).1 (Lastry.current_time st).2 Hok)
    as Hline.
  unfold Lastry.loop_receive.
  set (st0 := Lastry.set_messageCount (u32 (Lastry.messageCount st + 1)) st).
  change (Lastry.current_time st0) with (Lastry.current_time st).
  change (Lastry.getFormattedTime localtime st0)
    with (Lastry.getFormattedTime localtime st).
  change (Lastry.live st0) with (Lastry.live st).
  destruct (Lastry.current_time st) as [ts us]. cbn [fst snd] in *.
  match type of Hline with _ = Some ?l => set (line := l) in * end.
  rewrite Hstore. cbn [mbind option_bind].
  match goal with
  | |- context [Lastry.set_live ?b st0] => set (lb := b)
  end.
  set (st1 := Lastry.set_live lb st0).
  change (Lastry.loggingEnabled st1) with (Lastry.loggingEnabled st).
  change (Lastry.sdCardReady st1) with (Lastry.sdCardReady st).
  change (Lastry.is_open st1) with (Lastry.is_open st).
  rewrite Hlog, Hready, (plain_log_holds_open _ _ Hholds). cbn [andb].
  assert (Hholds1 : LastryFiles.plain_log_holds st1 text) by exact Hholds.
  assert (Hready1 : Lastry.sdCardReady st1 = true) by exact Hready.
  destruct (Lastry.writeCANMessage localtime frame ts us st1)
    as [[ok st2]|] eqn:Hw.
  2:{ exfalso. revert Hw. unfold Lastry.writeCANMessage.
      rewrite Hline. cbn [mbind option_bind].
      destruct (negb (Lastry.is_open st1) || negb (Lastry.sdCardReady st1));
        [intros H; discriminate H|].
      destruct (Lastry.MAX_FILE_SIZE <? Lastry.currentFileSize st1);
        intros H; discriminate H. }
  destruct (Lastry_writeCANMessage_holds localtime _ _ _ _ _ _ _ _
              Hholds1 Hready1 Hline Hw)
    as (Hiff & Hfiles & Hsucc & _ & _ & _ & Hmc).
  change (Lastry.currentFileSize st1) with (Lastry.currentFileSize st)
    in Hiff, Hfiles, Hsucc.
  change (Lastry.sd st1) with (Lastry.sd st) in Hiff, Hfiles, Hsucc.
  change (Lastry.currentLogFileName st1)
    with (Lastry.currentLogFileName st) in Hfiles.
  change (Lastry.loggingEnabled st1) with (Lastry.loggingEnabled st)
    in Hsucc.
  cbn [mbind option_bind]. destruct ok; cbn [negb].
  - destruct (Hsucc eq_refl) as (Hh & Hle & _).
    exists st2, line.
    split; [reflexivity|]. split; [exact Hline|].
    split; [rewrite Hmc; reflexivity|].
    cbv zeta. split; [exact Hfiles|].
    split; [intros _; split; [rewrite Hle; exact Hlog|exact Hh]|].
    intros Hnil. exfalso. apply (proj1 Hiff eq_refl). exact Hnil.
  - eexists _, line.
    split; [reflexivity|]. split; [exact Hline|].
    unfold Lastry.closeCurrentFile. las_proj.
    split.
    { destruct (Lastry.logFile st2); las_proj; rewrite Hmc; reflexivity. }
    cbv zeta. split.
    { destruct (Lastry.logFile st2); las_proj; exact Hfiles. }
    split.
    { intros Hne. apply Hiff in Hne. discriminate Hne. }
    intros _.
    destruct (Lastry.logFile st2) eqn:E; las_proj;
      (split; [reflexivity|]); (split; [reflexivity|]);
      first [reflexivity | exact E].
Qed.


(** X24. [START_LOG] on a card that is not marked ready never starts
    logging, even when its probe of the card succeeds: the result of
    [initializeSDCard] is dropped, [sdCardReady] stays false, and the
    logging flags and the file handle are left as they were. *)
Theorem START_LOG_drops_the_probe (st : Lastry.State) :
  Lastry.sdCardReady st = false ->
  Lastry.sdCardReady (LastryFiles.cmd_START_LOG st) = false
  /\ Lastry.loggingEnabled (LastryFiles.cmd_START_LOG st)
     = Lastry.loggingEnabled st
  /\ Lastry.stoppedByUser (LastryFiles.cmd_START_LOG st)
     = Lastry.stoppedByUser st
  /\ Lastry.logFile (LastryFiles.cmd_START_LOG st) = Lastry.logFile st
  /\ SD.files (Lastry.sd (LastryFiles.cmd_START_LOG st))
     = SD.files (Lastry.sd st).
Proof.
  intros Hready.
  unfold LastryFiles.cmd_START_LOG, LastryFiles.initializeSDCard.
  rewrite Hready. cbn [negb].
  destruct (SD.next (Lastry.sd st)) as [ok c] eqn:Hn.
  destruct (SD_next_frame _ _ _ Hn) as (Hfiles & _).
  cbn [snd]. las_proj. rewrite Hready. cbn [negb]. las_proj.
  rewrite Hready. repeat split. exact Hfiles.
Qed.

(** [CREATE_FILE] on a healthy card: the card is marked ready and the
    log file named after the prefix in force and the base time is
    open, with what [FILE_WRITE] kept of it and then the header
    line. *)
Lemma cmd_CREATE_FILE_healthy (prefix : string) (st : Lastry.State) :
  SD.outcomes (Lastry.sd st) = [] ->
  let prefix' := if (String.length prefix =? 0)%nat
                 then LastryFiles.LOG_FILE_PREFIX else prefix in
  let st' := (LastryFiles.cmd_CREATE_FILE localtime prefix st).2 in
  let name := generateLogFileName prefix' st in
  (LastryFiles.cmd_CREATE_FILE localtime prefix st).1 = prefix'
  /\ Lastry.sdCardReady st' = true
  /\ Lastry.currentLogFileName st' = name
  /\ LastryFiles.plain_log_holds st'
       ((if SD.write_truncates (Lastry.sd st) then []
         else SD.content name (Lastry.sd st))
        ++ LastryFiles.crlf_line LastryFiles.headerLine)
  /\ Lastry.live st' = Lastry.live st
  /\ Lastry.messageCount st' = Lastry.messageCount st.
Proof.
  intros Hout prefix'.
  unfold LastryFiles.cmd_CREATE_FILE.
  set (stp := if negb (Lastry.sdCardReady st)
              then let '(ok, st0) := LastryFiles.initializeSDCard st in
                   Lastry.set_sdCardReady ok st0
              else st).
  assert (Hp : Lastry.sdCardReady stp = true
               /\ Lastry.sd stp = Lastry.sd st
               /\ Lastry.baseTime stp = Lastry.baseTime st
               /\ Lastry.live stp = Lastry.live st
               /\ Lastry.messageCount stp = Lastry.messageCount st).
  { subst stp. destruct (Lastry.sdCardReady st) eqn:Hr; cbn [negb].
    - auto.
    - unfold LastryFiles.initializeSDCard.
      rewrite (SD_next_healthy _ Hout). las_proj. auto. }
  destruct Hp as (Hrp & Hsdp & Hbp & Hlp & Hmp).
  rewrite Hrp. cbn [negb fst snd]. fold prefix'.
  rewrite Lastry_close_if_open.
  assert (Hout0 : SD.outcomes (Lastry.sd (Lastry.set_logFile None stp)) = []).
  { las_proj. rewrite Hsdp. exact Hout. }
  destruct (Lastry_createNewLogFile_healthy localtime prefix' _ Hout0)
    as (st1 & Hc & Hout1 & Hholds).
  rewrite Hc. cbn [snd].
  destruct (Lastry_createNewLogFile_ok localtime _ _ _ Hc)
    as (_ & _ & Hname & Hr1 & _ & _ & Hl1 & Hm1 & _ & _).
  revert Hholds Hname Hr1 Hl1 Hm1. las_proj. rewrite Hsdp, Hrp, Hlp, Hmp.
  change (LastryFiles.generateLogFileName localtime prefix'
            (Lastry.set_logFile None stp))
    with (generateLogFileName prefix' stp).
  assert (Hsame : generateLogFileName prefix' stp
                  = generateLogFileName prefix' st).
  { unfold LastryFiles.generateLogFileName. rewrite Hbp. reflexivity. }
  rewrite Hsame. intros Hholds Hname Hr1 Hl1 Hm1.
  split; [reflexivity|]. split; [exact Hr1|]. split; [exact Hname|].
  split; [exact Hholds|]. split; [exact Hl1|exact Hm1].
Qed.

(** X25. On a healthy card [CREATE_FILE] followed by [START_LOG] starts
    logging, whatever the state before: the card is marked ready, the
    log file named after the prefix in force and the base time is open
    and holds what [FILE_WRITE] kept of it and then the header line,
    and the byte counter is its size. *)
Theorem CREATE_FILE_then_START_LOG_logs (prefix : string)
    (st : Lastry.State) :
  SD.outcomes (Lastry.sd st) = [] ->
  let prefix' := (LastryFiles.cmd_CREATE_FILE localtime prefix st).1 in
  let st' := LastryFiles.cmd_START_LOG
               (LastryFiles.cmd_CREATE_FILE localtime prefix st).2 in
  let name := generateLogFileName prefix' st in
  prefix' = (if (String.length prefix =? 0)%nat
             then LastryFiles.LOG_FILE_PREFIX else prefix)
  /\ Lastry.loggingEnabled st' = true
  /\ Lastry.stoppedByUser st' = false
  /\ Lastry.sdCardReady st' = true
  /\ Lastry.currentLogFileName st' = name
  /\ LastryFiles.plain_log_holds st'
       ((if SD.write_truncates (Lastry.sd st) then []
         else SD.content name (Lastry.sd st))
        ++ LastryFiles.crlf_line LastryFiles.headerLine).
Proof.
  intros Hout.
  destruct (cmd_CREATE_FILE_healthy prefix st Hout)
    as (Hprefix & Hready & Hname & Hholds & _).
  rewrite Hprefix.
  set (st1 := (LastryFiles.cmd_CREATE_FILE localtime prefix st).2) in *.
  cbv zeta. unfold LastryFiles.cmd_START_LOG.
  rewrite Hready. cbn [negb].
  rewrite Hready, (plain_log_holds_open _ _ Hholds). cbn [negb]. las_proj.
  split; [reflexivity|]. split; [reflexivity|]. split; [reflexivity|].
  split; [exact Hready|]. split; [exact Hname|]. exact Hholds.
Qed.

(** X26. Once the size limit has stopped logging, [CREATE_FILE] and
    [START_LOG] do not resume it for long where [FILE_WRITE] appends:
    the new log file has the name of the full one as long as the prefix
    and the base time are the same, so the full file is reopened, its
    size is again above [MAX_FILE_SIZE] after the header line is
    added, and the next frame switches logging off again and is not
    recorded. *)
Theorem full_log_stops_again_after_recreate (prefix : string)
    (st : Lastry.State) (frame : CanFrame) (old : list Z) :
  frame_ok frame ->
  Live.wf (Lastry.live st) ->
  0 <= Live.liveFrameCounter (Lastry.live st) < 2 ^ 32 - 1 ->
  SD.outcomes (Lastry.sd st) = [] ->
  SD.write_truncates (Lastry.sd st) = false ->
  let name :=
    generateLogFileName
      (if (String.length prefix =? 0)%nat
       then LastryFiles.LOG_FILE_PREFIX else prefix) st in
  let text := old ++ LastryFiles.crlf_line LastryFiles.headerLine in
  SD.files (Lastry.sd st) !! name = Some old ->
  Lastry.MAX_FILE_SIZE < Z.of_nat (length old) ->
  Z.of_nat (length text) < 2 ^ 32 ->
  let st1 := LastryFiles.cmd_START_LOG
               (LastryFiles.cmd_CREATE_FILE localtime prefix st).2 in
  Lastry.loggingEnabled st1 = true
  /\ Lastry.currentLogFileName st1 = name
  /\ exists st2,
       loop_receive frame st1 = Some st2
       /\ Lastry.loggingEnabled st2 = false
       /\ Lastry.stoppedByUser st2 = true
       /\ Lastry.logFile st2 = None
       /\ SD.files (Lastry.sd st2) !! name = Some text.
Proof.
  intros Hok Hwf Hc Hout Happend name text Hold Hfull Hfits.
  destruct (cmd_CREATE_FILE_healthy prefix st Hout)
    as (_ & Hready & Hname & Hholds & Hlive & _).
  fold name in Hname, Hholds.
  unfold SD.content in Hholds. rewrite Happend, Hold in Hholds.
  change (default [] (Some old)) with old in Hholds. subst text.
  set (st0 := (LastryFiles.cmd_CREATE_FILE localtime prefix st).2) in *.
  pose proof (plain_log_holds_open _ _ Hholds) as Hopen0.
  intros st1.
  assert (Hst1 : st1 = Lastry.set_stoppedByUser false
                         (Lastry.set_loggingEnabled true st0)).
  { subst st1. unfold LastryFiles.cmd_START_LOG.
    rewrite Hready. cbn [negb]. rewrite Hready, Hopen0. reflexivity. }
  clearbody st1. subst st1.
  split; [reflexivity|]. split; [exact Hname|].
  set (st1 := Lastry.set_stoppedByUser false
                (Lastry.set_loggingEnabled true st0)).
  pose proof (storeLiveFrame_stored frame (Lastry.current_time st1).1
                (Lastry.current_time st1).2
                (Lastry.getFormattedTime localtime st1)
                (Lastry.live st)  Hwf Hok Hc) as Hstore.
  rewrite <- Hlive in Hstore.
  unfold Lastry.loop_receive.
  set (st1' := Lastry.set_messageCount
                 (u32 (Lastry.messageCount st1 + 1)) st1).
  change (Lastry.current_time st1') with (Lastry.current_time st1).
  change (Lastry.getFormattedTime localtime st1')
    with (Lastry.getFormattedTime localtime st1).
  change (Lastry.live st1') with (Lastry.live st0).
  destruct (Lastry.current_time st1) as [ts us]. cbn [fst snd] in *.
  rewrite Hstore. cbn [mbind option_bind].
  match goal with
  | |- context [Lastry.set_live ?b st1'] => set (lb := b)
  end.
  set (st2 := Lastry.set_live lb st1').
  change (Lastry.loggingEnabled st2) with true.
  change (Lastry.sdCardReady st2) with (Lastry.sdCardReady st0).
  change (Lastry.is_open st2) with (Lastry.is_open st0).
  rewrite Hready, Hopen0. cbn [andb].
  unfold Lastry.writeCANMessage.
  change (Lastry.sdCardReady st2) with (Lastry.sdCardReady st0).
  change (Lastry.is_open st2) with (Lastry.is_open st0).
  change (Lastry.currentFileSize st2) with (Lastry.currentFileSize st0).
  rewrite Hready, Hopen0. cbn [negb orb].
  destruct Hholds as (f & Hf & Hpath & Hcontent & _ & Hsize).
  assert (Hbig : (Lastry.MAX_FILE_SIZE <? Lastry.currentFileSize st0) = true).
  { apply Z.ltb_lt. rewrite Hsize, u32_id by lia.
    rewrite length_app. lia. }
  rewrite Hbig. cbn [mbind option_bind negb].
  unfold Lastry.closeCurrentFile. las_proj.
  change (Lastry.logFile st2) with (Lastry.logFile st0).
  rewrite Hf. las_proj. eexists. split; [reflexivity|]. las_proj.
  split; [reflexivity|]. split; [reflexivity|]. split; [reflexivity|].
  change (Lastry.sd st2) with (Lastry.sd st0).
  rewrite <- Hname, <- Hpath. exact Hcontent.
Qed.
End LastrySession.

Lemma Live_initial_wf : Live.wf Live.initial.
Proof. split; [reflexivity|apply Forall_replicate; reflexivity]. Qed.

(** X21 on a platform that truncates: the three bytes logged before the
    second creation are gone. *)
Lemma second_create_reopens_the_first_file_witness :
  let kept := if SD.write_truncates (Lastry.sd (plain_state [] true true))
              then [] else [49; 13; 10] in
  let part :=
    LastryFiles.println_part LastryFiles.headerLine
      (LastryFiles.next_two
         (SD.next (Lastry.sd (plain_state [] true true))).2) in
  Lastry.currentLogFileName
    (LastryFiles.createNewLogFile Lastry.utc ""
       (plain_state [] true true)).2
  = Lastry.currentLogFileName
      (LastryFiles.createNewLogFile Lastry.utc ""
         (plain_state [] true false)).2
  /\ LastryFiles.plain_log_holds
       (LastryFiles.createNewLogFile Lastry.utc ""
          (plain_state [] true true)).2
       (kept ++ part)
  /\ part <> []
  /\ (SD.outcomes (Lastry.sd (plain_state [] true true)) = [] ->
      part = LastryFiles.crlf_line LastryFiles.headerLine).
Proof.
  apply (second_create_reopens_the_first_file Lastry.utc ""
           (plain_state [] true false)
           (LastryFiles.createNewLogFile Lastry.utc ""
              (plain_state [] true false)).2
           (plain_state [] true true)
           (LastryFiles.createNewLogFile Lastry.utc ""
              (plain_state [] true true)).2
           [49; 13; 10]).
  - vm_compute. reflexivity.
  - reflexivity.
  - vm_compute. reflexivity.
  - vm_compute. reflexivity.
Defined.

Lemma plain_state_holds outs truncates ready :
  LastryFiles.plain_log_holds (plain_state outs truncates ready)
    [49; 13; 10].
Proof.
  exists {| SD.path := "/CAN_LOG_20231114_221320.csv"; SD.pos := 3;
            SD.appending := negb truncates |}.
  split; [reflexivity|]. split; [reflexivity|].
  split; [vm_compute; reflexivity|].
  split; [right; reflexivity|reflexivity].
Qed.

(** X22 on a card that takes the line and then fails on CR LF: the
    record is left without its line end and logging stays on. *)
Lemma plain_loop_can_leave_a_torn_record_witness :
  exists st' line,
    Lastry.loop_receive Lastry.utc example_frame
      (plain_state [true; false] false true) = Some st'
    /\ Lastry.format_line Lastry.utc example_frame
         (Lastry.current_time (plain_state [true; false] false true)).1
         (Lastry.current_time (plain_state [true; false] false true)).2
       = Some line
    /\ Lastry.messageCount st'
       = u32 (Lastry.messageCount (plain_state [true; false] false true) + 1)
    /\ let part :=
         if Lastry.MAX_FILE_SIZE
            <? Lastry.currentFileSize (plain_state [true; false] false true)
         then []
         else LastryFiles.println_part line
                (LastryFiles.next_two
                   (Lastry.sd (plain_state [true; false] false true))) in
       SD.files (Lastry.sd st')
       = <[Lastry.currentLogFileName (plain_state [true; false] false true)
           := [49; 13; 10] ++ part]>
           (SD.files (Lastry.sd (plain_state [true; false] false true)))
       /\ (part <> [] ->
           Lastry.loggingEnabled st' = true
           /\ LastryFiles.plain_log_holds st' ([49; 13; 10] ++ part))
       /\ (part = [] ->
           Lastry.loggingEnabled st' = false
           /\ Lastry.stoppedByUser st' = true
           /\ Lastry.logFile st' = None).
Proof.
  apply (plain_loop_can_leave_a_torn_record Lastry.utc example_frame
           (plain_state [true; false] false true) [49; 13; 10]).
  - exact example_frame_ok.
  - exact Live_initial_wf.
  - cbn. lia.
  - reflexivity.
  - reflexivity.
  - apply plain_state_holds.
Defined.


Lemma START_LOG_drops_the_probe_witness :
  Lastry.sdCardReady
    (LastryFiles.cmd_START_LOG (plain_state [true] false false)) = false
  /\ Lastry.loggingEnabled
       (LastryFiles.cmd_START_LOG (plain_state [true] false false))
     = Lastry.loggingEnabled (plain_state [true] false false)
  /\ Lastry.stoppedByUser
       (LastryFiles.cmd_START_LOG (plain_state [true] false false))
     = Lastry.stoppedByUser (plain_state [true] false false)
  /\ Lastry.logFile
       (LastryFiles.cmd_START_LOG (plain_state [true] false false))
     = Lastry.logFile (plain_state [true] false false)
  /\ SD.files
       (Lastry.sd
          (LastryFiles.cmd_START_LOG (plain_state [true] false false)))
     = SD.files (Lastry.sd (plain_state [true] false false)).
Proof.
  apply (START_LOG_drops_the_probe (plain_state [true] false false)).
  reflexivity.
Defined.

Lemma CREATE_FILE_then_START_LOG_logs_witness :
  let prefix' :=
    (LastryFiles.cmd_CREATE_FILE Lastry.utc ""
       (plain_state [] false false)).1 in
  let st' :=
    LastryFiles.cmd_START_LOG
      (LastryFiles.cmd_CREATE_FILE Lastry.utc ""
         (plain_state [] false false)).2 in
  let name :=
    LastryFiles.generateLogFileName Lastry.utc prefix'
      (plain_state [] false false) in
  prefix' = (if (String.length "" =? 0)%nat
             then LastryFiles.LOG_FILE_PREFIX else "")
  /\ Lastry.loggingEnabled st' = true
  /\ Lastry.stoppedByUser st' = false
  /\ Lastry.sdCardReady st' = true
  /\ Lastry.currentLogFileName st' = name
  /\ LastryFiles.plain_log_holds st'
       ((if SD.write_truncates (Lastry.sd (plain_state [] false false))
         then []
         else SD.content name (Lastry.sd (plain_state [] false false)))
        ++ LastryFiles.crlf_line LastryFiles.headerLine).
Proof.
  apply (CREATE_FILE_then_START_LOG_logs Lastry.utc ""
           (plain_state [] false false)).
  reflexivity.
Defined.

Lemma full_log_stops_again_after_recreate_witness :
  let name := "/CAN_LOG_20231114_221320.csv"%string in
  let st1 :=
    LastryFiles.cmd_START_LOG
      (LastryFiles.cmd_CREATE_FILE Lastry.utc "" stopped_full_state).2 in
  Lastry.loggingEnabled st1 = true
  /\ Lastry.currentLogFileName st1 = name
  /\ exists st2,
       Lastry.loop_receive Lastry.utc example_frame st1 = Some st2
       /\ Lastry.loggingEnabled st2 = false
       /\ Lastry.stoppedByUser st2 = true
       /\ Lastry.logFile st2 = None
       /\ SD.files (Lastry.sd st2) !! name
          = Some (full_log ++ LastryFiles.crlf_line LastryFiles.headerLine).
Proof.
  assert (Hname : LastryFiles.generateLogFileName Lastry.utc
                    (if (String.length "" =? 0)%nat
                     then LastryFiles.LOG_FILE_PREFIX else "")
                    stopped_full_state
                  = "/CAN_LOG_20231114_221320.csv"%string)
    by (vm_compute; reflexivity).
  assert (Hlen : Z.of_nat (length full_log) = Lastry.MAX_FILE_SIZE + 1).
  { unfold full_log. rewrite length_replicate. apply Z2Nat.id.
    unfold Lastry.MAX_FILE_SIZE. lia. }
  rewrite <- Hname.
  apply (full_log_stops_again_after_recreate Lastry.utc ""
           stopped_full_state example_frame full_log).
  - exact example_frame_ok.
  - exact Live_initial_wf.
  - cbn. lia.
  - reflexivity.
  - reflexivity.
  - rewrite Hname. apply lookup_singleton_eq.
  - rewrite Hlen. lia.
  - rewrite length_app, Nat2Z.inj_add, Hlen.
    unfold Lastry.MAX_FILE_SIZE.
    change (Z.of_nat (length (LastryFiles.crlf_line LastryFiles.headerLine)))
      with 101.
    lia.
Defined.

(** ** DBC signal extraction *)

Lemma lor_shiftl_bit v bit :
  0 <= v -> bit = 0 \/ bit = 1 ->
  Z.lor (Z.shiftl v 1) bit = 2 * v + bit.
Proof.
  intros Hv Hbit. rewrite Z.shiftl_mul_pow2 by lia.
  change (2 ^ 1) with 2.
  destruct Hbit as [-> | ->].
  - rewrite Z.lor_0_r. lia.
  - apply Z.bits_inj'. intros i Hi.
    rewrite Z.lor_spec.
    destruct (Z.eq_dec i 0) as [-> | Hne].
    + replace (v * 2 + 1) with (2 * v + 1) by lia.
      replace (2 * v + 1) with (2 * v + Z.b2z true) by reflexivity.
      rewrite Z.testbit_0_r. apply orb_true_r.
    + replace i with (Z.succ (i - 1)) by lia.
      replace (2 * v + 1) with (2 * v + Z.b2z true) by reflexivity.
      rewrite Z.testbit_succ_r by lia.
      replace (v * 2) with (2 * v + Z.b2z false) by (cbn; lia).
      rewrite Z.testbit_succ_r by lia.
      replace (Z.succ (i - 1)) with i by lia.
      rewrite (Z.bits_above_log2 1 i); [apply orb_false_r|lia|].
      change (Z.log2 1) with 0. lia.
Qed.

Lemma land_shiftr_bit b i :
  0 <= i -> Z.land (Z.shiftr b i) 1 = (b / 2 ^ i) mod 2.
Proof.
  intros Hi. rewrite Z.shiftr_div_pow2 by lia.
  change 1 with (Z.ones 1) at 1. rewrite Z.land_ones by lia.
  reflexivity.
Qed.

Lemma u32_double_add x c : u32 (2 * u32 x + c) = u32 (2 * x + c).
Proof.
  unfold u32. rewrite Zplus_mod, Zmult_mod_idemp_r, <- Zplus_mod.
  reflexivity.
Qed.

Ltac u32_innermost :=
  match goal with
  | |- context [u32 (2 * u32 ?x + ?c)] =>
      lazymatch x with
      | context [u32] => fail
      | _ => rewrite (u32_double_add x c)
      end
  end.

(** One round of the loop inside the payload. *)
Lemma extract_loop_step data n v k i b :
  0 <= k < 8 -> array_get data k = Some b -> 0 <= v -> 0 <= i ->
  Dbc.extract_loop data (S n) v k i
  = (if i =? 0
     then Dbc.extract_loop data n (u32 (2 * v + (b / 2 ^ i) mod 2)) (k + 1) 7
     else Dbc.extract_loop data n (u32 (2 * v + (b / 2 ^ i) mod 2)) k
            (i - 1)).
Proof.
  intros Hk Hb Hv Hi. cbn [Dbc.extract_loop].
  replace ((k <? 0) || (8 <=? k)) with false
    by (symmetry; apply orb_false_iff; split; lia).
  rewrite Hb. cbn [mbind option_bind].
  rewrite land_shiftr_bit by exact Hi.
  rewrite lor_shiftl_bit; [reflexivity|exact Hv|].
  pose proof (Z.mod_pos_bound (b / 2 ^ i) 2). lia.
Qed.

Lemma u32_nonneg x : 0 <= u32 x.
Proof. unfold u32. pose proof (Z.mod_pos_bound x (2 ^ 32)). lia. Qed.

Lemma byte_bits b :
  0 <= b < 256 ->
  128 * ((b / 2 ^ 7) mod 2) + 64 * ((b / 2 ^ 6) mod 2)
  + 32 * ((b / 2 ^ 5) mod 2) + 16 * ((b / 2 ^ 4) mod 2)
  + 8 * ((b / 2 ^ 3) mod 2) + 4 * ((b / 2 ^ 2) mod 2)
  + 2 * ((b / 2 ^ 1) mod 2) + (b / 2 ^ 0) mod 2 = b.
Proof.
  intros Hb.
  change (2 ^ 7) with 128. change (2 ^ 6) with 64. change (2 ^ 5) with 32.
  change (2 ^ 4) with 16. change (2 ^ 3) with 8. change (2 ^ 2) with 4.
  change (2 ^ 1) with 2. change (2 ^ 0) with 1.
  Z.div_mod_to_equations. lia.
Qed.

(** Eight rounds from bit 7 of a byte shift the byte into the value. *)
Lemma extract_loop_byte data n v k b :
  0 <= k < 8 -> array_get data k = Some b -> is_byte b -> 0 <= v ->
  Dbc.extract_loop data (8 + n) v k 7
  = Dbc.extract_loop data n (u32 (256 * v + b)) (k + 1) 7.
Proof.
  intros Hk Hb Hbyte Hv. cbn [Nat.add].
  rewrite (extract_loop_step data _ v k 7 b Hk Hb Hv) by lia.
  change (7 =? 0) with false. cbv iota. change (7 - 1) with 6.
  rewrite (extract_loop_step data _ _ k 6 b Hk Hb (u32_nonneg _)) by lia.
  change (6 =? 0) with false. cbv iota. change (6 - 1) with 5.
  rewrite (extract_loop_step data _ _ k 5 b Hk Hb (u32_nonneg _)) by lia.
  change (5 =? 0) with false. cbv iota. change (5 - 1) with 4.
  rewrite (extract_loop_step data _ _ k 4 b Hk Hb (u32_nonneg _)) by lia.
  change (4 =? 0) with false. cbv iota. change (4 - 1) with 3.
  rewrite (extract_loop_step data _ _ k 3 b Hk Hb (u32_nonneg _)) by lia.
  change (3 =? 0) with false. cbv iota. change (3 - 1) with 2.
  rewrite (extract_loop_step data _ _ k 2 b Hk Hb (u32_nonneg _)) by lia.
  change (2 =? 0) with false. cbv iota. change (2 - 1) with 1.
  rewrite (extract_loop_step data _ _ k 1 b Hk Hb (u32_nonneg _)) by lia.
  change (1 =? 0) with false. cbv iota. change (1 - 1) with 0.
  rewrite (extract_loop_step data _ _ k 0 b Hk Hb (u32_nonneg _)) by lia.
  change (0 =? 0) with true. cbv iota.
  repeat u32_innermost. f_equal. f_equal.
  pose proof (byte_bits b Hbyte). lia.
Qed.

Lemma foldl_be_u32 (l : list Z) : forall x y,
  u32 x = u32 y ->
  u32 (foldl (fun acc b => 256 * acc + b) x l)
  = u32 (foldl (fun acc b => 256 * acc + b) y l).
Proof.
  induction l as [|a l IH]; intros x y Hxy; [exact Hxy|].
  cbn [foldl]. apply IH. unfold u32 in *.
  rewrite (Zplus_mod (256 * x)), (Zplus_mod (256 * y)).
  rewrite (Zmult_mod 256 x), (Zmult_mod 256 y), Hxy. reflexivity.
Qed.

Lemma u32_u32 x : u32 (u32 x) = u32 x.
Proof. unfold u32. apply Z.mod_mod. lia. Qed.

(** A whole number of bytes read from bit 7 of byte [k]. *)
Lemma extract_loop_bytes data :
  length data = 8%nat -> Forall is_byte data ->
  forall (n : nat) v k,
    0 <= v < 2 ^ 32 -> 0 <= k ->
    Dbc.extract_loop data (8 * n) v k 7
    = Some (u32 (foldl (fun acc b => 256 * acc + b) v
                   (take n (drop (Z.to_nat k) data)))).
Proof.
  intros Hlen Hbytes n. induction n as [|n IH]; intros v k Hv Hk.
  { cbn [Nat.mul Dbc.extract_loop take foldl]. rewrite u32_id by exact Hv.
    reflexivity. }
  replace (8 * S n)%nat with (8 + 8 * n)%nat by lia.
  destruct (Z.lt_ge_cases k 8) as [Hin|Hout].
  - assert (Hb : exists b, data !! Z.to_nat k = Some b).
    { apply lookup_lt_is_Some. lia. }
    destruct Hb as [b Hb].
    assert (Hbyte : is_byte b).
    { rewrite Forall_forall in Hbytes. apply Hbytes.
      eapply list_elem_of_lookup_2. exact Hb. }
    assert (Hget : array_get data k = Some b).
    { rewrite array_get_lookup by lia. exact Hb. }
    rewrite (extract_loop_byte data _ v k b) by (try assumption; lia).
    rewrite IH;
      [|split; [apply u32_nonneg|unfold u32; apply Z.mod_pos_bound; lia]
       |lia].
    f_equal.
    rewrite (drop_S data b (Z.to_nat k) Hb).
    cbn [take foldl].
    replace (Z.to_nat (k + 1)) with (S (Z.to_nat k)) by lia.
    apply foldl_be_u32, u32_u32.
  - cbn [Nat.add Dbc.extract_loop].
    replace ((k <? 0) || (8 <=? k)) with true
      by (symmetry; apply orb_true_iff; right; lia).
    rewrite drop_ge by lia. rewrite take_nil. cbn [foldl].
    rewrite u32_id by exact Hv. reflexivity.
Qed.

Lemma foldl_be_bound (l : list Z) : forall x,
  0 <= x -> Forall is_byte l ->
  0 <= foldl (fun acc b => 256 * acc + b) x l
    < (x + 1) * 256 ^ Z.of_nat (length l).
Proof.
  induction l as [|a l IH]; intros x Hx Hl.
  { cbn [foldl length]. change (256 ^ Z.of_nat 0) with 1. lia. }
  apply Forall_cons in Hl as [Ha Hl]. unfold is_byte in Ha.
  cbn [foldl length].
  specialize (IH (256 * x + a) ltac:(lia) Hl).
  rewrite Nat2Z.inj_succ, Z.pow_succ_r by lia.
  assert (Hpos : 0 < 256 ^ Z.of_nat (length l))
    by (apply Z.pow_pos_nonneg; lia).
  split; [lia|].
  eapply Z.lt_le_trans; [apply IH|].
  replace ((x + 1) * (256 * 256 ^ Z.of_nat (length l)))
    with ((256 * x + 256) * 256 ^ Z.of_nat (length l)) by ring.
  apply Z.mul_le_mono_nonneg_r; lia.
Qed.

Lemma be_value_bound (bs : list Z) :
  Forall is_byte bs -> 0 <= be_value bs < 256 ^ Z.of_nat (length bs).
Proof.
  intros Hbs. pose proof (foldl_be_bound bs 0 ltac:(lia) Hbs) as H.
  unfold be_value. lia.
Qed.

(** X27. A signal of [n] whole bytes that starts at bit 7 of byte [k],
    which is how every call of the decoder uses [extractBitsBE], is read
    as the big-endian number of the bytes [k], ..., [k+n-1] of the
    payload, modulo 2^32 and exactly for up to four bytes. The loop
    never reads outside the 8-byte payload: a signal that runs past
    byte 7 is cut to the bytes that exist, and one that starts past it
    reads as 0. *)
Theorem extractBitsBE_reads_bytes_big_endian (data : list Z) (k n : Z) :
  length data = 8%nat ->
  Forall is_byte data ->
  0 <= k -> 8 * k + 7 < 2 ^ 16 ->
  0 <= n -> 8 * n < 2 ^ 8 ->
  let bytes := take (Z.to_nat n) (drop (Z.to_nat k) data) in
  Dbc.extractBitsBE data (8 * k + 7) (8 * n) = Some (u32 (be_value bytes))
  /\ (n <= 4 -> u32 (be_value bytes) = be_value bytes)
  /\ length bytes = Z.to_nat (Z.min n (Z.max 0 (8 - k))).
Proof.
  intros Hlen Hbytes Hk Hk16 Hn Hn8 bytes.
  assert (Hsub : Forall is_byte bytes).
  { subst bytes. apply Forall_take, Forall_drop, Hbytes. }
  assert (Hlenb : length bytes = Z.to_nat (Z.min n (Z.max 0 (8 - k)))).
  { subst bytes. rewrite length_take, length_drop, Hlen. lia. }
  split; [|split; [|exact Hlenb]].
  - unfold Dbc.extractBitsBE.
    destruct (Z.eqb_spec (8 * n) 0) as [Hz|Hz].
    { assert (n = 0) by lia. subst n bytes. reflexivity. }
    replace ((8 * k + 7) / 8) with k
      by (apply (Z.div_unique _ _ _ 7); lia).
    replace ((8 * k + 7) mod 8) with 7
      by (apply (Z.mod_unique _ _ k); lia).
    replace (Z.to_nat (8 * n)) with (8 * Z.to_nat n)%nat by lia.
    rewrite (extract_loop_bytes data Hlen Hbytes) by lia.
    reflexivity.
  - intros Hn4. apply u32_id.
    pose proof (be_value_bound bytes Hsub) as Hb.
    assert (Hle : Z.of_nat (length bytes) <= 4) by lia.
    assert (256 ^ Z.of_nat (length bytes) <= 256 ^ 4)
      by (apply Z.pow_le_mono_r; lia).
    change (256 ^ 4) with (2 ^ 32) in *. lia.
Qed.

Lemma extractBitsBE_reads_bytes_big_endian_witness :
  let bytes :=
    take (Z.to_nat 2) (drop (Z.to_nat 4) (data long_dlc_frame)) in
  Dbc.extractBitsBE (data long_dlc_frame) (8 * 4 + 7) (8 * 2)
  = Some (u32 (be_value bytes))
  /\ (2 <= 4 -> u32 (be_value bytes) = be_value bytes)
  /\ length bytes = Z.to_nat (Z.min 2 (Z.max 0 (8 - 4))).
Proof.
  apply (extractBitsBE_reads_bytes_big_endian (data long_dlc_frame) 4 2).
  - reflexivity.
  - repeat constructor; unfold is_byte; lia.
  - lia.
  - lia.
  - lia.
  - lia.
Defined.

(** ** The payload dump of the receive loop *)

Lemma serial_dump_None frame (l : list Z) :
  foldl (serial_dump_step frame) None l = None.
Proof. induction l as [|i l IH]; [reflexivity|exact IH]. Qed.

Lemma hex_text_app a b : hex_text (a ++ b) = hex_text a +:+ hex_text b.
Proof.
  induction a as [|x a IH]; [reflexivity|].
  cbn [app hex_text]. rewrite IH, append_assoc. reflexivity.
Qed.

(** The first [n] rounds, inside the payload. *)
Lemma serial_dump_inside frame (n : nat) :
  (n <= length (data frame))%nat ->
  foldl (serial_dump_step frame) (Some "") (seqZ 0 (Z.of_nat n))
  = Some (hex_text (take n (data frame))).
Proof.
  induction n as [|n IH]; intros Hn; [reflexivity|].
  rewrite seqZ_S, foldl_app, IH by lia. cbn [foldl].
  unfold serial_dump_step. cbn [mbind option_bind].
  rewrite array_get_lookup by lia. rewrite Z.add_0_l, Nat2Z.id.
  destruct (lookup_lt_is_Some_2 (data frame) n ltac:(lia)) as [b Hb].
  rewrite Hb. cbn [mbind option_bind].
  rewrite (take_S_r _ _ _ Hb), hex_text_app. cbn [hex_text].
  rewrite append_nil_r. reflexivity.
Qed.

(** X28. The payload dump of the receive loop is not clamped to the
    payload: with the 8-byte [data] of a frame it prints the first DLC
    bytes when the data length code is at most 8 and reads [data[8]],
    outside the array, when it is larger; the writer and the live
    buffer clamp, the dump does not. *)
Theorem serial_dump_reads_past_the_payload (frame : CanFrame) :
  length (data frame) = 8%nat ->
  0 <= data_length_code frame ->
  (data_length_code frame <= 8 ->
   serial_payload_dump frame
   = Some (hex_text (take (Z.to_nat (data_length_code frame))
                          (data frame))))
  /\ (8 < data_length_code frame ->
      serial_payload_dump frame = None
      /\ array_get (data frame) 8 = None).
Proof.
  intros Hlen Hdlc. unfold serial_payload_dump. split.
  - intros Hle.
    rewrite <- (Z2Nat.id (data_length_code frame)) at 1 by exact Hdlc.
    apply serial_dump_inside. lia.
  - intros Hgt.
    assert (Hget : array_get (data frame) 8 = None).
    { rewrite array_get_lookup by lia. apply lookup_ge_None. lia. }
    split; [|exact Hget].
    replace (data_length_code frame)
      with (Z.of_nat 8 + (data_length_code frame - 8)) by lia.
    rewrite seqZ_app by lia. rewrite foldl_app.
    rewrite (serial_dump_inside frame 8) by lia.
    rewrite seqZ_cons by lia. cbn [foldl].
    unfold serial_dump_step at 2. cbn [mbind option_bind].
    change (0 + Z.of_nat 8) with 8. rewrite Hget.
    cbn [mbind option_bind]. apply serial_dump_None.
Qed.

Lemma serial_dump_reads_past_the_payload_witness :
  (data_length_code long_dlc_frame <= 8 ->
   serial_payload_dump long_dlc_frame
   = Some (hex_text (take (Z.to_nat (data_length_code long_dlc_frame))
                          (data long_dlc_frame))))
  /\ (8 < data_length_code long_dlc_frame ->
      serial_payload_dump long_dlc_frame = None
      /\ array_get (data long_dlc_frame) 8 = None).
Proof.
  apply (serial_dump_reads_past_the_payload long_dlc_frame).
  - reflexivity.
  - cbn. lia.
Defined.

(** ** Header and records of the plain-CSV firmware *)

(** X29. Header and records of the plain-CSV firmware stay in step:
    for every frame, whatever its data length code, the record line
    has as many columns as the CSV header line, 15. *)
Theorem plain_record_has_the_columns_of_the_header (localtime : Z -> tm)
    (frame : CanFrame) (timestamp micros_ : Z) :
  frame_ok frame ->
  exists line,
    Lastry.format_line localtime frame timestamp micros_ = Some line
    /\ count_commas line = count_commas LastryFiles.headerLine
    /\ count_commas LastryFiles.headerLine = 14%nat.
Proof.
  intros Hok. eexists.
  split; [apply Lastry_format_line_total; exact Hok|].
  split; [|reflexivity].
  change (count_commas LastryFiles.headerLine) with 14%nat.
  change (map hex2 (padded_payload frame))
    with (hex2 <$> padded_payload frame).
  rewrite !count_commas_app, count_commas_frame_fields,
    (count_commas_data_columns frame Hok).
  unfold Encoded.time_columns.
  rewrite !count_commas_app, count_commas_format_timeStr.
  rewrite !count_commas_String_unsigned by (unfold DEC; lia).
  reflexivity.
Qed.

Lemma plain_record_has_the_columns_of_the_header_witness :
  exists line,
    Lastry.format_line Lastry.utc long_dlc_frame 1700000000 42 = Some line
    /\ count_commas line = count_commas LastryFiles.headerLine
    /\ count_commas LastryFiles.headerLine = 14%nat.
Proof.
  apply (plain_record_has_the_columns_of_the_header Lastry.utc
           long_dlc_frame 1700000000 42).
  exact long_dlc_frame_ok.
Defined.

(** ** The web handlers of the plain-CSV firmware *)

Lemma count_slashes_app a b :
  count_slashes (a +:+ b) = (count_slashes a + count_slashes b)%nat.
Proof.
  induction a as [|c a IH]; [reflexivity|].
  rewrite append_cons. cbn [count_slashes]. rewrite IH. lia.
Qed.

Lemma digit_char_slash d :
  0 <= d < 16 -> Ascii.eqb (digit_char d) "/" = false.
Proof.
  intros Hd.
  assert (H : d = 0 \/ d = 1 \/ d = 2 \/ d = 3 \/ d = 4 \/ d = 5 \/ d = 6
              \/ d = 7 \/ d = 8 \/ d = 9 \/ d = 10 \/ d = 11 \/ d = 12
              \/ d = 13 \/ d = 14 \/ d = 15) by lia.
  repeat (destruct H as [-> | H]; [reflexivity|]). subst d. reflexivity.
Qed.

Lemma count_slashes_ultoa_from base rounds : forall value acc,
  2 <= base <= 16 ->
  count_slashes (ultoa_from rounds value base acc) = count_slashes acc.
Proof.
  induction rounds as [|r IH]; intros value acc Hb;
    cbn [ultoa_from].
  - cbn [count_slashes].
    rewrite digit_char_slash
      by (pose proof (Z.mod_pos_bound value base); lia).
    reflexivity.
  - destruct (value / base =? 0).
    + cbn [count_slashes].
      rewrite digit_char_slash
        by (pose proof (Z.mod_pos_bound value base); lia).
      reflexivity.
    + rewrite IH by exact Hb. cbn [count_slashes].
      rewrite digit_char_slash
        by (pose proof (Z.mod_pos_bound value base); lia).
      reflexivity.
Qed.

Lemma count_slashes_zeros n : count_slashes (zeros n) = 0%nat.
Proof. induction n as [|n IH]; [reflexivity|exact IH]. Qed.

Lemma count_slashes_sprintf_0d width v :
  count_slashes (sprintf_0d width v) = 0%nat.
Proof.
  unfold sprintf_0d. rewrite !count_slashes_app, count_slashes_zeros.
  unfold ultoa, DEC. rewrite count_slashes_ultoa_from by lia.
  destruct (v <? 0); reflexivity.
Qed.

Lemma index_slash_count s : forall n k,
  String.index n "/" s = Some k -> (1 <= count_slashes s)%nat.
Proof.
  induction s as [|c s IH]; intros n k H.
  - destruct n; discriminate H.
  - cbn [String.index] in H. destruct n as [|n].
    + destruct (String.prefix "/" (String c s)) eqn:Ep.
      * cbn [String.prefix] in Ep. cbn [count_slashes].
        destruct (ascii_dec "/" c) as [<-|]; [cbn; lia|discriminate Ep].
      * destruct (String.index 0 "/" s) as [m|] eqn:Ei; [|discriminate H].
        specialize (IH _ _ Ei). cbn [count_slashes]. lia.
    + destruct (String.index n "/" s) as [m|] eqn:Ei; [|discriminate H].
      specialize (IH _ _ Ei). cbn [count_slashes]. lia.
Qed.

Lemma has_slash_count s :
  count_slashes s = 0%nat -> LastryWeb.has_slash s = false.
Proof.
  intros Hc. unfold LastryWeb.has_slash.
  destruct (String.index 0 "/" s) as [k|] eqn:Ei; [|reflexivity].
  apply index_slash_count in Ei. lia.
Qed.

Lemma prefix_append_l p a b :
  String.prefix p a = true -> String.prefix p (a +:+ b) = true.
Proof.
  revert a. induction p as [|c p IH]; intros a H.
  { destruct (a +:+ b); reflexivity. }
  destruct a as [|x a]; [discriminate H|].
  rewrite append_cons. cbn [String.prefix] in *.
  destruct (ascii_dec c x); [apply IH, H|discriminate H].
Qed.

(** What a string contains, it still contains with more text after
    it. *)
Lemma index_append_l p a b : forall k,
  String.index 0 p a = Some k ->
  (0 < String.length p)%nat ->
  exists k', String.index 0 p (a +:+ b) = Some k'.
Proof.
  induction a as [|x a IH]; intros k H Hp.
  { destruct p; [cbn in Hp; lia|discriminate H]. }
  rewrite append_cons. cbn [String.index] in *.
  rewrite <- append_cons.
  destruct (String.prefix p (String x a)) eqn:Ep.
  - rewrite (prefix_append_l _ _ b Ep). eexists; reflexivity.
  - destruct (String.prefix p (String x a +:+ b));
      [eexists; reflexivity|].
    destruct (String.index 0 p a) as [m|] eqn:Ei; [|discriminate H].
    destruct (IH _ eq_refl Hp) as [k' ->]. eexists; reflexivity.
Qed.

Section PlainListing.
Variable localtime : Z -> tm.

End PlainListing.


(** * Reopen after a download, and the retry after a failed write *)

Section Recovery.
Context {float : Type}.
Variable float_zero : float.
Variable String_float : float -> Z -> string.
Variable localtime : Z -> tm.

Local Abbreviation State := (@Encoded.State float).
Local Abbreviation createNewLogFile := (Encoded.createNewLogFile localtime).
Local Abbreviation generateLogFileName :=
  (Encoded.generateLogFileName localtime).
Local Abbreviation writeCANMessage :=
  (Encoded.writeCANMessage float_zero String_float localtime).
Local Abbreviation loop_receive :=
  (Encoded.loop_receive float_zero String_float localtime).
Local Abbreviation format_line :=
  (Encoded.format_line float_zero String_float localtime).

(** C7. Reopen after read, on either kind of platform. When the
    download handler had to close the active log file to read it and
    has reopened it with [FILE_WRITE], the byte counter is the file's
    size on the card and the handle points at its end; on a card that
    works from then on the next record is written and its ciphertext
    follows what the file holds. What the file holds after the reopen
    is its old contents only where [FILE_WRITE] appends: where it
    truncates, as on the ESP32, the reopen has emptied the file, and
    the next record lands at offset 0. *)
Theorem C7_reopen_after_read (st : State) (f : SD.File) (old : list Z)
    (frame : CanFrame) (timestamp micros_ : Z) :
  Encoded.sdCardReady st = true ->
  Encoded.logFile st = Some f ->
  SD.path f = Encoded.currentLogFileName st ->
  SD.files (Encoded.sd st) !! SD.path f = Some old ->
  Z.of_nat (length old) < 2 ^ 32 ->
  String.prefix "/" (Encoded.currentLogFileName st) = true ->
  Encoded.has_dotdot (Encoded.currentLogFileName st) = false ->
  SD.outcomes (Encoded.sd st) = [false; true; true] ->
  frame_ok frame ->
  let kept := if SD.write_truncates (Encoded.sd st) then [] else old in
  exists st' f' line st'',
    Encoded.handleFileDownload (Encoded.currentLogFileName st) st = (200, st')
    /\ Encoded.logFile st' = Some f'
    /\ SD.path f' = SD.path f
    /\ SD.content (SD.path f) (Encoded.sd st') = kept
    /\ Encoded.currentFileSize st' = SD.size f' (Encoded.sd st')
    /\ SD.pos f' = SD.size f' (Encoded.sd st')
    /\ Encoded.currentCipherState st' = Encoded.currentCipherState st
    /\ format_line frame timestamp micros_ (Encoded.sensors st') = Some line
    /\ writeCANMessage frame timestamp micros_ st' = Some (true, st'')
    /\ SD.content (SD.path f) (Encoded.sd st'')
       = kept ++ (Cipher.line_cipher line (Encoded.currentCipherState st)).1.
Proof.
  intros Hready Hf Hpath Hold Hsize Hprefix Hdots Hout Hframe kept.
  destruct (handleFileDownload_reopen st f old [] Hready Hf Hpath Hold
              Hprefix Hdots Hout)
    as (f' & c' & Hdl & Hp' & Hpos & Hfiles & Hwt' & Hout').
  fold kept in Hdl, Hpos, Hfiles.
  assert (Hklen : Z.of_nat (length kept) < 2 ^ 32).
  { subst kept. destruct (SD.write_truncates _); [cbn; lia|exact Hsize]. }
  set (st' := Encoded.set_currentFileSize (u32 (Z.of_nat (length kept)))
                (Encoded.set_logFile (Some f') (Encoded.set_sd c' st))) in *.
  assert (Hlook : SD.files c' !! SD.path f' = Some kept)
    by (rewrite Hfiles, Hp'; apply lookup_insert_eq).
  assert (Hsz : SD.size f' (Encoded.sd st') = Z.of_nat (length kept)).
  { unfold SD.size, SD.content. cbn. rewrite Hlook. reflexivity. }
  assert (Hend : Encoded.at_end f' kept (Encoded.sd st'))
    by (split; [exact Hlook|right; exact Hpos]).
  pose proof (Encoded_format_line_total float_zero String_float localtime
                frame timestamp micros_ (Encoded.sensors st') Hframe)
    as Hline.
  match type of Hline with _ = Some ?l => set (line := l) in * end.
  destruct (writeEncryptedLine_healthy line st' f' kept eq_refl Hend Hout')
    as (st'' & Hw & _).
  exists st', f', line, st''.
  split; [exact Hdl|]. split; [reflexivity|]. split; [exact Hp'|].
  split; [unfold SD.content; cbn; rewrite <- Hp', Hlook; reflexivity|].
  split; [rewrite Hsz; cbn; apply u32_id; lia|].
  split; [rewrite Hsz; exact Hpos|].
  split; [reflexivity|]. split; [exact Hline|].
  split.
  { rewrite (writeCANMessage_ready_open float_zero String_float localtime)
      by (cbn; assumption || reflexivity).
    rewrite Hline. cbn [mbind option_bind]. rewrite Hw. reflexivity. }
  destruct (writeEncryptedLine_ok _ st' st'' f' kept Hw eq_refl Hend)
    as (f2 & c2 & -> & _ & _ & Hfiles2 & _).
  unfold SD.content. cbn. rewrite Hfiles2, Hp', lookup_insert_eq. reflexivity.
Qed.

(** *** The platform's [FILE_WRITE] is not changed by the writer *)

Lemma SD_write_buf_platform bs f c n f' c' :
  SD.write_buf bs f c = (n, f', c') ->
  SD.write_truncates c' = SD.write_truncates c.
Proof.
  unfold SD.write_buf.
  destruct (SD.next c) as [ok c1] eqn:Hnext.
  destruct (SD_next_frame _ _ _ Hnext) as (_ & _ & Hw).
  destruct (SD.files c1 !! SD.path f); [destruct ok|];
    intros H; injection H as <- <- <-; exact Hw.
Qed.

Lemma write_encrypted_byte_platform b (st st' : State) ok :
  Encoded.write_encrypted_byte b st = (ok, st') ->
  SD.write_truncates (Encoded.sd st') = SD.write_truncates (Encoded.sd st).
Proof.
  unfold Encoded.write_encrypted_byte, Encoded.logFile_write,
    Encoded.closeCurrentFile, SD.write.
  destruct (Cipher.encryptByte _ _ _) as [enc cs].
  cbn [Encoded.logFile Encoded.set_currentCipherState Encoded.sd].
  destruct (Encoded.logFile st) as [f|] eqn:El.
  - destruct (SD.write_buf [enc] f (Encoded.sd st)) as [[n f'] c'] eqn:Ew.
    apply SD_write_buf_platform in Ew.
    destruct (n =? 1); cbn [negb]; intros H; injection H as <- <-;
      enc_proj; exact Ew.
  - enc_proj. rewrite El. intros H; injection H as <- <-. reflexivity.
Qed.

Lemma write_encrypted_bytes_platform bytes : forall (st st' : State) ok,
  Encoded.write_encrypted_bytes bytes st = (ok, st') ->
  SD.write_truncates (Encoded.sd st') = SD.write_truncates (Encoded.sd st).
Proof.
  induction bytes as [|b rest IH]; intros st st' ok H.
  - injection H as <- <-. reflexivity.
  - cbn [Encoded.write_encrypted_bytes] in H.
    destruct (Encoded.write_encrypted_byte b st) as [ok1 st1] eqn:E.
    apply write_encrypted_byte_platform in E.
    rewrite if_negb in H. destruct ok1.
    + rewrite (IH _ _ _ H). exact E.
    + injection H as <- <-. exact E.
Qed.

Lemma writeEncryptedLine_platform line (st st' : State) ok :
  Encoded.writeEncryptedLine line st = (ok, st') ->
  SD.write_truncates (Encoded.sd st') = SD.write_truncates (Encoded.sd st).
Proof.
  unfold Encoded.writeEncryptedLine. rewrite if_negb.
  destruct (Encoded.is_open st);
    [|intros H; injection H as <- <-; reflexivity].
  destruct (Encoded.write_encrypted_bytes _ st) as [ok1 st1] eqn:E1.
  apply write_encrypted_bytes_platform in E1.
  rewrite if_negb.
  destruct ok1; [|intros H; injection H as <- <-; exact E1].
  destruct (Encoded.write_encrypted_byte 10 st1) as [ok2 st2] eqn:E2.
  apply write_encrypted_byte_platform in E2.
  rewrite if_negb.
  destruct ok2; intros H; injection H as <- <-; enc_proj; congruence.
Qed.

Lemma generateLogFileName_base (st st' : State) :
  Encoded.baseTime st' = Encoded.baseTime st ->
  generateLogFileName st' = generateLogFileName st.
Proof.
  intros H. unfold Encoded.generateLogFileName. rewrite H. reflexivity.
Qed.

(** The retried [writeCANMessage]: called with the card marked not
    ready, it probes the card and runs [createNewLogFile] itself before
    it writes the line. *)
Lemma writeCANMessage_recovers frame timestamp micros_ (st st' : State)
    line :
  Encoded.sdCardReady st = false ->
  format_line frame timestamp micros_ (Encoded.sensors st) = Some line ->
  writeCANMessage frame timestamp micros_ st = Some (true, st') ->
  exists stp stc,
    Encoded.initializeSDCard st = (true, stp)
    /\ createNewLogFile stp = (true, stc)
    /\ Encoded.writeEncryptedLine line (Encoded.set_sdCardReady true stc)
       = (true, st').
Proof.
  intros Hnr Hline. unfold Encoded.writeCANMessage.
  rewrite Hnr. cbn [negb].
  destruct (Encoded.initializeSDCard st) as [oki stp] eqn:Ei.
  assert (Hsp : Encoded.sensors stp = Encoded.sensors st).
  { revert Ei. unfold Encoded.initializeSDCard.
    destruct (SD.next (Encoded.sd st)). intros H; injection H as <- <-.
    reflexivity. }
  rewrite if_negb. destruct oki; [|intros H; discriminate H].
  destruct (createNewLogFile stp) as [okc stc] eqn:Ec.
  pose proof (createNewLogFile_frame localtime _ _ _ Ec)
    as (_ & _ & _ & _ & _ & Hsc & _).
  pose proof (createNewLogFile_result localtime _ _ _ Ec) as Hres.
  rewrite if_negb. destruct okc; [|intros H; discriminate H].
  cbn [negb].
  change (Encoded.is_open (Encoded.set_sdCardReady true stc))
    with (Encoded.is_open stc).
  rewrite Hres. cbn [negb].
  change (Encoded.sensors (Encoded.set_sdCardReady true stc))
    with (Encoded.sensors stc).
  rewrite Hsc, Hsp, Hline. cbn [mbind option_bind].
  intros H. injection H as H. exists stp, stc.
  split; [reflexivity|]. split; [exact Ec|exact H].
Qed.

(** C6. Write-failure handling in the receive loop. For a frame that
    arrives while the card is marked ready and the file is open:
    - the frame is pushed to the live buffer first, whatever the card
      does afterwards;
    - if writing its line fails, the file is closed and the card is
      marked not ready, and [writeCANMessage] reports the failure;
    - the loop then calls [createNewLogFile] once and, if that worked,
      [writeCANMessage] once more with the same frame, and ends in the
      state this one retry left, marked not ready if the retry failed
      (nothing is kept for a later replay);
    - the file that [createNewLogFile] opens is the one named after the
      base time, and it holds, after what [FILE_WRITE] kept of it, a
      new header and the ciphertext of the CSV header line;
    - the retried [writeCANMessage], finding the card marked not ready,
      probes the card and runs [createNewLogFile] a second time before
      it writes; when the retry succeeds the card is marked ready again
      and that file holds, after what [FILE_WRITE] kept of it, a header
      with the nonce now in force and the ciphertext of the CSV header
      line and of the same record's line: where [FILE_WRITE] truncates,
      the file reads back as exactly those two lines.
    For a frame that arrives while the card is marked not ready, the
    frame is counted and pushed to the live buffer, the card is not
    touched and stays marked not ready. *)
Theorem C6_write_failure_handling (message : CanFrame) (st : State)
    (later : CanFrame) (st_nr : State) :
  frame_ok message ->
  Live.wf (Encoded.live st) ->
  0 <= Live.liveFrameCounter (Encoded.live st) < 2 ^ 32 - 1 ->
  Encoded.sdCardReady st = true ->
  Encoded.is_open st = true ->
  frame_ok later ->
  Live.wf (Encoded.live st_nr) ->
  0 <= Live.liveFrameCounter (Encoded.live st_nr) < 2 ^ 32 - 1 ->
  Encoded.sdCardReady st_nr = false ->
  (exists lb line st_f,
     let timestamp := (Encoded.current_time st).1 in
     let micros_ := (Encoded.current_time st).2 in
     let st_w :=
       Encoded.set_live lb
         (Encoded.set_messageCount (u32 (Encoded.messageCount st + 1)) st) in
     let name := generateLogFileName st in
     Live.storeLiveFrame message timestamp micros_
       (format_timeStr (localtime timestamp)) (Encoded.live st) = Some lb
     /\ format_line message timestamp micros_ (Encoded.sensors st) = Some line
     /\ loop_receive message st = Some st_f
     /\ Encoded.live st_f = lb
     /\ forall st1,
          Encoded.writeEncryptedLine line st_w = (false, st1) ->
          Encoded.logFile st1 = None
          /\ Encoded.sdCardReady st1 = false
          /\ writeCANMessage message timestamp micros_ st_w = Some (false, st1)
          /\ forall okc st2,
               createNewLogFile st1 = (okc, st2) ->
               if okc then
                 Encoded.currentLogFileName st2 = name
                 /\ SD.files (Encoded.sd st2) !! name
                    = Some
                        ((if SD.write_truncates (Encoded.sd st) then []
                          else SD.content name (Encoded.sd st1))
                         ++ Encoded.header_bytes
                              (Encoded.currentFileNonce st2)
                         ++ (Cipher.line_cipher Encoded.headerLine
                               (Cipher.resetCipherState ENCRYPTION_KEY
                                  (Encoded.currentFileNonce st2))).1)
                 /\ exists ok2 st3,
                      writeCANMessage message timestamp micros_ st2
                      = Some (ok2, st3)
                      /\ st_f = (if ok2 then st3
                                 else Encoded.set_sdCardReady false st3)
                      /\ (ok2 = false -> Encoded.sdCardReady st_f = false)
                      /\ (ok2 = true ->
                          exists stp stc,
                            Encoded.initializeSDCard st2 = (true, stp)
                            /\ createNewLogFile stp = (true, stc)
                            /\ Encoded.writeEncryptedLine line
                                 (Encoded.set_sdCardReady true stc)
                               = (true, st_f)
                            /\ Encoded.sdCardReady st_f = true
                            /\ Encoded.currentLogFileName st_f = name
                            /\ SD.files (Encoded.sd st_f) !! name
                               = Some
                                   ((if SD.write_truncates (Encoded.sd st)
                                     then []
                                     else SD.content name (Encoded.sd st2))
                                    ++ Encoded.header_bytes
                                         (Encoded.currentFileNonce st_f)
                                    ++ (Cipher.encryptBytes ENCRYPTION_KEY
                                          (text_line Encoded.headerLine
                                           ++ text_line line)
                                          (Cipher.resetCipherState
                                             ENCRYPTION_KEY
                                             (Encoded.currentFileNonce
                                                st_f))).1)
                            /\ (SD.write_truncates (Encoded.sd st) = true ->
                                log_holds st_f
                                  (text_line Encoded.headerLine
                                   ++ text_line line)))
               else
                 st_f = Encoded.set_sdCardReady false st2
                 /\ Encoded.logFile st_f = None
                 /\ Encoded.sdCardReady st_f = false)
  /\ (exists lb',
        Live.storeLiveFrame later (Encoded.current_time st_nr).1
          (Encoded.current_time st_nr).2
          (format_timeStr (localtime (Encoded.current_time st_nr).1))
          (Encoded.live st_nr) = Some lb'
        /\ loop_receive later st_nr
           = Some (Encoded.set_live lb'
                     (Encoded.set_messageCount
                        (u32 (Encoded.messageCount st_nr + 1)) st_nr))).
Proof.
  intros Hmsg Hwf Hc Hready Hopen Hlater Hwf' Hc' Hnr.
  destruct (loop_receive_write_failure float_zero String_float localtime
              message st later st_nr Hmsg Hwf Hc Hready Hopen Hlater Hwf'
              Hc' Hnr)
    as [(lb & line & st_f & Hstore & Hline & Hloop & Hlive & Hfail) Hnot].
  split; [|exact Hnot].
  exists lb, line, st_f. cbv zeta in *.
  set (ts := (Encoded.current_time st).1) in *.
  set (us := (Encoded.current_time st).2) in *.
  set (st_w := Encoded.set_live lb
                 (Encoded.set_messageCount
                    (u32 (Encoded.messageCount st + 1)) st)) in *.
  split; [exact Hstore|]. split; [exact Hline|]. split; [exact Hloop|].
  split; [exact Hlive|].
  intros st1 Hw1.
  destruct (Hfail st1 Hw1) as (Hclosed & Hnr1 & Hwc & Hretry).
  split; [exact Hclosed|]. split; [exact Hnr1|]. split; [exact Hwc|].
  intros okc st2 Hcreate. specialize (Hretry okc st2 Hcreate).
  destruct okc; [|exact Hretry].
  destruct Hretry as (ok2 & st3 & Hw2 & Hstf & Hfail2).
  pose proof (writeEncryptedLine_frame _ _ _ _ Hw1)
    as (_ & _ & Hb1 & _ & _ & Hs1 & _).
  pose proof (writeEncryptedLine_platform _ _ _ _ Hw1) as Hp1.
  pose proof (createNewLogFile_frame localtime _ _ _ Hcreate)
    as (_ & _ & Hb2 & _ & _ & Hs2 & _).
  destruct (createNewLogFile_ok localtime st1 st2 Hcreate)
    as (f2 & _ & Hpath2 & Hname2 & [Hfile2 _] & _ & _ & _ & Hr2 & _ & Hp2
        & _).
  assert (Hn1 : generateLogFileName st1 = generateLogFileName st)
    by (apply generateLogFileName_base; exact Hb1).
  split; [rewrite Hname2; exact Hn1|].
  split; [rewrite Hpath2, Hn1, Hp1 in Hfile2; exact Hfile2|].
  exists ok2, st3. split; [exact Hw2|]. split; [exact Hstf|].
  split; [exact Hfail2|].
  intros ->. subst st_f.
  assert (Hnr2 : Encoded.sdCardReady st2 = false) by congruence.
  assert (Hline2 : format_line message ts us (Encoded.sensors st2)
                   = Some line).
  { rewrite Hs2, Hs1. exact Hline. }
  destruct (writeCANMessage_recovers _ _ _ _ _ _ Hnr2 Hline2 Hw2)
    as (stp & stc & Hprobe & Hcreate2 & Hw3).
  exists stp, stc.
  split; [exact Hprobe|]. split; [exact Hcreate2|]. split; [exact Hw3|].
  assert (Hpf : SD.files (Encoded.sd stp) = SD.files (Encoded.sd st2)
                /\ SD.write_truncates (Encoded.sd stp)
                   = SD.write_truncates (Encoded.sd st2)
                /\ Encoded.baseTime stp = Encoded.baseTime st2).
  { revert Hprobe. unfold Encoded.initializeSDCard.
    destruct (SD.next (Encoded.sd st2)) as [oki c] eqn:En.
    destruct (SD_next_frame _ _ _ En) as (Hf & _ & Hw).
    intros H. injection H as _ <-. enc_proj. auto. }
  destruct Hpf as (Hfp & Hpp & Hbp).
  assert (Hnp : generateLogFileName stp = generateLogFileName st).
  { rewrite <- Hn1. apply generateLogFileName_base. congruence. }
  assert (Hplat : SD.write_truncates (Encoded.sd stp)
                  = SD.write_truncates (Encoded.sd st)).
  { rewrite Hpp, Hp2, Hp1. reflexivity. }
  destruct (createNewLogFile_ok localtime stp stc Hcreate2)
    as (f & Hlf & Hpath & Hnamec & Hend & Hcs & _ & _ & _).
  rewrite Hnp in Hpath, Hnamec. rewrite Hnp, Hplat in Hend.
  set (stS := Encoded.set_sdCardReady true stc) in *.
  destruct (writeEncryptedLine_ok _ stS st3 f _ Hw3 Hlf Hend)
    as (f' & c' & Hst3 & _ & _ & Hfiles3 & _).
  assert (Hnonce3 : Encoded.currentFileNonce st3
                    = Encoded.currentFileNonce stc)
    by (rewrite Hst3; reflexivity).
  split; [rewrite Hst3; reflexivity|].
  split; [rewrite Hst3; enc_proj; exact Hnamec|].
  split.
  { rewrite Hst3. enc_proj. rewrite Hfiles3, Hpath, lookup_insert_eq.
    f_equal.
    change (Encoded.currentCipherState stS)
      with (Encoded.currentCipherState stc).
    change (Encoded.currentFileNonce stS)
      with (Encoded.currentFileNonce stc).
    rewrite Hcs. unfold SD.content. rewrite Hfp.
    unfold Cipher.line_cipher.
    change (bytes_of_string Encoded.headerLine ++ [10])
      with (text_line Encoded.headerLine).
    change (bytes_of_string line ++ [10]) with (text_line line).
    rewrite (encryptBytes_app ENCRYPTION_KEY (text_line Encoded.headerLine)).
    cbn [fst]. rewrite <- !app_assoc. reflexivity. }
  intros Htrunc.
  assert (Hh : log_holds stS (text_line Encoded.headerLine)).
  { apply (createNewLogFile_fresh_holds localtime stp stc Hcreate2).
    left. rewrite Hplat. exact Htrunc. }
  assert (HwS : writeCANMessage message ts us stS = Some (true, st3)).
  { rewrite (writeCANMessage_ready_open float_zero String_float localtime);
      [|reflexivity
       |destruct Hh as (f0 & Hf0 & _); unfold Encoded.is_open;
        rewrite Hf0; reflexivity].
    assert (Hss : Encoded.sensors stS = Encoded.sensors st2).
    { pose proof (createNewLogFile_frame localtime _ _ _ Hcreate2)
        as (_ & _ & _ & _ & _ & Hsc & _).
      change (Encoded.sensors stS) with (Encoded.sensors stc).
      rewrite Hsc. revert Hprobe. unfold Encoded.initializeSDCard.
      destruct (SD.next (Encoded.sd st2)). intros H; injection H as _ <-.
      reflexivity. }
    rewrite Hss, Hline2. cbn [mbind option_bind]. rewrite Hw3.
    reflexivity. }
  destruct (writeCANMessage_holds float_zero String_float localtime
              stS st3 _ message ts us Hh eq_refl Hmsg HwS)
    as (line' & Hline' & Hholds & _).
  assert (Hss : Encoded.sensors stS = Encoded.sensors st2).
  { pose proof (createNewLogFile_frame localtime _ _ _ Hcreate2)
      as (_ & _ & _ & _ & _ & Hsc & _).
    change (Encoded.sensors stS) with (Encoded.sensors stc).
    rewrite Hsc. revert Hprobe. unfold Encoded.initializeSDCard.
    destruct (SD.next (Encoded.sd st2)). intros H; injection H as _ <-.
    reflexivity. }
  rewrite Hss, Hline2 in Hline'. injection Hline' as <-. exact Hholds.
Qed.
End Recovery.

(** C7 on the ESP32 example card: the first read-open fails, the second
    one and the reopen succeed, and the 19 bytes the log held are
    gone. *)
Lemma C7_witness :
  exists st' f' line st'',
    Encoded.handleFileDownload Encoded.example_name
      (target_state [false; true; true]) = (200, st')
    /\ Encoded.logFile st' = Some f'
    /\ SD.path f' = Encoded.example_name
    /\ SD.content Encoded.example_name (Encoded.sd st') = []
    /\ Encoded.currentFileSize st' = SD.size f' (Encoded.sd st')
    /\ SD.pos f' = SD.size f' (Encoded.sd st')
    /\ Encoded.currentCipherState st'
       = Cipher.resetCipherState ENCRYPTION_KEY 0x12345678
    /\ Encoded.format_line tt Encoded.no_float_text Encoded.utc
         example_frame 1700000005 0 (Encoded.sensors st') = Some line
    /\ Encoded.writeCANMessage tt Encoded.no_float_text Encoded.utc
         example_frame 1700000005 0 st' = Some (true, st'')
    /\ SD.content Encoded.example_name (Encoded.sd st'')
       = []
         ++ (Cipher.line_cipher line
               (Cipher.resetCipherState ENCRYPTION_KEY 0x12345678)).1.
Proof.
  apply (C7_reopen_after_read tt Encoded.no_float_text Encoded.utc
           (target_state [false; true; true])
           {| SD.path := Encoded.example_name; SD.pos := 19;
              SD.appending := false |}
           (Encoded.header_bytes 0x12345678 ++ [1; 2; 3])
           example_frame 1700000005 0).
  - reflexivity.
  - reflexivity.
  - reflexivity.
  - vm_compute. reflexivity.
  - vm_compute. reflexivity.
  - reflexivity.
  - vm_compute. reflexivity.
  - reflexivity.
  - exact example_frame_ok.
Defined.

Lemma C6_witness :
  exists st_f line,
    Encoded.loop_receive tt Encoded.no_float_text Encoded.utc example_frame
      (target_state [false]) = Some st_f
    /\ Encoded.format_line tt Encoded.no_float_text Encoded.utc example_frame
         (Encoded.current_time (target_state [false])).1
         (Encoded.current_time (target_state [false])).2
         (Encoded.sensors (target_state [false])) = Some line
    /\ Live.liveFrameCounter (Encoded.live st_f) = 1
    /\ Encoded.sdCardReady st_f = true
    /\ Encoded.currentLogFileName st_f = Encoded.example_name
    /\ log_holds st_f (text_line Encoded.headerLine ++ text_line line).
Proof.
  destruct (C6_write_failure_handling tt Encoded.no_float_text Encoded.utc
              example_frame (target_state [false])
              long_dlc_frame (Encoded.example_state [] false))
    as [(lb & line & st_f & Hstore & Hline & Hloop & Hlive & Hfail) _].
  - exact example_frame_ok.
  - split; [reflexivity|apply Forall_replicate; reflexivity].
  - cbn. lia.
  - reflexivity.
  - reflexivity.
  - repeat split; unfold is_byte; cbn; try lia. repeat constructor; lia.
  - split; [reflexivity|apply Forall_replicate; reflexivity].
  - cbn. lia.
  - reflexivity.
  - exists st_f, line. cbv zeta in Hfail.
    split; [exact Hloop|]. split; [exact Hline|].
    assert (Hlb : lb = default Live.initial
                         (Live.storeLiveFrame example_frame
                            (Encoded.current_time (target_state [false])).1
                            (Encoded.current_time (target_state [false])).2
                            (format_timeStr
                               (Encoded.utc
                                  (Encoded.current_time
                                     (target_state [false])).1))
                            (Encoded.live (target_state [false]))))
      by (rewrite Hstore; reflexivity).
    assert (Hl : line = default EmptyString
                          (Encoded.format_line tt Encoded.no_float_text
                             Encoded.utc example_frame
                             (Encoded.current_time (target_state [false])).1
                             (Encoded.current_time (target_state [false])).2
                             (Encoded.sensors (target_state [false]))))
      by (rewrite Hline; reflexivity).
    clear Hstore Hline Hloop. rewrite Hlb in Hlive, Hfail. clear Hlb.
    split; [rewrite Hlive; vm_compute; reflexivity|]. clear Hlive.
    subst line.
    match type of Hfail with
    | forall st1, Encoded.writeEncryptedLine ?l ?s = _ -> _ =>
        destruct (Hfail (Encoded.writeEncryptedLine l s).2)
          as (_ & _ & _ & Hretry); [vm_compute; reflexivity|]
    end.
    clear Hfail.
    match type of Hretry with
    | forall okc st2, Encoded.createNewLogFile ?lt ?s = _ -> _ =>
        pose proof (Hretry true (Encoded.createNewLogFile lt s).2) as Hr
    end.
    clear Hretry.
    destruct Hr as (_ & _ & ok2 & st3 & Hw2 & _ & _ & Hok);
      [vm_compute; reflexivity|].
    assert (Hok2 : ok2 = true).
    { apply (f_equal (fun r => match r with
                               | Some (ok, _) => ok
                               | None => false
                               end)) in Hw2.
      rewrite <- Hw2. vm_compute. reflexivity. }
    destruct (Hok Hok2)
      as (stp & stc & _ & _ & _ & Hready & Hname & _ & Hholds).
    split; [exact Hready|]. split; [exact Hname|].
    apply Hholds. reflexivity.
Defined.
